(** * strategic-engine: a shallow embedding of the simulation core

    The development follows the Python sources file by file:

    - [backend/engine/model.py]  : unit catalogue, [Unit], [Order], [Event], [State];
    - [backend/engine/rng.py]    : the seeded generator [DRNG];
    - [backend/engine/engine.py] : the six phases of [Engine.step];
    - [backend/runtime/eventlog.py] : [EventLog];
    - [runtime/runner.py]        : [TickRunner].

    Python [float] is IEEE binary64 and is modelled by Rocq's primitive
    floats, which are binary64 as well; Python [int] is [Z].  A call that can
    raise returns a [result]; a method that mutates its object before it
    raises returns the mutated object next to the exception.  Insertion
    ordered dictionaries are association lists (their order decides the
    order of random draws and the targeting tie-break); a Python [set] is a
    [gset].

    Two things the sources import are not part of the repository and are
    parameters of the engine section: [math.exp] and the stream of doubles of
    [numpy.random.Generator(PCG64(seed))]. *)

From Stdlib Require Import ZArith Floats.
From stdpp Require Import gmap strings list.

Open Scope Z_scope.
Set Warnings "-inexact-float".

(* ===================================================================== *)
(** ** Python values: exceptions, numbers, dictionaries, slices *)
(* ===================================================================== *)

Inductive exn :=
| KeyError (key : string)
| OverflowError
| ZeroDivisionError.

Inductive result (A : Type) :=
| Ok (a : A)
| Raise (e : exn).
Arguments Ok {A} a.
Arguments Raise {A} e.

Definition bind {A B} (m : result A) (k : A -> result B) : result B :=
  match m with
  | Ok a => k a
  | Raise e => Raise e
  end.

Notation "'let!' x := m 'in' k" := (bind m (fun x => k))
  (at level 10, x name, m at level 100, k at level 200).

(** [float(n)] for an [int]: round to nearest even, [OverflowError] when the
    integer is beyond the binary64 range. *)
Definition int_to_float (n : Z) : result float :=
  let f := SF2Prim (binary_normalize prec emax n 0 false) in
  if is_infinity f then Raise OverflowError else Ok f.

(** [a / b] on floats raises on a zero divisor. *)
Definition py_div (a b : float) : result float :=
  if (b =? 0)%float then Raise ZeroDivisionError else Ok (a / b)%float.

(** The two-argument builtins: [min(a, b)] is [b if b < a else a] and
    [max(a, b)] is [b if b > a else a]. *)
Definition py_min (a b : float) : float := if (b <? a)%float then b else a.
Definition py_max (a b : float) : float := if (a <? b)%float then b else a.

(** [d.get(k)] and the write through the reference it returned. *)
Fixpoint dict_get {V} (k : string) (d : list (string * V)) : option V :=
  match d with
  | [] => None
  | (k', v) :: d' => if String.eqb k k' then Some v else dict_get k d'
  end.

Fixpoint dict_put {V} (k : string) (v : V) (d : list (string * V)) : list (string * V) :=
  match d with
  | [] => []
  | (k', v') :: d' =>
      if String.eqb k k' then (k', v) :: d' else (k', v') :: dict_put k v d'
  end.

(** [d[k] = v]: overwrite in place, or append a new key. *)
Fixpoint dict_setitem {V} (k : string) (v : V) (d : list (string * V)) : list (string * V) :=
  match d with
  | [] => [(k, v)]
  | (k', v') :: d' =>
      if String.eqb k k' then (k', v) :: d' else (k', v') :: dict_setitem k v d'
  end.

(** [l[a:b]]: a negative bound counts from the end, then both are clipped
    to the list. *)
Definition slice_bound (len i : Z) : Z :=
  if i <? 0 then Z.max 0 (i + len) else Z.min i len.

Definition py_slice {A} (l : list A) (a b : Z) : list A :=
  let len := Z.of_nat (length l) in
  let a' := slice_bound len a in
  let b' := slice_bound len b in
  take (Z.to_nat (b' - a')) (drop (Z.to_nat a') l).

(* ===================================================================== *)
(** ** backend/engine/model.py *)
(* ===================================================================== *)

Inductive Side := BLUE | RED.

Definition Side_eqb (a b : Side) : bool :=
  match a, b with
  | BLUE, BLUE | RED, RED => true
  | _, _ => false
  end.

Definition Side_value (s : Side) : string :=
  match s with BLUE => "BLUE" | RED => "RED" end.

Abbreviation Position := (float * float)%type.

Inductive WeaponType := DIRECT_FIRE | INDIRECT_FIRE | SMALL_ARMS | ANTI_TANK.

Definition WeaponType_value (w : WeaponType) : string :=
  match w with
  | DIRECT_FIRE => "direct_fire"
  | INDIRECT_FIRE => "indirect_fire"
  | SMALL_ARMS => "small_arms"
  | ANTI_TANK => "anti_tank"
  end.

Inductive UnitClass := RECON | INFANTRY | MBT | ARTILLERY.

Record UnitType := {
  name : string;
  unit_class : UnitClass;
  max_hp : float;
  speed_mps : float;
  sensor_range_m : float;
  weapon_type : WeaponType;
  weapon_range_m : float;
  damage : float;
  reload_time_s : float;
  armor : Z;
  visibility : float;
  max_ammo : Z
}.

Definition UNIT_TYPES : list (string * UnitType) :=
  [ ("RECON"%string,
     {| name := "Reconnaissance Vehicle"; unit_class := RECON;
        max_hp := 50; speed_mps := 4.0; sensor_range_m := 2500;
        weapon_type := SMALL_ARMS; weapon_range_m := 400; damage := 5;
        reload_time_s := 2.0; armor := 1; visibility := 0.5; max_ammo := 200 |});
    ("INFANTRY"%string,
     {| name := "Infantry Squad"; unit_class := INFANTRY;
        max_hp := 80; speed_mps := 1.5; sensor_range_m := 600;
        weapon_type := ANTI_TANK; weapon_range_m := 500; damage := 30;
        reload_time_s := 5.0; armor := 0; visibility := 0.8; max_ammo := 10 |});
    ("MBT"%string,
     {| name := "Main Battle Tank"; unit_class := MBT;
        max_hp := 150; speed_mps := 2.0; sensor_range_m := 1000;
        weapon_type := DIRECT_FIRE; weapon_range_m := 3000; damage := 50;
        reload_time_s := 6.0; armor := 3; visibility := 1.5; max_ammo := 40 |});
    ("ARTILLERY"%string,
     {| name := "Self-Propelled Howitzer"; unit_class := ARTILLERY;
        max_hp := 60; speed_mps := 1.5; sensor_range_m := 500;
        weapon_type := INDIRECT_FIRE; weapon_range_m := 15000; damage := 60;
        reload_time_s := 15.0; armor := 1; visibility := 1.2; max_ammo := 30 |}) ].

(** [last_fire_time] is annotated [float] in the source, but the only values
    ever stored in it are the default [0] and [state.ts_ms], both [int]; the
    field is kept as the integer it holds. *)
Record Unit := {
  id : string;
  side : Side;
  unit_type_id : string;
  pos : Position;
  hp : float;
  ammo : Z;
  target_id : option string;
  intent_target_pos : option Position;
  routed : bool;
  last_fire_time : Z;
  spotted_by : gset string
}.

(** Attribute assignments [u.field = v]. *)
Definition set_pos (v : Position) (u : Unit) : Unit :=
  {| id := id u; side := side u; unit_type_id := unit_type_id u; pos := v;
     hp := hp u; ammo := ammo u; target_id := target_id u;
     intent_target_pos := intent_target_pos u; routed := routed u;
     last_fire_time := last_fire_time u; spotted_by := spotted_by u |}.

Definition set_hp (v : float) (u : Unit) : Unit :=
  {| id := id u; side := side u; unit_type_id := unit_type_id u; pos := pos u;
     hp := v; ammo := ammo u; target_id := target_id u;
     intent_target_pos := intent_target_pos u; routed := routed u;
     last_fire_time := last_fire_time u; spotted_by := spotted_by u |}.

Definition set_ammo (v : Z) (u : Unit) : Unit :=
  {| id := id u; side := side u; unit_type_id := unit_type_id u; pos := pos u;
     hp := hp u; ammo := v; target_id := target_id u;
     intent_target_pos := intent_target_pos u; routed := routed u;
     last_fire_time := last_fire_time u; spotted_by := spotted_by u |}.

Definition set_target_id (v : option string) (u : Unit) : Unit :=
  {| id := id u; side := side u; unit_type_id := unit_type_id u; pos := pos u;
     hp := hp u; ammo := ammo u; target_id := v;
     intent_target_pos := intent_target_pos u; routed := routed u;
     last_fire_time := last_fire_time u; spotted_by := spotted_by u |}.

Definition set_intent_target_pos (v : option Position) (u : Unit) : Unit :=
  {| id := id u; side := side u; unit_type_id := unit_type_id u; pos := pos u;
     hp := hp u; ammo := ammo u; target_id := target_id u;
     intent_target_pos := v; routed := routed u;
     last_fire_time := last_fire_time u; spotted_by := spotted_by u |}.

Definition set_routed (v : bool) (u : Unit) : Unit :=
  {| id := id u; side := side u; unit_type_id := unit_type_id u; pos := pos u;
     hp := hp u; ammo := ammo u; target_id := target_id u;
     intent_target_pos := intent_target_pos u; routed := v;
     last_fire_time := last_fire_time u; spotted_by := spotted_by u |}.

Definition set_last_fire_time (v : Z) (u : Unit) : Unit :=
  {| id := id u; side := side u; unit_type_id := unit_type_id u; pos := pos u;
     hp := hp u; ammo := ammo u; target_id := target_id u;
     intent_target_pos := intent_target_pos u; routed := routed u;
     last_fire_time := v; spotted_by := spotted_by u |}.

Definition set_spotted_by (v : gset string) (u : Unit) : Unit :=
  {| id := id u; side := side u; unit_type_id := unit_type_id u; pos := pos u;
     hp := hp u; ammo := ammo u; target_id := target_id u;
     intent_target_pos := intent_target_pos u; routed := routed u;
     last_fire_time := last_fire_time u; spotted_by := v |}.

(** [Unit.get_type]: [UNIT_TYPES[self.unit_type_id]]. *)
Definition get_type (u : Unit) : result UnitType :=
  match dict_get (unit_type_id u) UNIT_TYPES with
  | Some t => Ok t
  | None => Raise (KeyError (unit_type_id u))
  end.

Inductive OrderKind := move | attack | defend.

Definition OrderKind_value (k : OrderKind) : string :=
  match k with move => "move" | attack => "attack" | defend => "defend" end.

Module Order.
Record t := mk {
  kind : OrderKind;
  unit_id : string;
  target_pos : option Position;
  target_unit_id : option string;
  client_ts_ms : Z
}.
End Order.

(** Values that occur in event payloads. *)
Inductive Value :=
| VStr (s : string)
| VFloat (f : float)
| VList (l : list float).

Module Event.
Record t := mk {
  kind : string;
  ts_ms : Z;
  data : list (string * Value)
}.
End Event.

(** The events the engine emits, [Event(kind, ts_ms, {...})], by kind. *)
Definition OrderAccepted_move (now : Z) (unit_id : string) (to : Position) : Event.t :=
  Event.mk "OrderAccepted" now
    [("unit_id"%string, VStr unit_id); ("kind"%string, VStr "move");
     ("to"%string, VList [to.1; to.2])].

Definition OrderAccepted_attack (now : Z) (unit_id target : string) : Event.t :=
  Event.mk "OrderAccepted" now
    [("unit_id"%string, VStr unit_id); ("kind"%string, VStr "attack");
     ("target"%string, VStr target)].

Definition OrderAccepted_defend (now : Z) (unit_id : string) : Event.t :=
  Event.mk "OrderAccepted" now
    [("unit_id"%string, VStr unit_id); ("kind"%string, VStr "defend")].

Definition ShotFired (now : Z) (shooter target : string) (dist_m p : float)
    (weapon : string) : Event.t :=
  Event.mk "ShotFired" now
    [("shooter"%string, VStr shooter); ("target"%string, VStr target);
     ("dist_m"%string, VFloat dist_m); ("p"%string, VFloat p);
     ("weapon"%string, VStr weapon)].

Definition Damage (now : Z) (target : string) (dmg hp : float) (shooter : string)
    : Event.t :=
  Event.mk "Damage" now
    [("target"%string, VStr target); ("dmg"%string, VFloat dmg);
     ("hp"%string, VFloat hp); ("shooter"%string, VStr shooter)].

Definition Destroyed (now : Z) (unit_id killer : string) : Event.t :=
  Event.mk "Destroyed" now
    [("unit_id"%string, VStr unit_id); ("killer"%string, VStr killer)].

Definition Routed (now : Z) (unit_id : string) : Event.t :=
  Event.mk "Routed" now [("unit_id"%string, VStr unit_id)].

Abbreviation Units := (list (string * Unit)).

Record State := {
  ts_ms : Z;
  units : Units;
  battle_id : string
}.

Definition set_units (us : Units) (s : State) : State :=
  {| ts_ms := ts_ms s; units := us; battle_id := battle_id s |}.

Definition set_ts_ms (t : Z) (s : State) : State :=
  {| ts_ms := t; units := units s; battle_id := battle_id s |}.

Definition unit_keys (us : Units) : list string := us.*1.

(** [for u in units.values(): body(u)] when the body either raises before
    it has written anything or completes: the units already visited keep
    their updates if a later one raises. [W] is what the loop threads
    besides the units (the generator, the events gathered so far). *)
Fixpoint for_units {W} (body : Unit -> W -> result (Unit * W))
    (us : Units) (w : W) : result unit * Units * W :=
  match us with
  | [] => (Ok tt, [], w)
  | (k, u) :: rest =>
      match body u w with
      | Raise x => (Raise x, (k, u) :: rest, w)
      | Ok (u', w') =>
          let '(r, rest', w'') := for_units body rest w' in
          (r, (k, u') :: rest', w'')
      end
  end.

(* ===================================================================== *)
(** ** backend/engine/engine.py: the pure helpers *)
(* ===================================================================== *)

Definition distance_2d (pos1 pos2 : Position) : float :=
  let dx := (pos2.1 - pos1.1)%float in
  let dy := (pos2.2 - pos1.2)%float in
  sqrt (dx * dx + dy * dy)%float.

Definition normalize_2d (vec : Position) : Position :=
  let mag := sqrt (vec.1 * vec.1 + vec.2 * vec.2)%float in
  if (mag <? 0.001)%float then (0%float, 0%float)
  else ((vec.1 / mag)%float, (vec.2 / mag)%float).

(** [Engine._can_detect] *)
Definition _can_detect (detector target : Unit) : result bool :=
  let dist := distance_2d (pos detector) (pos target) in
  let! det_type := get_type detector in
  let! tgt_type := get_type target in
  let effective_range := (sensor_range_m det_type * visibility tgt_type)%float in
  Ok (dist <=? effective_range)%float.

(** [Engine._can_fire_at]; [current_time] is [state.ts_ms]. *)
Definition _can_fire_at (attacker target : Unit) (current_time : Z) : result bool :=
  let! a_type := get_type attacker in
  let! elapsed := int_to_float (current_time - last_fire_time attacker) in
  let time_since_fire := (elapsed / 1000.0)%float in
  if (time_since_fire <? reload_time_s a_type)%float then Ok false
  else if ammo attacker <=? 0 then Ok false
  else
    let dist := distance_2d (pos attacker) (pos target) in
    if (weapon_range_m a_type <? dist)%float then Ok false
    else match weapon_type a_type with
         | DIRECT_FIRE | SMALL_ARMS | ANTI_TANK => _can_detect attacker target
         | INDIRECT_FIRE => Ok (bool_decide (0 < size (spotted_by target))%nat)
         end.

(** The chain of comparisons in the body of [Engine._calculate_damage]. *)
Definition weapon_vs_armor (weapon : WeaponType) (armor : Z) (base_damage : float) : float :=
  match weapon with
  | SMALL_ARMS =>
      if 2 <=? armor then (base_damage * 0.1)%float else base_damage
  | ANTI_TANK =>
      if 2 <=? armor then (base_damage * 1.5)%float else base_damage
  | DIRECT_FIRE =>
      if 3 <=? armor then (base_damage * 0.8)%float
      else if 2 <=? armor then (base_damage * 1.2)%float
      else (base_damage * 1.5)%float
  | INDIRECT_FIRE =>
      if armor =? 0 then (base_damage * 2.0)%float
      else if armor =? 1 then (base_damage * 1.2)%float
      else (base_damage * 0.6)%float
  end.

(** [Engine._calculate_damage] *)
Definition _calculate_damage (attacker target : Unit) (base_damage : float) : result float :=
  let! a_type := get_type attacker in
  let! t_type := get_type target in
  Ok (weapon_vs_armor (weapon_type a_type) (armor t_type) base_damage).

(** The body of the loop of [Engine._move] for one unit; [dt] is in seconds. *)
Definition move_unit (dt : float) (u : Unit) : result Unit :=
  match intent_target_pos u with
  | None => Ok u
  | Some tgt =>
      if routed u then Ok u
      else
        let! u_type := get_type u in
        let dx := (tgt.1 - (pos u).1)%float in
        let dy := (tgt.2 - (pos u).2)%float in
        let dist := sqrt (dx * dx + dy * dy)%float in
        if (dist <? 0.1)%float then Ok u
        else
          let! dir_x := py_div dx dist in
          let! dir_y := py_div dy dist in
          let max_step := (speed_mps u_type * dt)%float in
          let step := py_min max_step dist in
          let new_x := ((pos u).1 + dir_x * step)%float in
          let new_y := ((pos u).2 + dir_y * step)%float in
          Ok (set_pos (new_x, new_y) u)
  end.

(** The body of the loop of [Engine._apply_orders_now] for one order.
    [o.target_unit_id] is tested for truth: [None] and the empty string
    both fail. *)
Definition apply_order (now : Z) (o : Order.t) (us : Units) : list Event.t * Units :=
  match dict_get (Order.unit_id o) us with
  | None => ([], us)
  | Some u =>
      if routed u then ([], us)
      else
        match Order.kind o with
        | move =>
            match Order.target_pos o with
            | Some p =>
                let u' := set_intent_target_pos (Some p) u in
                ([OrderAccepted_move now (id u') p],
                 dict_put (Order.unit_id o) u' us)
            | None => ([], us)
            end
        | attack =>
            match Order.target_unit_id o with
            | Some t =>
                if String.eqb t "" then ([], us)
                else
                  let u' := set_target_id (Some t) u in
                  ([OrderAccepted_attack now (id u') t],
                   dict_put (Order.unit_id o) u' us)
            | None => ([], us)
            end
        | defend =>
            let u' := set_target_id None (set_intent_target_pos None u) in
            ([OrderAccepted_defend now (id u')],
             dict_put (Order.unit_id o) u' us)
        end
  end.

Fixpoint apply_orders_loop (now : Z) (os : list Order.t) (us : Units)
    : list Event.t * Units :=
  match os with
  | [] => ([], us)
  | o :: os' =>
      let (evts, us1) := apply_order now o us in
      let (evts', us2) := apply_orders_loop now os' us1 in
      (evts ++ evts', us2)
  end.

(** The inner loop of [Engine._update_spotting] for one detector. *)
Definition spot_body (detector : Unit) (target : Unit) (w : unit) : result (Unit * unit) :=
  if Side_eqb (side detector) (side target) then Ok (target, w)
  else
    let! seen := _can_detect detector target in
    if seen then Ok (set_spotted_by ({[ id detector ]} ∪ spotted_by target) target, w)
    else Ok (target, w).

(** The outer loop of [Engine._update_spotting]: the detector visited at
    position [i] is read from the units as they are at that moment. *)
Fixpoint spot_loop (n : nat) (i : nat) (us : Units) : result unit * Units :=
  match n with
  | O => (Ok tt, us)
  | S n' =>
      match us !! i with
      | None => (Ok tt, us)
      | Some (_, detector) =>
          if routed detector then spot_loop n' (S i) us
          else
            match for_units (spot_body detector) us tt with
            | (Ok _, us', _) => spot_loop n' (S i) us'
            | (Raise x, us', _) => (Raise x, us')
            end
      end
  end.

Definition clear_spotting (us : Units) : Units :=
  map (fun ku => (ku.1, set_spotted_by ∅ ku.2)) us.

(** The inner loop of [Engine._find_targets] for the shooter [u]. *)
Fixpoint scan_targets (now : Z) (u : Unit) (cands : Units)
    (best_target : option string) (best_dist : float) : result (option string) :=
  match cands with
  | [] => Ok best_target
  | (t_id, t) :: rest =>
      if Side_eqb (side u) (side t) || (hp t <=? 0)%float
      then scan_targets now u rest best_target best_dist
      else
        let! ok := _can_fire_at u t now in
        if ok then
          let dist := distance_2d (pos u) (pos t) in
          if (dist <? best_dist)%float
          then scan_targets now u rest (Some t_id) dist
          else scan_targets now u rest best_target best_dist
        else scan_targets now u rest best_target best_dist
  end.

(** The outer loop of [Engine._find_targets]; [if best_target:] fails on
    [None] and on the empty key. *)
Fixpoint find_targets_loop (now : Z) (all us : Units)
    (targets : list (string * string)) : result (list (string * string)) :=
  match us with
  | [] => Ok targets
  | (u_id, u) :: rest =>
      if routed u then find_targets_loop now all rest targets
      else
        let! best_target := scan_targets now u all None infinity in
        match best_target with
        | Some t_id =>
            if String.eqb t_id "" then find_targets_loop now all rest targets
            else find_targets_loop now all rest (dict_setitem u_id t_id targets)
        | None => find_targets_loop now all rest targets
        end
  end.

(* ===================================================================== *)
(** ** backend/runtime/eventlog.py *)
(* ===================================================================== *)

Record EventLog := { _log : list Event.t }.

Definition EventLog_init : EventLog := {| _log := [] |}.

(** [EventLog.append_many]: returns [(start, end)] and the extended log. *)
Definition append_many (evts : list Event.t) (l : EventLog) : (Z * Z) * EventLog :=
  let start := Z.of_nat (length (_log l)) in
  let log' := _log l ++ evts in
  let end_ := Z.of_nat (length log') - 1 in
  ((start, end_), {| _log := log' |}).

(** [EventLog.since] *)
Definition since (offset limit : Z) (l : EventLog) : list Event.t * Z :=
  let offset := Z.max 0 offset in
  let chunk := py_slice (_log l) offset (offset + limit) in
  (chunk, offset + Z.of_nat (length chunk)).


(* ===================================================================== *)
(** ** Statement-level definitions *)
(* ===================================================================== *)

(** The weapon-versus-armour table of §4.2a of the specification, row by
    row, for the armour levels it lists (0 and above). *)
Definition table_4_2a (weapon : WeaponType) (armor : Z) (base : float) : option float :=
  if armor <? 0 then None
  else
    match weapon with
    | SMALL_ARMS =>
        if armor <=? 1 then Some base else Some (base * 0.1)%float
    | ANTI_TANK =>
        if armor <=? 1 then Some base else Some (base * 1.5)%float
    | DIRECT_FIRE =>
        if armor <? 2 then Some (base * 1.5)%float
        else if armor =? 2 then Some (base * 1.2)%float
        else Some (base * 0.8)%float
    | INDIRECT_FIRE =>
        if armor =? 0 then Some (base * 2.0)%float
        else if armor =? 1 then Some (base * 1.2)%float
        else Some (base * 0.6)%float
    end.

(** Reading an event: its kind, and the unit named under a payload key. *)
Definition has_kind (k : string) (ev : Event.t) : bool := String.eqb (Event.kind ev) k.

Definition names_unit (field : string) (who : string) (ev : Event.t) : bool :=
  match dict_get field (Event.data ev) with
  | Some (VStr s) => String.eqb s who
  | _ => false
  end.

Definition is_shot_by (who : string) (ev : Event.t) : bool :=
  has_kind "ShotFired" ev && names_unit "shooter" who ev.

Definition is_order_accepted_for (who : string) (ev : Event.t) : bool :=
  has_kind "OrderAccepted" ev && names_unit "unit_id" who ev.

Definition shots_by (who : string) (evts : list Event.t) : Z :=
  Z.of_nat (length (List.filter (is_shot_by who) evts)).

Definition is_combat_kind (ev : Event.t) : bool :=
  has_kind "ShotFired" ev || has_kind "Damage" ev || has_kind "Destroyed" ev.

(** A dictionary of units has one entry per key, and the scenario code
    files every unit under its own identifier. *)
Definition keys_unique (us : Units) : Prop := NoDup (unit_keys us).
Definition keyed_by_id (us : Units) : Prop := Forall (fun ku => id ku.2 = ku.1) us.

(** Two dictionaries of units with the same keys in the same order whose
    units are related pairwise. *)
Definition units_rel (R : Unit -> Unit -> Prop) (us us' : Units) : Prop :=
  Forall2 (fun a b => a.1 = b.1 /\ R a.2 b.2) us us'.

(** Erasing the attack target stored by orders. *)
Definition forget_target (u : Unit) : Unit := set_target_id None u.
Definition forget_targets (us : Units) : Units :=
  map (fun ku => (ku.1, forget_target ku.2)) us.

(* ===================================================================== *)
(** ** Closed data for the examples

    The engine below is parametric in [math.exp] and in the generator.
    The examples run it with a polynomial stand-in for the exponential,
    [(1 + x/1024)^1024], and with a counter whose [n]-th double is
    [((37 n + 11) mod 100) / 100]. *)
(* ===================================================================== *)

Definition sq (x : float) : float := (x * x)%float.

Definition sample_exp (x : float) : float :=
  let y := (1 + x / 1024)%float in
  sq (sq (sq (sq (sq (sq (sq (sq (sq (sq y))))))))).

Definition sample_random (n : Z) : float * Z :=
  (match int_to_float ((n * 37 + 11) mod 100) with
   | Ok f => (f / 100)%float
   | Raise _ => 0%float
   end, n + 1).

Definition sample_unit (name : string) (s : Side) (type_id : string)
    (p : Position) (h : float) (a : Z) : Unit :=
  {| id := name; side := s; unit_type_id := type_id; pos := p; hp := h;
     ammo := a; target_id := None; intent_target_pos := None; routed := false;
     last_fire_time := 0; spotted_by := ∅ |}.

(** Two tanks 500 m apart, ten seconds into the battle. *)
Definition sample_units : Units :=
  [ ("B1"%string, sample_unit "B1" BLUE "MBT" (1000, 5000)%float 150%float 40);
    ("R1"%string, sample_unit "R1" RED "MBT" (1500, 5000)%float 150%float 40) ].

Definition sample_state : State :=
  {| ts_ms := 10000; units := sample_units; battle_id := "local" |}.

Definition sample_move_order : Order.t :=
  Order.mk move "B1" (Some (5000, 5000)%float) None 0.

Definition sample_attack_order : Order.t :=
  Order.mk attack "B1" None (Some "R1"%string) 0.

Definition sample_event (n : Z) : Event.t := Routed n "B1".

Definition sample_log : EventLog :=
  {| _log := [sample_event 0; sample_event 500; sample_event 1000] |}.

(** What each phase of a step may write to a unit.  Every relation says
    which attributes can differ afterwards, by rebuilding the later unit
    from the earlier one. *)
Definition orders_touch (u u' : Unit) : Prop :=
  u' = set_target_id (target_id u')
         (set_intent_target_pos (intent_target_pos u') u)
  /\ (routed u = true -> u' = u).

Definition move_touch (u u' : Unit) : Prop :=
  u' = set_pos (pos u') u /\ (routed u = true -> u' = u).

Definition spotting_touch (u u' : Unit) : Prop :=
  u' = set_spotted_by (spotted_by u') u.

Definition combat_touch (u u' : Unit) : Prop :=
  u' = set_hp (hp u')
         (set_last_fire_time (last_fire_time u') (set_ammo (ammo u') u))
  /\ ammo u' <= ammo u
  /\ (routed u = true ->
      ammo u' = ammo u /\ last_fire_time u' = last_fire_time u).

Definition morale_touch (u u' : Unit) : Prop :=
  u' = set_routed (routed u') u /\ (routed u = true -> u' = u).

(** In [evts], every event satisfying [P] stands before every event
    satisfying [Q]. *)
Definition precedes_all (P Q : Event.t -> bool) (evts : list Event.t) : Prop :=
  forall (i j : nat) (a b : Event.t),
    evts !! i = Some a -> evts !! j = Some b ->
    P a = true -> Q b = true -> (i < j)%nat.

(** What the three phases before targeting leave alone. *)
Definition early_touch (a b : Unit) : Prop :=
  id b = id a /\ side b = side a /\ unit_type_id b = unit_type_id a
  /\ hp b = hp a /\ ammo b = ammo a /\ routed b = routed a
  /\ last_fire_time b = last_fire_time a.

(** A unit that stays routed and keeps everything it could change by
    acting: where it is, what it intends, what it carries and when it last
    fired.  (Its hit points and the set of units spotting it are in the
    hands of its opponents.) *)
Definition frozen (u u' : Unit) : Prop :=
  routed u' = true
  /\ id u' = id u /\ side u' = side u /\ unit_type_id u' = unit_type_id u
  /\ pos u' = pos u /\ ammo u' = ammo u
  /\ target_id u' = target_id u /\ intent_target_pos u' = intent_target_pos u
  /\ last_fire_time u' = last_fire_time u.

Definition stays_routed (u u' : Unit) : Prop := routed u = true -> frozen u u'.

(** Every identifier in a spotted-by set is that of a unit that is not
    routed. *)
Definition spotters_active (us : Units) : Prop :=
  forall (k : string) (u : Unit) (x : string),
    dict_get k us = Some u -> x ∈ spotted_by u ->
    exists (i : nat) (kd : string) (d : Unit),
      us !! i = Some (kd, d) /\ routed d = false /\ id d = x.

(** The same two tanks with B1 routed at 10 hit points ... *)
Definition sample_routed_unit : Unit :=
  set_routed true (set_hp 10 (sample_unit "B1" BLUE "MBT" (1000, 5000)%float 150%float 40)).

Definition sample_routed_units : Units :=
  [ ("B1"%string, sample_routed_unit);
    ("R1"%string, sample_unit "R1" RED "MBT" (1500, 5000)%float 150%float 40) ].

Definition sample_routed_state : State :=
  {| ts_ms := 10000; units := sample_routed_units; battle_id := "local" |}.

(** ... with B1 destroyed (hit points below zero) but not routed, and
    heading east ... *)
Definition sample_destroyed_unit : Unit :=
  set_intent_target_pos (Some (5000, 5000)%float)
    (set_hp (-5) (sample_unit "B1" BLUE "MBT" (1000, 5000)%float 150%float 40)).

Definition sample_destroyed_units : Units :=
  [ ("B1"%string, sample_destroyed_unit);
    ("R1"%string, sample_unit "R1" RED "MBT" (1500, 5000)%float 150%float 40) ].

Definition sample_destroyed_state : State :=
  {| ts_ms := 10000; units := sample_destroyed_units; battle_id := "local" |}.

(** ... and with B1 holding an attack target from an earlier order. *)
Definition sample_targeting_units : Units :=
  [ ("B1"%string,
     set_target_id (Some "R1"%string)
       (sample_unit "B1" BLUE "MBT" (1000, 5000)%float 150%float 40));
    ("R1"%string, sample_unit "R1" RED "MBT" (1500, 5000)%float 150%float 40) ].

Definition sample_targeting_state : State :=
  {| ts_ms := 10000; units := sample_targeting_units; battle_id := "local" |}.

Definition sample_calls_orders : list Order.t := [sample_move_order; sample_attack_order].

(* ===================================================================== *)
(** ** backend/api/app.py: the battle the service starts with *)
(* ===================================================================== *)

(** A freshly constructed [Unit(id=..., side=..., unit_type_id=..., pos=...,
    hp=..., ammo=...)], the remaining fields at their defaults. *)
Definition Unit_init (name : string) (s : Side) (type_id : string)
    (p : Position) (h : float) (a : Z) : Unit :=
  {| id := name; side := s; unit_type_id := type_id; pos := p; hp := h;
     ammo := a; target_id := None; intent_target_pos := None; routed := false;
     last_fire_time := 0; spotted_by := ∅ |}.

(** [_make_initial_state] *)
Definition _make_initial_state : State :=
  {| ts_ms := 0;
     units :=
       [ ("B-RECON-1"%string, Unit_init "B-RECON-1" BLUE "RECON" (1000, 5000)%float 50 200);
         ("B-INF-1"%string, Unit_init "B-INF-1" BLUE "INFANTRY" (1500, 3000)%float 80 10);
         ("B-INF-2"%string, Unit_init "B-INF-2" BLUE "INFANTRY" (1500, 7000)%float 80 10);
         ("B-MBT-1"%string, Unit_init "B-MBT-1" BLUE "MBT" (2000, 4000)%float 150 40);
         ("B-MBT-2"%string, Unit_init "B-MBT-2" BLUE "MBT" (2000, 6000)%float 150 40);
         ("B-ARTY-1"%string, Unit_init "B-ARTY-1" BLUE "ARTILLERY" (500, 5000)%float 60 30);
         ("R-RECON-1"%string, Unit_init "R-RECON-1" RED "RECON" (9000, 5000)%float 50 200);
         ("R-INF-1"%string, Unit_init "R-INF-1" RED "INFANTRY" (8500, 3000)%float 80 10);
         ("R-INF-2"%string, Unit_init "R-INF-2" RED "INFANTRY" (8500, 7000)%float 80 10);
         ("R-MBT-1"%string, Unit_init "R-MBT-1" RED "MBT" (8000, 4000)%float 150 40);
         ("R-MBT-2"%string, Unit_init "R-MBT-2" RED "MBT" (8000, 6000)%float 150 40);
         ("R-ARTY-1"%string, Unit_init "R-ARTY-1" RED "ARTILLERY" (9500, 5000)%float 60 30) ];
     battle_id := "local" |}.

(* ===================================================================== *)
(** ** More statement-level definitions *)
(* ===================================================================== *)

(** Every unit names a type of the catalogue. *)
Definition well_typed (us : Units) : Prop :=
  Forall (fun ku : string * Unit => exists T, get_type ku.2 = Ok T) us.

(** An integer that [float()] converts without overflow. *)
Definition fits_float (n : Z) : Prop := exists f, int_to_float n = Ok f.

(** Events by kind and by the unit they name. *)
Definition is_shot_at (who : string) (ev : Event.t) : bool :=
  has_kind "ShotFired" ev && names_unit "target" who ev.

Definition is_damage_to (who : string) (ev : Event.t) : bool :=
  has_kind "Damage" ev && names_unit "target" who ev.

Definition is_destroyed (who : string) (ev : Event.t) : bool :=
  has_kind "Destroyed" ev && names_unit "unit_id" who ev.

Definition is_routed (who : string) (ev : Event.t) : bool :=
  has_kind "Routed" ev && names_unit "unit_id" who ev.

(** No event of combat names [who] as its target or as destroyed. *)
Definition spares (who : string) (ev : Event.t) : Prop :=
  is_shot_at who ev = false /\ is_damage_to who ev = false
  /\ is_destroyed who ev = false.

(** The float stored under a payload key. *)
Definition float_field (field : string) (ev : Event.t) : option float :=
  match dict_get field (Event.data ev) with
  | Some (VFloat f) => Some f
  | _ => None
  end.

(** What one shot adds to the event list: the shot alone when it misses,
    followed by the damage when it hits, followed by the destruction when
    the damage leaves the target at or below zero hit points. *)
Inductive volley (now : Z) : list Event.t -> Prop :=
| volley_miss (s t : string) (dist p : float) (w : string) :
    volley now [ShotFired now s t dist p w]
| volley_hit (s t : string) (dist p : float) (w : string) (dmg h : float) :
    (h <=? 0)%float = false ->
    volley now [ShotFired now s t dist p w; Damage now t dmg h s]
| volley_kill (s t : string) (dist p : float) (w : string) (dmg h : float) :
    (h <=? 0)%float = true ->
    volley now [ShotFired now s t dist p w; Damage now t dmg h s; Destroyed now t s].

(** What the targeting loop asks of a candidate: the other side, hit points
    not at or below zero, and [_can_fire_at]. *)
Definition may_engage (now : Z) (u t : Unit) : Prop :=
  Side_eqb (side u) (side t) = false
  /\ (hp t <=? 0)%float = false
  /\ _can_fire_at u t now = Ok true.

(** Every identifier in a spotted-by set is that of a unit of the other
    side that is not routed and detects the unit. *)
Definition spotters_sound (us : Units) : Prop :=
  forall (k : string) (u : Unit) (x : string),
    dict_get k us = Some u -> x ∈ spotted_by u ->
    exists (i : nat) (kd : string) (d : Unit),
      us !! i = Some (kd, d) /\ routed d = false /\ id d = x
      /\ Side_eqb (side d) (side u) = false
      /\ _can_detect d u = Ok true.

(** The damages the events report for [who], in event order. *)
Fixpoint damages_to (who : string) (evts : list Event.t) : list float :=
  match evts with
  | [] => []
  | ev :: rest =>
      if is_damage_to who ev then
        match float_field "dmg" ev with
        | Some d => d :: damages_to who rest
        | None => damages_to who rest
        end
      else damages_to who rest
  end.

(** Hit points after the damages have been subtracted one by one. *)
Definition after_damages (h : float) (dmgs : list float) : float :=
  fold_left (fun h d => (h - d)%float) dmgs h.

(** Two tanks again, the first of a type the catalogue does not hold. *)
Definition sample_untyped_unit : Unit :=
  sample_unit "B1" BLUE "DRONE" (1000, 5000)%float 150%float 40.

Definition sample_untyped_units : Units :=
  [ ("B1"%string, sample_untyped_unit);
    ("R1"%string, sample_unit "R1" RED "MBT" (1500, 5000)%float 150%float 40) ].

Definition sample_untyped_state : State :=
  {| ts_ms := 10000; units := sample_untyped_units; battle_id := "local" |}.

(** [normalize_2d] once more, with the two divisions written as Python
    performs them, raising on a zero divisor. *)
Definition normalize_2d_raising (vec : Position) : result Position :=
  let mag := sqrt (vec.1 * vec.1 + vec.2 * vec.2)%float in
  if (mag <? 0.001)%float then Ok (0%float, 0%float)
  else
    let! x := py_div vec.1 mag in
    let! y := py_div vec.2 mag in
    Ok (x, y).

(** What [==] checks on two dictionaries: the same keys, and under each key
    the same value.  The order in which the keys were inserted is not
    compared, although it is the order in which the dictionary iterates. *)
Definition dict_equal {V} (d1 d2 : list (string * V)) : Prop :=
  forall k : string, dict_get k d1 = dict_get k d2.

(** The two tanks of [sample_units], filed in the opposite order. *)
Definition sample_reordered_units : Units :=
  [ ("R1"%string, sample_unit "R1" RED "MBT" (1500, 5000)%float 150%float 40);
    ("B1"%string, sample_unit "B1" BLUE "MBT" (1000, 5000)%float 150%float 40) ].

Definition sample_reordered_state : State :=
  {| ts_ms := 10000; units := sample_reordered_units; battle_id := "local" |}.
(* ===================================================================== *)
(** ** The engine, over [math.exp] and the PCG64 stream *)
(* ===================================================================== *)

Section Engine.

(** [math.exp] of the C library. *)
Variable math_exp : float -> float.

(** [numpy.random.PCG64(seed)] and [Generator.random()]: the state of the
    bit generator, how a seed initialises it, and the next double in
    [[0, 1)] together with the advanced state. *)
Variable BitGenerator : Type.
Variable PCG64 : Z -> BitGenerator.
Variable random : BitGenerator -> float * BitGenerator.

(** *** backend/engine/rng.py *)

Record DRNG := { g : BitGenerator }.

Definition DRNG_init (seed : Z) : DRNG := {| g := PCG64 seed |}.

(** [DRNG.bernoulli]: [bool(self.g.random() < p)]. *)
Definition bernoulli (p : float) (r : DRNG) : bool * DRNG :=
  let (x, g') := random (g r) in ((x <? p)%float, {| g := g' |}).

(** *** backend/engine/engine.py: [class Engine] *)

Record Engine := {
  state : State;
  _rng : DRNG;
  _pending_orders : list Order.t;
  base_acc : float;
  decay_m : float
}.

Definition with_units (us : Units) (e : Engine) : Engine :=
  {| state := set_units us (state e); _rng := _rng e;
     _pending_orders := _pending_orders e;
     base_acc := base_acc e; decay_m := decay_m e |}.

Definition with_rng (r : DRNG) (e : Engine) : Engine :=
  {| state := state e; _rng := r; _pending_orders := _pending_orders e;
     base_acc := base_acc e; decay_m := decay_m e |}.

Definition with_pending (os : list Order.t) (e : Engine) : Engine :=
  {| state := state e; _rng := _rng e; _pending_orders := os;
     base_acc := base_acc e; decay_m := decay_m e |}.

Definition with_ts_ms (t : Z) (e : Engine) : Engine :=
  {| state := set_ts_ms t (state e); _rng := _rng e;
     _pending_orders := _pending_orders e;
     base_acc := base_acc e; decay_m := decay_m e |}.

(** [Engine.__init__] *)
Definition Engine_init (seed : Z) (initial_state : State) : Engine :=
  {| state := initial_state; _rng := DRNG_init seed; _pending_orders := [];
     base_acc := 0.7; decay_m := 800.0 |}.

(** A method of the engine: the value it returns or the exception it
    raises, and the engine as the call leaves it. *)
Definition M (A : Type) : Type := Engine -> result A * Engine.

Definition bindM {A B} (m : M A) (k : A -> M B) : M B :=
  fun e =>
    match m e with
    | (Ok a, e') => k a e'
    | (Raise x, e') => (Raise x, e')
    end.

Notation "'run!' x := m 'in' k" := (bindM m (fun x => k))
  (at level 10, x name, m at level 100, k at level 200).

(** [Engine.apply_orders] *)
Definition apply_orders (orders : list Order.t) (e : Engine) : Engine :=
  with_pending (_pending_orders e ++ orders) e.

(** [Engine._apply_orders_now] *)
Definition _apply_orders_now : M (list Event.t) :=
  fun e =>
    let (evts, us) :=
      apply_orders_loop (ts_ms (state e)) (_pending_orders e) (units (state e)) in
    (Ok evts, with_pending [] (with_units us e)).

(** [Engine._move] *)
Definition _move (dt_ms : Z) : M (list Event.t) :=
  fun e =>
    match int_to_float dt_ms with
    | Raise x => (Raise x, e)
    | Ok ms =>
        let dt := (ms / 1000.0)%float in
        let '(r, us, _) :=
          for_units (fun u w => let! u' := move_unit dt u in Ok (u', w))
                    (units (state e)) tt in
        (let! _ := r in Ok [], with_units us e)
    end.

(** [Engine._update_spotting] *)
Definition _update_spotting : M (list Event.t) :=
  fun e =>
    let us0 := clear_spotting (units (state e)) in
    let (r, us) := spot_loop (length us0) 0 us0 in
    (let! _ := r in Ok [], with_units us e).

(** [Engine._find_targets] *)
Definition _find_targets : M (list (string * string)) :=
  fun e =>
    (find_targets_loop (ts_ms (state e)) (units (state e)) (units (state e)) [], e).

(** The body of the loop of [Engine._combat] for one shooter and target.
    [s] and [t] are references into the units: they are one object exactly
    when the two keys are equal, so after the shooter's ammunition and fire
    time are written the target is read as [t1]. *)
Definition combat_pair (acc decay : float) (now : Z) (shooter_id target_id : string)
    (us : Units) (rng : DRNG) : result (list Event.t) * Units * DRNG :=
  match dict_get shooter_id us, dict_get target_id us with
  | Some s, Some t =>
      if routed s || (hp t <=? 0)%float then (Ok [], us, rng)
      else
        match
          (let! s_type := get_type s in
           let dist := distance_2d (pos s) (pos t) in
           let! x := py_div (- dist) decay in
           Ok (s_type, dist, py_max 0.0 (py_min 0.95 (acc * math_exp x)%float)))
        with
        | Raise x => (Raise x, us, rng)
        | Ok (s_type, dist, p) =>
            let shot :=
              ShotFired now (id s) (id t) dist p
                        (WeaponType_value (weapon_type s_type)) in
            let s' := set_last_fire_time now (set_ammo (ammo s - 1) s) in
            let us1 := dict_put shooter_id s' us in
            let (hit, rng1) := bernoulli p rng in
            if hit then
              let t1 := if String.eqb shooter_id target_id then s' else t in
              let base_dmg := damage s_type in
              match _calculate_damage s' t1 base_dmg with
              | Raise x => (Raise x, us1, rng1)
              | Ok final_dmg =>
                  let t' := set_hp (hp t1 - final_dmg)%float t1 in
                  let us2 := dict_put target_id t' us1 in
                  let dmg := Damage now (id t') final_dmg (hp t') (id s') in
                  let destroyed := Destroyed now (id t') (id s') in
                  (Ok ([shot; dmg] ++ (if (hp t' <=? 0)%float then [destroyed] else [])),
                   us2, rng1)
              end
            else (Ok [shot], us1, rng1)
        end
  | _, _ => (Ok [], us, rng)
  end.

Fixpoint combat_loop (acc decay : float) (now : Z) (targets : list (string * string))
    (us : Units) (rng : DRNG) : result (list Event.t) * Units * DRNG :=
  match targets with
  | [] => (Ok [], us, rng)
  | (shooter_id, target_id) :: rest =>
      match combat_pair acc decay now shooter_id target_id us rng with
      | (Raise x, us1, rng1) => (Raise x, us1, rng1)
      | (Ok evts, us1, rng1) =>
          let '(r, us2, rng2) := combat_loop acc decay now rest us1 rng1 in
          (let! evts' := r in Ok (evts ++ evts'), us2, rng2)
      end
  end.

(** [Engine._combat] *)
Definition _combat (dt_ms : Z) (targets : list (string * string)) : M (list Event.t) :=
  fun e =>
    let '(r, us, rng) :=
      combat_loop (base_acc e) (decay_m e) (ts_ms (state e)) targets
                  (units (state e)) (_rng e) in
    (r, with_rng rng (with_units us e)).

(** The body of the loop of [Engine._morale] for one unit; the loop threads
    the generator and the events appended so far. *)
Definition morale_unit (now : Z) (u : Unit) (w : DRNG * list Event.t)
    : result (Unit * (DRNG * list Event.t)) :=
  if routed u then Ok (u, w)
  else
    let! u_type := get_type u in
    let! hp_pct := py_div (py_max 0.0 (hp u)) (max_hp u_type) in
    if (hp_pct <? 0.3)%float then
      let (b, rng') := bernoulli 0.5 w.1 in
      if b then
        Ok (set_routed true u, (rng', w.2 ++ [Routed now (id u)]))
      else Ok (u, (rng', w.2))
    else Ok (u, w).

(** [Engine._morale] *)
Definition _morale : M (list Event.t) :=
  fun e =>
    let '(r, us, (rng, evts)) :=
      for_units (morale_unit (ts_ms (state e))) (units (state e)) (_rng e, []) in
    (let! _ := r in Ok evts, with_rng rng (with_units us e)).

(** [Engine.step] *)
Definition step (dt_ms : Z) : M (list Event.t) :=
  run! evts1 := _apply_orders_now in
  run! evts2 := _move dt_ms in
  run! evts3 := _update_spotting in
  run! targets := _find_targets in
  run! evts5 := _combat dt_ms targets in
  run! evts6 := _morale in
  fun e =>
    (Ok (evts1 ++ evts2 ++ evts3 ++ evts5 ++ evts6),
     with_ts_ms (ts_ms (state e) + dt_ms) e).

(** [Engine.snapshot] *)
Definition snapshot (e : Engine) : State := state e.

(** *** runtime/runner.py: [class TickRunner]

    [_orders] is the content of the [asyncio.Queue], oldest batch first;
    [_task] records whether the loop task exists. *)

Record TickRunner := {
  engine : Engine;
  tick_ms : Z;
  time_compression : float;
  sleep_s : float;
  _orders : list (list Order.t);
  events : EventLog;
  _task : bool
}.

(** [TickRunner.__init__] *)
Definition TickRunner_init (eng : Engine) (tick : Z) (tc : float) : result TickRunner :=
  let! ms := int_to_float tick in
  let! s := py_div (ms / 1000.0)%float (py_max 1.0 tc) in
  Ok {| engine := eng; tick_ms := tick; time_compression := tc; sleep_s := s;
        _orders := []; events := EventLog_init; _task := false |}.

(** [TickRunner.set_time_compression]: the first assignment has happened
    when the second statement raises. *)
Definition set_time_compression (tc : float) (r : TickRunner) : result unit * TickRunner :=
  let r1 :=
    {| engine := engine r; tick_ms := tick_ms r;
       time_compression := py_max 0.1 (py_min 1000.0 tc);
       sleep_s := sleep_s r; _orders := _orders r; events := events r;
       _task := _task r |} in
  match
    (let! ms := int_to_float (tick_ms r1) in
     py_div (ms / 1000.0)%float (py_max 1.0 (time_compression r1)))
  with
  | Raise x => (Raise x, r1)
  | Ok s =>
      (Ok tt,
       {| engine := engine r1; tick_ms := tick_ms r1;
          time_compression := time_compression r1;
          sleep_s := s; _orders := _orders r1; events := events r1;
          _task := _task r1 |})
  end.

(** [TickRunner.enqueue_orders] *)
Definition enqueue_orders (orders : list Order.t) (r : TickRunner) : TickRunner :=
  {| engine := engine r; tick_ms := tick_ms r;
     time_compression := time_compression r; sleep_s := sleep_s r;
     _orders := _orders r ++ [orders]; events := events r; _task := _task r |}.

(** One turn of the [while True] of [TickRunner._loop]: the queue is
    drained, the engine stepped, the events logged; the value returned is
    the argument of [asyncio.sleep]. *)
Definition loop_turn (r : TickRunner) : result float * TickRunner :=
  let batched := concat (_orders r) in
  let eng1 := match batched with
              | [] => engine r
              | _ => apply_orders batched (engine r)
              end in
  let (res, eng2) := step (tick_ms r) eng1 in
  match res with
  | Raise x =>
      (Raise x,
       {| engine := eng2; tick_ms := tick_ms r;
          time_compression := time_compression r; sleep_s := sleep_s r;
          _orders := []; events := events r; _task := _task r |})
  | Ok evts =>
      (Ok (sleep_s r),
       {| engine := eng2; tick_ms := tick_ms r;
          time_compression := time_compression r; sleep_s := sleep_s r;
          _orders := []; events := (append_many evts (events r)).2;
          _task := _task r |})
  end.

(** *** Statement-level definitions over the engine *)

(** The calls a client makes on an engine, and a run of them: the result
    of every [step] and the engine it left behind, in call order. *)
Inductive call :=
| ApplyOrders (orders : list Order.t)
| Step (dt_ms : Z).

Fixpoint run (e : Engine) (calls : list call)
    : list (result (list Event.t) * Engine) * Engine :=
  match calls with
  | [] => ([], e)
  | ApplyOrders os :: rest => run (apply_orders os e) rest
  | Step dt :: rest =>
      let (r, e') := step dt e in
      let (log, e'') := run e' rest in
      ((r, e') :: log, e'')
  end.

(** The runner after [n] further turns of its loop. *)
Fixpoint turns (n : nat) (r : TickRunner) : TickRunner :=
  match n with
  | O => r
  | S n' => turns n' (loop_turn r).2
  end.

(** The engine with the attack targets of its units erased. *)
Definition forget (e : Engine) : Engine :=
  with_units (forget_targets (units (state e))) e.

(** *** Sample engine and runner for the examples *)

Definition sample_engine : Engine := Engine_init 42 sample_state.

Definition sample_runner : TickRunner :=
  {| engine := sample_engine; tick_ms := 500; time_compression := 30.0;
     sleep_s := (0.5 / 30.0)%float; _orders := []; events := EventLog_init;
     _task := true |}.

(** Two engines that differ at most in the attack targets stored in their
    units, and a method that cannot tell such engines apart. *)
Definition agree (e1 e2 : Engine) : Prop := forget e1 = forget e2.

Definition respects {A} (m : M A) : Prop :=
  forall e1 e2, agree e1 e2 -> (m e1).1 = (m e2).1 /\ agree (m e1).2 (m e2).2.

Definition sample_routed_engine : Engine := Engine_init 42 sample_routed_state.
Definition sample_destroyed_engine : Engine := Engine_init 0 sample_destroyed_state.
Definition sample_targeting_engine : Engine := Engine_init 42 sample_targeting_state.

Definition sample_calls : list call :=
  [ApplyOrders sample_calls_orders; Step 500; Step 500].

(** *** backend/api/app.py: the engine [startup] builds,
    [Engine(seed=42, initial_state=_make_initial_state())] *)
Definition default_engine : Engine := Engine_init 42 _make_initial_state.

Definition sample_untyped_engine : Engine := Engine_init 42 sample_untyped_state.

(** The first three phases of [Engine.step]: the engine as the call of
    [_find_targets] finds it. *)
Definition before_targeting (dt_ms : Z) : M unit :=
  run! evts1 := _apply_orders_now in
  run! evts2 := _move dt_ms in
  run! evts3 := _update_spotting in
  fun e => (Ok tt, e).

(** *** Engines as objects

    [Engine.__init__] keeps the [State] it is handed, not a copy of it
    ([self.state = initial_state]), and builds a generator of its own
    ([self._rng = DRNG(seed)]).  A [World] holds the [State] objects and the
    generators that exist, each at its place, and the engines, which refer
    to their state and to their generator by place; the list of pending
    orders and the two constants are the engine's own.  A [State] object
    owns its dictionary and its units, as every [State] built in the
    repository does. *)

Record EngineObj := {
  state_at : nat;
  rng_at : nat;
  pending_orders : list Order.t;
  obj_base_acc : float;
  obj_decay_m : float
}.

Record World := {
  states : list State;
  generators : list DRNG;
  engines : list EngineObj
}.

(** [Engine(seed, initial_state)], with [initial_state] the place of a
    [State] object: the new engine's handle and the world with it. *)
Definition new_engine (seed : Z) (initial_state : nat) (w : World) : nat * World :=
  (length (engines w),
   {| states := states w;
      generators := generators w ++ [DRNG_init seed];
      engines := engines w ++
                 [ {| state_at := initial_state;
                      rng_at := length (generators w);
                      pending_orders := [];
                      obj_base_acc := 0.7;
                      obj_decay_m := 800.0 |} ] |}).

(** The engine an object stands for: its fields with the two references
    followed. *)
Definition load (w : World) (o : EngineObj) : option Engine :=
  match states w !! state_at o, generators w !! rng_at o with
  | Some s, Some r =>
      Some {| state := s; _rng := r; _pending_orders := pending_orders o;
              base_acc := obj_base_acc o; decay_m := obj_decay_m o |}
  | _, _ => None
  end.

(** What a method leaves behind: the state and the generator are written
    where the engine refers to, the engine's own fields in the engine. *)
Definition store (i : nat) (o : EngineObj) (e : Engine) (w : World) : World :=
  {| states := <[state_at o := state e]> (states w);
     generators := <[rng_at o := _rng e]> (generators w);
     engines := <[i := {| state_at := state_at o; rng_at := rng_at o;
                           pending_orders := _pending_orders e;
                           obj_base_acc := base_acc e;
                           obj_decay_m := decay_m e |}]> (engines w) |}.

(** A method called on the engine with handle [i]; [None] when there is no
    such engine. *)
Definition on_engine {A} (i : nat) (m : Engine -> A * Engine) (w : World)
    : option A * World :=
  match engines w !! i with
  | Some o =>
      match load w o with
      | Some e => let (a, e') := m e in (Some a, store i o e' w)
      | None => (None, w)
      end
  | None => (None, w)
  end.

(** The calls of a client that holds several engines, each addressed to
    one of them, and the log of what the [step] calls returned. *)
Fixpoint world_run (w : World) (sched : list (nat * call))
    : list (nat * result (list Event.t)) * World :=
  match sched with
  | [] => ([], w)
  | (i, ApplyOrders os) :: rest =>
      world_run (on_engine i (fun e => (tt, apply_orders os e)) w).2 rest
  | (i, Step dt) :: rest =>
      let (r, w') := on_engine i (step dt) w in
      let (log, w'') := world_run w' rest in
      (match r with
       | Some r => (i, r) :: log
       | None => log
       end, w'')
  end.

(** The items of a list of pairs that are addressed to [i]. *)
Definition addressed_to {A} (i : nat) (l : list (nat * A)) : list A :=
  map snd (List.filter (fun ia => Nat.eqb ia.1 i) l).

(** Two [State] objects with the same content, in this order of places;
    the same two tanks filed in opposite orders; and one [State] object. *)
Definition sample_world : World :=
  {| states := [sample_state; sample_state]; generators := []; engines := [] |}.

Definition sample_reordered_world : World :=
  {| states := [sample_state; sample_reordered_state]; generators := [];
     engines := [] |}.

Definition sample_shared_world : World :=
  {| states := [sample_state]; generators := []; engines := [] |}.

(** Two engines called in turns that interleave. *)
Definition sample_schedule : list (nat * call) :=
  [ (0%nat, ApplyOrders sample_calls_orders); (0%nat, Step 500);
    (1%nat, ApplyOrders sample_calls_orders); (0%nat, Step 500);
    (1%nat, Step 500); (1%nat, Step 500) ].

(** The engine with handle [i] refers to the state at [l] and to the
    generator at [r], and stands for [e]. *)
Definition holds (w : World) (i l r : nat) (e : Engine) : Prop :=
  exists o, engines w !! i = Some o /\ state_at o = l /\ rng_at o = r
            /\ load w o = Some e.

(* ===================================================================== *)
(** ** Facts about binary64 comparisons *)
(* ===================================================================== *)

Lemma SFcompare_swap (a b : spec_float) :
  SFcompare b a = option_map CompOpp (SFcompare a b).
Proof.
  destruct a as [sa|sa| |sa ma ea], b as [sb|sb| |sb mb eb]; simpl;
    try reflexivity;
    try (destruct sa; reflexivity); try (destruct sb; reflexivity);
    try (destruct sa, sb; reflexivity).
  destruct sa, sb; simpl; try reflexivity;
    rewrite (Z.compare_antisym ea eb);
    destruct (ea ?= eb)%Z; simpl; try reflexivity;
    change (Pos.compare_cont Eq mb ma) with (mb ?= ma)%positive;
    change (Pos.compare_cont Eq ma mb) with (ma ?= mb)%positive;
    rewrite (Pos.compare_antisym ma mb); try reflexivity.
Qed.

Lemma float_ltb_leb (x y : float) : (x <? y)%float = true -> (x <=? y)%float = true.
Proof.
  rewrite FloatAxioms.ltb_spec, FloatAxioms.leb_spec. unfold SFltb, SFleb.
  destruct (SFcompare _ _) as [[]|]; congruence.
Qed.

Lemma float_leb_not_ltb (x y : float) : (x <=? y)%float = true -> (y <? x)%float = false.
Proof.
  rewrite FloatAxioms.ltb_spec, FloatAxioms.leb_spec. unfold SFltb, SFleb.
  rewrite (SFcompare_swap (Prim2SF x) (Prim2SF y)).
  destruct (SFcompare _ _) as [[]|]; simpl; congruence.
Qed.

Lemma float_ltb_not_leb (x y : float) : (x <? y)%float = true -> (y <=? x)%float = false.
Proof.
  rewrite FloatAxioms.ltb_spec, FloatAxioms.leb_spec. unfold SFltb, SFleb.
  rewrite (SFcompare_swap (Prim2SF x) (Prim2SF y)).
  destruct (SFcompare _ _) as [[]|]; simpl; congruence.
Qed.

Lemma Prim2SF_tenth : Prim2SF 0.1 = S754_finite false 7205759403792794 (-56).
Proof. vm_compute. reflexivity. Qed.

Lemma Prim2SF_zero : Prim2SF 0 = S754_zero false.
Proof. vm_compute. reflexivity. Qed.

Lemma Prim2SF_one : Prim2SF 1 = S754_finite false 4503599627370496 (-52).
Proof. vm_compute. reflexivity. Qed.

(** A float that compares equal to zero is below one tenth. *)
Lemma float_zero_below_tenth (x : float) :
  (x =? 0)%float = true -> (x <? 0.1)%float = true.
Proof.
  rewrite FloatAxioms.eqb_spec, FloatAxioms.ltb_spec. unfold SFeqb, SFltb.
  rewrite Prim2SF_tenth, Prim2SF_zero.
  destruct (Prim2SF x) as [s|s| |s m e]; cbn [SFcompare];
    try congruence; destruct s; congruence.
Qed.

(** ... and is not above one. *)
Lemma float_above_one_nonzero (x : float) :
  (1 <? x)%float = true -> (x =? 0)%float = false.
Proof.
  rewrite FloatAxioms.eqb_spec, FloatAxioms.ltb_spec. unfold SFeqb, SFltb.
  rewrite Prim2SF_one, Prim2SF_zero.
  destruct (Prim2SF x) as [s|s| |s m e]; cbn [SFcompare];
    try congruence; destruct s; congruence.
Qed.

Lemma py_max_one_nonzero (x : float) : (py_max 1.0 x =? 0)%float = false.
Proof.
  unfold py_max. destruct (1.0 <? x)%float eqn:H.
  - now apply float_above_one_nonzero.
  - reflexivity.
Qed.

Lemma py_div_nonzero (a b : float) :
  (b =? 0)%float = false -> py_div a b = Ok (a / b)%float.
Proof. intros H. unfold py_div. now rewrite H. Qed.

(* ===================================================================== *)
(** ** The event log *)
(* ===================================================================== *)

Lemma py_slice_nonneg {A} (l : list A) (a n : Z) :
  0 <= a -> 0 <= n ->
  py_slice l a (a + n) = take (Z.to_nat n) (drop (Z.to_nat a) l).
Proof.
  intros Ha Hn. unfold py_slice, slice_bound.
  destruct (Z.ltb_spec a 0) as [?|_]; [lia|].
  destruct (Z.ltb_spec (a + n) 0) as [?|_]; [lia|].
  set (len := Z.of_nat (length l)).
  destruct (Z.le_gt_cases len a) as [Hge|Hlt].
  - rewrite (Z.min_r a len) by lia.
    rewrite !drop_ge by lia. now rewrite !take_nil.
  - rewrite (Z.min_l a len) by lia.
    destruct (Z.le_gt_cases (a + n) len) as [Hin|Hout].
    + rewrite Z.min_l by lia. f_equal. lia.
    + rewrite Z.min_r by lia.
      rewrite !take_ge; [reflexivity | |]; rewrite length_drop; lia.
Qed.

Lemma since_nonneg_limit (l : EventLog) (offset limit : Z) :
  0 <= limit ->
  (since offset limit l).1
  = take (Z.to_nat limit) (drop (Z.to_nat (Z.max 0 offset)) (_log l)).
Proof.
  intros Hl. unfold since. cbn [fst].
  apply py_slice_nonneg; lia.
Qed.

(** C8 (amended): for a limit that is not negative, [since(o, l)] returns
    the contiguous slice of the log that starts at index [max(0, o)] and
    holds at most [l] events, with the resume offset [max(0, o)] plus the
    number of events returned; [append_many(events)] appends the events in
    order and returns the first and last offset they occupy. *)
Theorem since_and_append_many (l : EventLog) (offset limit : Z) (evts : list Event.t) :
  0 <= limit ->
  let start := Z.max 0 offset in
  let chunk := (since offset limit l).1 in
  let next := (since offset limit l).2 in
  chunk = take (Z.to_nat limit) (drop (Z.to_nat start) (_log l))
  /\ Z.of_nat (length chunk) <= limit
  /\ (forall i : nat, (i < length chunk)%nat ->
        chunk !! i = _log l !! (Z.to_nat start + i)%nat)
  /\ next = start + Z.of_nat (length chunk)
  /\ let '((first, last), l') := append_many evts l in
     _log l' = _log l ++ evts
     /\ first = Z.of_nat (length (_log l))
     /\ last = first + Z.of_nat (length evts) - 1
     /\ (forall i : nat, (i < length evts)%nat ->
           _log l' !! (Z.to_nat first + i)%nat = evts !! i).
Proof.
  intros Hl start chunk next.
  assert (Hchunk : chunk = take (Z.to_nat limit) (drop (Z.to_nat start) (_log l)))
    by (apply since_nonneg_limit; assumption).
  split; [exact Hchunk|].
  split; [rewrite Hchunk, length_take; lia|].
  split.
  { intros i Hi. rewrite Hchunk in Hi |- *.
    rewrite length_take in Hi.
    rewrite lookup_take_lt by lia. now rewrite lookup_drop. }
  split; [reflexivity|].
  cbn. repeat split.
  - rewrite length_app. lia.
  - intros i Hi. rewrite Nat2Z.id. now rewrite lookup_app_r, Nat.add_comm, Nat.add_sub by lia.
Qed.

(* ===================================================================== *)
(** ** The tick runner *)
(* ===================================================================== *)

Lemma clamp_compression_bounds (f : float) :
  let tc := py_max 0.1 (py_min 1000.0 f) in
  (0.1 <=? tc)%float = true /\ (tc <=? 1000.0)%float = true.
Proof.
  unfold py_max, py_min.
  destruct (f <? 1000.0)%float eqn:Hhi.
  - destruct (0.1 <? f)%float eqn:Hlo.
    + split; now apply float_ltb_leb.
    + split; reflexivity.
  - destruct (0.1 <? 1000.0)%float eqn:Hc; split; try reflexivity; discriminate.
Qed.

Lemma loop_turn_sleep (r : TickRunner) (d : float) :
  (loop_turn r).1 = Ok d -> d = sleep_s r.
Proof.
  unfold loop_turn. destruct (step _ _) as [[evts|x] eng2]; cbn; congruence.
Qed.

Lemma loop_turn_keeps_pace (r : TickRunner) :
  sleep_s (loop_turn r).2 = sleep_s r
  /\ tick_ms (loop_turn r).2 = tick_ms r
  /\ time_compression (loop_turn r).2 = time_compression r.
Proof.
  unfold loop_turn. destruct (step _ _) as [[evts|x] eng2]; cbn; auto.
Qed.

Lemma turns_keep_pace (n : nat) (r : TickRunner) :
  sleep_s (turns n r) = sleep_s r.
Proof.
  revert r. induction n as [|n IH]; intros r; cbn [turns]; [reflexivity|].
  rewrite IH. apply loop_turn_keeps_pace.
Qed.

(** C2 (amended): [set_time_compression(f)] stores [f] clamped to
    [[0.1, 1000.0]], and from then on every turn of the loop suspends for
    [tick_seconds / max(1.0, time_compression)]: the tick divided by the
    stored factor when that factor is above 1, and the plain tick when it is
    not (a factor of 0.1 is stored, and the loop still sleeps one tick). *)
Theorem set_time_compression_pace (r : TickRunner) (f ms : float) :
  int_to_float (tick_ms r) = Ok ms ->
  let tick_seconds := (ms / 1000.0)%float in
  let r' := (set_time_compression f r).2 in
  let tc := time_compression r' in
  (set_time_compression f r).1 = Ok tt
  /\ tc = py_max 0.1 (py_min 1000.0 f)
  /\ (0.1 <=? tc)%float = true /\ (tc <=? 1000.0)%float = true
  /\ sleep_s r' = (tick_seconds / py_max 1.0 tc)%float
  /\ ((1.0 <? tc)%float = true -> sleep_s r' = (tick_seconds / tc)%float)
  /\ ((1.0 <? tc)%float = false -> sleep_s r' = (tick_seconds / 1.0)%float)
  /\ forall (n : nat) (d : float),
       (loop_turn (turns n r')).1 = Ok d -> d = (tick_seconds / py_max 1.0 tc)%float.
Proof.
  intros Hms tick_seconds r' tc.
  assert (Hrun : set_time_compression f r
                 = (Ok tt,
                    {| engine := engine r; tick_ms := tick_ms r;
                       time_compression := py_max 0.1 (py_min 1000.0 f);
                       sleep_s := (tick_seconds / py_max 1.0 (py_max 0.1 (py_min 1000.0 f)))%float;
                       _orders := _orders r; events := events r; _task := _task r |})).
  { unfold set_time_compression. cbn [tick_ms time_compression].
    rewrite Hms. cbn [bind].
    rewrite py_div_nonzero by apply py_max_one_nonzero. reflexivity. }
  subst r' tc. rewrite Hrun. cbn [fst snd time_compression sleep_s].
  destruct (clamp_compression_bounds f) as [Hlo Hhi].
  repeat split; try assumption.
  - intros H. unfold py_max at 1. now rewrite H.
  - intros H. unfold py_max at 1. now rewrite H.
  - intros n d Hd. apply loop_turn_sleep in Hd.
    now rewrite turns_keep_pace in Hd.
Qed.

(* ===================================================================== *)
(** ** Dictionaries of units *)
(* ===================================================================== *)

Arguments int_to_float : simpl never.
Arguments py_div : simpl never.
Arguments py_min : simpl never.
Arguments py_max : simpl never.
Arguments distance_2d : simpl never.
Arguments get_type : simpl never.

Lemma dict_put_keys {V} (k : string) (v : V) (d : list (string * V)) :
  (dict_put k v d).*1 = d.*1.
Proof.
  induction d as [|[k' v'] d IH]; cbn; [reflexivity|].
  destruct (String.eqb k k'); cbn; [reflexivity|]. now rewrite IH.
Qed.

Lemma dict_get_put_same {V} (k : string) (v v0 : V) (d : list (string * V)) :
  dict_get k d = Some v0 -> dict_get k (dict_put k v d) = Some v.
Proof.
  induction d as [|[k' v'] d IH]; cbn; [discriminate|].
  destruct (String.eqb k k') eqn:E; cbn; rewrite E; auto.
Qed.

Lemma dict_get_put_other {V} (k k' : string) (v : V) (d : list (string * V)) :
  k <> k' -> dict_get k' (dict_put k v d) = dict_get k' d.
Proof.
  intros Hne. induction d as [|[k0 v0] d IH]; cbn; [reflexivity|].
  destruct (String.eqb k k0) eqn:E; cbn.
  - apply String.eqb_eq in E. subst k0.
    destruct (String.eqb k' k) eqn:E'; [|reflexivity].
    apply String.eqb_eq in E'. congruence.
  - now rewrite IH.
Qed.

Lemma dict_get_put_none {V} (k : string) (v : V) (d : list (string * V)) :
  dict_get k d = None -> dict_put k v d = d.
Proof.
  induction d as [|[k' v'] d IH]; cbn; [reflexivity|].
  destruct (String.eqb k k'); [discriminate|]. intros H. now rewrite IH.
Qed.

Lemma dict_get_elem_of {V} (k : string) (v : V) (d : list (string * V)) :
  dict_get k d = Some v -> (k, v) ∈ d.
Proof.
  induction d as [|[k' v'] d IH]; cbn; [discriminate|].
  destruct (String.eqb k k') eqn:E.
  - apply String.eqb_eq in E. intros [= ->]. subst. left.
  - intros H. right. auto.
Qed.

Lemma dict_get_unique {V} (k : string) (v : V) (d : list (string * V)) :
  NoDup d.*1 -> (k, v) ∈ d -> dict_get k d = Some v.
Proof.
  induction d as [|[k' v'] d IH]; cbn; intros Hnd Hin.
  - inversion Hin.
  - apply NoDup_cons in Hnd as [Hk' Hnd].
    apply elem_of_cons in Hin as [[= -> ->]|Hin].
    + now rewrite String.eqb_refl.
    + destruct (String.eqb k k') eqn:E; [|auto].
      apply String.eqb_eq in E. subst k'. exfalso. apply Hk'.
      apply list_elem_of_fmap. exists (k, v). auto.
Qed.

Lemma dict_get_none_keys {V} (k : string) (d : list (string * V)) :
  dict_get k d = None <-> k ∉ d.*1.
Proof.
  induction d as [|[k' v'] d IH]; cbn.
  - split; [intros _ H; inversion H|reflexivity].
  - rewrite not_elem_of_cons. destruct (String.eqb k k') eqn:E.
    + apply String.eqb_eq in E. split; [discriminate|]. intros [H _]. contradiction.
    + apply String.eqb_neq in E. rewrite IH. tauto.
Qed.

(** *** Pairwise relations between the units before and after *)

Lemma units_rel_refl (R : Unit -> Unit -> Prop) (us : Units) :
  (forall u, R u u) -> units_rel R us us.
Proof. intros HR. apply Forall2_same_length_lookup_2; [reflexivity|]. intros i a b Ha Hb. rewrite Ha in Hb. injection Hb as <-. auto. Qed.

Lemma units_rel_trans (R1 R2 R3 : Unit -> Unit -> Prop) (us1 us2 us3 : Units) :
  (forall a b c, R1 a b -> R2 b c -> R3 a c) ->
  units_rel R1 us1 us2 -> units_rel R2 us2 us3 -> units_rel R3 us1 us3.
Proof.
  intros HR H1. revert us3. induction H1 as [|[k1 u1] [k2 u2] us1 us2 [Hk Hu] _ IH];
    intros us3 H2; inversion H2 as [|? [k3 u3] ? us3' [Hk' Hu'] H2']; subst; constructor.
  - cbn in *. split; [congruence|eauto].
  - apply IH. assumption.
Qed.

Lemma units_rel_mono (R R' : Unit -> Unit -> Prop) (us us' : Units) :
  (forall a b, R a b -> R' a b) -> units_rel R us us' -> units_rel R' us us'.
Proof.
  intros HR H. eapply Forall2_impl; [exact H|]. intros a b [? ?]. auto.
Qed.

Lemma units_rel_keys (R : Unit -> Unit -> Prop) (us us' : Units) :
  units_rel R us us' -> unit_keys us' = unit_keys us.
Proof.
  unfold unit_keys. induction 1 as [|a b us us' [Hk _] _ IH]; cbn; [reflexivity|].
  now rewrite IH, Hk.
Qed.

Lemma units_rel_length (R : Unit -> Unit -> Prop) (us us' : Units) :
  units_rel R us us' -> length us' = length us.
Proof. intros H. symmetry. eapply Forall2_length, H. Qed.

Lemma units_rel_get (R : Unit -> Unit -> Prop) (us us' : Units) (k : string) (u : Unit) :
  units_rel R us us' -> dict_get k us = Some u ->
  exists u', dict_get k us' = Some u' /\ R u u'.
Proof.
  induction 1 as [|[k1 u1] [k2 u2] us us' [Hk Hu] _ IH]; cbn in *; [discriminate|].
  subst k2. destruct (String.eqb k k1); [|exact IH].
  intros [= <-]. eauto.
Qed.

Lemma units_rel_get_inv (R : Unit -> Unit -> Prop) (us us' : Units) (k : string) (u' : Unit) :
  units_rel R us us' -> dict_get k us' = Some u' ->
  exists u, dict_get k us = Some u /\ R u u'.
Proof.
  induction 1 as [|[k1 u1] [k2 u2] us us' [Hk Hu] _ IH]; cbn in *; [discriminate|].
  subst k2. destruct (String.eqb k k1); [|exact IH].
  intros [= <-]. eauto.
Qed.

Lemma units_rel_lookup (R : Unit -> Unit -> Prop) (us us' : Units)
    (i : nat) (k : string) (u : Unit) :
  units_rel R us us' -> us !! i = Some (k, u) ->
  exists u', us' !! i = Some (k, u') /\ R u u'.
Proof.
  intros H Hi. destruct (Forall2_lookup_l _ _ _ _ _ H Hi) as ([k' u'] & Hi' & Hk & Hu).
  cbn in *. subst k'. eauto.
Qed.

Lemma units_rel_put (R : Unit -> Unit -> Prop) (us : Units) (k : string) (u v : Unit) :
  (forall x, R x x) -> dict_get k us = Some u -> R u v ->
  units_rel R us (dict_put k v us).
Proof.
  intros Hrefl. induction us as [|[k' u'] us IH]; cbn; [discriminate|].
  destruct (String.eqb k k') eqn:E.
  - intros [= ->] Huv. constructor; [split; auto|]. now apply units_rel_refl.
  - intros Hget Huv. constructor; [split; auto|]. apply IH; assumption.
Qed.

Lemma for_units_rel {W} (R : Unit -> Unit -> Prop)
    (body : Unit -> W -> result (Unit * W)) :
  (forall u, R u u) ->
  (forall u w u' w', body u w = Ok (u', w') -> R u u') ->
  forall us w, units_rel R us (for_units body us w).1.2.
Proof.
  intros Hrefl Hbody. induction us as [|[k u] us IH]; intros w; cbn.
  - constructor.
  - destruct (body u w) as [[u' w']|x] eqn:Hb; cbn.
    + specialize (IH w'). destruct (for_units body us w') as [[r rest] w''].
      cbn in *. constructor; [split; eauto|assumption].
    + constructor; [split; auto|]. now apply units_rel_refl.
Qed.

(* ===================================================================== *)
(** ** What each phase writes *)
(* ===================================================================== *)

Lemma orders_touch_refl (u : Unit) : orders_touch u u.
Proof. split; [destruct u; reflexivity|auto]. Qed.

Lemma move_touch_refl (u : Unit) : move_touch u u.
Proof. split; [destruct u; reflexivity|auto]. Qed.

Lemma spotting_touch_refl (u : Unit) : spotting_touch u u.
Proof. destruct u; reflexivity. Qed.

Lemma combat_touch_refl (u : Unit) : combat_touch u u.
Proof. split; [destruct u; reflexivity|]. split; [lia|auto]. Qed.

Lemma morale_touch_refl (u : Unit) : morale_touch u u.
Proof. split; [destruct u; reflexivity|auto]. Qed.

Lemma orders_touch_trans (a b c : Unit) :
  orders_touch a b -> orders_touch b c -> orders_touch a c.
Proof.
  intros [E1 r1] [E2 r2]. split.
  - rewrite E1 in E2. destruct a. exact E2.
  - intros Hr. rewrite <- (r1 Hr) in Hr |- *. auto.
Qed.

Lemma spotting_touch_trans (a b c : Unit) :
  spotting_touch a b -> spotting_touch b c -> spotting_touch a c.
Proof.
  unfold spotting_touch. intros E1 E2. rewrite E1 in E2. destruct a. exact E2.
Qed.

Lemma combat_touch_trans (a b c : Unit) :
  combat_touch a b -> combat_touch b c -> combat_touch a c.
Proof.
  intros (E1 & l1 & r1) (E2 & l2 & r2). split; [|split].
  - rewrite E1 in E2. destruct a. exact E2.
  - lia.
  - intros Hr. destruct (r1 Hr) as [A1 L1].
    assert (Hrb : routed b = true) by (rewrite E1; destruct a; exact Hr).
    destruct (r2 Hrb) as [A2 L2]. split; congruence.
Qed.

(** *** Phase 1: orders *)

Lemma apply_order_touch (now : Z) (o : Order.t) (us : Units) :
  units_rel orders_touch us (apply_order now o us).2.
Proof.
  unfold apply_order.
  destruct (dict_get (Order.unit_id o) us) as [u|] eqn:Hget;
    [|apply units_rel_refl, orders_touch_refl].
  destruct (routed u) eqn:Hr; [apply units_rel_refl, orders_touch_refl|].
  assert (Hput : forall v, orders_touch u v ->
            units_rel orders_touch us (dict_put (Order.unit_id o) v us)).
  { intros v Hv. eapply units_rel_put; eauto using orders_touch_refl. }
  destruct (Order.kind o).
  - destruct (Order.target_pos o); cbn [snd];
      [|apply units_rel_refl, orders_touch_refl].
    apply Hput. split; [destruct u; reflexivity|congruence].
  - destruct (Order.target_unit_id o) as [t|]; cbn [snd];
      [|apply units_rel_refl, orders_touch_refl].
    destruct (String.eqb t ""); cbn [snd];
      [apply units_rel_refl, orders_touch_refl|].
    apply Hput. split; [destruct u; reflexivity|congruence].
  - cbn [snd]. apply Hput. split; [destruct u; reflexivity|congruence].
Qed.

Lemma apply_orders_loop_touch (now : Z) (os : list Order.t) (us : Units) :
  units_rel orders_touch us (apply_orders_loop now os us).2.
Proof.
  revert us. induction os as [|o os IH]; intros us; cbn.
  - apply units_rel_refl, orders_touch_refl.
  - pose proof (apply_order_touch now o us) as H1.
    destruct (apply_order now o us) as [evts us1]. cbn in H1.
    specialize (IH us1). destruct (apply_orders_loop now os us1) as [evts' us2].
    cbn in *. eapply units_rel_trans; eauto using orders_touch_trans.
Qed.

(** *** Phase 2: movement *)

Lemma move_unit_touch (dt : float) (u u' : Unit) :
  move_unit dt u = Ok u' -> move_touch u u'.
Proof.
  unfold move_unit.
  destruct (intent_target_pos u) as [tgt|];
    [|intros [= <-]; apply move_touch_refl].
  destruct (routed u) eqn:Hr; [intros [= <-]; apply move_touch_refl|].
  destruct (get_type u) as [T|x]; cbn [bind]; [|discriminate].
  match goal with |- context [(?d <? 0.1)%float] => destruct (d <? 0.1)%float end;
    [intros [= <-]; apply move_touch_refl|].
  destruct (py_div _ _) as [dir_x|x]; cbn [bind]; [|discriminate].
  destruct (py_div _ _) as [dir_y|x]; cbn [bind]; [|discriminate].
  intros [= <-]. split; [destruct u; reflexivity|congruence].
Qed.

Lemma move_body_touch (dt : float) (u u' : Unit) (w w' : unit) :
  (let! v := move_unit dt u in Ok (v, w)) = Ok (u', w') -> move_touch u u'.
Proof.
  destruct (move_unit dt u) as [v|x] eqn:Hm; cbn [bind]; [|discriminate].
  intros [= <- _]. eapply move_unit_touch, Hm.
Qed.

(** *** Phase 3: spotting *)

Lemma spot_body_touch (d t t' : Unit) (w w' : unit) :
  spot_body d t w = Ok (t', w') -> spotting_touch t t'.
Proof.
  unfold spot_body.
  destruct (Side_eqb _ _); [intros [= <- _]; apply spotting_touch_refl|].
  destruct (_can_detect d t) as [[|]|x]; cbn [bind]; [| |discriminate].
  - intros [= <- _]. destruct t; reflexivity.
  - intros [= <- _]. apply spotting_touch_refl.
Qed.

Lemma clear_spotting_touch (us : Units) :
  units_rel spotting_touch us (clear_spotting us).
Proof.
  induction us as [|[k u] us IH]; cbn; constructor; [|exact IH].
  split; [reflexivity|]. destruct u; reflexivity.
Qed.

Lemma spot_loop_touch (n i : nat) (us : Units) :
  units_rel spotting_touch us (spot_loop n i us).2.
Proof.
  revert i us. induction n as [|n IH]; intros i us; cbn [spot_loop].
  - apply units_rel_refl, spotting_touch_refl.
  - destruct (us !! i) as [[k d]|]; [|apply units_rel_refl, spotting_touch_refl].
    destruct (routed d); [apply IH|].
    pose proof (for_units_rel spotting_touch (spot_body d) spotting_touch_refl
                  (fun u w u' w' => spot_body_touch d u u' w w') us tt) as H1.
    destruct (for_units (spot_body d) us tt) as [[[[]|x] us'] w']; cbn in H1.
    + eapply units_rel_trans; [apply spotting_touch_trans|exact H1|apply IH].
    + exact H1.
Qed.

(** *** Phase 5: combat *)

Lemma combat_pair_touch (acc decay : float) (now : Z) (sid tid : string)
    (us : Units) (rng : DRNG) :
  units_rel combat_touch us (combat_pair acc decay now sid tid us rng).1.2.
Proof.
  unfold combat_pair.
  destruct (dict_get sid us) as [s|] eqn:Hs;
    [|apply units_rel_refl, combat_touch_refl].
  destruct (dict_get tid us) as [t|] eqn:Ht;
    [|apply units_rel_refl, combat_touch_refl].
  destruct (routed s || (hp t <=? 0)%float) eqn:Hskip;
    [apply units_rel_refl, combat_touch_refl|].
  apply orb_false_elim in Hskip as [Hr _].
  destruct (get_type s) as [sT|x]; cbn [bind];
    [|apply units_rel_refl, combat_touch_refl].
  destruct (py_div _ decay) as [q|x]; cbn [bind];
    [|apply units_rel_refl, combat_touch_refl].
  set (s' := set_last_fire_time now (set_ammo (ammo s - 1) s)).
  assert (Hs' : combat_touch s s').
  { split; [destruct s; reflexivity|]. split; [destruct s; cbn; lia|congruence]. }
  assert (H1 : units_rel combat_touch us (dict_put sid s' us))
    by (eapply units_rel_put; eauto using combat_touch_refl).
  destruct (bernoulli _ rng) as [[|] rng1]; cbn [fst snd]; [|exact H1].
  set (t1 := if String.eqb sid tid then s' else t).
  destruct (_calculate_damage s' t1 (damage sT)) as [dmg|x]; cbn [fst snd]; [|exact H1].
  assert (Ht1 : dict_get tid (dict_put sid s' us) = Some t1).
  { subst t1. destruct (String.eqb sid tid) eqn:E.
    - apply String.eqb_eq in E. subst tid. eapply dict_get_put_same; eauto.
    - apply String.eqb_neq in E. now rewrite dict_get_put_other. }
  eapply units_rel_trans; [apply combat_touch_trans|exact H1|].
  eapply units_rel_put; eauto using combat_touch_refl.
  split; [destruct t1; reflexivity|]. split; [destruct t1; cbn; lia|].
  intros _. destruct t1; cbn; auto.
Qed.

Lemma combat_loop_touch (acc decay : float) (now : Z) (targets : list (string * string))
    (us : Units) (rng : DRNG) :
  units_rel combat_touch us (combat_loop acc decay now targets us rng).1.2.
Proof.
  revert us rng. induction targets as [|[sid tid] rest IH]; intros us rng; cbn [combat_loop].
  - apply units_rel_refl, combat_touch_refl.
  - pose proof (combat_pair_touch acc decay now sid tid us rng) as H1.
    destruct (combat_pair acc decay now sid tid us rng) as [[[evts|x] us1] rng1];
      cbn in H1; [|exact H1].
    specialize (IH us1 rng1).
    destruct (combat_loop acc decay now rest us1 rng1) as [[r us2] rng2].
    cbn in *. eapply units_rel_trans; eauto using combat_touch_trans.
Qed.

(** *** Phase 6: morale *)

Lemma morale_unit_touch (now : Z) (u u' : Unit) (w w' : DRNG * list Event.t) :
  morale_unit now u w = Ok (u', w') -> morale_touch u u'.
Proof.
  unfold morale_unit. destruct (routed u) eqn:Hr;
    [intros [= <- _]; apply morale_touch_refl|].
  destruct (get_type u) as [T|x]; cbn [bind]; [|discriminate].
  destruct (py_div _ _) as [pct|x]; cbn [bind]; [|discriminate].
  destruct (pct <? 0.3)%float; [|intros [= <- _]; apply morale_touch_refl].
  destruct (bernoulli 0.5 w.1) as [[|] rng'].
  - intros [= <- _]. split; [destruct u; reflexivity|congruence].
  - intros [= <- _]. apply morale_touch_refl.
Qed.

(** *** The phases on the engine *)

Lemma _apply_orders_now_eq (e : Engine) :
  _apply_orders_now e
  = (Ok (apply_orders_loop (ts_ms (state e)) (_pending_orders e) (units (state e))).1,
     with_pending []
       (with_units (apply_orders_loop (ts_ms (state e)) (_pending_orders e)
                      (units (state e))).2 e)).
Proof. unfold _apply_orders_now. now destruct (apply_orders_loop _ _ _). Qed.

Lemma _move_touch (dt_ms : Z) (e : Engine) :
  exists us, (_move dt_ms e).2 = with_units us e
             /\ units_rel move_touch (units (state e)) us.
Proof.
  unfold _move. destruct (int_to_float dt_ms) as [ms|x]; cbn [snd].
  - pose proof (for_units_rel move_touch
                  (fun u (w : unit) => let! u' := move_unit (ms / 1000.0) u in Ok (u', w))
                  move_touch_refl) as H.
    specialize (H (fun u w u' w' => move_body_touch (ms / 1000.0) u u' w w')
                  (units (state e)) tt).
    destruct (for_units _ _ _) as [[r us] w]. cbn in *. eauto.
  - exists (units (state e)). split; [destruct e as [[] ? ? ? ?]; reflexivity|].
    apply units_rel_refl, move_touch_refl.
Qed.

Lemma _update_spotting_touch (e : Engine) :
  exists us, (_update_spotting e).2 = with_units us e
             /\ units_rel spotting_touch (units (state e)) us.
Proof.
  unfold _update_spotting.
  pose proof (spot_loop_touch (length (clear_spotting (units (state e)))) 0
                (clear_spotting (units (state e)))) as H.
  destruct (spot_loop _ _ _) as [r us]. cbn in *. exists us. split; [reflexivity|].
  eapply units_rel_trans; [apply spotting_touch_trans|apply clear_spotting_touch|exact H].
Qed.

Lemma _combat_touch (dt_ms : Z) (targets : list (string * string)) (e : Engine) :
  exists us rng, (_combat dt_ms targets e).2 = with_rng rng (with_units us e)
                 /\ units_rel combat_touch (units (state e)) us.
Proof.
  unfold _combat.
  pose proof (combat_loop_touch (base_acc e) (decay_m e) (ts_ms (state e)) targets
                (units (state e)) (_rng e)) as H.
  destruct (combat_loop _ _ _ _ _ _) as [[r us] rng]. cbn in *. eauto.
Qed.

Lemma _morale_touch (e : Engine) :
  exists us rng, (_morale e).2 = with_rng rng (with_units us e)
                 /\ units_rel morale_touch (units (state e)) us.
Proof.
  unfold _morale.
  pose proof (for_units_rel morale_touch (morale_unit (ts_ms (state e)))
                morale_touch_refl
                (fun u w u' w' => morale_unit_touch (ts_ms (state e)) u u' w w')
                (units (state e)) (_rng e, [])) as H.
  destruct (for_units _ _ _) as [[r us] [rng evts]]. cbn in *. eauto.
Qed.

Lemma units_with_units (us : Units) (e : Engine) : units (state (with_units us e)) = us.
Proof. reflexivity. Qed.

Lemma units_with_rng (r : DRNG) (e : Engine) :
  units (state (with_rng r e)) = units (state e).
Proof. reflexivity. Qed.

Lemma units_with_ts_ms (t : Z) (e : Engine) :
  units (state (with_ts_ms t e)) = units (state e).
Proof. reflexivity. Qed.

(** Whatever a step does, and wherever it may stop, the units it leaves are
    reached from the units it found by the five writing phases in order (a
    phase that was not reached writes nothing). *)
Lemma step_phases (dt_ms : Z) (e : Engine) :
  exists us1 us2 us3 us5 : Units,
    us1 = (apply_orders_loop (ts_ms (state e)) (_pending_orders e) (units (state e))).2
    /\ units_rel orders_touch (units (state e)) us1
    /\ units_rel move_touch us1 us2
    /\ units_rel spotting_touch us2 us3
    /\ (us5 = us3
        \/ exists targets,
             find_targets_loop (ts_ms (state e)) us3 us3 [] = Ok targets
             /\ us5 = (combat_loop (base_acc e) (decay_m e) (ts_ms (state e))
                                   targets us3 (_rng e)).1.2)
    /\ units_rel morale_touch us5 (units (state (step dt_ms e).2)).
Proof.
  pose proof (apply_orders_loop_touch (ts_ms (state e)) (_pending_orders e)
                (units (state e))) as H1.
  unfold step, bindM. rewrite _apply_orders_now_eq.
  set (us1 := (apply_orders_loop _ _ _).2) in *.
  set (e1 := with_pending [] (with_units us1 e)).
  exists us1.
  destruct (_move_touch dt_ms e1) as (us2 & E2 & H2).
  destruct (_move dt_ms e1) as [r2 e2]. cbn [snd] in E2. subst e2.
  exists us2.
  destruct r2 as [ev2|x]; cbn [snd].
  2:{ exists us2, us2. repeat split; auto;
        apply units_rel_refl; auto using spotting_touch_refl, morale_touch_refl. }
  destruct (_update_spotting_touch (with_units us2 e1)) as (us3 & E3 & H3).
  destruct (_update_spotting (with_units us2 e1)) as [r3 e3]. cbn [snd] in E3. subst e3.
  exists us3.
  destruct r3 as [ev3|x]; cbn [snd].
  2:{ exists us3. repeat split; auto;
        apply units_rel_refl; auto using morale_touch_refl. }
  set (e3 := with_units us3 (with_units us2 e1)).
  unfold _find_targets at 1.
  change (ts_ms (state e3)) with (ts_ms (state e)).
  change (units (state e3)) with us3.
  destruct (find_targets_loop (ts_ms (state e)) us3 us3 []) as [targets|x] eqn:Hft;
    cbn [snd].
  2:{ exists us3. repeat split; auto;
        apply units_rel_refl; auto using morale_touch_refl. }
  unfold _combat at 1.
  change (ts_ms (state e3)) with (ts_ms (state e)).
  change (units (state e3)) with us3.
  change (base_acc e3) with (base_acc e). change (decay_m e3) with (decay_m e).
  change (_rng e3) with (_rng e).
  destruct (combat_loop (base_acc e) (decay_m e) (ts_ms (state e)) targets us3 (_rng e))
    as [[r5 us5] rng5] eqn:Hc.
  exists us5.
  assert (C5 : us5 = us3
               \/ exists tg,
                    Ok targets = Ok tg
                    /\ us5 = (combat_loop (base_acc e) (decay_m e) (ts_ms (state e))
                                          tg us3 (_rng e)).1.2).
  { right. exists targets. split; [reflexivity|]. now rewrite Hc. }
  destruct r5 as [ev5|x]; cbn [snd].
  2:{ repeat split; auto. apply units_rel_refl; auto using morale_touch_refl. }
  set (e5 := with_rng rng5 (with_units us5 e3)).
  destruct (_morale_touch e5) as (us6 & rng6 & E6 & H6).
  destruct (_morale e5) as [r6 e6]. cbn [snd] in E6. subst e6.
  destruct r6 as [ev6|x]; cbn [snd]; repeat split; auto.
Qed.

Lemma step_touch (dt_ms : Z) (e : Engine) :
  exists us1 us2 us3 us5 : Units,
    us1 = (apply_orders_loop (ts_ms (state e)) (_pending_orders e) (units (state e))).2
    /\ units_rel orders_touch (units (state e)) us1
    /\ units_rel move_touch us1 us2
    /\ units_rel spotting_touch us2 us3
    /\ units_rel combat_touch us3 us5
    /\ units_rel morale_touch us5 (units (state (step dt_ms e).2)).
Proof.
  destruct (step_phases dt_ms e) as (us1 & us2 & us3 & us5 & H1 & H2 & H3 & H4 & H5 & H6).
  exists us1, us2, us3, us5. repeat split; auto.
  destruct H5 as [->|(tg & _ & ->)].
  - apply units_rel_refl, combat_touch_refl.
  - apply combat_loop_touch.
Qed.

(** A step that returns went through every phase. *)
Lemma step_ok_inv (dt_ms : Z) (e e' : Engine) (evts : list Event.t) :
  step dt_ms e = (Ok evts, e') ->
  exists ev1 e1 e2 e3 targets ev5 e5 ev6 e6,
    _apply_orders_now e = (Ok ev1, e1)
    /\ _move dt_ms e1 = (Ok [], e2)
    /\ _update_spotting e2 = (Ok [], e3)
    /\ _find_targets e3 = (Ok targets, e3)
    /\ _combat dt_ms targets e3 = (Ok ev5, e5)
    /\ _morale e5 = (Ok ev6, e6)
    /\ evts = ev1 ++ ev5 ++ ev6
    /\ e' = with_ts_ms (ts_ms (state e6) + dt_ms) e6.
Proof.
  unfold step, bindM. rewrite _apply_orders_now_eq.
  set (ev1 := (apply_orders_loop _ _ _).1). set (e1 := with_pending [] _).
  destruct (_move dt_ms e1) as [[ev2|x] e2] eqn:H2; [|discriminate].
  destruct (_update_spotting e2) as [[ev3|x] e3] eqn:H3; [|discriminate].
  destruct (_find_targets e3) as [[targets|x] e3'] eqn:H4; [|discriminate].
  destruct (_combat dt_ms targets e3') as [[ev5|x] e5] eqn:H5; [|discriminate].
  destruct (_morale e5) as [[ev6|x] e6] eqn:H6; [|discriminate].
  intros [= <- <-].
  assert (ev2 = []) as ->.
  { revert H2. unfold _move. destruct (int_to_float dt_ms); [|discriminate].
    destruct (for_units _ _ _) as [[[[]|?] ?] ?]; cbn; congruence. }
  assert (ev3 = []) as ->.
  { revert H3. unfold _update_spotting.
    destruct (spot_loop _ _ _) as [[[]|?] ?]; cbn; congruence. }
  assert (e3' = e3) as -> by (revert H4; unfold _find_targets; congruence).
  exists ev1, e1, e2, e3, targets, ev5, e5, ev6, e6. repeat split; auto.
Qed.

(** *** One exchange of fire, case by case *)

Lemma combat_pair_inv (acc decay : float) (now : Z) (sid tid : string)
    (us us' : Units) (rng rng' : DRNG) (r : result (list Event.t)) :
  combat_pair acc decay now sid tid us rng = (r, us', rng') ->
  (us' = us /\ rng' = rng /\ (r = Ok [] \/ exists x, r = Raise x))
  \/ exists s t sT q,
       dict_get sid us = Some s /\ dict_get tid us = Some t
       /\ routed s = false /\ (hp t <=? 0)%float = false
       /\ get_type s = Ok sT
       /\ py_div (- distance_2d (pos s) (pos t)) decay = Ok q
       /\ let dist := distance_2d (pos s) (pos t) in
          let p := py_max 0.0 (py_min 0.95 (acc * math_exp q)%float) in
          let shot := ShotFired now (id s) (id t) dist p
                                (WeaponType_value (weapon_type sT)) in
          let s' := set_last_fire_time now (set_ammo (ammo s - 1) s) in
          let us1 := dict_put sid s' us in
          let t1 := if String.eqb sid tid then s' else t in
          rng' = (bernoulli p rng).2
          /\ dict_get tid us1 = Some t1
          /\ (((bernoulli p rng).1 = false /\ r = Ok [shot] /\ us' = us1)
              \/ ((bernoulli p rng).1 = true
                  /\ exists x, _calculate_damage s' t1 (damage sT) = Raise x
                               /\ r = Raise x /\ us' = us1)
              \/ ((bernoulli p rng).1 = true
                  /\ exists d, _calculate_damage s' t1 (damage sT) = Ok d
                     /\ let t' := set_hp (hp t1 - d)%float t1 in
                        r = Ok ([shot; Damage now (id t') d (hp t') (id s')]
                                ++ (if (hp t' <=? 0)%float
                                    then [Destroyed now (id t') (id s')] else []))
                        /\ us' = dict_put tid t' us1)).
Proof.
  unfold combat_pair.
  destruct (dict_get sid us) as [s|] eqn:Hs; [|intros [= <- <- <-]; left; auto].
  destruct (dict_get tid us) as [t|] eqn:Ht; [|intros [= <- <- <-]; left; auto].
  destruct (routed s || (hp t <=? 0)%float) eqn:Hskip; [intros [= <- <- <-]; left; auto|].
  apply orb_false_elim in Hskip as [Hr Hhp].
  destruct (get_type s) as [sT|x] eqn:HsT; cbn [bind];
    [|intros [= <- <- <-]; left; eauto].
  destruct (py_div _ decay) as [q|x] eqn:Hq; cbn [bind];
    [|intros [= <- <- <-]; left; eauto].
  intros H. right. exists s, t, sT, q. repeat (split; [reflexivity || assumption|]).
  cbv zeta.
  set (s' := set_last_fire_time now (set_ammo (ammo s - 1) s)) in *.
  set (t1 := if String.eqb sid tid then s' else t) in *.
  assert (Ht1 : dict_get tid (dict_put sid s' us) = Some t1).
  { subst t1. destruct (String.eqb sid tid) eqn:E.
    - apply String.eqb_eq in E. subst tid. eapply dict_get_put_same; eauto.
    - apply String.eqb_neq in E. now rewrite dict_get_put_other. }
  destruct (bernoulli _ rng) as [[|] rng1]; cbn [fst snd] in *.
  - destruct (_calculate_damage s' t1 (damage sT)) as [d|x] eqn:Hd.
    + injection H as <- <- <-. split; [reflexivity|]. split; [assumption|].
      right. right. split; [reflexivity|]. exists d. auto.
    + injection H as <- <- <-. split; [reflexivity|]. split; [assumption|].
      right. left. split; [reflexivity|]. exists x. auto.
  - injection H as <- <- <-. split; [reflexivity|]. split; [assumption|]. left. auto.
Qed.

(** *** Attributes a phase leaves alone *)

Lemma orders_touch_fields (a b : Unit) :
  orders_touch a b ->
  id b = id a /\ side b = side a /\ unit_type_id b = unit_type_id a
  /\ pos b = pos a /\ hp b = hp a /\ ammo b = ammo a /\ routed b = routed a
  /\ last_fire_time b = last_fire_time a /\ spotted_by b = spotted_by a.
Proof. intros [E _]. rewrite E. destruct a. cbn. repeat split. Qed.

Lemma move_touch_fields (a b : Unit) :
  move_touch a b ->
  id b = id a /\ side b = side a /\ unit_type_id b = unit_type_id a
  /\ hp b = hp a /\ ammo b = ammo a /\ routed b = routed a
  /\ target_id b = target_id a /\ intent_target_pos b = intent_target_pos a
  /\ last_fire_time b = last_fire_time a /\ spotted_by b = spotted_by a.
Proof. intros [E _]. rewrite E. destruct a. cbn. repeat split. Qed.

Lemma spotting_touch_fields (a b : Unit) :
  spotting_touch a b ->
  id b = id a /\ side b = side a /\ unit_type_id b = unit_type_id a
  /\ pos b = pos a /\ hp b = hp a /\ ammo b = ammo a /\ routed b = routed a
  /\ target_id b = target_id a /\ intent_target_pos b = intent_target_pos a
  /\ last_fire_time b = last_fire_time a.
Proof. intros E. rewrite E. destruct a. cbn. repeat split. Qed.

Lemma combat_touch_fields (a b : Unit) :
  combat_touch a b ->
  id b = id a /\ side b = side a /\ unit_type_id b = unit_type_id a
  /\ pos b = pos a /\ routed b = routed a
  /\ target_id b = target_id a /\ intent_target_pos b = intent_target_pos a
  /\ spotted_by b = spotted_by a.
Proof. intros [E _]. rewrite E. destruct a. cbn. repeat split. Qed.

Lemma morale_touch_fields (a b : Unit) :
  morale_touch a b ->
  id b = id a /\ side b = side a /\ unit_type_id b = unit_type_id a
  /\ pos b = pos a /\ hp b = hp a /\ ammo b = ammo a
  /\ target_id b = target_id a /\ intent_target_pos b = intent_target_pos a
  /\ last_fire_time b = last_fire_time a /\ spotted_by b = spotted_by a.
Proof. intros [E _]. rewrite E. destruct a. cbn. repeat split. Qed.

Lemma keyed_by_id_get (us : Units) (k : string) (u : Unit) :
  keyed_by_id us -> dict_get k us = Some u -> id u = k.
Proof.
  intros Hk Hget. apply dict_get_elem_of in Hget.
  unfold keyed_by_id in Hk. rewrite Forall_forall in Hk. exact (Hk _ Hget).
Qed.

Lemma keyed_by_id_rel (R : Unit -> Unit -> Prop) (us us' : Units) :
  (forall a b, R a b -> id b = id a) ->
  units_rel R us us' -> keyed_by_id us -> keyed_by_id us'.
Proof.
  intros HR H. unfold keyed_by_id.
  induction H as [|[k u] [k' u'] us us' [Hk Hu] _ IH]; intros Hkeyed; [constructor|].
  apply Forall_cons in Hkeyed as [H1 H2]. constructor; [|auto].
  cbn in *. rewrite (HR _ _ Hu). congruence.
Qed.

Lemma keys_unique_rel (R : Unit -> Unit -> Prop) (us us' : Units) :
  units_rel R us us' -> keys_unique us -> keys_unique us'.
Proof. intros H. unfold keys_unique. now rewrite (units_rel_keys _ _ _ H). Qed.

Lemma dict_get_put (k k' : string) (v : Unit) (d : Units) :
  dict_get k' (dict_put k v d)
  = if String.eqb k k'
    then match dict_get k d with Some _ => Some v | None => None end
    else dict_get k' d.
Proof.
  destruct (String.eqb_spec k k') as [<-|Hne].
  - destruct (dict_get k d) as [v0|] eqn:E.
    + eapply dict_get_put_same, E.
    + now rewrite dict_get_put_none.
  - now apply dict_get_put_other.
Qed.

(** *** Events of the order phase *)

Lemma apply_order_events (now : Z) (o : Order.t) (us : Units) (ev : Event.t) :
  ev ∈ (apply_order now o us).1 ->
  has_kind "OrderAccepted" ev = true
  /\ Event.ts_ms ev = now
  /\ exists u, dict_get (Order.unit_id o) us = Some u /\ routed u = false
               /\ forall k, names_unit "unit_id" k ev = String.eqb (id u) k.
Proof.
  unfold apply_order.
  destruct (dict_get (Order.unit_id o) us) as [u|] eqn:Hget; [|intros H; inversion H].
  destruct (routed u) eqn:Hr; [intros H; inversion H|].
  assert (Hid : forall p, id (set_intent_target_pos p u) = id u) by (destruct u; reflexivity).
  assert (Hid' : forall p, id (set_target_id p u) = id u) by (destruct u; reflexivity).
  assert (Hid'' : id (set_target_id None (set_intent_target_pos None u)) = id u)
    by (destruct u; reflexivity).
  destruct (Order.kind o).
  - destruct (Order.target_pos o); cbn [fst]; [|intros H; inversion H].
    intros ->%list_elem_of_singleton. rewrite Hid. repeat split; eauto.
  - destruct (Order.target_unit_id o) as [t|]; cbn [fst]; [|intros H; inversion H].
    destruct (String.eqb t ""); cbn [fst]; [intros H; inversion H|].
    intros ->%list_elem_of_singleton. rewrite Hid'. repeat split; eauto.
  - cbn [fst]. intros ->%list_elem_of_singleton. rewrite Hid''. repeat split; eauto.
Qed.

Lemma apply_orders_loop_kinds (now : Z) (os : list Order.t) (us : Units) :
  Forall (fun ev => has_kind "OrderAccepted" ev = true /\ Event.ts_ms ev = now)
         (apply_orders_loop now os us).1.
Proof.
  revert us. induction os as [|o os IH]; intros us; cbn; [constructor|].
  pose proof (apply_order_events now o us) as H1.
  destruct (apply_order now o us) as [evts us1]. cbn in H1.
  specialize (IH us1). destruct (apply_orders_loop now os us1) as [evts' us2]. cbn in *.
  apply Forall_app. split; [|exact IH].
  apply Forall_forall. intros ev Hev. destruct (H1 ev Hev) as (? & ? & _). auto.
Qed.

(** A routed unit accepts no order. *)
Lemma apply_orders_loop_routed (now : Z) (os : list Order.t) (us : Units)
    (k : string) (u : Unit) :
  keyed_by_id us -> dict_get k us = Some u -> routed u = true ->
  Forall (fun ev => names_unit "unit_id" k ev = false) (apply_orders_loop now os us).1.
Proof.
  revert us. induction os as [|o os IH]; intros us Hkeyed Hget Hr; cbn; [constructor|].
  pose proof (apply_order_events now o us) as H1.
  pose proof (apply_order_touch now o us) as H2.
  destruct (apply_order now o us) as [evts us1]. cbn in H1, H2.
  assert (Hkeyed1 : keyed_by_id us1).
  { eapply keyed_by_id_rel; [|exact H2|exact Hkeyed].
    intros a b Hab. now apply orders_touch_fields in Hab as (? & _). }
  destruct (units_rel_get _ _ _ _ _ H2 Hget) as (u1 & Hget1 & [_ Hsame]).
  rewrite (Hsame Hr) in Hget1.
  specialize (IH us1 Hkeyed1 Hget1 Hr).
  destruct (apply_orders_loop now os us1) as [evts' us2]. cbn in *.
  apply Forall_app. split; [|exact IH].
  apply Forall_forall. intros ev Hev.
  destruct (H1 ev Hev) as (_ & _ & v & Hv & Hrv & Hname).
  rewrite Hname. apply String.eqb_neq. intros Hid.
  rewrite (keyed_by_id_get _ _ _ Hkeyed Hv) in Hid. subst k. congruence.
Qed.

(** *** Events and ammunition of the combat phase *)

Lemma shots_by_app (k : string) (a b : list Event.t) :
  shots_by k (a ++ b) = shots_by k a + shots_by k b.
Proof. unfold shots_by. rewrite List.filter_app, length_app. lia. Qed.

Lemma shots_by_nonneg (k : string) (evts : list Event.t) : 0 <= shots_by k evts.
Proof. unfold shots_by. lia. Qed.

Lemma shots_by_zero (k : string) (evts : list Event.t) :
  shots_by k evts = 0 <-> Forall (fun ev => is_shot_by k ev = false) evts.
Proof.
  unfold shots_by. induction evts as [|ev evts IH]; cbn.
  - split; [constructor|reflexivity].
  - rewrite Forall_cons. destruct (is_shot_by k ev); cbn [length].
    + split; [lia|intros [? _]; discriminate].
    + rewrite IH. tauto.
Qed.

Lemma combat_pair_kinds (acc decay : float) (now : Z) (sid tid : string)
    (us us' : Units) (rng rng' : DRNG) (evts : list Event.t) :
  combat_pair acc decay now sid tid us rng = (Ok evts, us', rng') ->
  Forall (fun ev => is_combat_kind ev = true /\ Event.ts_ms ev = now) evts.
Proof.
  intros H. apply combat_pair_inv in H as [(_ & _ & [[= ->]|[x [=]]])|H]; [constructor|].
  destruct H as (s & t & sT & q & _ & _ & _ & _ & _ & _ & H). cbv zeta in H.
  destruct H as (_ & _ & [(_ & [= ->] & _)|[(_ & x & _ & [=] & _)|(_ & d & _ & [= ->] & _)]]).
  - repeat constructor.
  - destruct (_ <=? 0)%float; repeat constructor.
Qed.

Lemma combat_loop_kinds (acc decay : float) (now : Z) (targets : list (string * string))
    (us us' : Units) (rng rng' : DRNG) (evts : list Event.t) :
  combat_loop acc decay now targets us rng = (Ok evts, us', rng') ->
  Forall (fun ev => is_combat_kind ev = true /\ Event.ts_ms ev = now) evts.
Proof.
  revert us rng evts us' rng'.
  induction targets as [|[sid tid] rest IH]; intros us rng evts us' rng';
    cbn [combat_loop].
  - intros [= <- _ _]. constructor.
  - destruct (combat_pair acc decay now sid tid us rng) as [[[ev1|x] us1] rng1] eqn:H1;
      [|discriminate].
    destruct (combat_loop acc decay now rest us1 rng1) as [[[ev2|x] us2] rng2] eqn:H2;
      cbn [bind]; [|discriminate].
    intros [= <- _ _]. apply Forall_app. split.
    + eapply combat_pair_kinds, H1.
    + eapply IH, H2.
Qed.

(** Ammunition after one exchange, whether or not it raised: only the
    shooter's can have changed, by one round. *)
Lemma combat_pair_ammo_any (acc decay : float) (now : Z) (sid tid : string)
    (us us' : Units) (rng rng' : DRNG) (r : result (list Event.t))
    (k : string) (u : Unit) :
  combat_pair acc decay now sid tid us rng = (r, us', rng') ->
  dict_get k us = Some u ->
  exists u', dict_get k us' = Some u'
             /\ (ammo u' = ammo u \/ (k = sid /\ ammo u' = ammo u - 1)).
Proof.
  intros H Hget. apply combat_pair_inv in H as [(-> & _ & _)|H]; [eauto|].
  destruct H as (s & t & sT & q & Hs & Ht & _ & _ & _ & _ & H). cbv zeta in H.
  set (s' := set_last_fire_time now (set_ammo (ammo s - 1) s)) in *.
  set (t1 := if String.eqb sid tid then s' else t) in *.
  destruct H as (_ & Ht1 & H).
  assert (H1 : exists u1, dict_get k (dict_put sid s' us) = Some u1
                 /\ (ammo u1 = ammo u \/ (k = sid /\ ammo u1 = ammo u - 1))).
  { rewrite dict_get_put. destruct (String.eqb_spec sid k) as [<-|Hne].
    - rewrite Hs. exists s'. split; [reflexivity|]. right. split; [reflexivity|].
      rewrite Hs in Hget. injection Hget as <-. subst s'. destruct s; reflexivity.
    - eauto. }
  destruct H as [(_ & _ & ->)|[(_ & x & _ & _ & ->)|(_ & d & _ & H)]]; [exact H1|exact H1|].
  cbv zeta in H. destruct H as [_ ->].
  destruct H1 as (u1 & Hu1 & Hammo).
  rewrite dict_get_put. destruct (String.eqb_spec tid k) as [<-|Hne]; [|eauto].
  rewrite Ht1. rewrite Ht1 in Hu1. injection Hu1 as <-.
  eexists. split; [reflexivity|]. destruct t1; exact Hammo.
Qed.

(** Ammunition after one exchange that returned, against its events. *)
Lemma combat_pair_ammo (acc decay : float) (now : Z) (sid tid : string)
    (us us' : Units) (rng rng' : DRNG) (evts : list Event.t)
    (k : string) (u : Unit) :
  keyed_by_id us ->
  combat_pair acc decay now sid tid us rng = (Ok evts, us', rng') ->
  dict_get k us = Some u ->
  exists u', dict_get k us' = Some u' /\ ammo u' = ammo u - shots_by k evts.
Proof.
  intros Hkeyed H Hget.
  destruct (combat_pair_ammo_any _ _ _ _ _ _ _ _ _ _ k u H Hget) as (u' & Hu' & Hammo).
  exists u'. split; [exact Hu'|].
  apply combat_pair_inv in H as [(-> & _ & [[= ->]|[x [=]]])|H].
  { rewrite Hget in Hu'. injection Hu' as <-. unfold shots_by. cbn. lia. }
  destruct H as (s & t & sT & q & Hs & Ht & _ & _ & _ & _ & H). cbv zeta in H.
  pose proof (keyed_by_id_get _ _ _ Hkeyed Hs) as Hid.
  set (s' := set_last_fire_time now (set_ammo (ammo s - 1) s)) in *.
  set (t1 := if String.eqb sid tid then s' else t) in *.
  destruct H as (_ & Ht1 & H).
  assert (Hshot : forall tail,
            Forall (fun ev => has_kind "ShotFired" ev = false) tail ->
            shots_by k (ShotFired now (id s) (id t) (distance_2d (pos s) (pos t))
                          (py_max 0.0 (py_min 0.95 (acc * math_exp q)%float))
                          (WeaponType_value (weapon_type sT)) :: tail)
            = if String.eqb sid k then 1 else 0).
  { intros tail Htail. change (?x :: tail) with ([x] ++ tail). rewrite shots_by_app.
    replace (shots_by k tail) with 0.
    - unfold shots_by, is_shot_by. cbn. rewrite Hid. destruct (String.eqb sid k); reflexivity.
    - symmetry. apply shots_by_zero. eapply Forall_impl; [exact Htail|].
      intros ev Hev. unfold is_shot_by. now rewrite Hev. }
  assert (Hcount : shots_by k evts = if String.eqb sid k then 1 else 0).
  { destruct H as [(_ & [= ->] & _)|[(_ & x & _ & [=] & _)|(_ & d & _ & H)]].
    - apply Hshot. constructor.
    - cbv zeta in H. destruct H as [[= ->] _]. cbn [app]. apply Hshot.
      destruct (_ <=? 0)%float; repeat constructor. }
  rewrite Hcount.
  assert (Hput : dict_get k (dict_put sid s' us)
                 = Some (if String.eqb sid k then s' else u)).
  { rewrite dict_get_put. destruct (String.eqb sid k) eqn:E; [now rewrite Hs|exact Hget]. }
  assert (Hfinal : exists u1, dict_get k us' = Some u1
             /\ ammo u1 = ammo (if String.eqb sid k then s' else u)).
  { destruct H as [(_ & _ & ->)|[(_ & x & _ & [=] & _)|(_ & d & _ & H)]]; [eauto|].
    cbv zeta in H. destruct H as [_ ->].
    rewrite dict_get_put. destruct (String.eqb_spec tid k) as [<-|Hne]; [|eauto].
    rewrite Ht1. rewrite Ht1 in Hput. injection Hput as Hput.
    eexists. split; [reflexivity|]. rewrite <- Hput. destruct t1; reflexivity. }
  destruct Hfinal as (u1 & Hu1 & Hammo1). rewrite Hu' in Hu1. injection Hu1 as <-.
  rewrite Hammo1. destruct (String.eqb_spec sid k) as [<-|Hne]; [|lia].
  rewrite Hs in Hget. injection Hget as <-. subst s'. destruct s; cbn. lia.
Qed.

Lemma combat_pair_keyed (acc decay : float) (now : Z) (sid tid : string)
    (us : Units) (rng : DRNG) :
  keyed_by_id us -> keyed_by_id (combat_pair acc decay now sid tid us rng).1.2.
Proof.
  intros H. eapply keyed_by_id_rel; [|apply combat_pair_touch|exact H].
  intros a b Hab. now apply combat_touch_fields in Hab as (? & _).
Qed.

Lemma combat_loop_ammo (acc decay : float) (now : Z) (targets : list (string * string))
    (us us' : Units) (rng rng' : DRNG) (evts : list Event.t)
    (k : string) (u : Unit) :
  keyed_by_id us ->
  combat_loop acc decay now targets us rng = (Ok evts, us', rng') ->
  dict_get k us = Some u ->
  exists u', dict_get k us' = Some u' /\ ammo u' = ammo u - shots_by k evts.
Proof.
  revert us rng evts us' rng' u.
  induction targets as [|[sid tid] rest IH]; intros us rng evts us' rng' u Hkeyed;
    cbn [combat_loop].
  - intros [= <- <- _] Hget. exists u. split; [exact Hget|]. unfold shots_by. cbn. lia.
  - pose proof (combat_pair_keyed acc decay now sid tid us rng Hkeyed) as Hkeyed1.
    destruct (combat_pair acc decay now sid tid us rng) as [[[ev1|x] us1] rng1] eqn:H1;
      [|discriminate].
    destruct (combat_loop acc decay now rest us1 rng1) as [[[ev2|x] us2] rng2] eqn:H2;
      cbn [bind]; [|discriminate].
    intros [= <- <- <-] Hget. cbn in Hkeyed1.
    destruct (combat_pair_ammo _ _ _ _ _ _ _ _ _ _ k u Hkeyed H1 Hget) as (u1 & Hu1 & A1).
    destruct (IH _ _ _ _ _ u1 Hkeyed1 H2 Hu1) as (u2 & Hu2 & A2).
    exists u2. split; [exact Hu2|]. rewrite shots_by_app. lia.
Qed.

Lemma combat_loop_ammo_any (acc decay : float) (now : Z) (targets : list (string * string))
    (us : Units) (rng : DRNG) (k : string) (u : Unit) :
  NoDup targets.*1 ->
  dict_get k us = Some u ->
  exists u', dict_get k (combat_loop acc decay now targets us rng).1.2 = Some u'
             /\ (ammo u' = ammo u \/ (k ∈ targets.*1 /\ ammo u' = ammo u - 1)).
Proof.
  revert us rng u.
  induction targets as [|[sid tid] rest IH]; intros us rng u Hnd Hget; cbn [combat_loop].
  - cbn. eauto.
  - cbn [fmap list_fmap fst] in Hnd. apply NoDup_cons in Hnd as [Hsid Hnd].
    destruct (combat_pair acc decay now sid tid us rng) as [[r1 us1] rng1] eqn:H1.
    destruct (combat_pair_ammo_any _ _ _ _ _ _ _ _ _ _ k u H1 Hget) as (u1 & Hu1 & A1).
    destruct r1 as [ev1|x]; cbn [fst snd].
    2:{ exists u1. split; [exact Hu1|]. destruct A1 as [?|[-> ?]]; [auto|].
        right. split; [left|assumption]. }
    destruct (IH us1 rng1 u1 Hnd Hu1) as (u2 & Hu2 & A2).
    destruct (combat_loop acc decay now rest us1 rng1) as [[r2 us2] rng2].
    cbn [fst snd] in *. exists u2. split; [exact Hu2|].
    destruct A1 as [E1|[-> E1]], A2 as [E2|[Hin E2]].
    + left. lia.
    + right. split; [right; exact Hin|lia].
    + right. split; [left|lia].
    + contradiction.
Qed.

(** *** Events of the morale phase *)

Lemma morale_unit_events (now : Z) (u u' : Unit) (w w' : DRNG * list Event.t) :
  morale_unit now u w = Ok (u', w') ->
  exists new, w'.2 = w.2 ++ new
              /\ Forall (fun ev => has_kind "Routed" ev = true /\ Event.ts_ms ev = now) new.
Proof.
  unfold morale_unit. destruct (routed u);
    [intros [= _ <-]; exists []; split; [now rewrite app_nil_r|constructor]|].
  destruct (get_type u) as [T|x]; cbn [bind]; [|discriminate].
  destruct (py_div _ _) as [pct|x]; cbn [bind]; [|discriminate].
  destruct (pct <? 0.3)%float;
    [|intros [= _ <-]; exists []; split; [now rewrite app_nil_r|constructor]].
  destruct (bernoulli 0.5 w.1) as [[|] rng'].
  - intros [= _ <-]. eexists. split; [reflexivity|]. repeat constructor.
  - intros [= _ <-]. exists []. split; [now rewrite app_nil_r|constructor].
Qed.

Lemma morale_loop_events (now : Z) (us : Units) (w : DRNG * list Event.t) :
  exists new, (for_units (morale_unit now) us w).2.2 = w.2 ++ new
              /\ Forall (fun ev => has_kind "Routed" ev = true /\ Event.ts_ms ev = now) new.
Proof.
  revert w. induction us as [|[k u] us IH]; intros w; cbn [for_units].
  - exists []. split; [now rewrite app_nil_r|constructor].
  - destruct (morale_unit now u w) as [[u' w']|x] eqn:Hm.
    + destruct (morale_unit_events _ _ _ _ _ Hm) as (new1 & E1 & F1).
      destruct (IH w') as (new2 & E2 & F2).
      destruct (for_units (morale_unit now) us w') as [[r rest] w''].
      cbn [fst snd] in *. exists (new1 ++ new2). split.
      * rewrite E2, E1. now rewrite app_assoc.
      * apply Forall_app. auto.
    + cbn. exists []. split; [now rewrite app_nil_r|constructor].
Qed.

Lemma _morale_kinds (e e' : Engine) (evts : list Event.t) :
  _morale e = (Ok evts, e') ->
  Forall (fun ev => has_kind "Routed" ev = true /\ Event.ts_ms ev = ts_ms (state e)) evts.
Proof.
  unfold _morale.
  destruct (morale_loop_events (ts_ms (state e)) (units (state e)) (_rng e, []))
    as (new & E & F).
  destruct (for_units _ _ _) as [[r us] [rng evs]]. cbn [fst snd] in *.
  destruct r as [[]|x]; cbn [bind]; [|discriminate].
  intros [= <- _]. now subst evs.
Qed.

(* ===================================================================== *)
(** ** Order of the events of a step *)
(* ===================================================================== *)

Lemma precedes_all_app (P Q : Event.t -> bool) (l1 l2 : list Event.t) :
  Forall (fun ev => Q ev = false) l1 ->
  Forall (fun ev => P ev = false) l2 ->
  precedes_all P Q (l1 ++ l2).
Proof.
  intros H1 H2 i j a b Hi Hj Pa Qb.
  rewrite Forall_forall in H1, H2.
  apply lookup_app_Some in Hi as [Hi|[Hlen Hi]].
  2:{ apply list_elem_of_lookup_2 in Hi. rewrite (H2 _ Hi) in Pa. discriminate. }
  apply lookup_app_Some in Hj as [Hj|[Hlen Hj]].
  { apply list_elem_of_lookup_2 in Hj. rewrite (H1 _ Hj) in Qb. discriminate. }
  apply lookup_lt_Some in Hi. lia.
Qed.

Lemma order_kind_exclusive (ev : Event.t) :
  has_kind "OrderAccepted" ev = true ->
  is_combat_kind ev = false /\ has_kind "Routed" ev = false.
Proof.
  unfold is_combat_kind, has_kind. intros H%String.eqb_eq. rewrite H. split; reflexivity.
Qed.

Lemma combat_kind_exclusive (ev : Event.t) :
  is_combat_kind ev = true ->
  has_kind "OrderAccepted" ev = false /\ has_kind "Routed" ev = false.
Proof.
  unfold is_combat_kind, has_kind.
  intros [[H|H]%orb_true_iff|H]%orb_true_iff; apply String.eqb_eq in H; rewrite H;
    split; reflexivity.
Qed.

Lemma routed_kind_exclusive (ev : Event.t) :
  has_kind "Routed" ev = true ->
  has_kind "OrderAccepted" ev = false /\ is_combat_kind ev = false.
Proof.
  unfold is_combat_kind, has_kind. intros H%String.eqb_eq. rewrite H. split; reflexivity.
Qed.

(** C6: the events a step returns are the events of order application,
    then those of movement and spotting (none), then those of combat, then
    those of morale, each phase's in the order it produced them; so every
    OrderAccepted event precedes every ShotFired, Damage and Destroyed event,
    and each of those precedes every Routed event. *)
Theorem step_event_order (dt_ms : Z) (e e' : Engine) (evts : list Event.t) :
  step dt_ms e = (Ok evts, e') ->
  exists orders_evts move_evts spotting_evts combat_evts morale_evts
         e1 e2 e3 targets e5 e6,
    _apply_orders_now e = (Ok orders_evts, e1)
    /\ _move dt_ms e1 = (Ok move_evts, e2)
    /\ _update_spotting e2 = (Ok spotting_evts, e3)
    /\ _find_targets e3 = (Ok targets, e3)
    /\ _combat dt_ms targets e3 = (Ok combat_evts, e5)
    /\ _morale e5 = (Ok morale_evts, e6)
    /\ evts = orders_evts ++ move_evts ++ spotting_evts ++ combat_evts ++ morale_evts
    /\ Forall (fun ev => has_kind "OrderAccepted" ev = true) orders_evts
    /\ move_evts = [] /\ spotting_evts = []
    /\ Forall (fun ev => is_combat_kind ev = true) combat_evts
    /\ Forall (fun ev => has_kind "Routed" ev = true) morale_evts
    /\ precedes_all (has_kind "OrderAccepted") is_combat_kind evts
    /\ precedes_all (has_kind "OrderAccepted") (has_kind "Routed") evts
    /\ precedes_all is_combat_kind (has_kind "Routed") evts.
Proof.
  intros H.
  destruct (step_ok_inv _ _ _ _ H)
    as (ev1 & e1 & e2 & e3 & targets & ev5 & e5 & ev6 & e6
        & H1 & H2 & H3 & H4 & H5 & H6 & -> & _).
  assert (K1 : Forall (fun ev => has_kind "OrderAccepted" ev = true) ev1).
  { rewrite _apply_orders_now_eq in H1. injection H1 as <- _.
    eapply Forall_impl; [apply apply_orders_loop_kinds|]. now intros ev [? _]. }
  assert (K5 : Forall (fun ev => is_combat_kind ev = true) ev5).
  { revert H5. unfold _combat.
    destruct (combat_loop _ _ _ _ _ _) as [[r us] rng] eqn:Hc. intros [= -> _].
    eapply Forall_impl; [eapply combat_loop_kinds, Hc|]. now intros ev [? _]. }
  assert (K6 : Forall (fun ev => has_kind "Routed" ev = true) ev6).
  { eapply Forall_impl; [eapply _morale_kinds, H6|]. now intros ev [? _]. }
  exists ev1, [], [], ev5, ev6, e1, e2, e3, targets, e5, e6.
  repeat (split; [assumption || reflexivity|]).
  cbn [app]. split; [|split].
  - apply precedes_all_app.
    + eapply Forall_impl; [exact K1|]. intros ev Hev. now apply order_kind_exclusive.
    + apply Forall_app. split.
      * eapply Forall_impl; [exact K5|]. intros ev Hev. now apply combat_kind_exclusive.
      * eapply Forall_impl; [exact K6|]. intros ev Hev. now apply routed_kind_exclusive.
  - apply precedes_all_app.
    + eapply Forall_impl; [exact K1|]. intros ev Hev. now apply order_kind_exclusive.
    + apply Forall_app. split.
      * eapply Forall_impl; [exact K5|]. intros ev Hev. now apply combat_kind_exclusive.
      * eapply Forall_impl; [exact K6|]. intros ev Hev. now apply routed_kind_exclusive.
  - rewrite app_assoc. apply precedes_all_app.
    + apply Forall_app. split.
      * eapply Forall_impl; [exact K1|]. intros ev Hev. now apply order_kind_exclusive.
      * eapply Forall_impl; [exact K5|]. intros ev Hev. now apply combat_kind_exclusive.
    + eapply Forall_impl; [exact K6|]. intros ev Hev. now apply routed_kind_exclusive.
Qed.

(* ===================================================================== *)
(** ** Targeting *)
(* ===================================================================== *)

Lemma _can_fire_at_ammo (attacker target : Unit) (now : Z) :
  _can_fire_at attacker target now = Ok true -> 0 < ammo attacker.
Proof.
  unfold _can_fire_at.
  destruct (get_type attacker) as [T|x]; cbn [bind]; [|discriminate].
  destruct (int_to_float _) as [el|x]; cbn [bind]; [|discriminate].
  destruct (_ <? reload_time_s T)%float; [discriminate|].
  destruct (Z.leb_spec (ammo attacker) 0); [discriminate|]. auto.
Qed.

Lemma scan_targets_spec (now : Z) (u : Unit) (cands : Units)
    (best : option string) (best_dist : float) (t : string) :
  scan_targets now u cands best best_dist = Ok (Some t) ->
  best = Some t
  \/ exists tu, (t, tu) ∈ cands
                /\ Side_eqb (side u) (side tu) = false
                /\ (hp tu <=? 0)%float = false
                /\ _can_fire_at u tu now = Ok true.
Proof.
  revert best best_dist. induction cands as [|[t_id tu] rest IH]; intros best best_dist;
    cbn [scan_targets].
  - intros [= ->]. now left.
  - assert (Hrest : forall b d,
              scan_targets now u rest b d = Ok (Some t) ->
              b = Some t \/ exists tu0, (t, tu0) ∈ (t_id, tu) :: rest
                /\ Side_eqb (side u) (side tu0) = false
                /\ (hp tu0 <=? 0)%float = false
                /\ _can_fire_at u tu0 now = Ok true).
    { intros b d Hs. destruct (IH b d Hs) as [?|(tu0 & Hin & ?)]; [now left|].
      right. exists tu0. split; [now right|assumption]. }
    destruct (Side_eqb (side u) (side tu) || (hp tu <=? 0)%float) eqn:Hskip;
      [apply Hrest|].
    apply orb_false_elim in Hskip as [Hside Hhp].
    destruct (_can_fire_at u tu now) as [[|]|x] eqn:Hfire; cbn [bind];
      [| apply Hrest | discriminate].
    destruct (_ <? best_dist)%float; [|apply Hrest].
    intros Hs. destruct (Hrest _ _ Hs) as [[= ->]|?]; [|now right].
    right. exists tu. split; [left|auto].
Qed.

Lemma dict_setitem_elem_of {V} (k : string) (v : V) (d : list (string * V)) (a : string * V) :
  a ∈ dict_setitem k v d -> a = (k, v) \/ a ∈ d.
Proof.
  induction d as [|[k' v'] d IH]; cbn.
  - intros ->%list_elem_of_singleton. now left.
  - destruct (String.eqb_spec k k') as [<-|Hne].
    + intros [->|H]%elem_of_cons; [now left|]. right. now right.
    + intros [->|H]%elem_of_cons; [right; left|].
      destruct (IH H) as [?|?]; [now left|]. right. now right.
Qed.

Lemma dict_setitem_keys {V} (k : string) (v : V) (d : list (string * V)) (s : string) :
  s ∈ (dict_setitem k v d).*1 <-> s = k \/ s ∈ d.*1.
Proof.
  induction d as [|[k' v'] d IH]; cbn.
  - rewrite list_elem_of_singleton. split; [auto|]. intros [?|H]; [auto|inversion H].
  - destruct (String.eqb_spec k k') as [<-|Hne]; cbn; rewrite !elem_of_cons.
    + tauto.
    + rewrite IH. tauto.
Qed.

Lemma dict_setitem_NoDup {V} (k : string) (v : V) (d : list (string * V)) :
  NoDup d.*1 -> NoDup (dict_setitem k v d).*1.
Proof.
  induction d as [|[k' v'] d IH]; cbn.
  - intros _. repeat constructor. intros H. inversion H.
  - intros [Hk' Hnd]%NoDup_cons. destruct (String.eqb_spec k k') as [<-|Hne]; cbn.
    + now apply NoDup_cons.
    + apply NoDup_cons. split; [|auto]. rewrite dict_setitem_keys. intros [?|?]; congruence.
Qed.

(** Every pair the targeting phase returns was chosen by a unit that is not
    routed and may fire at a living opponent. *)
Lemma find_targets_loop_spec (now : Z) (all us : Units)
    (targets0 targets : list (string * string)) :
  find_targets_loop now all us targets0 = Ok targets ->
  NoDup targets0.*1 ->
  NoDup targets.*1
  /\ forall s t, (s, t) ∈ targets ->
       (s, t) ∈ targets0
       \/ exists u tu, (s, u) ∈ us /\ routed u = false
                       /\ (t, tu) ∈ all
                       /\ Side_eqb (side u) (side tu) = false
                       /\ (hp tu <=? 0)%float = false
                       /\ _can_fire_at u tu now = Ok true.
Proof.
  revert targets0. induction us as [|[u_id u] rest IH]; intros targets0;
    cbn [find_targets_loop].
  - intros [= <-] Hnd. split; [exact Hnd|]. intros s t H. now left.
  - assert (Hrest : forall tg0,
              find_targets_loop now all rest tg0 = Ok targets -> NoDup tg0.*1 ->
              NoDup targets.*1
              /\ forall s t, (s, t) ∈ targets ->
                   (s, t) ∈ tg0
                   \/ exists u0 tu, (s, u0) ∈ (u_id, u) :: rest /\ routed u0 = false
                         /\ (t, tu) ∈ all
                         /\ Side_eqb (side u0) (side tu) = false
                         /\ (hp tu <=? 0)%float = false
                         /\ _can_fire_at u0 tu now = Ok true).
    { intros tg0 Hl Hnd. destruct (IH tg0 Hl Hnd) as [N S]. split; [exact N|].
      intros s t Hin. destruct (S s t Hin) as [?|(u0 & tu & Hu0 & ?)]; [now left|].
      right. exists u0, tu. split; [now right|assumption]. }
    destruct (routed u) eqn:Hr; [apply Hrest|].
    destruct (scan_targets now u all None infinity) as [[t_id|]|x] eqn:Hscan;
      cbn [bind]; [| apply Hrest | discriminate].
    destruct (String.eqb t_id ""); [apply Hrest|].
    intros Hl Hnd.
    destruct (Hrest _ Hl (dict_setitem_NoDup _ _ _ Hnd)) as [N S]. split; [exact N|].
    intros s t Hin. destruct (S s t Hin) as [Hset|?]; [|now right].
    apply dict_setitem_elem_of in Hset as [[= -> ->]|?]; [|now left].
    right. apply scan_targets_spec in Hscan as [[=]|(tu & ? & ? & ? & ?)].
    exists u, tu. split; [left|auto].
Qed.

(* ===================================================================== *)
(** ** Ammunition *)
(* ===================================================================== *)

Lemma elem_of_keys_inv {V} (k : string) (d : list (string * V)) :
  k ∈ d.*1 -> exists v, (k, v) ∈ d.
Proof.
  intros ([k' v] & -> & Hin)%list_elem_of_fmap. eauto.
Qed.

Lemma only_combat_kinds_no_order (k : string) (evts : list Event.t) :
  Forall (fun ev => has_kind "OrderAccepted" ev = true) evts -> shots_by k evts = 0.
Proof.
  intros H. apply shots_by_zero. eapply Forall_impl; [exact H|].
  intros ev Hev. unfold is_shot_by, has_kind in *.
  apply String.eqb_eq in Hev. now rewrite Hev.
Qed.

Lemma only_routed_kinds_no_shot (k : string) (evts : list Event.t) :
  Forall (fun ev => has_kind "Routed" ev = true) evts -> shots_by k evts = 0.
Proof.
  intros H. apply shots_by_zero. eapply Forall_impl; [exact H|].
  intros ev Hev. unfold is_shot_by, has_kind in *.
  apply String.eqb_eq in Hev. now rewrite Hev.
Qed.

Lemma early_touch_compose (us0 us1 us2 us3 : Units) :
  units_rel orders_touch us0 us1 -> units_rel move_touch us1 us2 ->
  units_rel spotting_touch us2 us3 -> units_rel early_touch us0 us3.
Proof.
  intros H1 H2 H3.
  assert (H12 : units_rel early_touch us0 us2).
  { apply (units_rel_trans orders_touch move_touch early_touch us0 us1 us2);
      [|exact H1|exact H2].
    intros a b c Hab Hbc.
    apply orders_touch_fields in Hab as (? & ? & ? & _ & ? & ? & ? & ? & _).
    apply move_touch_fields in Hbc as (? & ? & ? & ? & ? & ? & _ & _ & ? & _).
    repeat split; congruence. }
  apply (units_rel_trans early_touch spotting_touch early_touch us0 us2 us3);
    [|exact H12|exact H3].
  intros a b c (? & ? & ? & ? & ? & ? & ?) Hbc.
  apply spotting_touch_fields in Hbc as (? & ? & ? & _ & ? & ? & ? & _ & _ & ?).
  repeat split; congruence.
Qed.

(** The units as the combat phase finds them, when the step gets there. *)
Lemma step_units_before_combat (dt_ms : Z) (e : Engine) (k : string) (u : Unit) :
  dict_get k (units (state e)) = Some u ->
  exists us3 us5 u3 u5 u6,
    units_rel early_touch (units (state e)) us3
    /\ dict_get k us3 = Some u3 /\ early_touch u u3
    /\ (us5 = us3
        \/ exists targets,
             find_targets_loop (ts_ms (state e)) us3 us3 [] = Ok targets
             /\ us5 = (combat_loop (base_acc e) (decay_m e) (ts_ms (state e))
                                   targets us3 (_rng e)).1.2)
    /\ dict_get k us5 = Some u5 /\ combat_touch u3 u5
    /\ dict_get k (units (state (step dt_ms e).2)) = Some u6
    /\ morale_touch u5 u6.
Proof.
  intros Hget.
  destruct (step_phases dt_ms e) as (us1 & us2 & us3 & us5 & _ & H1 & H2 & H3 & H5 & H6).
  pose proof (early_touch_compose _ _ _ _ H1 H2 H3) as H13.
  destruct (units_rel_get _ _ _ _ _ H13 Hget) as (u3 & Hu3 & E3).
  assert (H35 : units_rel combat_touch us3 us5).
  { destruct H5 as [->|(tg & _ & ->)];
      [apply units_rel_refl, combat_touch_refl|apply combat_loop_touch]. }
  destruct (units_rel_get _ _ _ _ _ H35 Hu3) as (u5 & Hu5 & C5).
  destruct (units_rel_get _ _ _ _ _ H6 Hu5) as (u6 & Hu6 & M6).
  exists us3, us5, u3, u5, u6. repeat (split; [assumption|]). assumption.
Qed.

Lemma find_targets_shooter (now : Z) (us : Units) (targets : list (string * string))
    (s t : string) :
  find_targets_loop now us us [] = Ok targets -> (s, t) ∈ targets ->
  exists shooter target,
    (s, shooter) ∈ us /\ routed shooter = false /\ 0 < ammo shooter
    /\ (t, target) ∈ us /\ side shooter <> side target
    /\ (hp target <=? 0)%float = false.
Proof.
  intros Hl Hin.
  destruct (find_targets_loop_spec _ _ _ _ _ Hl (NoDup_nil_2)) as [_ S].
  destruct (S s t Hin) as [H|(u & tu & Hu & Hr & Htu & Hside & Hhp & Hfire)];
    [inversion H|].
  exists u, tu. repeat split; auto.
  - eapply _can_fire_at_ammo, Hfire.
  - intros E. rewrite E in Hside. destruct (side tu); discriminate.
Qed.

(** A step that returns, phase by phase on the units. *)
Lemma step_ok_units (dt_ms : Z) (e e' : Engine) (evts : list Event.t) :
  step dt_ms e = (Ok evts, e') ->
  exists ev1 ev5 ev6 us1 us2 us3 us5 rng5 targets ms,
    evts = ev1 ++ ev5 ++ ev6
    /\ (ev1, us1) = apply_orders_loop (ts_ms (state e)) (_pending_orders e) (units (state e))
    /\ int_to_float dt_ms = Ok ms
    /\ for_units (fun u (w : unit) => let! u' := move_unit (ms / 1000.0) u in Ok (u', w))
                 us1 tt = (Ok tt, us2, tt)
    /\ spot_loop (length us2) 0 (clear_spotting us2) = (Ok tt, us3)
    /\ find_targets_loop (ts_ms (state e)) us3 us3 [] = Ok targets
    /\ combat_loop (base_acc e) (decay_m e) (ts_ms (state e)) targets us3 (_rng e)
       = (Ok ev5, us5, rng5)
    /\ (exists rng6, for_units (morale_unit (ts_ms (state e))) us5 (rng5, [])
                     = (Ok tt, units (state e'), (rng6, ev6)))
    /\ ts_ms (state e') = ts_ms (state e) + dt_ms.
Proof.
  intros H.
  destruct (step_ok_inv _ _ _ _ H)
    as (ev1 & e1 & e2 & e3 & targets & ev5 & e5 & ev6 & e6
        & H1 & H2 & H3 & H4 & H5 & H6 & -> & ->).
  rewrite _apply_orders_now_eq in H1. injection H1 as <- <-.
  destruct (apply_orders_loop (ts_ms (state e)) (_pending_orders e) (units (state e)))
    as [ev1 us1] eqn:Hloop. cbn [fst snd] in *.
  revert H2. unfold _move.
  destruct (int_to_float dt_ms) as [ms|x] eqn:Hms; [|discriminate].
  cbn [units state with_pending with_units set_units].
  destruct (for_units _ us1 tt) as [[r2 us2] []] eqn:Hmove.
  destruct r2 as [[]|x]; cbn [bind]; [|discriminate]. intros [= <-].
  revert H3. unfold _update_spotting.
  cbn [units state with_pending with_units set_units].
  replace (length (clear_spotting us2)) with (length us2)
    by (unfold clear_spotting; now rewrite length_map).
  destruct (spot_loop _ 0 (clear_spotting us2)) as [r3 us3] eqn:Hspot.
  destruct r3 as [[]|x]; cbn [bind]; [|discriminate]. intros [= <-].
  revert H4. unfold _find_targets.
  cbn [units state with_pending with_units set_units ts_ms set_ts_ms].
  intros [= Hft].
  revert H5. unfold _combat.
  cbn [units state with_pending with_units set_units ts_ms set_ts_ms base_acc decay_m _rng].
  destruct (combat_loop _ _ _ _ _ _) as [[r5 us5] rng5] eqn:Hc. intros [= -> <-].
  revert H6. unfold _morale.
  cbn [units state with_pending with_units with_rng set_units ts_ms set_ts_ms _rng].
  destruct (for_units _ us5 _) as [[r6 us6] [rng6 evs6]] eqn:Hm.
  destruct r6 as [[]|x]; cbn [bind]; [|discriminate]. intros [= -> <-].
  exists ev1, ev5, ev6, us1, us2, us3, us5, rng5, targets, ms.
  repeat (split; [reflexivity || assumption|]).
  split; [|reflexivity]. exists rng6. exact Hm.
Qed.

Lemma step_ammo_accounting (dt_ms : Z) (e e' : Engine) (evts : list Event.t)
    (k : string) (u : Unit) :
  keyed_by_id (units (state e)) ->
  dict_get k (units (state e)) = Some u ->
  step dt_ms e = (Ok evts, e') ->
  exists u', dict_get k (units (state e')) = Some u'
             /\ ammo u' = ammo u - shots_by k evts.
Proof.
  intros Hkeyed Hget H.
  destruct (step_ok_units _ _ _ _ H)
    as (ev1 & ev5 & ev6 & us1 & us2 & us3 & us5 & rng5 & targets & ms
        & -> & Hloop & _ & Hmove & Hspot & _ & Hc & [rng6 Hm] & _).
  assert (H1 : units_rel orders_touch (units (state e)) us1).
  { pose proof (apply_orders_loop_touch (ts_ms (state e)) (_pending_orders e)
                  (units (state e))) as T. now rewrite <- Hloop in T. }
  assert (H2 : units_rel move_touch us1 us2).
  { pose proof (for_units_rel move_touch _ move_touch_refl
                  (fun u w u' w' => move_body_touch (ms / 1000.0) u u' w w') us1 tt) as T.
    now rewrite Hmove in T. }
  assert (H3 : units_rel spotting_touch us2 us3).
  { pose proof (spot_loop_touch (length us2) 0 (clear_spotting us2)) as T.
    rewrite Hspot in T. cbn in T.
    eapply units_rel_trans; [apply spotting_touch_trans|apply clear_spotting_touch|exact T]. }
  pose proof (early_touch_compose _ _ _ _ H1 H2 H3) as H13.
  assert (Hkeyed3 : keyed_by_id us3).
  { eapply keyed_by_id_rel; [|exact H13|exact Hkeyed]. now intros a b (? & _). }
  destruct (units_rel_get _ _ _ _ _ H13 Hget) as (u3 & Hu3 & (_ & _ & _ & _ & A3 & _)).
  destruct (combat_loop_ammo _ _ _ _ _ _ _ _ _ k u3 Hkeyed3 Hc Hu3) as (u5 & Hu5 & A5).
  assert (H6 : units_rel morale_touch us5 (units (state e'))).
  { pose proof (for_units_rel morale_touch _ morale_touch_refl
                  (fun u w u' w' => morale_unit_touch (ts_ms (state e)) u u' w w')
                  us5 (rng5, [])) as T.
    now rewrite Hm in T. }
  destruct (units_rel_get _ _ _ _ _ H6 Hu5) as (u6 & Hu6 & M6).
  apply morale_touch_fields in M6 as (_ & _ & _ & _ & _ & A6 & _).
  exists u6. split; [exact Hu6|].
  rewrite !shots_by_app.
  rewrite (only_combat_kinds_no_order k ev1).
  2:{ pose proof (apply_orders_loop_kinds (ts_ms (state e)) (_pending_orders e)
                    (units (state e))) as K. rewrite <- Hloop in K.
      eapply Forall_impl; [exact K|]. now intros ev [? _]. }
  rewrite (only_routed_kinds_no_shot k ev6).
  2:{ destruct (morale_loop_events (ts_ms (state e)) us5 (rng5, [])) as (new & E & F).
      rewrite Hm in E. cbn in E. subst ev6.
      eapply Forall_impl; [exact F|]. now intros ev [? _]. }
  lia.
Qed.

(** C5: across a step a unit's ammunition does not grow, drops by at most
    one round, and stays non-negative when it was; when the step returns,
    the drop equals the number of ShotFired events with the unit as shooter
    (hit or miss is not consulted); and the targeting phase only selects
    shooters whose ammunition is positive. *)
Theorem step_ammo (dt_ms : Z) (e : Engine) (k : string) (u : Unit) :
  keys_unique (units (state e)) ->
  keyed_by_id (units (state e)) ->
  dict_get k (units (state e)) = Some u ->
  exists u', dict_get k (units (state (step dt_ms e).2)) = Some u'
    /\ ammo u' <= ammo u
    /\ ammo u - 1 <= ammo u'
    /\ (0 <= ammo u -> 0 <= ammo u')
    /\ (forall evts, (step dt_ms e).1 = Ok evts -> ammo u' = ammo u - shots_by k evts)
    /\ (forall (e0 : Engine) targets s t,
          (_find_targets e0).1 = Ok targets -> (s, t) ∈ targets ->
          exists shooter, (s, shooter) ∈ units (state e0)
                          /\ routed shooter = false /\ 0 < ammo shooter).
Proof.
  intros Hunique Hkeyed Hget.
  destruct (step_units_before_combat dt_ms e k u Hget)
    as (us3 & us5 & u3 & u5 & u6 & H13 & Hu3 & E3 & H5 & Hu5 & C5 & Hu6 & M6).
  destruct E3 as (_ & _ & _ & _ & A3 & _).
  apply morale_touch_fields in M6 as (_ & _ & _ & _ & _ & A6 & _).
  assert (Hcombat : ammo u5 = ammo u3 \/ (0 < ammo u3 /\ ammo u5 = ammo u3 - 1)).
  { destruct H5 as [->|(tg & Hft & ->)].
    - left. congruence.
    - destruct (find_targets_loop_spec _ _ _ _ _ Hft NoDup_nil_2) as [Hnd _].
      destruct (combat_loop_ammo_any (base_acc e) (decay_m e) (ts_ms (state e))
                  tg us3 (_rng e) k u3 Hnd Hu3) as (u5' & Hu5' & [?|[Hin ?]]).
      + left. congruence.
      + right. split; [|congruence].
        apply elem_of_keys_inv in Hin as [t Hin].
        destruct (find_targets_shooter _ _ _ _ _ Hft Hin)
          as (shooter & _ & Hs & _ & Hpos & _).
        assert (Hunique3 : keys_unique us3) by (eapply keys_unique_rel; eauto).
        rewrite (dict_get_unique _ _ _ Hunique3 Hs) in Hu3. congruence. }
  exists u6. split; [exact Hu6|].
  split; [lia|]. split; [lia|]. split; [lia|]. split.
  - intros evts Hok. destruct (step dt_ms e) as [r e'] eqn:Hstep. cbn in Hok, Hu6. subst r.
    destruct (step_ammo_accounting _ _ _ _ k u Hkeyed Hget Hstep) as (u' & Hu' & A).
    congruence.
  - intros e0 targets s t Hft Hin. unfold _find_targets in Hft. cbn in Hft.
    destruct (find_targets_shooter _ _ _ _ _ Hft Hin) as (shooter & _ & ? & ? & ? & _).
    eauto.
Qed.

(* ===================================================================== *)
(** ** Routed units *)
(* ===================================================================== *)

Lemma frozen_refl (u : Unit) : routed u = true -> frozen u u.
Proof. intros H. repeat split; auto. Qed.

Lemma frozen_trans (a b c : Unit) : frozen a b -> frozen b c -> frozen a c.
Proof.
  intros (? & ? & ? & ? & ? & ? & ? & ? & ?) (? & ? & ? & ? & ? & ? & ? & ? & ?).
  repeat split; congruence.
Qed.

Lemma stays_routed_trans (a b c : Unit) :
  stays_routed a b -> stays_routed b c -> stays_routed a c.
Proof.
  intros Hab Hbc Hr. specialize (Hab Hr).
  eapply frozen_trans; [exact Hab|]. apply Hbc. apply Hab.
Qed.

Lemma orders_touch_routed (a b : Unit) : orders_touch a b -> stays_routed a b.
Proof. intros [_ H] Hr. rewrite (H Hr). now apply frozen_refl. Qed.

Lemma move_touch_routed (a b : Unit) : move_touch a b -> stays_routed a b.
Proof. intros [_ H] Hr. rewrite (H Hr). now apply frozen_refl. Qed.

Lemma spotting_touch_routed (a b : Unit) : spotting_touch a b -> stays_routed a b.
Proof.
  intros H Hr. apply spotting_touch_fields in H as (? & ? & ? & ? & ? & ? & ? & ? & ? & ?).
  repeat split; congruence.
Qed.

Lemma combat_touch_routed (a b : Unit) : combat_touch a b -> stays_routed a b.
Proof.
  intros H Hr. pose proof H as (_ & _ & Hq). destruct (Hq Hr) as [? ?].
  apply combat_touch_fields in H as (? & ? & ? & ? & ? & ? & ? & ?).
  repeat split; congruence.
Qed.

Lemma morale_touch_routed (a b : Unit) : morale_touch a b -> stays_routed a b.
Proof. intros [_ H] Hr. rewrite (H Hr). now apply frozen_refl. Qed.

Lemma step_stays_routed (dt_ms : Z) (e : Engine) :
  units_rel stays_routed (units (state e)) (units (state (step dt_ms e).2)).
Proof.
  destruct (step_touch dt_ms e) as (us1 & us2 & us3 & us5 & _ & H1 & H2 & H3 & H5 & H6).
  apply (units_rel_mono _ _ _ _ orders_touch_routed) in H1.
  apply (units_rel_mono _ _ _ _ move_touch_routed) in H2.
  apply (units_rel_mono _ _ _ _ spotting_touch_routed) in H3.
  apply (units_rel_mono _ _ _ _ combat_touch_routed) in H5.
  apply (units_rel_mono _ _ _ _ morale_touch_routed) in H6.
  pose proof stays_routed_trans as T.
  eapply units_rel_trans; [exact T|exact H1|].
  eapply units_rel_trans; [exact T|exact H2|].
  eapply units_rel_trans; [exact T|exact H3|].
  eapply units_rel_trans; [exact T|exact H5|exact H6].
Qed.

(** Identifiers, sides and types are never written. *)
Lemma step_static (dt_ms : Z) (e : Engine) :
  units_rel (fun a b => id b = id a /\ side b = side a
                        /\ unit_type_id b = unit_type_id a)
            (units (state e)) (units (state (step dt_ms e).2)).
Proof.
  destruct (step_touch dt_ms e) as (us1 & us2 & us3 & us5 & _ & H1 & H2 & H3 & H5 & H6).
  set (S := fun a b : Unit => id b = id a /\ side b = side a
                              /\ unit_type_id b = unit_type_id a).
  assert (T : forall a b c : Unit, S a b -> S b c -> S a c).
  { intros a b c (? & ? & ?) (? & ? & ?). repeat split; congruence. }
  apply (units_rel_mono _ S) in H1;
    [|intros a b H; apply orders_touch_fields in H as (? & ? & ? & _); now repeat split].
  apply (units_rel_mono _ S) in H2;
    [|intros a b H; apply move_touch_fields in H as (? & ? & ? & _); now repeat split].
  apply (units_rel_mono _ S) in H3;
    [|intros a b H; apply spotting_touch_fields in H as (? & ? & ? & _); now repeat split].
  apply (units_rel_mono _ S) in H5;
    [|intros a b H; apply combat_touch_fields in H as (? & ? & ? & _); now repeat split].
  apply (units_rel_mono _ S) in H6;
    [|intros a b H; apply morale_touch_fields in H as (? & ? & ? & _); now repeat split].
  eapply units_rel_trans; [exact T|exact H1|].
  eapply units_rel_trans; [exact T|exact H2|].
  eapply units_rel_trans; [exact T|exact H3|].
  eapply units_rel_trans; [exact T|exact H5|exact H6].
Qed.

Lemma step_keeps_dictionary (dt_ms : Z) (e : Engine) :
  keys_unique (units (state e)) -> keyed_by_id (units (state e)) ->
  keys_unique (units (state (step dt_ms e).2))
  /\ keyed_by_id (units (state (step dt_ms e).2)).
Proof.
  intros Hu Hk. pose proof (step_static dt_ms e) as H. split.
  - eapply keys_unique_rel; eauto.
  - eapply keyed_by_id_rel; [|exact H|exact Hk]. now intros a b (? & _).
Qed.

(** The targeting phase never selects a routed unit as a shooter. *)
Lemma find_targets_skips_routed (now : Z) (us : Units) (targets : list (string * string))
    (k : string) (u : Unit) :
  keys_unique us -> dict_get k us = Some u -> routed u = true ->
  find_targets_loop now us us [] = Ok targets -> k ∉ targets.*1.
Proof.
  intros Hunique Hget Hr Hft Hin.
  apply elem_of_keys_inv in Hin as [t Hin].
  destruct (find_targets_shooter _ _ _ _ _ Hft Hin) as (shooter & _ & Hs & Hrs & _).
  rewrite (dict_get_unique _ _ _ Hunique Hs) in Hget. congruence.
Qed.

(** *** Only units that are not routed detect *)

Lemma spot_body_adds (d t t' : Unit) (w w' : unit) :
  spot_body d t w = Ok (t', w') ->
  spotting_touch t t' /\ spotted_by t' ⊆ {[ id d ]} ∪ spotted_by t.
Proof.
  intros H. split; [eapply spot_body_touch, H|]. revert H. unfold spot_body.
  destruct (Side_eqb _ _); [intros [= <- _]; set_solver|].
  destruct (_can_detect d t) as [[|]|x]; cbn [bind]; [| |discriminate].
  - intros [= <- _]. destruct t; cbn. set_solver.
  - intros [= <- _]. set_solver.
Qed.

Lemma clear_spotting_get (us : Units) (k : string) (u : Unit) :
  dict_get k (clear_spotting us) = Some u -> spotted_by u = ∅.
Proof.
  induction us as [|[k' u'] us IH]; cbn; [discriminate|].
  destruct (String.eqb k k'); [|exact IH]. intros [= <-]. destruct u'; reflexivity.
Qed.

Lemma clear_spotting_active (us : Units) : spotters_active (clear_spotting us).
Proof.
  intros k u x Hget Hx. rewrite (clear_spotting_get _ _ _ Hget) in Hx. set_solver.
Qed.

Lemma spot_loop_active (n i : nat) (us : Units) :
  spotters_active us -> spotters_active (spot_loop n i us).2.
Proof.
  revert i us. induction n as [|n IH]; intros i us Hinv; cbn [spot_loop]; [exact Hinv|].
  destruct (us !! i) as [[kd d]|] eqn:Hi; [|exact Hinv].
  destruct (routed d) eqn:Hr; [now apply IH|].
  assert (Hsame : forall t : Unit,
            spotting_touch t t /\ spotted_by t ⊆ {[ id d ]} ∪ spotted_by t).
  { intros t. split; [apply spotting_touch_refl|set_solver]. }
  pose proof (for_units_rel
                (fun t t' => spotting_touch t t'
                             /\ spotted_by t' ⊆ {[ id d ]} ∪ spotted_by t)
                (spot_body d) Hsame
                (fun t w t' w' => spot_body_adds d t t' w w') us tt) as Hrel.
  clear Hsame.
  assert (Hinv' : spotters_active (for_units (spot_body d) us tt).1.2).
  { intros k2 u2' x Hget Hx.
    destruct (units_rel_get_inv _ _ _ _ _ Hrel Hget) as (u2 & Hget2 & _ & Hsub).
    assert (Hcase : x = id d \/ x ∈ spotted_by u2) by set_solver.
    destruct Hcase as [->|Hold].
    - destruct (units_rel_lookup _ _ _ _ _ _ Hrel Hi) as (d' & Hi' & Hd' & _).
      apply spotting_touch_fields in Hd' as (? & _ & _ & _ & _ & _ & ? & _).
      exists i, kd, d'. repeat split; congruence.
    - destruct (Hinv k2 u2 x Hget2 Hold) as (j & kj & dj & Hj & Hrj & Hidj).
      destruct (units_rel_lookup _ _ _ _ _ _ Hrel Hj) as (dj' & Hj' & Hdj' & _).
      apply spotting_touch_fields in Hdj' as (? & _ & _ & _ & _ & _ & ? & _).
      exists j, kj, dj'. repeat split; congruence. }
  destruct (for_units (spot_body d) us tt) as [[[[]|x] us'] w']; cbn [fst snd] in *.
  - now apply IH.
  - exact Hinv'.
Qed.

(** A routed unit is in nobody's spotted-by set once spotting has run. *)
Lemma routed_not_spotter (us : Units) (k : string) (u : Unit) :
  keys_unique us -> keyed_by_id us -> spotters_active us ->
  dict_get k us = Some u -> routed u = true ->
  forall k2 u2, dict_get k2 us = Some u2 -> k ∉ spotted_by u2.
Proof.
  intros Hunique Hkeyed Hinv Hget Hr k2 u2 Hget2 Hin.
  destruct (Hinv k2 u2 k Hget2 Hin) as (i & kd & d & Hi & Hrd & Hid).
  apply list_elem_of_lookup_2 in Hi.
  assert (kd = k).
  { unfold keyed_by_id in Hkeyed. rewrite Forall_forall in Hkeyed.
    specialize (Hkeyed _ Hi). cbn in Hkeyed. congruence. }
  subst kd. rewrite (dict_get_unique _ _ _ Hunique Hi) in Hget. congruence.
Qed.

Lemma step_ok_routed (dt_ms : Z) (e e' : Engine) (evts : list Event.t)
    (k : string) (u : Unit) :
  keys_unique (units (state e)) -> keyed_by_id (units (state e)) ->
  dict_get k (units (state e)) = Some u -> routed u = true ->
  step dt_ms e = (Ok evts, e') ->
  Forall (fun ev => is_order_accepted_for k ev = false /\ is_shot_by k ev = false) evts
  /\ forall k2 u2, dict_get k2 (units (state e')) = Some u2 -> k ∉ spotted_by u2.
Proof.
  intros Hunique Hkeyed Hget Hr Hstep.
  (* no shot: the ammunition did not move *)
  assert (Hshots : Forall (fun ev => is_shot_by k ev = false) evts).
  { apply shots_by_zero.
    destruct (step_ammo_accounting _ _ _ _ k u Hkeyed Hget Hstep) as (u' & Hu' & A).
    pose proof (step_stays_routed dt_ms e) as S. rewrite Hstep in S. cbn [snd] in S.
    destruct (units_rel_get _ _ _ _ _ S Hget) as (u'' & Hu'' & F).
    rewrite Hu' in Hu''. injection Hu'' as <-.
    destruct (F Hr) as (_ & _ & _ & _ & _ & A' & _). lia. }
  destruct (step_ok_units _ _ _ _ Hstep)
    as (ev1 & ev5 & ev6 & us1 & us2 & us3 & us5 & rng5 & targets & ms
        & -> & Hloop & _ & Hmove & Hspot & _ & Hc & [rng6 Hm] & _).
  assert (H1 : units_rel orders_touch (units (state e)) us1).
  { pose proof (apply_orders_loop_touch (ts_ms (state e)) (_pending_orders e)
                  (units (state e))) as T. now rewrite <- Hloop in T. }
  assert (H2 : units_rel move_touch us1 us2).
  { pose proof (for_units_rel move_touch _ move_touch_refl
                  (fun u w u' w' => move_body_touch (ms / 1000.0) u u' w w') us1 tt) as T.
    now rewrite Hmove in T. }
  assert (H3 : units_rel spotting_touch us2 us3).
  { pose proof (spot_loop_touch (length us2) 0 (clear_spotting us2)) as T.
    rewrite Hspot in T. cbn in T.
    eapply units_rel_trans; [apply spotting_touch_trans|apply clear_spotting_touch|exact T]. }
  assert (H5 : units_rel combat_touch us3 us5).
  { pose proof (combat_loop_touch (base_acc e) (decay_m e) (ts_ms (state e)) targets
                  us3 (_rng e)) as T. now rewrite Hc in T. }
  assert (H6 : units_rel morale_touch us5 (units (state e'))).
  { pose proof (for_units_rel morale_touch _ morale_touch_refl
                  (fun u w u' w' => morale_unit_touch (ts_ms (state e)) u u' w w')
                  us5 (rng5, [])) as T.
    now rewrite Hm in T. }
  split.
  - (* no order accepted *)
    assert (Horders : Forall (fun ev => is_order_accepted_for k ev = false)
                             (ev1 ++ ev5 ++ ev6)).
    { repeat apply Forall_app_2.
      - pose proof (apply_orders_loop_routed (ts_ms (state e)) (_pending_orders e)
                      (units (state e)) k u Hkeyed Hget Hr) as T.
        rewrite <- Hloop in T. cbn in T.
        eapply Forall_impl; [exact T|]. intros ev Hev. unfold is_order_accepted_for.
        rewrite Hev. apply andb_false_r.
      - eapply Forall_impl; [eapply combat_loop_kinds, Hc|]. intros ev [Hev _].
        unfold is_order_accepted_for.
        now rewrite (proj1 (combat_kind_exclusive ev Hev)).
      - destruct (morale_loop_events (ts_ms (state e)) us5 (rng5, [])) as (new & E & F).
        rewrite Hm in E. cbn in E. subst ev6.
        eapply Forall_impl; [exact F|]. intros ev [Hev _].
        unfold is_order_accepted_for.
        now rewrite (proj1 (routed_kind_exclusive ev Hev)). }
    rewrite Forall_forall in Horders, Hshots. apply Forall_forall. intros ev Hev. auto.
  - (* no detection *)
    pose proof (early_touch_compose _ _ _ _ H1 H2 H3) as H13.
    assert (Hunique3 : keys_unique us3) by (eapply keys_unique_rel; eauto).
    assert (Hkeyed3 : keyed_by_id us3).
    { eapply keyed_by_id_rel; [|exact H13|exact Hkeyed]. now intros a b (? & _). }
    destruct (units_rel_get _ _ _ _ _ H13 Hget) as (u3 & Hu3 & (_ & _ & _ & _ & _ & R3 & _)).
    assert (Hactive : spotters_active us3).
    { pose proof (spot_loop_active (length us2) 0 (clear_spotting us2)
                    (clear_spotting_active us2)) as T. now rewrite Hspot in T. }
    intros k2 u2 Hget2.
    destruct (units_rel_get_inv _ _ _ _ _ H6 Hget2) as (u2_5 & Hget5 & M).
    destruct (units_rel_get_inv _ _ _ _ _ H5 Hget5) as (u2_3 & Hget3 & C).
    apply morale_touch_fields in M as (_ & _ & _ & _ & _ & _ & _ & _ & _ & S6).
    apply combat_touch_fields in C as (_ & _ & _ & _ & _ & _ & _ & S5).
    rewrite S6, S5.
    eapply (routed_not_spotter us3 k u3); eauto.
Qed.

Lemma run_routed (e : Engine) (calls : list call) (k : string) (u : Unit) :
  keys_unique (units (state e)) -> keyed_by_id (units (state e)) ->
  dict_get k (units (state e)) = Some u -> routed u = true ->
  (exists u', dict_get k (units (state (run e calls).2)) = Some u' /\ frozen u u')
  /\ Forall (fun step_i : result (list Event.t) * Engine =>
               (exists u_i, dict_get k (units (state step_i.2)) = Some u_i
                            /\ frozen u u_i)
               /\ forall evts, step_i.1 = Ok evts ->
                    Forall (fun ev => is_order_accepted_for k ev = false
                                      /\ is_shot_by k ev = false) evts
                    /\ forall k2 u2, dict_get k2 (units (state step_i.2)) = Some u2 ->
                                     k ∉ spotted_by u2)
            (run e calls).1.
Proof.
  revert e u. induction calls as [|[os|dt] rest IH]; intros e u Hunique Hkeyed Hget Hr;
    cbn [run].
  - split; [|constructor]. exists u. split; [exact Hget|now apply frozen_refl].
  - apply IH; assumption.
  - destruct (step_keeps_dictionary dt e Hunique Hkeyed) as [Hunique' Hkeyed'].
    pose proof (step_stays_routed dt e) as S.
    pose proof (step_ok_routed dt e) as Hok.
    destruct (step dt e) as [r e'] eqn:Hstep. cbn [snd] in *.
    destruct (units_rel_get _ _ _ _ _ S Hget) as (u1 & Hu1 & F).
    specialize (F Hr). pose proof F as (Hr1 & _).
    destruct (IH e' u1 Hunique' Hkeyed' Hu1 Hr1) as [(u' & Hu' & F') Hlog].
    destruct (run e' rest) as [log e''] eqn:Hrun. cbn [fst snd] in *.
    split; [exists u'; split; [exact Hu'|eapply frozen_trans; eauto]|].
    constructor.
    + cbn [fst snd]. split; [eauto|].
      intros evts ->. eapply Hok; eauto.
    + eapply Forall_impl; [exact Hlog|].
      intros [r_i e_i] [(u_i & Hu_i & F_i) Hrest]. cbn [fst snd] in *.
      split; [|exact Hrest]. exists u_i. split; [exact Hu_i|eapply frozen_trans; eauto].
Qed.

(** C4: once a unit is routed, no sequence of [apply_orders] and [step]
    calls brings it back: after every later step it is still routed, where
    it was, with the intent, target, ammunition and fire time it had; no
    step accepts an order for it or reports a shot by it; after every step
    that returns it is in no unit's spotted-by set; and the targeting phase
    never selects it as a shooter. *)
Theorem routing_is_terminal (e : Engine) (calls : list call) (k : string) (u : Unit) :
  keys_unique (units (state e)) -> keyed_by_id (units (state e)) ->
  dict_get k (units (state e)) = Some u -> routed u = true ->
  (exists u', dict_get k (units (state (run e calls).2)) = Some u' /\ frozen u u')
  /\ Forall (fun step_i : result (list Event.t) * Engine =>
               (exists u_i, dict_get k (units (state step_i.2)) = Some u_i
                            /\ frozen u u_i)
               /\ forall evts, step_i.1 = Ok evts ->
                    Forall (fun ev => is_order_accepted_for k ev = false
                                      /\ is_shot_by k ev = false) evts
                    /\ forall k2 u2, dict_get k2 (units (state step_i.2)) = Some u2 ->
                                     k ∉ spotted_by u2)
            (run e calls).1
  /\ (forall (e0 : Engine) (u0 : Unit) targets,
        keys_unique (units (state e0)) ->
        dict_get k (units (state e0)) = Some u0 -> routed u0 = true ->
        (_find_targets e0).1 = Ok targets -> k ∉ targets.*1).
Proof.
  intros Hunique Hkeyed Hget Hr.
  destruct (run_routed e calls k u Hunique Hkeyed Hget Hr) as [Hend Hlog].
  split; [exact Hend|]. split; [exact Hlog|].
  intros e0 u0 targets Hu0 Hget0 Hr0 Hft.
  unfold _find_targets in Hft. cbn [fst] in Hft.
  exact (find_targets_skips_routed _ _ _ _ _ Hu0 Hget0 Hr0 Hft).
Qed.

(** The kinds of the events of a step that returns. *)
Lemma step_ok_kinds (dt_ms : Z) (e e' : Engine) (evts : list Event.t) :
  step dt_ms e = (Ok evts, e') ->
  exists ev1 ev5 ev6,
    evts = ev1 ++ ev5 ++ ev6
    /\ Forall (fun ev => has_kind "OrderAccepted" ev = true) ev1
    /\ Forall (fun ev => is_combat_kind ev = true) ev5
    /\ Forall (fun ev => has_kind "Routed" ev = true) ev6.
Proof.
  intros H.
  destruct (step_ok_units _ _ _ _ H)
    as (ev1 & ev5 & ev6 & us1 & us2 & us3 & us5 & rng5 & targets & ms
        & -> & Hloop & _ & _ & _ & _ & Hc & [rng6 Hm] & _).
  exists ev1, ev5, ev6. split; [reflexivity|]. split; [|split].
  - pose proof (apply_orders_loop_kinds (ts_ms (state e)) (_pending_orders e)
                  (units (state e))) as K. rewrite <- Hloop in K.
    eapply Forall_impl; [exact K|]. now intros ev [? _].
  - eapply Forall_impl; [eapply combat_loop_kinds, Hc|]. now intros ev [? _].
  - destruct (morale_loop_events (ts_ms (state e)) us5 (rng5, [])) as (new & E & F).
    rewrite Hm in E. cbn in E. subst ev6.
    eapply Forall_impl; [exact F|]. now intros ev [? _].
Qed.

(* ===================================================================== *)
(** ** Movement *)
(* ===================================================================== *)

Lemma for_units_ok_get {W} (body : Unit -> W -> result (Unit * W))
    (us us' : Units) (w w' : W) (k : string) (u : Unit) :
  for_units body us w = (Ok tt, us', w') ->
  dict_get k us = Some u ->
  exists u' w1 w2, body u w1 = Ok (u', w2) /\ dict_get k us' = Some u'.
Proof.
  revert us' w w'. induction us as [|[k0 u0] us IH]; intros us' w w'; cbn; [discriminate|].
  destruct (body u0 w) as [[u0' w0]|x] eqn:Hb; [|discriminate].
  destruct (for_units body us w0) as [[r rest] w''] eqn:Hrest.
  intros [= -> <- <-]. cbn. destruct (String.eqb k k0).
  - intros [= <-]. eauto.
  - intros Hget. eapply IH; eauto.
Qed.

(** The divisions of the movement loop cannot raise: they are reached only
    when the distance is not below 0.1, and zero is. *)
Lemma move_unit_spec (dt : float) (u : Unit) (T : UnitType) (tgt : Position) :
  get_type u = Ok T -> routed u = false -> intent_target_pos u = Some tgt ->
  let dx := (tgt.1 - (pos u).1)%float in
  let dy := (tgt.2 - (pos u).2)%float in
  let dist := sqrt (dx * dx + dy * dy)%float in
  let step_len := py_min (speed_mps T * dt)%float dist in
  move_unit dt u
  = Ok (if (dist <? 0.1)%float then u
        else set_pos (((pos u).1 + dx / dist * step_len)%float,
                      ((pos u).2 + dy / dist * step_len)%float) u).
Proof.
  intros HT Hr Hi. cbv zeta. unfold move_unit. rewrite Hi, Hr, HT. cbn [bind].
  match goal with |- context [(?d <? 0.1)%float] => destruct (d <? 0.1)%float eqn:Hd end;
    [reflexivity|].
  match type of Hd with (?d <? _)%float = _ =>
    assert (Hz : (d =? 0)%float = false)
  end.
  { match goal with |- ?b = false => destruct b eqn:E end; [|reflexivity].
    apply float_zero_below_tenth in E. congruence. }
  rewrite !py_div_nonzero by exact Hz. reflexivity.
Qed.

Lemma move_unit_needs_type (dt : float) (u u' : Unit) (tgt : Position) :
  routed u = false -> intent_target_pos u = Some tgt ->
  move_unit dt u = Ok u' -> exists T, get_type u = Ok T.
Proof.
  intros Hr Hi. unfold move_unit. rewrite Hi, Hr.
  destruct (get_type u) as [T|x]; cbn [bind]; [eauto|discriminate].
Qed.

(** C7: in a step that returns, a unit that is not routed and has an
    intent target (as order application left them) ends the step displaced
    from its position by [min(speed_mps * dt_ms/1000, dist)] along the unit
    vector [(dx/dist, dy/dist)] towards the target when the Euclidean
    distance [dist] is at least 0.1, and where it was when [dist] is below
    0.1; the movement phase returns no event, and the step's events are
    order, combat and morale events only. *)
Theorem step_movement (dt_ms : Z) (e e' : Engine) (evts : list Event.t)
    (k : string) (u : Unit) (tgt : Position) :
  step dt_ms e = (Ok evts, e') ->
  dict_get k (units (state (_apply_orders_now e).2)) = Some u ->
  routed u = false ->
  intent_target_pos u = Some tgt ->
  exists (ms : float) (T : UnitType) (u' : Unit),
    int_to_float dt_ms = Ok ms
    /\ get_type u = Ok T
    /\ dict_get k (units (state e')) = Some u'
    /\ let dx := (tgt.1 - (pos u).1)%float in
       let dy := (tgt.2 - (pos u).2)%float in
       let dist := distance_2d (pos u) tgt in
       let step_len := py_min (speed_mps T * (ms / 1000.0))%float dist in
       ((0.1 <=? dist)%float = true ->
          pos u' = (((pos u).1 + dx / dist * step_len)%float,
                    ((pos u).2 + dy / dist * step_len)%float))
       /\ ((dist <? 0.1)%float = true -> pos u' = pos u)
       /\ (_move dt_ms (_apply_orders_now e).2).1 = Ok []
       /\ Forall (fun ev => has_kind "OrderAccepted" ev || is_combat_kind ev
                            || has_kind "Routed" ev = true) evts.
Proof.
  intros Hstep Hget Hr Hi.
  destruct (step_ok_kinds _ _ _ _ Hstep) as (ev1' & ev5' & ev6' & Hevts & K1 & K5 & K6).
  destruct (step_ok_inv _ _ _ _ Hstep)
    as (ev0 & e1 & e2 & e3 & tg & ev05 & e5 & ev06 & e6 & P1 & P2 & _).
  destruct (step_ok_units _ _ _ _ Hstep)
    as (ev1 & ev5 & ev6 & us1 & us2 & us3 & us5 & rng5 & targets & ms
        & _ & Hloop & Hms & Hmove & Hspot & _ & Hc & [rng6 Hm] & _).
  rewrite _apply_orders_now_eq in Hget |- *. cbn [snd] in Hget |- *.
  rewrite <- Hloop in Hget. cbn [snd units state with_pending with_units set_units] in Hget.
  destruct (for_units_ok_get _ _ _ _ _ k u Hmove Hget) as (u2 & w1 & w2 & Hbody & Hu2).
  assert (Hmu : move_unit (ms / 1000.0) u = Ok u2).
  { destruct (move_unit (ms / 1000.0) u); cbn [bind] in Hbody; congruence. }
  destruct (move_unit_needs_type _ _ _ _ Hr Hi Hmu) as [T HT].
  assert (H3 : units_rel spotting_touch us2 us3).
  { pose proof (spot_loop_touch (length us2) 0 (clear_spotting us2)) as X.
    rewrite Hspot in X. cbn in X.
    eapply units_rel_trans; [apply spotting_touch_trans|apply clear_spotting_touch|exact X]. }
  assert (H5 : units_rel combat_touch us3 us5).
  { pose proof (combat_loop_touch (base_acc e) (decay_m e) (ts_ms (state e)) targets
                  us3 (_rng e)) as X. now rewrite Hc in X. }
  assert (H6 : units_rel morale_touch us5 (units (state e'))).
  { pose proof (for_units_rel morale_touch _ morale_touch_refl
                  (fun u w u' w' => morale_unit_touch (ts_ms (state e)) u u' w w')
                  us5 (rng5, [])) as X.
    now rewrite Hm in X. }
  destruct (units_rel_get _ _ _ _ _ H3 Hu2) as (u3 & Hu3 & S3).
  destruct (units_rel_get _ _ _ _ _ H5 Hu3) as (u5 & Hu5 & S5).
  destruct (units_rel_get _ _ _ _ _ H6 Hu5) as (u6 & Hu6 & S6).
  apply spotting_touch_fields in S3 as (_ & _ & _ & Q3 & _).
  apply combat_touch_fields in S5 as (_ & _ & _ & Q5 & _).
  apply morale_touch_fields in S6 as (_ & _ & _ & Q6 & _).
  assert (Hpos : pos u6 = pos u2) by congruence.
  exists ms, T, u6. repeat (split; [assumption|]).
  pose proof (move_unit_spec (ms / 1000.0) u T tgt HT Hr Hi) as Hspec.
  cbv zeta in Hspec |- *. rewrite Hmu in Hspec. injection Hspec as Hspec.
  unfold distance_2d. cbv zeta.
  split; [|split; [|split]].
  - intros Hfar. apply float_leb_not_ltb in Hfar.
    rewrite Hpos, Hspec, Hfar. reflexivity.
  - intros Hnear. rewrite Hpos, Hspec, Hnear. reflexivity.
  - rewrite _apply_orders_now_eq in P1. injection P1 as _ <-. now rewrite P2.
  - subst evts. repeat apply Forall_app_2.
    + eapply Forall_impl; [exact K1|]. intros ev ->. reflexivity.
    + eapply Forall_impl; [exact K5|]. intros ev ->. apply orb_true_iff. left.
      apply orb_true_r.
    + eapply Forall_impl; [exact K6|]. intros ev ->. apply orb_true_r.
Qed.



(* ===================================================================== *)
(** ** Damage *)
(* ===================================================================== *)

Lemma table_agrees (w : WeaponType) (a : Z) (b d : float) :
  table_4_2a w a b = Some d -> weapon_vs_armor w a b = d.
Proof.
  unfold table_4_2a, weapon_vs_armor.
  destruct (Z.ltb_spec a 0); [discriminate|].
  destruct w;
    repeat match goal with
           | |- context [Z.ltb ?x ?y] => destruct (Z.ltb_spec x y)
           | |- context [Z.leb ?x ?y] => destruct (Z.leb_spec x y)
           | |- context [Z.eqb ?x ?y] => destruct (Z.eqb_spec x y)
           end;
    try lia; congruence.
Qed.

Lemma table_covers (w : WeaponType) (a : Z) (b : float) :
  0 <= a -> table_4_2a w a b = Some (weapon_vs_armor w a b).
Proof.
  intros Ha. destruct (table_4_2a w a b) as [d|] eqn:E.
  - now rewrite (table_agrees _ _ _ _ E).
  - exfalso. revert E. unfold table_4_2a.
    destruct (Z.ltb_spec a 0); [lia|].
    destruct w; repeat case_match; discriminate.
Qed.

(** The catalogue: what a successful type lookup can return. *)
Lemma get_type_catalog (u : Unit) (T : UnitType) :
  get_type u = Ok T -> 0 <= armor T <= 3 /\ (max_hp T =? 0)%float = false.
Proof.
  unfold get_type, UNIT_TYPES. cbn [dict_get].
  repeat match goal with
         | |- context [String.eqb ?a ?b] => destruct (String.eqb a b)
         end;
    intros [= <-]; cbn; split; (lia || reflexivity).
Qed.

Lemma get_type_fired (now : Z) (a : Z) (s : Unit) :
  get_type (set_last_fire_time now (set_ammo a s)) = get_type s.
Proof. destruct s; reflexivity. Qed.

(** C3: when a shot hits, the damage is the base damage of the shooter's
    unit type scaled as the table of §4.2a says for the shooter's weapon and
    the target's armour; that amount is what [_calculate_damage] returns,
    what the Damage event reports and what the target's hit points lose.
    The comparisons in the code agree with the table on every armour level
    from 0 up. *)
Theorem damage_follows_table (acc decay : float) (now : Z) (sid tid : string)
    (us : Units) (rng : DRNG) (s t : Unit) (sT tT : UnitType) (q : float) :
  dict_get sid us = Some s -> dict_get tid us = Some t -> sid <> tid ->
  routed s = false -> (hp t <=? 0)%float = false ->
  get_type s = Ok sT -> get_type t = Ok tT ->
  py_div (- distance_2d (pos s) (pos t)) decay = Ok q ->
  (bernoulli (py_max 0.0 (py_min 0.95 (acc * math_exp q)%float)) rng).1 = true ->
  exists (d : float) (evts : list Event.t) (us' : Units) (rng' : DRNG),
    table_4_2a (weapon_type sT) (armor tT) (damage sT) = Some d
    /\ _calculate_damage s t (damage sT) = Ok d
    /\ combat_pair acc decay now sid tid us rng = (Ok evts, us', rng')
    /\ evts !! 1%nat = Some (Damage now (id t) d (hp t - d)%float (id s))
    /\ dict_get tid us' = Some (set_hp (hp t - d)%float t)
    /\ (forall w a b d', table_4_2a w a b = Some d' -> weapon_vs_armor w a b = d').
Proof.
  intros Hs Ht Hne Hr Hhp HsT HtT Hq Hhit.
  destruct (get_type_catalog t tT HtT) as [[Harmor _] _].
  set (d := weapon_vs_armor (weapon_type sT) (armor tT) (damage sT)).
  assert (Hcalc : forall s0, get_type s0 = Ok sT ->
            _calculate_damage s0 t (damage sT) = Ok d).
  { intros s0 H0. unfold _calculate_damage. now rewrite H0, HtT. }
  unfold combat_pair. rewrite Hs, Ht, Hr, Hhp. cbn [orb].
  rewrite HsT. cbn [bind]. rewrite Hq. cbn [bind].
  destruct (bernoulli _ rng) as [hit rng1]. cbn [fst] in Hhit. subst hit.
  apply String.eqb_neq in Hne. rewrite Hne.
  rewrite (Hcalc _ (eq_trans (get_type_fired now (ammo s - 1) s) HsT)).
  exists d. eexists. eexists. eexists.
  split; [now apply table_covers|].
  split; [now apply Hcalc|].
  split; [reflexivity|].
  split; [destruct s, t; reflexivity|].
  split.
  - rewrite dict_get_put. rewrite String.eqb_refl.
    rewrite dict_get_put, Hne, Ht. reflexivity.
  - apply table_agrees.
Qed.



(* ===================================================================== *)
(** ** The stored attack target is never read *)
(* ===================================================================== *)

Lemma forget_target_idem (u : Unit) : forget_target (forget_target u) = forget_target u.
Proof. destruct u; reflexivity. Qed.

Lemma forget_targets_idem (us : Units) :
  forget_targets (forget_targets us) = forget_targets us.
Proof.
  unfold forget_targets. rewrite map_map. apply map_ext. intros [k u]. cbn.
  now rewrite forget_target_idem.
Qed.

Lemma forget_targets_get (k : string) (us : Units) :
  dict_get k (forget_targets us) = forget_target <$> dict_get k us.
Proof.
  induction us as [|[k' u] us IH]; cbn; [reflexivity|].
  destruct (String.eqb k k'); [reflexivity|exact IH].
Qed.

Lemma forget_targets_cons (k : string) (u : Unit) (us : Units) :
  forget_targets ((k, u) :: us) = (k, forget_target u) :: forget_targets us.
Proof. reflexivity. Qed.

Lemma forget_targets_put (k : string) (v : Unit) (us : Units) :
  dict_put k (forget_target v) (forget_targets us) = forget_targets (dict_put k v us).
Proof.
  induction us as [|[k' u] us IH]; [reflexivity|].
  rewrite forget_targets_cons. cbn [dict_put].
  destruct (String.eqb k k'); rewrite !forget_targets_cons; [reflexivity|].
  now rewrite IH.
Qed.

Lemma forget_targets_lookup (i : nat) (us : Units) :
  forget_targets us !! i = (fun ku => (ku.1, forget_target ku.2)) <$> us !! i.
Proof. unfold forget_targets. apply list_lookup_fmap. Qed.

Lemma forget_targets_length (us : Units) : length (forget_targets us) = length us.
Proof. unfold forget_targets. apply length_map. Qed.

(** The loop over the units commutes with the erasure when its body does. *)
Lemma for_units_forget {W} (body : Unit -> W -> result (Unit * W)) :
  (forall u w, body (forget_target u) w
               = match body u w with
                 | Ok (u', w') => Ok (forget_target u', w')
                 | Raise x => Raise x
                 end) ->
  forall us w,
    for_units body (forget_targets us) w
    = let '(r, us', w') := for_units body us w in (r, forget_targets us', w').
Proof.
  intros Hb. induction us as [|[k u] us IH]; intros w; [reflexivity|].
  rewrite forget_targets_cons. cbn [for_units].
  rewrite Hb. destruct (body u w) as [[u' w']|x]; [|reflexivity].
  rewrite IH. now destruct (for_units body us w') as [[r rest] w''].
Qed.

Lemma for_units_ext {W} (b1 b2 : Unit -> W -> result (Unit * W)) :
  (forall u w, b1 u w = b2 u w) ->
  forall us w, for_units b1 us w = for_units b2 us w.
Proof.
  intros H. induction us as [|[k u] us IH]; intros w; cbn; [reflexivity|].
  rewrite H. destruct (b2 u w) as [[u' w']|x]; [|reflexivity]. now rewrite IH.
Qed.

Lemma move_unit_forget (dt : float) (u : Unit) :
  move_unit dt (forget_target u)
  = match move_unit dt u with
    | Ok u' => Ok (forget_target u')
    | Raise x => Raise x
    end.
Proof.
  destruct u as [i sd ty p h a tid itp r lft sp].
  unfold move_unit, forget_target, set_target_id, get_type.
  cbn [intent_target_pos routed pos unit_type_id id side hp ammo target_id
       last_fire_time spotted_by].
  destruct itp as [tgt|]; [|reflexivity].
  destruct r; [reflexivity|].
  destruct (dict_get ty UNIT_TYPES); cbn [bind]; [|reflexivity].
  match goal with |- context [(?d <? 0.1)%float] => destruct (d <? 0.1)%float end;
    [reflexivity|].
  destruct (py_div _ _); cbn [bind]; [|reflexivity].
  destruct (py_div _ _); cbn [bind]; reflexivity.
Qed.

Lemma _can_detect_forget (d t : Unit) :
  _can_detect (forget_target d) (forget_target t) = _can_detect d t.
Proof. destruct d, t; reflexivity. Qed.

Lemma _can_detect_forget_l (d t : Unit) :
  _can_detect (forget_target d) t = _can_detect d t.
Proof. destruct d; reflexivity. Qed.

Lemma _can_fire_at_forget (a t : Unit) (now : Z) :
  _can_fire_at (forget_target a) (forget_target t) now = _can_fire_at a t now.
Proof. destruct a, t; reflexivity. Qed.

Lemma _calculate_damage_forget (a t : Unit) (b : float) :
  _calculate_damage (forget_target a) (forget_target t) b = _calculate_damage a t b.
Proof. destruct a, t; reflexivity. Qed.

Lemma spot_body_forget (d t : Unit) (w : unit) :
  spot_body (forget_target d) (forget_target t) w
  = match spot_body d t w with
    | Ok (t', w') => Ok (forget_target t', w')
    | Raise x => Raise x
    end.
Proof.
  unfold spot_body. rewrite _can_detect_forget.
  replace (side (forget_target d)) with (side d) by (destruct d; reflexivity).
  replace (side (forget_target t)) with (side t) by (destruct t; reflexivity).
  replace (id (forget_target d)) with (id d) by (destruct d; reflexivity).
  destruct (Side_eqb _ _); [reflexivity|].
  destruct (_can_detect d t) as [[|]|x]; cbn [bind]; reflexivity.
Qed.

Lemma spot_body_forget_l (d t : Unit) (w : unit) :
  spot_body (forget_target d) t w = spot_body d t w.
Proof.
  unfold spot_body. rewrite _can_detect_forget_l. now destruct d.
Qed.

Lemma morale_unit_forget (now : Z) (u : Unit) (w : DRNG * list Event.t) :
  morale_unit now (forget_target u) w
  = match morale_unit now u w with
    | Ok (u', w') => Ok (forget_target u', w')
    | Raise x => Raise x
    end.
Proof.
  destruct u as [i sd ty p h a tid itp r lft sp].
  unfold morale_unit, forget_target, set_target_id, get_type.
  cbn [intent_target_pos routed pos unit_type_id id side hp ammo target_id
       last_fire_time spotted_by].
  destruct r; [reflexivity|].
  destruct (dict_get ty UNIT_TYPES); cbn [bind]; [|reflexivity].
  destruct (py_div _ _); cbn [bind]; [|reflexivity].
  destruct (_ <? 0.3)%float; [|reflexivity].
  destruct (bernoulli 0.5 w.1) as [[|] rng']; reflexivity.
Qed.

Lemma clear_spotting_forget (us : Units) :
  clear_spotting (forget_targets us) = forget_targets (clear_spotting us).
Proof.
  unfold clear_spotting, forget_targets. rewrite !map_map. apply map_ext.
  intros [k u]. cbn. now destruct u.
Qed.

Lemma spot_loop_forget (n i : nat) (us : Units) :
  spot_loop n i (forget_targets us)
  = let (r, us') := spot_loop n i us in (r, forget_targets us').
Proof.
  revert i us. induction n as [|n IH]; intros i us; cbn [spot_loop]; [reflexivity|].
  rewrite forget_targets_lookup.
  destruct (us !! i) as [[k d]|]; cbn [fmap option_fmap option_map fst snd]; [|reflexivity].
  replace (routed (forget_target d)) with (routed d) by (destruct d; reflexivity).
  destruct (routed d); [apply IH|].
  rewrite (for_units_ext _ (spot_body d)) by (intros; apply spot_body_forget_l).
  rewrite for_units_forget.
  2:{ intros u w. rewrite <- (spot_body_forget_l d (forget_target u)).
      apply spot_body_forget. }
  destruct (for_units (spot_body d) us tt) as [[[[]|x] us'] w']; [apply IH|reflexivity].
Qed.

Lemma scan_targets_forget (now : Z) (u : Unit) (cands : Units)
    (best : option string) (best_dist : float) :
  scan_targets now (forget_target u) (forget_targets cands) best best_dist
  = scan_targets now u cands best best_dist.
Proof.
  revert best best_dist. induction cands as [|[t_id t] rest IH]; intros best best_dist;
    [reflexivity|].
  rewrite forget_targets_cons. cbn [scan_targets].
  rewrite _can_fire_at_forget, !IH.
  replace (side (forget_target u)) with (side u) by (destruct u; reflexivity).
  replace (side (forget_target t)) with (side t) by (destruct t; reflexivity).
  replace (hp (forget_target t)) with (hp t) by (destruct t; reflexivity).
  replace (pos (forget_target u)) with (pos u) by (destruct u; reflexivity).
  replace (pos (forget_target t)) with (pos t) by (destruct t; reflexivity).
  reflexivity.
Qed.

Lemma find_targets_loop_forget (now : Z) (all us : Units) (targets : list (string * string)) :
  find_targets_loop now (forget_targets all) (forget_targets us) targets
  = find_targets_loop now all us targets.
Proof.
  revert targets. induction us as [|[u_id u] rest IH]; intros targets; [reflexivity|].
  rewrite forget_targets_cons. cbn [find_targets_loop].
  rewrite scan_targets_forget.
  replace (routed (forget_target u)) with (routed u) by (destruct u; reflexivity).
  destruct (routed u); [apply IH|].
  destruct (scan_targets now u all None infinity) as [[t_id|]|x]; cbn [bind];
    [|apply IH|reflexivity].
  destruct (String.eqb t_id ""); apply IH.
Qed.

Lemma combat_pair_forget (acc decay : float) (now : Z) (sid tid : string)
    (us : Units) (rng : DRNG) :
  combat_pair acc decay now sid tid (forget_targets us) rng
  = let '(r, us', rng') := combat_pair acc decay now sid tid us rng in
    (r, forget_targets us', rng').
Proof.
  unfold combat_pair. rewrite !forget_targets_get.
  destruct (dict_get sid us) as [s|]; cbn [fmap option_fmap option_map]; [|reflexivity].
  destruct (dict_get tid us) as [t|]; cbn [fmap option_fmap option_map]; [|reflexivity].
  replace (routed (forget_target s)) with (routed s) by (destruct s; reflexivity).
  replace (hp (forget_target t)) with (hp t) by (destruct t; reflexivity).
  destruct (routed s || (hp t <=? 0)%float); [reflexivity|].
  replace (get_type (forget_target s)) with (get_type s) by (destruct s; reflexivity).
  replace (pos (forget_target s)) with (pos s) by (destruct s; reflexivity).
  replace (pos (forget_target t)) with (pos t) by (destruct t; reflexivity).
  destruct (get_type s) as [sT|x]; cbn [bind]; [|reflexivity].
  destruct (py_div _ decay) as [q|x]; cbn [bind]; [|reflexivity].
  destruct (bernoulli _ rng) as [[|] rng1].
  - set (s' := set_last_fire_time now (set_ammo (ammo s - 1) s)).
    replace (set_last_fire_time now
               (set_ammo (ammo (forget_target s) - 1) (forget_target s)))
      with (forget_target s') by (destruct s; reflexivity).
    replace (if String.eqb sid tid then forget_target s' else forget_target t)
      with (forget_target (if String.eqb sid tid then s' else t))
      by (now destruct (String.eqb sid tid)).
    set (t1 := if String.eqb sid tid then s' else t).
    rewrite _calculate_damage_forget.
    destruct (_calculate_damage s' t1 (damage sT)) as [d|x].
    + replace (set_hp (hp (forget_target t1) - d)%float (forget_target t1))
        with (forget_target (set_hp (hp t1 - d)%float t1)) by (destruct t1; reflexivity).
      rewrite !forget_targets_put.
      replace (id (forget_target s)) with (id s) by (destruct s; reflexivity).
      replace (id (forget_target t)) with (id t) by (destruct t; reflexivity).
      replace (id (forget_target s')) with (id s') by (destruct s; reflexivity).
      replace (id (forget_target (set_hp (hp t1 - d)%float t1)))
        with (id (set_hp (hp t1 - d)%float t1)) by (destruct t1; reflexivity).
      replace (hp (forget_target (set_hp (hp t1 - d)%float t1)))
        with (hp (set_hp (hp t1 - d)%float t1)) by (destruct t1; reflexivity).
      reflexivity.
    + now rewrite forget_targets_put.
  - replace (set_last_fire_time now
               (set_ammo (ammo (forget_target s) - 1) (forget_target s)))
      with (forget_target (set_last_fire_time now (set_ammo (ammo s - 1) s)))
      by (destruct s; reflexivity).
    rewrite forget_targets_put.
    replace (id (forget_target s)) with (id s) by (destruct s; reflexivity).
    replace (id (forget_target t)) with (id t) by (destruct t; reflexivity).
    reflexivity.
Qed.

Lemma combat_loop_forget (acc decay : float) (now : Z) (targets : list (string * string))
    (us : Units) (rng : DRNG) :
  combat_loop acc decay now targets (forget_targets us) rng
  = let '(r, us', rng') := combat_loop acc decay now targets us rng in
    (r, forget_targets us', rng').
Proof.
  revert us rng. induction targets as [|[sid tid] rest IH]; intros us rng;
    cbn [combat_loop]; [reflexivity|].
  rewrite combat_pair_forget.
  destruct (combat_pair acc decay now sid tid us rng) as [[[ev1|x] us1] rng1];
    [|reflexivity].
  rewrite IH. now destruct (combat_loop acc decay now rest us1 rng1) as [[r us2] rng2].
Qed.

(** Orders write the stored target; what they return and everything else
    they write does not depend on it. *)
Lemma apply_order_forget (now : Z) (o : Order.t) (us : Units) :
  (apply_order now o (forget_targets us)).1 = (apply_order now o us).1
  /\ forget_targets (apply_order now o (forget_targets us)).2
     = forget_targets (apply_order now o us).2.
Proof.
  unfold apply_order. rewrite forget_targets_get.
  destruct (dict_get (Order.unit_id o) us) as [u|]; cbn [fmap option_fmap option_map];
    [|split; [reflexivity|apply forget_targets_idem]].
  replace (routed (forget_target u)) with (routed u) by (destruct u; reflexivity).
  destruct (routed u); [split; [reflexivity|apply forget_targets_idem]|].
  destruct (Order.kind o).
  - destruct (Order.target_pos o) as [p|]; cbn [fst snd];
      [|split; [reflexivity|apply forget_targets_idem]].
    split; [destruct u; reflexivity|].
    rewrite <- !forget_targets_put, forget_targets_idem. reflexivity.
  - destruct (Order.target_unit_id o) as [t|]; cbn [fst snd];
      [|split; [reflexivity|apply forget_targets_idem]].
    destruct (String.eqb t ""); cbn [fst snd];
      [split; [reflexivity|apply forget_targets_idem]|].
    split; [destruct u; reflexivity|].
    rewrite <- !forget_targets_put, forget_targets_idem. reflexivity.
  - cbn [fst snd]. split; [destruct u; reflexivity|].
    rewrite <- !forget_targets_put, forget_targets_idem. reflexivity.
Qed.

Lemma apply_orders_loop_forget (now : Z) (os : list Order.t) (us1 us2 : Units) :
  forget_targets us1 = forget_targets us2 ->
  (apply_orders_loop now os us1).1 = (apply_orders_loop now os us2).1
  /\ forget_targets (apply_orders_loop now os us1).2
     = forget_targets (apply_orders_loop now os us2).2.
Proof.
  revert us1 us2. induction os as [|o os IH]; intros us1 us2 Hagree; cbn [apply_orders_loop].
  - auto.
  - destruct (apply_order_forget now o us1) as [E1 F1].
    destruct (apply_order_forget now o us2) as [E2 F2].
    rewrite Hagree in E1, F1.
    destruct (apply_order now o us1) as [ev1 us1'].
    destruct (apply_order now o us2) as [ev2 us2'].
    destruct (apply_order now o (forget_targets us2)) as [ev0 us0'].
    cbn [fst snd] in *. subst ev1 ev2.
    destruct (IH us1' us2' ltac:(congruence)) as [E F].
    destruct (apply_orders_loop now os us1') as [evs1 us1''].
    destruct (apply_orders_loop now os us2') as [evs2 us2''].
    cbn [fst snd] in *. split; congruence.
Qed.

Lemma forget_idem (e : Engine) : forget (forget e) = forget e.
Proof.
  unfold forget. destruct e as [[ts us b] r p a d]. cbn.
  unfold with_units, set_units. cbn. now rewrite forget_targets_idem.
Qed.

Lemma forget_with_units (us : Units) (e : Engine) :
  with_units (forget_targets us) (forget e) = forget (with_units us e).
Proof. destruct e as [[ts us0 b] r p a d]. reflexivity. Qed.

Lemma forget_with_rng (r : DRNG) (e : Engine) :
  with_rng r (forget e) = forget (with_rng r e).
Proof. destruct e as [[ts us0 b] r0 p a d]. reflexivity. Qed.

Lemma respects_commute {A} (m : M A) :
  (forall e, m (forget e) = ((m e).1, forget (m e).2)) -> respects m.
Proof.
  intros Hm e1 e2 Hagree. unfold agree in *.
  pose proof (Hm e1) as H1. pose proof (Hm e2) as H2. rewrite Hagree in H1.
  rewrite H1 in H2.
  split; [exact (f_equal fst H2)|exact (f_equal snd H2)].
Qed.

Lemma respects_bindM {A B} (m : M A) (k : A -> M B) :
  respects m -> (forall a, respects (k a)) -> respects (bindM m k).
Proof.
  intros Hm Hk e1 e2 Hagree. unfold bindM.
  destruct (Hm e1 e2 Hagree) as [E F].
  destruct (m e1) as [[a1|x1] e1'], (m e2) as [[a2|x2] e2']; cbn [fst snd] in *;
    try discriminate.
  - injection E as ->. apply Hk, F.
  - injection E as ->. auto.
Qed.

Lemma agree_elim (e1 e2 : Engine) :
  agree e1 e2 ->
  forget_targets (units (state e1)) = forget_targets (units (state e2))
  /\ ts_ms (state e1) = ts_ms (state e2)
  /\ battle_id (state e1) = battle_id (state e2)
  /\ _rng e1 = _rng e2 /\ _pending_orders e1 = _pending_orders e2
  /\ base_acc e1 = base_acc e2 /\ decay_m e1 = decay_m e2.
Proof.
  intros H. unfold agree in H.
  repeat split.
  - exact (f_equal (fun e => units (state e)) H).
  - exact (f_equal (fun e => ts_ms (state e)) H).
  - exact (f_equal (fun e => battle_id (state e)) H).
  - exact (f_equal _rng H).
  - exact (f_equal _pending_orders H).
  - exact (f_equal base_acc H).
  - exact (f_equal decay_m H).
Qed.

Lemma agree_intro (e1 e2 : Engine) :
  forget_targets (units (state e1)) = forget_targets (units (state e2)) ->
  ts_ms (state e1) = ts_ms (state e2) ->
  battle_id (state e1) = battle_id (state e2) ->
  _rng e1 = _rng e2 -> _pending_orders e1 = _pending_orders e2 ->
  base_acc e1 = base_acc e2 -> decay_m e1 = decay_m e2 ->
  agree e1 e2.
Proof.
  destruct e1 as [[ts1 us1 b1] r1 p1 a1 d1], e2 as [[ts2 us2 b2] r2 p2 a2 d2].
  unfold agree, forget, with_units, set_units. cbn.
  intros -> -> -> -> -> -> ->. reflexivity.
Qed.

Lemma _apply_orders_now_respects : respects _apply_orders_now.
Proof.
  intros e1 e2 Hagree. rewrite !_apply_orders_now_eq. cbn [fst snd].
  destruct (agree_elim _ _ Hagree) as (Hus & Hts & Hb & Hr & Hp & Ha & Hd).
  rewrite Hts, Hp.
  destruct (apply_orders_loop_forget (ts_ms (state e2)) (_pending_orders e2)
              _ _ Hus) as [E F].
  split; [now rewrite E|].
  apply agree_intro; cbn; auto.
Qed.

Lemma _move_respects (dt_ms : Z) : respects (_move dt_ms).
Proof.
  apply respects_commute. intros e. unfold _move.
  destruct (int_to_float dt_ms) as [ms|x]; [|reflexivity].
  change (units (state (forget e))) with (forget_targets (units (state e))).
  rewrite for_units_forget.
  2:{ intros u w. rewrite move_unit_forget. now destruct (move_unit _ u). }
  destruct (for_units _ (units (state e)) tt) as [[r us] w]. cbn [fst snd].
  now rewrite forget_with_units.
Qed.

Lemma _update_spotting_respects : respects _update_spotting.
Proof.
  apply respects_commute. intros e. unfold _update_spotting.
  change (units (state (forget e))) with (forget_targets (units (state e))).
  rewrite clear_spotting_forget, forget_targets_length, spot_loop_forget.
  destruct (spot_loop _ _ _) as [r us]. cbn [fst snd]. now rewrite forget_with_units.
Qed.

Lemma _find_targets_respects : respects _find_targets.
Proof.
  apply respects_commute. intros e. unfold _find_targets.
  change (units (state (forget e))) with (forget_targets (units (state e))).
  change (ts_ms (state (forget e))) with (ts_ms (state e)).
  now rewrite find_targets_loop_forget.
Qed.

Lemma _combat_respects (dt_ms : Z) (targets : list (string * string)) :
  respects (_combat dt_ms targets).
Proof.
  apply respects_commute. intros e. unfold _combat.
  change (units (state (forget e))) with (forget_targets (units (state e))).
  change (ts_ms (state (forget e))) with (ts_ms (state e)).
  change (base_acc (forget e)) with (base_acc e).
  change (decay_m (forget e)) with (decay_m e).
  change (_rng (forget e)) with (_rng e).
  rewrite combat_loop_forget.
  destruct (combat_loop _ _ _ _ _ _) as [[r us] rng]. cbn [fst snd].
  now rewrite forget_with_units, forget_with_rng.
Qed.

Lemma _morale_respects : respects _morale.
Proof.
  apply respects_commute. intros e. unfold _morale.
  change (units (state (forget e))) with (forget_targets (units (state e))).
  change (ts_ms (state (forget e))) with (ts_ms (state e)).
  change (_rng (forget e)) with (_rng e).
  rewrite for_units_forget by apply morale_unit_forget.
  destruct (for_units _ _ _) as [[r us] [rng evts]]. cbn [fst snd].
  now rewrite forget_with_units, forget_with_rng.
Qed.

Lemma step_respects (dt_ms : Z) : respects (step dt_ms).
Proof.
  unfold step.
  apply respects_bindM; [apply _apply_orders_now_respects|intros ev1].
  apply respects_bindM; [apply _move_respects|intros ev2].
  apply respects_bindM; [apply _update_spotting_respects|intros ev3].
  apply respects_bindM; [apply _find_targets_respects|intros targets].
  apply respects_bindM; [apply _combat_respects|intros ev5].
  apply respects_bindM; [apply _morale_respects|intros ev6].
  intros e1 e2 Hagree. cbn [fst snd]. split; [reflexivity|].
  destruct (agree_elim _ _ Hagree) as (Hus & Hts & Hb & Hr & Hp & Ha & Hd).
  apply agree_intro; cbn; auto. now rewrite Hts.
Qed.

Lemma forget_target_fields (a b : Unit) :
  forget_target a = forget_target b ->
  id b = id a /\ side b = side a /\ unit_type_id b = unit_type_id a
  /\ pos b = pos a /\ hp b = hp a /\ ammo b = ammo a /\ routed b = routed a
  /\ intent_target_pos b = intent_target_pos a
  /\ last_fire_time b = last_fire_time a /\ spotted_by b = spotted_by a.
Proof.
  intros H. repeat split.
  - exact (eq_sym (f_equal id H)).
  - exact (eq_sym (f_equal side H)).
  - exact (eq_sym (f_equal unit_type_id H)).
  - exact (eq_sym (f_equal pos H)).
  - exact (eq_sym (f_equal hp H)).
  - exact (eq_sym (f_equal ammo H)).
  - exact (eq_sym (f_equal routed H)).
  - exact (eq_sym (f_equal intent_target_pos H)).
  - exact (eq_sym (f_equal last_fire_time H)).
  - exact (eq_sym (f_equal spotted_by H)).
Qed.

Lemma forget_targets_fields (us1 us2 : Units) :
  forget_targets us1 = forget_targets us2 ->
  units_rel (fun a b => id b = id a /\ side b = side a
                        /\ unit_type_id b = unit_type_id a /\ pos b = pos a
                        /\ hp b = hp a /\ ammo b = ammo a /\ routed b = routed a
                        /\ intent_target_pos b = intent_target_pos a
                        /\ last_fire_time b = last_fire_time a
                        /\ spotted_by b = spotted_by a)
            us1 us2.
Proof.
  revert us2. induction us1 as [|[k1 u1] us1 IH]; intros [|[k2 u2] us2]; try discriminate.
  - constructor.
  - rewrite !forget_targets_cons. intros H.
    pose proof (f_equal (fun l => (hd (k1, u1) l).1) H) as Hk.
    pose proof (f_equal (fun l => (hd (k1, u1) l).2) H) as Hu.
    pose proof (f_equal (@tl _) H) as Hrest. cbn in Hk, Hu, Hrest.
    constructor; [|now apply IH]. split; [exact Hk|].
    now apply forget_target_fields.
Qed.


(* ===================================================================== *)
(** ** Units without hit points *)
(* ===================================================================== *)

(** *** Movement does not look at hit points *)

Lemma _move_ok_unit (dt_ms : Z) (e e2 : Engine) (evs : list Event.t)
    (k : string) (u : Unit) (tgt : Position) :
  _move dt_ms e = (Ok evs, e2) ->
  dict_get k (units (state e)) = Some u ->
  routed u = false -> intent_target_pos u = Some tgt ->
  exists (ms : float) (T : UnitType),
    int_to_float dt_ms = Ok ms /\ get_type u = Ok T
    /\ let dx := (tgt.1 - (pos u).1)%float in
       let dy := (tgt.2 - (pos u).2)%float in
       let dist := sqrt (dx * dx + dy * dy)%float in
       let step_len := py_min (speed_mps T * (ms / 1000.0))%float dist in
       dict_get k (units (state e2))
       = Some (if (dist <? 0.1)%float then u
               else set_pos (((pos u).1 + dx / dist * step_len)%float,
                             ((pos u).2 + dy / dist * step_len)%float) u).
Proof.
  unfold _move. destruct (int_to_float dt_ms) as [ms|x]; [|discriminate].
  destruct (for_units _ (units (state e)) tt) as [[r us] w] eqn:Hloop.
  destruct r as [[]|x]; cbn [bind]; [|discriminate].
  intros [= _ <-] Hget Hr Hi. destruct w.
  destruct (for_units_ok_get _ _ _ _ _ k u Hloop Hget) as (u2 & w1 & w2 & Hbody & Hu2).
  assert (Hmu : move_unit (ms / 1000.0) u = Ok u2).
  { destruct (move_unit (ms / 1000.0) u); cbn [bind] in Hbody; congruence. }
  destruct (move_unit_needs_type _ _ _ _ Hr Hi Hmu) as [T HT].
  exists ms, T. split; [reflexivity|]. split; [exact HT|]. cbv zeta.
  pose proof (move_unit_spec (ms / 1000.0) u T tgt HT Hr Hi) as Hspec.
  cbv zeta in Hspec. rewrite Hmu in Hspec. injection Hspec as <-. exact Hu2.
Qed.

(** *** Spotting does not look at hit points *)

Lemma _can_detect_spotting (d d' t t' : Unit) :
  spotting_touch d d' -> spotting_touch t t' -> _can_detect d' t' = _can_detect d t.
Proof.
  unfold spotting_touch. intros -> ->. now destruct d, t.
Qed.

Lemma spot_body_grows (d t t' : Unit) (w w' : unit) :
  spot_body d t w = Ok (t', w') ->
  spotting_touch t t' /\ spotted_by t ⊆ spotted_by t'.
Proof.
  intros H. split; [eapply spot_body_touch, H|]. revert H. unfold spot_body.
  destruct (Side_eqb _ _); [intros [= <- _]; reflexivity|].
  destruct (_can_detect d t) as [[|]|x]; cbn [bind]; [| |discriminate].
  - intros [= <- _]. destruct t; cbn. apply union_subseteq_r.
  - intros [= <- _]. reflexivity.
Qed.

Lemma spot_loop_grows (n i : nat) (us : Units) :
  units_rel (fun t t' => spotting_touch t t' /\ spotted_by t ⊆ spotted_by t')
            us (spot_loop n i us).2.
Proof.
  assert (Hrefl : forall t : Unit, spotting_touch t t /\ spotted_by t ⊆ spotted_by t).
  { intros t. split; [apply spotting_touch_refl|reflexivity]. }
  assert (Htrans : forall a b c : Unit,
            spotting_touch a b /\ spotted_by a ⊆ spotted_by b ->
            spotting_touch b c /\ spotted_by b ⊆ spotted_by c ->
            spotting_touch a c /\ spotted_by a ⊆ spotted_by c).
  { intros a b c [T1 S1] [T2 S2].
    split; [eapply spotting_touch_trans; eauto|etransitivity; eauto]. }
  revert i us. induction n as [|n IH]; intros i us; cbn [spot_loop].
  - now apply units_rel_refl.
  - destruct (us !! i) as [[k d]|]; [|now apply units_rel_refl].
    destruct (routed d); [apply IH|].
    pose proof (for_units_rel _ (spot_body d) Hrefl
                  (fun t w t' w' => spot_body_grows d t t' w w') us tt) as H1.
    destruct (for_units (spot_body d) us tt) as [[[[]|x] us'] w']; cbn [fst snd] in *.
    + eapply units_rel_trans; [exact Htrans|exact H1|apply IH].
    + exact H1.
Qed.

(** A detector that is not routed is recorded by every opposing unit
    within its effective range, once the loop has visited it. *)
Lemma spot_loop_records (n i j : nat) (us us' : Units)
    (kd kt : string) (d t : Unit) :
  spot_loop n i us = (Ok tt, us') ->
  (i <= j < i + n)%nat ->
  us !! j = Some (kd, d) -> routed d = false ->
  dict_get kt us = Some t ->
  Side_eqb (side d) (side t) = false ->
  _can_detect d t = Ok true ->
  exists t', dict_get kt us' = Some t' /\ id d ∈ spotted_by t'.
Proof.
  revert i us d t. induction n as [|n IH]; intros i us d t Hloop Hj Hd Hr Ht Hside Hsee;
    [lia|].
  cbn [spot_loop] in Hloop.
  destruct (us !! i) as [[ki di]|] eqn:Hi.
  2:{ apply lookup_ge_None in Hi. apply lookup_lt_Some in Hd. lia. }
  destruct (Nat.eq_dec j i) as [->|Hne].
  - rewrite Hd in Hi. injection Hi as <- <-. rewrite Hr in Hloop.
    destruct (for_units (spot_body d) us tt) as [[[[]|x] us1] w1] eqn:Hin; [|discriminate].
    destruct (for_units_ok_get _ _ _ _ _ kt t Hin Ht) as (t1 & w2 & w3 & Hbody & Ht1).
    assert (Hadded : id d ∈ spotted_by t1).
    { revert Hbody. unfold spot_body. rewrite Hside, Hsee. cbn [bind].
      intros [= <- _]. destruct t; cbn.
      apply elem_of_union_l, elem_of_singleton. reflexivity. }
    pose proof (spot_loop_grows n (S i) us1) as G. rewrite Hloop in G. cbn [snd] in G.
    destruct (units_rel_get _ _ _ _ _ G Ht1) as (t' & Ht' & _ & Hsub).
    exists t'. split; [exact Ht'|apply Hsub, Hadded].
  - assert (Hnext : forall us1,
              units_rel spotting_touch us us1 ->
              spot_loop n (S i) us1 = (Ok tt, us') ->
              exists t', dict_get kt us' = Some t' /\ id d ∈ spotted_by t').
    { intros us1 Hrel Hl.
      destruct (units_rel_lookup _ _ _ _ _ _ Hrel Hd) as (d1 & Hd1 & Sd).
      destruct (units_rel_get _ _ _ _ _ Hrel Ht) as (t1 & Ht1 & St).
      pose proof (spotting_touch_fields _ _ Sd) as (Eid & Eside & _ & _ & _ & _ & Er & _).
      pose proof (spotting_touch_fields _ _ St) as (_ & Eside' & _).
      rewrite <- Eid.
      eapply (IH (S i) us1 d1 t1); eauto; try lia; try congruence.
      now rewrite (_can_detect_spotting d d1 t t1). }
    destruct (routed di).
    + apply (Hnext us); [apply units_rel_refl, spotting_touch_refl|exact Hloop].
    + pose proof (for_units_rel spotting_touch (spot_body di) spotting_touch_refl
                    (fun u w u' w' => spot_body_touch di u u' w w') us tt) as Hrel.
      destruct (for_units (spot_body di) us tt) as [[[[]|x] us1] w1]; [|discriminate].
      apply (Hnext us1); assumption.
Qed.

Lemma _update_spotting_records (e e' : Engine) (evs : list Event.t)
    (kd kt : string) (d t : Unit) :
  _update_spotting e = (Ok evs, e') ->
  dict_get kd (units (state e)) = Some d -> routed d = false ->
  dict_get kt (units (state e)) = Some t ->
  side d <> side t ->
  _can_detect d t = Ok true ->
  exists t', dict_get kt (units (state e')) = Some t' /\ id d ∈ spotted_by t'.
Proof.
  unfold _update_spotting.
  destruct (spot_loop _ 0 _) as [[[]|x] us'] eqn:Hloop; cbn [bind]; [|discriminate].
  intros [= _ <-] Hd Hr Ht Hside Hsee. cbn [units state with_units set_units].
  pose proof (clear_spotting_touch (units (state e))) as Hclear.
  destruct (units_rel_get _ _ _ _ _ Hclear Hd) as (d0 & Hd0 & Sd).
  destruct (units_rel_get _ _ _ _ _ Hclear Ht) as (t0 & Ht0 & St).
  pose proof (spotting_touch_fields _ _ Sd) as (Eid & Eside & _ & _ & _ & _ & Er & _).
  pose proof (spotting_touch_fields _ _ St) as (_ & Eside' & _).
  apply dict_get_elem_of, list_elem_of_lookup in Hd0 as [j Hj].
  rewrite <- Eid.
  assert (Hr0 : routed d0 = false) by congruence.
  assert (Hside0 : Side_eqb (side d0) (side t0) = false).
  { rewrite Eside, Eside'. destruct (side d), (side t); try reflexivity; contradiction. }
  assert (Hsee0 : _can_detect d0 t0 = Ok true)
    by now rewrite (_can_detect_spotting d d0 t t0).
  assert (Hrange : (0 <= j < 0 + length (clear_spotting (units (state e))))%nat)
    by (apply lookup_lt_Some in Hj; lia).
  exact (spot_loop_records _ 0 j _ us' kd kt d0 t0 Hloop Hrange Hj Hr0 Ht0 Hside0 Hsee0).
Qed.

(** *** Targeting does not look at the shooter's hit points *)

Lemma scan_targets_own_hp (now : Z) (h : float) (d : Unit) (cands : Units)
    (best : option string) (best_dist : float) :
  scan_targets now (set_hp h d) cands best best_dist
  = scan_targets now d cands best best_dist.
Proof.
  revert best best_dist. induction cands as [|[t_id t] rest IH]; intros best best_dist;
    cbn [scan_targets]; [reflexivity|].
  replace (_can_fire_at (set_hp h d) t now) with (_can_fire_at d t now)
    by (destruct d; reflexivity).
  replace (side (set_hp h d)) with (side d) by (destruct d; reflexivity).
  replace (pos (set_hp h d)) with (pos d) by (destruct d; reflexivity).
  now rewrite !IH.
Qed.

Lemma dict_setitem_in {V} (k : string) (v : V) (d : list (string * V)) :
  (k, v) ∈ dict_setitem k v d.
Proof.
  induction d as [|[k' v'] d IH]; cbn; [left|].
  destruct (String.eqb_spec k k') as [<-|Hne]; [left|now right].
Qed.

Lemma dict_setitem_keep {V} (k k' : string) (v v' : V) (d : list (string * V)) :
  (k', v') ∈ d -> k' <> k -> (k', v') ∈ dict_setitem k v d.
Proof.
  intros Hin Hne. induction d as [|[k0 v0] d IH]; cbn; [inversion Hin|].
  apply elem_of_cons in Hin as [[= <- <-]|Hin].
  - destruct (String.eqb_spec k k') as [->|_]; [contradiction|left].
  - destruct (String.eqb k k0); right; auto.
Qed.

Lemma find_targets_loop_keeps (now : Z) (all us : Units)
    (targets0 targets : list (string * string)) (k t : string) :
  find_targets_loop now all us targets0 = Ok targets ->
  (k, t) ∈ targets0 -> k ∉ us.*1 -> (k, t) ∈ targets.
Proof.
  revert targets0. induction us as [|[u_id u] rest IH]; intros targets0;
    cbn [find_targets_loop].
  - intros [= <-]. auto.
  - intros Hl Hin Hk. cbn in Hk. apply not_elem_of_cons in Hk as [Hne Hk].
    destruct (routed u); [eapply IH; eauto|].
    destruct (scan_targets now u all None infinity) as [[t_id|]|x]; cbn [bind] in Hl;
      [| eapply IH; eauto | discriminate].
    destruct (String.eqb t_id ""); [eapply IH; eauto|].
    eapply IH; eauto. now apply dict_setitem_keep.
Qed.

(** A unit that is not routed and finds a target is entered as a shooter. *)
Lemma find_targets_loop_selects (now : Z) (all us : Units)
    (targets0 targets : list (string * string)) (kd t : string) (d : Unit) :
  find_targets_loop now all us targets0 = Ok targets ->
  NoDup us.*1 -> (kd, d) ∈ us -> routed d = false ->
  scan_targets now d all None infinity = Ok (Some t) -> t <> ""%string ->
  (kd, t) ∈ targets.
Proof.
  revert targets0. induction us as [|[u_id u] rest IH]; intros targets0 Hl Hnd Hin Hr Hscan Ht.
  - inversion Hin.
  - cbn in Hnd. apply NoDup_cons in Hnd as [Hfresh Hnd].
    cbn [find_targets_loop] in Hl.
    apply elem_of_cons in Hin as [[= <- <-]|Hin].
    + rewrite Hr, Hscan in Hl. cbn [bind] in Hl.
      apply String.eqb_neq in Ht. rewrite Ht in Hl.
      eapply find_targets_loop_keeps; eauto. apply dict_setitem_in.
    + destruct (routed u); [eapply IH; eauto|].
      destruct (scan_targets now u all None infinity) as [[t_id|]|x]; cbn [bind] in Hl;
        [| eapply IH; eauto | discriminate].
      destruct (String.eqb t_id ""); eapply IH; eauto.
Qed.

(** *** Combat does not look at the shooter's hit points *)

Lemma combat_pair_fires (acc decay : float) (now : Z) (sid tid : string)
    (us : Units) (rng : DRNG) (s t : Unit) (sT : UnitType) (q : float) :
  dict_get sid us = Some s -> dict_get tid us = Some t ->
  routed s = false -> (hp t <=? 0)%float = false ->
  get_type s = Ok sT ->
  py_div (- distance_2d (pos s) (pos t)) decay = Ok q ->
  let p := py_max 0.0 (py_min 0.95 (acc * math_exp q)%float) in
  let shot := ShotFired now (id s) (id t) (distance_2d (pos s) (pos t)) p
                        (WeaponType_value (weapon_type sT)) in
  let out := combat_pair acc decay now sid tid us rng in
  (exists s', dict_get sid out.1.2 = Some s' /\ ammo s' = ammo s - 1)
  /\ forall evts, out.1.1 = Ok evts ->
       evts !! 0%nat = Some shot
       /\ ((bernoulli p rng).1 = true ->
           exists d hp', evts !! 1%nat = Some (Damage now (id t) d hp' (id s))).
Proof.
  intros Hs Ht Hr Hhp HsT Hq. cbv zeta.
  unfold combat_pair. rewrite Hs, Ht, Hr, Hhp. cbn [orb].
  rewrite HsT. cbn [bind]. rewrite Hq. cbn [bind].
  set (s' := set_last_fire_time now (set_ammo (ammo s - 1) s)).
  assert (As' : ammo s' = ammo s - 1) by (destruct s; reflexivity).
  assert (Hs1 : dict_get sid (dict_put sid s' us) = Some s')
    by (eapply dict_get_put_same; eauto).
  destruct (bernoulli _ rng) as [[|] rng1]; cbn [fst snd].
  - set (t1 := if String.eqb sid tid then s' else t).
    assert (Hid1 : id t1 = id t /\ ammo t1 = ammo (if String.eqb sid tid then s' else t)).
    { subst t1. split; [|reflexivity].
      destruct (String.eqb_spec sid tid) as [<-|_]; [|reflexivity].
      rewrite Hs in Ht. injection Ht as <-. destruct s; reflexivity. }
    destruct (_calculate_damage s' t1 (damage sT)) as [d|x]; cbn [fst snd].
    + split.
      * rewrite dict_get_put. destruct (String.eqb_spec tid sid) as [->|Hne].
        -- rewrite Hs1. eexists. split; [reflexivity|].
           subst t1. rewrite String.eqb_refl. destruct s; reflexivity.
        -- eauto.
      * intros evts [= <-]. split; [reflexivity|]. intros _.
        exists d, (hp t1 - d)%float. cbn. now rewrite (proj1 Hid1).
    + split; [eauto|]. intros evts [=].
  - split; [eauto|]. intros evts [= <-]. split; [reflexivity|]. intros [=].
Qed.


(* ===================================================================== *)
(** ** The event log: reading back what was appended *)
(* ===================================================================== *)

Lemma take_app_take_drop {A} (l : list A) (n m : nat) :
  take n l ++ take m (drop n l) = take (n + m) l.
Proof.
  revert l; induction n as [|n IH]; intros l; cbn.
  - now rewrite drop_0.
  - destruct l as [|x l]; cbn; [now rewrite take_nil|].
    now rewrite IH.
Qed.

Lemma since_next (l : EventLog) (offset limit : Z) :
  (since offset limit l).2
  = Z.max 0 offset + Z.of_nat (length (since offset limit l).1).
Proof. reflexivity. Qed.

(** X1: What [append_many] has just appended is what [since] returns from the
    start offset it reported, for any limit that covers the batch, and the
    resume offset is one past the reported end offset. *)
Theorem append_many_then_since (l : EventLog) (evts : list Event.t) (limit : Z) :
  Z.of_nat (length evts) <= limit ->
  let out := append_many evts l in
  since out.1.1 limit out.2 = (evts, out.1.2 + 1).
Proof.
  intros Hlim. cbn. unfold since. cbn [_log].
  assert (Hstart : Z.max 0 (Z.of_nat (length (_log l))) = Z.of_nat (length (_log l)))
    by lia.
  rewrite Hstart.
  rewrite py_slice_nonneg by lia.
  rewrite Nat2Z.id, drop_app_length.
  rewrite take_ge by lia.
  f_equal. rewrite length_app. lia.
Qed.

(** X2: Two reads in a row, the second from the offset the first handed back,
    return together what one read with the sum of the limits returns:
    paging through the log neither skips nor repeats an event. *)
Theorem since_paging (l : EventLog) (offset limit1 limit2 : Z) :
  0 <= limit1 -> 0 <= limit2 ->
  let page1 := since offset limit1 l in
  let page2 := since page1.2 limit2 l in
  page1.1 ++ page2.1 = (since offset (limit1 + limit2) l).1
  /\ page2.2 = (since offset (limit1 + limit2) l).2.
Proof.
  intros H1 H2. cbn zeta.
  assert (Hboth : (since offset limit1 l).1
                  ++ (since (since offset limit1 l).2 limit2 l).1
                  = (since offset (limit1 + limit2) l).1).
  { rewrite !since_nonneg_limit by lia.
    unfold since at 1. cbn [snd].
    rewrite py_slice_nonneg by lia.
    set (start := Z.to_nat (Z.max 0 offset)).
    set (rest := drop start (_log l)).
    assert (Hnext : Z.to_nat (Z.max 0 (Z.max 0 offset
                       + Z.of_nat (length (take (Z.to_nat limit1) rest))))
                    = (start + length (take (Z.to_nat limit1) rest))%nat) by lia.
    rewrite Hnext, <- drop_drop. fold rest.
    rewrite Z2Nat.inj_add by lia.
    rewrite <- take_app_take_drop.
    destruct (decide (Z.to_nat limit1 <= length rest)%nat) as [Hle|Hgt].
    - now rewrite length_take, Nat.min_l by exact Hle.
    - rewrite (take_ge rest (Z.to_nat limit1)) by lia.
      rewrite !drop_ge by lia. now rewrite !take_nil. }
  split; [exact Hboth|].
  rewrite (since_next l offset (limit1 + limit2)), <- Hboth, length_app.
  rewrite (since_next l (since offset limit1 l).2 limit2).
  rewrite (since_next l offset limit1). lia.
Qed.

(** X3: A read at or beyond the end of the log returns no event and hands the
    caller's offset back unchanged, whatever the limit: the resume offset
    is not brought back to the length of the log. *)
Theorem since_past_end (l : EventLog) (offset limit : Z) :
  Z.of_nat (length (_log l)) <= offset ->
  since offset limit l = ([], offset).
Proof.
  intros Hpast. unfold since.
  assert (Hchunk : py_slice (_log l) (Z.max 0 offset) (Z.max 0 offset + limit)
                   = @nil Event.t).
  { unfold py_slice, slice_bound.
    destruct (Z.max 0 offset <? 0) eqn:Ha; [lia|].
    assert (Hz : Z.to_nat
                   ((if Z.max 0 offset + limit <? 0
                     then Z.max 0 (Z.max 0 offset + limit + Z.of_nat (length (_log l)))
                     else Z.min (Z.max 0 offset + limit) (Z.of_nat (length (_log l))))
                    - Z.min (Z.max 0 offset) (Z.of_nat (length (_log l)))) = 0%nat).
    { destruct (Z.max 0 offset + limit <? 0) eqn:Hb; lia. }
    rewrite Hz. reflexivity. }
  rewrite Hchunk. cbn. f_equal. lia.
Qed.

(** X4: The log is append-only for its readers: after an append, a read with
    the same arguments returns the earlier answer extended at the end, and
    the very same answer when the earlier read stopped at its limit. *)
Theorem since_after_append (l : EventLog) (evts : list Event.t) (offset limit : Z) :
  0 <= limit ->
  let l' := (append_many evts l).2 in
  (since offset limit l).1 `prefix_of` (since offset limit l').1
  /\ (Z.max 0 offset + limit <= Z.of_nat (length (_log l)) ->
      since offset limit l' = since offset limit l).
Proof.
  intros Hlim. cbn zeta.
  assert (Hlog : _log (append_many evts l).2 = _log l ++ evts) by reflexivity.
  set (start := Z.to_nat (Z.max 0 offset)).
  split.
  - rewrite !since_nonneg_limit, Hlog by lia. fold start.
    destruct (decide (start <= length (_log l))%nat) as [Hin|Hout].
    + rewrite drop_app_le by exact Hin.
      destruct (decide (Z.to_nat limit <= length (drop start (_log l)))%nat) as [Hle|Hgt].
      * rewrite take_app_le by exact Hle. reflexivity.
      * rewrite take_app_ge by lia. rewrite take_ge by lia.
        now apply prefix_app_r.
    + rewrite (drop_ge (_log l)) by lia. rewrite take_nil. apply prefix_nil.
  - intros Hfit.
    assert (Hchunk : (since offset limit (append_many evts l).2).1
                     = (since offset limit l).1).
    { rewrite !since_nonneg_limit, Hlog by lia. fold start.
      rewrite drop_app_le by lia.
      rewrite take_app_le by (rewrite length_drop; lia). reflexivity. }
    unfold since in *. cbn [fst snd] in *. now rewrite Hchunk.
Qed.

(* ===================================================================== *)
(** ** The step as a whole: clock, queue, roster *)
(* ===================================================================== *)

(** X5: Whether it returns or raises, a step leaves the order queue empty and
    keeps the battle identifier and the two accuracy constants; the clock
    has advanced by [dt_ms] when the step returns and stands where it was
    when the step raises. *)
Theorem step_clock_and_queue (dt_ms : Z) (e : Engine) :
  let out := step dt_ms e in
  _pending_orders out.2 = []
  /\ base_acc out.2 = base_acc e /\ decay_m out.2 = decay_m e
  /\ battle_id (state out.2) = battle_id (state e)
  /\ ts_ms (state out.2)
     = match out.1 with
       | Ok _ => ts_ms (state e) + dt_ms
       | Raise _ => ts_ms (state e)
       end.
Proof.
  cbn zeta. unfold step, bindM. rewrite _apply_orders_now_eq.
  set (us1 := (apply_orders_loop _ _ _).2).
  set (e1 := with_pending [] (with_units us1 e)).
  destruct (_move_touch dt_ms e1) as (us2 & E2 & _).
  destruct (_move dt_ms e1) as [r2 e2]. cbn [snd] in E2. subst e2.
  destruct r2 as [ev2|x]; cbn [fst snd]; [|now repeat split].
  destruct (_update_spotting_touch (with_units us2 e1)) as (us3 & E3 & _).
  destruct (_update_spotting (with_units us2 e1)) as [r3 e3]. cbn [snd] in E3. subst e3.
  destruct r3 as [ev3|x]; cbn [fst snd]; [|now repeat split].
  set (e3 := with_units us3 (with_units us2 e1)).
  unfold _find_targets.
  destruct (find_targets_loop _ _ _ _) as [targets|x]; cbn [fst snd]; [|now repeat split].
  destruct (_combat_touch dt_ms targets e3) as (us5 & rng5 & E5 & _).
  destruct (_combat dt_ms targets e3) as [r5 e5]. cbn [snd] in E5. subst e5.
  destruct r5 as [ev5|x]; cbn [fst snd]; [|now repeat split].
  set (e5 := with_rng rng5 (with_units us5 e3)).
  destruct (_morale_touch e5) as (us6 & rng6 & E6 & _).
  destruct (_morale e5) as [r6 e6]. cbn [snd] in E6. subst e6.
  destruct r6 as [ev6|x]; cbn [fst snd]; now repeat split.
Qed.

(** X6: Every event a step returns is stamped with the clock reading the step
    started from, not the one it ends on. *)
Theorem step_event_timestamps (dt_ms : Z) (e e' : Engine) (evts : list Event.t) :
  step dt_ms e = (Ok evts, e') ->
  Forall (fun ev => Event.ts_ms ev = ts_ms (state e)) evts
  /\ ts_ms (state e') = ts_ms (state e) + dt_ms.
Proof.
  intros Hstep.
  destruct (step_ok_units _ _ _ _ Hstep)
    as (ev1 & ev5 & ev6 & us1 & us2 & us3 & us5 & rng5 & targets & ms
        & -> & H1 & _ & _ & _ & _ & H5 & (rng6 & H6) & Hts).
  split; [|exact Hts].
  rewrite !Forall_app. repeat split.
  - pose proof (apply_orders_loop_kinds (ts_ms (state e)) (_pending_orders e)
                  (units (state e))) as K.
    rewrite <- H1 in K. cbn [fst] in K.
    eapply Forall_impl; [exact K|]. now intros ev [_ ?].
  - eapply Forall_impl; [exact (combat_loop_kinds _ _ _ _ _ _ _ _ _ H5)|].
    now intros ev [_ ?].
  - destruct (morale_loop_events (ts_ms (state e)) us5 (rng5, [])) as (new & Hnew & K).
    rewrite H6 in Hnew. cbn in Hnew. subst new.
    eapply Forall_impl; [exact K|]. now intros ev [_ ?].
Qed.

(** X7: No call adds, removes or renames a unit, or changes its side or type:
    through any sequence of [apply_orders] and [step] calls, raising steps
    included, the dictionary keeps its keys in their order and every unit
    its identifier, side and unit type. *)
Theorem run_keeps_roster (e : Engine) (calls : list call) :
  let same := fun a b : Unit =>
                id b = id a /\ side b = side a /\ unit_type_id b = unit_type_id a in
  units_rel same (units (state e)) (units (state (run e calls).2))
  /\ unit_keys (units (state (run e calls).2)) = unit_keys (units (state e))
  /\ Forall (fun step_i : result (list Event.t) * Engine =>
               units_rel same (units (state e)) (units (state step_i.2)))
            (run e calls).1.
Proof.
  cbn zeta.
  set (same := fun a b : Unit =>
                 id b = id a /\ side b = side a /\ unit_type_id b = unit_type_id a).
  assert (Htrans : forall a b c, same a b -> same b c -> same a c).
  { unfold same. intros a b c (? & ? & ?) (? & ? & ?). repeat split; congruence. }
  assert (Hrun : forall calls e0 e,
            units_rel same (units (state e0)) (units (state e)) ->
            units_rel same (units (state e0)) (units (state (run e calls).2))
            /\ Forall (fun step_i : result (list Event.t) * Engine =>
                         units_rel same (units (state e0)) (units (state step_i.2)))
                      (run e calls).1).
  { clear e calls. induction calls as [|[os|dt] rest IH]; intros e0 e H0; cbn [run].
    - split; [exact H0|constructor].
    - apply IH. exact H0.
    - pose proof (step_static dt e) as Hs.
      destruct (step dt e) as [r e1]. cbn [snd] in Hs.
      assert (H1 : units_rel same (units (state e0)) (units (state e1))).
      { eapply units_rel_trans; [exact Htrans|exact H0|exact Hs]. }
      destruct (IH e0 e1 H1) as [Hend Hall].
      destruct (run e1 rest) as [log e2]. cbn [fst snd] in *.
      split; [exact Hend|]. constructor; [exact H1|exact Hall]. }
  destruct (Hrun calls e e) as [Hend Hall].
  { apply units_rel_refl. unfold same. auto. }
  split; [exact Hend|]. split; [|exact Hall].
  exact (units_rel_keys _ _ _ Hend).
Qed.

(** X8: Orders act once.  A step that finds the queue empty accepts nothing and
    leaves every unit the movement intent and the attack target it had:
    nothing but an order sets or clears them, reaching the destination
    included. *)
Theorem step_without_orders (dt_ms : Z) (e : Engine) :
  _pending_orders e = [] ->
  units_rel (fun a b => intent_target_pos b = intent_target_pos a
                        /\ target_id b = target_id a)
            (units (state e)) (units (state (step dt_ms e).2))
  /\ forall evts, (step dt_ms e).1 = Ok evts ->
       Forall (fun ev => has_kind "OrderAccepted" ev = false) evts.
Proof.
  intros Hq.
  set (keep := fun a b : Unit => intent_target_pos b = intent_target_pos a
                                 /\ target_id b = target_id a).
  assert (Htrans : forall a b c, keep a b -> keep b c -> keep a c).
  { unfold keep. intros a b c [? ?] [? ?]. split; congruence. }
  split.
  - destruct (step_touch dt_ms e) as (us1 & us2 & us3 & us5 & H1 & _ & H2 & H3 & H5 & H6).
    rewrite Hq in H1. cbn in H1. subst us1.
    apply (units_rel_mono _ keep) in H2.
    2:{ intros a b H. apply move_touch_fields in H as (_ & _ & _ & _ & _ & _ & ? & ? & _).
        now split. }
    apply (units_rel_mono _ keep) in H3.
    2:{ intros a b H.
        apply spotting_touch_fields in H as (_ & _ & _ & _ & _ & _ & _ & ? & ? & _).
        now split. }
    apply (units_rel_mono _ keep) in H5.
    2:{ intros a b H. apply combat_touch_fields in H as (_ & _ & _ & _ & _ & ? & ? & _).
        now split. }
    apply (units_rel_mono _ keep) in H6.
    2:{ intros a b H. apply morale_touch_fields in H as (_ & _ & _ & _ & _ & _ & ? & ? & _).
        now split. }
    pose proof (units_rel_trans _ _ _ _ _ _ Htrans H2 H3) as H23.
    pose proof (units_rel_trans _ _ _ _ _ _ Htrans H23 H5) as H25.
    exact (units_rel_trans _ _ _ _ _ _ Htrans H25 H6).
  - intros evts Hok.
    destruct (step dt_ms e) as [r e'] eqn:Hstep. cbn [fst] in Hok. subst r.
    destruct (step_ok_units _ _ _ _ Hstep)
      as (ev1 & ev5 & ev6 & us1 & us2 & us3 & us5 & rng5 & targets & ms
          & -> & H1 & _ & _ & _ & _ & H5 & (rng6 & H6) & _).
    rewrite Hq in H1. cbn in H1. injection H1 as -> ->.
    cbn [app]. rewrite Forall_app. split.
    + eapply Forall_impl; [exact (combat_loop_kinds _ _ _ _ _ _ _ _ _ H5)|].
      intros ev [K _]. now apply combat_kind_exclusive in K.
    + destruct (morale_loop_events (ts_ms (state e)) us5 (rng5, [])) as (new & Hnew & K).
      rewrite H6 in Hnew. cbn in Hnew. subst new.
      eapply Forall_impl; [exact K|].
      intros ev [K' _]. now apply routed_kind_exclusive in K'.
Qed.

(* ===================================================================== *)
(** ** Phase 1: what a batch of orders does *)
(* ===================================================================== *)

Lemma units_rel_get_none (R : Unit -> Unit -> Prop) (us us' : Units) (k : string) :
  units_rel R us us' -> dict_get k us = None -> dict_get k us' = None.
Proof.
  intros Hrel Hnone. destruct (dict_get k us') as [u'|] eqn:Hget; [|reflexivity].
  destruct (units_rel_get_inv _ _ _ _ _ Hrel Hget) as (u & Hu & _). congruence.
Qed.

(** The acknowledgement of an order reads the unit's key, routed flag and
    identifier only, none of which an earlier order can have changed. *)
Lemma apply_order_events_rel (now : Z) (o : Order.t) (us us' : Units) :
  units_rel orders_touch us us' ->
  (apply_order now o us').1 = (apply_order now o us).1.
Proof.
  intros Hrel. unfold apply_order.
  destruct (dict_get (Order.unit_id o) us) as [u|] eqn:Hget.
  - destruct (units_rel_get _ _ _ _ _ Hrel Hget) as (u' & -> & Hu).
    apply orders_touch_fields in Hu as (Hid & _ & _ & _ & _ & _ & Hr & _).
    rewrite Hr. destruct (routed u); [reflexivity|].
    destruct (Order.kind o).
    + destruct (Order.target_pos o); cbn [fst]; [|reflexivity].
      f_equal. unfold OrderAccepted_move. f_equal. destruct u, u'; cbn in *. now subst.
    + destruct (Order.target_unit_id o) as [t|]; cbn [fst]; [|reflexivity].
      destruct (String.eqb t ""); cbn [fst]; [reflexivity|].
      f_equal. destruct u, u'; cbn in *. now subst.
    + cbn [fst]. f_equal. destruct u, u'; cbn in *. now subst.
  - now rewrite (units_rel_get_none _ _ _ _ Hrel Hget).
Qed.

Lemma apply_orders_loop_events (now : Z) (os : list Order.t) (us0 us : Units) :
  units_rel orders_touch us0 us ->
  (apply_orders_loop now os us).1 = concat (map (fun o => (apply_order now o us0).1) os).
Proof.
  revert us. induction os as [|o os IH]; intros us Hrel; cbn [apply_orders_loop map concat].
  - reflexivity.
  - pose proof (apply_order_events_rel now o us0 us Hrel) as Hev.
    pose proof (apply_order_touch now o us) as Ht.
    destruct (apply_order now o us) as [evts us1]. cbn [fst snd] in *.
    assert (Hrel1 : units_rel orders_touch us0 us1).
    { eapply units_rel_trans; [apply orders_touch_trans|exact Hrel|exact Ht]. }
    specialize (IH us1 Hrel1).
    destruct (apply_orders_loop now os us1) as [evts' us2]. cbn [fst] in *.
    now rewrite Hev, IH.
Qed.

(** X9: The acknowledgements of a batch are, order by order, the ones each
    order would get if it were applied alone to the units as the step found
    them: whether an order is accepted never depends on the orders queued
    before it.  In a step that returns they open the event list, and no
    later event is an acknowledgement. *)
Theorem orders_acknowledged_independently (dt_ms : Z) (e : Engine) :
  let acks := concat (map (fun o => (apply_order (ts_ms (state e)) o
                                                   (units (state e))).1)
                          (_pending_orders e)) in
  (_apply_orders_now e).1 = Ok acks
  /\ forall evts, (step dt_ms e).1 = Ok evts ->
       exists rest, evts = acks ++ rest
                    /\ Forall (fun ev => has_kind "OrderAccepted" ev = false) rest.
Proof.
  cbn zeta.
  pose proof (apply_orders_loop_events (ts_ms (state e)) (_pending_orders e)
                (units (state e)) (units (state e))
                (units_rel_refl _ _ orders_touch_refl)) as Hacks.
  split.
  - rewrite _apply_orders_now_eq. cbn [fst]. now rewrite Hacks.
  - intros evts Hok.
    destruct (step dt_ms e) as [r e'] eqn:Hstep. cbn [fst] in Hok. subst r.
    destruct (step_ok_units _ _ _ _ Hstep)
      as (ev1 & ev5 & ev6 & us1 & us2 & us3 & us5 & rng5 & targets & ms
          & -> & H1 & _ & _ & _ & _ & H5 & (rng6 & H6) & _).
    rewrite <- H1 in Hacks. cbn [fst] in Hacks. subst ev1.
    exists (ev5 ++ ev6). split; [reflexivity|].
    rewrite Forall_app. split.
    + eapply Forall_impl; [exact (combat_loop_kinds _ _ _ _ _ _ _ _ _ H5)|].
      intros ev [K _]. now apply combat_kind_exclusive in K.
    + destruct (morale_loop_events (ts_ms (state e)) us5 (rng5, [])) as (new & Hnew & K).
      rewrite H6 in Hnew. cbn in Hnew. subst new.
      eapply Forall_impl; [exact K|].
      intros ev [K' _]. now apply routed_kind_exclusive in K'.
Qed.

Lemma apply_order_get_other (now : Z) (o : Order.t) (us : Units) (k : string) :
  Order.unit_id o <> k -> dict_get k (apply_order now o us).2 = dict_get k us.
Proof.
  intros Hne. unfold apply_order.
  destruct (dict_get (Order.unit_id o) us) as [u|]; [|reflexivity].
  destruct (routed u); [reflexivity|].
  destruct (Order.kind o).
  - destruct (Order.target_pos o); cbn [snd]; [|reflexivity].
    now apply dict_get_put_other.
  - destruct (Order.target_unit_id o) as [t|]; cbn [snd]; [|reflexivity].
    destruct (String.eqb t ""); cbn [snd]; [reflexivity|].
    now apply dict_get_put_other.
  - cbn [snd]. now apply dict_get_put_other.
Qed.

Lemma apply_order_get_same (now : Z) (o : Order.t) (us us' : Units) :
  dict_get (Order.unit_id o) us = dict_get (Order.unit_id o) us' ->
  dict_get (Order.unit_id o) (apply_order now o us).2
  = dict_get (Order.unit_id o) (apply_order now o us').2.
Proof.
  intros Hsame. unfold apply_order. rewrite <- Hsame.
  destruct (dict_get (Order.unit_id o) us) as [u|] eqn:Hget; [|cbn [snd]; congruence].
  symmetry in Hsame.
  destruct (routed u); [cbn [snd]; congruence|].
  destruct (Order.kind o).
  - destruct (Order.target_pos o); cbn [snd]; [|congruence].
    now rewrite (dict_get_put_same _ _ _ _ Hget), (dict_get_put_same _ _ _ _ Hsame).
  - destruct (Order.target_unit_id o) as [t|]; cbn [snd]; [|congruence].
    destruct (String.eqb t ""); cbn [snd]; [congruence|].
    now rewrite (dict_get_put_same _ _ _ _ Hget), (dict_get_put_same _ _ _ _ Hsame).
  - cbn [snd].
    now rewrite (dict_get_put_same _ _ _ _ Hget), (dict_get_put_same _ _ _ _ Hsame).
Qed.

Lemma apply_orders_loop_get (now : Z) (os : list Order.t) (us us' : Units) (k : string) :
  dict_get k us = dict_get k us' ->
  dict_get k (apply_orders_loop now os us).2
  = dict_get k (apply_orders_loop now
                  (List.filter (fun o => String.eqb (Order.unit_id o) k) os) us').2.
Proof.
  revert us us'. induction os as [|o os IH]; intros us us' Hsame;
    cbn [apply_orders_loop List.filter]; [exact Hsame|].
  destruct (String.eqb (Order.unit_id o) k) eqn:Hk.
  - apply String.eqb_eq in Hk. subst k. cbn [apply_orders_loop].
    pose proof (apply_order_get_same now o us us' Hsame) as H1.
    destruct (apply_order now o us) as [ev1 us1].
    destruct (apply_order now o us') as [ev1' us1']. cbn [snd] in H1.
    specialize (IH us1 us1' H1).
    destruct (apply_orders_loop now os us1) as [ev2 us2].
    destruct (apply_orders_loop now _ us1') as [ev2' us2']. exact IH.
  - apply String.eqb_neq in Hk.
    pose proof (apply_order_get_other now o us k Hk) as H1.
    destruct (apply_order now o us) as [ev1 us1]. cbn [snd] in H1.
    assert (H1' : dict_get k us1 = dict_get k us') by congruence.
    specialize (IH us1 us' H1').
    destruct (apply_orders_loop now os us1) as [ev2 us2]. exact IH.
Qed.

(** X10: An order writes the unit it names and no other: what the order phase
    leaves of a unit is what it would leave had the queue held only the
    orders addressed to that unit, in the same order.  In particular a unit
    no queued order names is as the phase found it. *)
Theorem orders_write_only_their_unit (e : Engine) (k : string) :
  let mine := List.filter (fun o => String.eqb (Order.unit_id o) k) (_pending_orders e) in
  dict_get k (units (state (_apply_orders_now e).2))
  = dict_get k (units (state (_apply_orders_now (with_pending mine e)).2))
  /\ (mine = [] ->
      dict_get k (units (state (_apply_orders_now e).2)) = dict_get k (units (state e))).
Proof.
  cbn zeta.
  pose proof (apply_orders_loop_get (ts_ms (state e)) (_pending_orders e)
                (units (state e)) (units (state e)) k eq_refl) as H.
  rewrite !_apply_orders_now_eq.
  cbn [snd with_pending with_units state units set_units ts_ms _pending_orders].
  split; [exact H|].
  intros Hnone. rewrite H, Hnone. reflexivity.
Qed.

(* ===================================================================== *)
(** ** When a step returns and when it raises *)
(* ===================================================================== *)

Lemma get_type_ext (a b : Unit) :
  unit_type_id b = unit_type_id a -> get_type b = get_type a.
Proof. unfold get_type. now intros ->. Qed.

Lemma well_typed_rel (R : Unit -> Unit -> Prop) (us us' : Units) :
  (forall a b, R a b -> unit_type_id b = unit_type_id a) ->
  units_rel R us us' -> well_typed us -> well_typed us'.
Proof.
  intros HR Hrel. unfold well_typed.
  induction Hrel as [|[k u] [k' u'] us us' [_ Hu] _ IH]; intros Hwt; [constructor|].
  apply Forall_cons in Hwt as [[T HT] Hwt]. constructor; [|now apply IH].
  exists T. cbn in *. now rewrite (get_type_ext u u' (HR _ _ Hu)).
Qed.

Lemma well_typed_get (us : Units) (k : string) (u : Unit) :
  well_typed us -> dict_get k us = Some u -> exists T, get_type u = Ok T.
Proof.
  intros Hwt Hget. apply dict_get_elem_of in Hget.
  unfold well_typed in Hwt. rewrite Forall_forall in Hwt. exact (Hwt _ Hget).
Qed.

(** A loop over the units returns when its body returns on every unit. *)
Lemma for_units_ok {W} (P : Unit -> Prop) (body : Unit -> W -> result (Unit * W))
    (us : Units) (w : W) :
  Forall (fun ku : string * Unit => P ku.2) us ->
  (forall u w, P u -> exists r, body u w = Ok r) ->
  exists us' w', for_units body us w = (Ok tt, us', w').
Proof.
  intros Hall Hbody. revert w.
  induction Hall as [|[k u] us Hu _ IH]; intros w; cbn [for_units]; [eauto|].
  destruct (Hbody u w Hu) as ([u' w'] & ->).
  destruct (IH w') as (us' & w'' & ->). eauto.
Qed.

Lemma move_unit_ok (dt : float) (u : Unit) :
  (exists T, get_type u = Ok T) -> exists u', move_unit dt u = Ok u'.
Proof.
  intros [T HT]. unfold move_unit.
  destruct (intent_target_pos u) as [tgt|]; [|eauto].
  destruct (routed u); [eauto|].
  rewrite HT. cbn [bind].
  set (dx := (tgt.1 - (pos u).1)%float). set (dy := (tgt.2 - (pos u).2)%float).
  set (dist := sqrt (dx * dx + dy * dy)%float).
  destruct (dist <? 0.1)%float eqn:Hnear; [eauto|].
  assert (Hnz : (dist =? 0)%float = false).
  { destruct (dist =? 0)%float eqn:Hz; [|reflexivity].
    apply float_zero_below_tenth in Hz. congruence. }
  rewrite !(py_div_nonzero _ _ Hnz). cbn [bind]. eauto.
Qed.

Lemma _can_detect_ok (d t : Unit) :
  (exists T, get_type d = Ok T) -> (exists T, get_type t = Ok T) ->
  exists b, _can_detect d t = Ok b.
Proof. intros [Td Hd] [Tt Ht]. unfold _can_detect. rewrite Hd, Ht. cbn [bind]. eauto. Qed.

Lemma spot_body_ok (d t : Unit) (w : unit) :
  (exists T, get_type d = Ok T) -> (exists T, get_type t = Ok T) ->
  exists r, spot_body d t w = Ok r.
Proof.
  intros Hd Ht. unfold spot_body.
  destruct (Side_eqb (side d) (side t)); [eauto|].
  destruct (_can_detect_ok d t Hd Ht) as [b ->]. cbn [bind].
  destruct b; eauto.
Qed.

Lemma spot_loop_ok (n i : nat) (us : Units) :
  well_typed us -> exists us', spot_loop n i us = (Ok tt, us').
Proof.
  revert i us. induction n as [|n IH]; intros i us Hwt; cbn [spot_loop]; [eauto|].
  destruct (us !! i) as [[kd d]|] eqn:Hi; [|eauto].
  destruct (routed d); [now apply IH|].
  assert (Hd : exists T, get_type d = Ok T).
  { unfold well_typed in Hwt. rewrite Forall_forall in Hwt.
    exact (Hwt _ (list_elem_of_lookup_2 _ _ _ Hi)). }
  destruct (for_units_ok (fun t => exists T, get_type t = Ok T) (spot_body d) us tt Hwt)
    as (us' & w' & Hloop).
  { intros t w Ht. now apply spot_body_ok. }
  pose proof (for_units_rel spotting_touch (spot_body d) spotting_touch_refl
                (fun t w t' w' => spot_body_touch d t t' w w') us tt) as Hrel.
  rewrite Hloop in *. cbn [fst snd] in Hrel.
  apply IH. eapply well_typed_rel; [|exact Hrel|exact Hwt].
  intros a b Hab. now apply spotting_touch_fields in Hab as (_ & _ & ? & _).
Qed.

Lemma _can_fire_at_ok (a t : Unit) (now : Z) :
  (exists T, get_type a = Ok T) -> (exists T, get_type t = Ok T) ->
  fits_float (now - last_fire_time a) ->
  exists b, _can_fire_at a t now = Ok b.
Proof.
  intros [Ta Ha] Ht [el Hel]. unfold _can_fire_at. rewrite Ha, Hel. cbn [bind].
  destruct (_ <? _)%float; [eauto|].
  destruct (ammo a <=? 0); [eauto|].
  destruct (_ <? _)%float; [eauto|].
  destruct (weapon_type Ta); eauto using _can_detect_ok.
Qed.

Lemma scan_targets_ok (now : Z) (u : Unit) (cands : Units)
    (best : option string) (best_dist : float) :
  (exists T, get_type u = Ok T) -> fits_float (now - last_fire_time u) ->
  well_typed cands ->
  exists r, scan_targets now u cands best best_dist = Ok r.
Proof.
  intros Hu Hfit Hwt. revert best best_dist.
  induction Hwt as [|[k t] cands Ht _ IH]; intros best best_dist;
    cbn [scan_targets]; [eauto|].
  destruct (Side_eqb (side u) (side t) || (hp t <=? 0)%float); [apply IH|].
  destruct (_can_fire_at_ok u t now Hu Ht Hfit) as [b ->]. cbn [bind].
  destruct b; [|apply IH].
  destruct (_ <? _)%float; apply IH.
Qed.

Lemma find_targets_loop_ok (now : Z) (all us : Units) (targets : list (string * string)) :
  well_typed all -> well_typed us ->
  Forall (fun ku : string * Unit => fits_float (now - last_fire_time ku.2)) us ->
  exists tg, find_targets_loop now all us targets = Ok tg.
Proof.
  intros Hall Hwt Hfit. revert targets.
  induction us as [|[k u] us IH]; intros targets; cbn [find_targets_loop]; [eauto|].
  apply Forall_cons in Hwt as [Hu Hwt]. apply Forall_cons in Hfit as [Hf Hfit].
  specialize (IH Hwt Hfit).
  destruct (routed u); [apply IH|].
  destruct (scan_targets_ok now u all None infinity Hu Hf Hall) as [r ->]. cbn [bind].
  destruct r as [t|]; [|apply IH].
  destruct (String.eqb t ""); apply IH.
Qed.

Lemma combat_pair_ok (acc decay : float) (now : Z) (sid tid : string)
    (us : Units) (rng : DRNG) :
  well_typed us -> (decay =? 0)%float = false ->
  exists evts, (combat_pair acc decay now sid tid us rng).1.1 = Ok evts.
Proof.
  intros Hwt Hdecay. unfold combat_pair.
  destruct (dict_get sid us) as [s|] eqn:Hs; [|eauto].
  destruct (dict_get tid us) as [t|] eqn:Ht; [|eauto].
  destruct (routed s || (hp t <=? 0)%float); [eauto|].
  destruct (well_typed_get _ _ _ Hwt Hs) as [sT HsT].
  destruct (well_typed_get _ _ _ Hwt Ht) as [tT HtT].
  rewrite HsT. cbn [bind]. rewrite (py_div_nonzero _ _ Hdecay). cbn [bind].
  destruct (bernoulli _ rng) as [hit rng1].
  destruct hit; [|eauto].
  unfold _calculate_damage. rewrite get_type_fired, HsT. cbn [bind].
  destruct (String.eqb sid tid).
  - rewrite get_type_fired, HsT. cbn [bind]. eauto.
  - rewrite HtT. cbn [bind]. eauto.
Qed.

Lemma combat_loop_ok (acc decay : float) (now : Z) (targets : list (string * string))
    (us : Units) (rng : DRNG) :
  well_typed us -> (decay =? 0)%float = false ->
  exists evts, (combat_loop acc decay now targets us rng).1.1 = Ok evts.
Proof.
  intros Hwt Hdecay. revert us rng Hwt.
  induction targets as [|[sid tid] rest IH]; intros us rng Hwt; cbn [combat_loop]; [eauto|].
  destruct (combat_pair_ok acc decay now sid tid us rng Hwt Hdecay) as [evts Hp].
  pose proof (combat_pair_touch acc decay now sid tid us rng) as Hrel.
  destruct (combat_pair acc decay now sid tid us rng) as [[r us1] rng1].
  cbn [fst snd] in *. subst r.
  assert (Hwt1 : well_typed us1).
  { eapply well_typed_rel; [|exact Hrel|exact Hwt].
    intros a b Hab. now apply combat_touch_fields in Hab as (_ & _ & ? & _). }
  destruct (IH us1 rng1 Hwt1) as [evts' H'].
  destruct (combat_loop acc decay now rest us1 rng1) as [[r us2] rng2].
  cbn [fst snd] in *. subst r. cbn [bind]. eauto.
Qed.

Lemma morale_unit_ok (now : Z) (u : Unit) (w : DRNG * list Event.t) :
  (exists T, get_type u = Ok T) -> exists r, morale_unit now u w = Ok r.
Proof.
  intros [T HT]. unfold morale_unit.
  destruct (routed u); [eauto|].
  rewrite HT. cbn [bind].
  destruct (get_type_catalog _ _ HT) as [_ Hnz].
  rewrite (py_div_nonzero _ _ Hnz). cbn [bind].
  destruct (_ <? _)%float; [|eauto].
  destruct (bernoulli 0.5 w.1) as [b rng']. destruct b; eauto.
Qed.

Lemma units_rel_Forall (R : Unit -> Unit -> Prop) (P : Unit -> Prop) (us us' : Units) :
  (forall a b, R a b -> P a -> P b) ->
  units_rel R us us' ->
  Forall (fun ku : string * Unit => P ku.2) us ->
  Forall (fun ku : string * Unit => P ku.2) us'.
Proof.
  intros HR Hrel.
  induction Hrel as [|[k u] [k' u'] us us' [_ Hu] _ IH]; intros Hall; [constructor|].
  apply Forall_cons in Hall as [Hu0 Hall]. constructor; [|now apply IH].
  cbn in *. eauto.
Qed.

Lemma float_positive_nonzero (x : float) :
  (0 <? x)%float = true -> (x =? 0)%float = false.
Proof.
  rewrite FloatAxioms.eqb_spec, FloatAxioms.ltb_spec. unfold SFeqb, SFltb.
  rewrite Prim2SF_zero.
  destruct (Prim2SF x) as [s|s| |s m e]; cbn [SFcompare];
    try congruence; destruct s; congruence.
Qed.

(** X11: A step returns whenever every unit names a type of the catalogue, the
    distance decay is positive (as the constructor sets it; [math.exp] is
    then applied to a number that is not above zero, which it accepts), and
    [dt_ms] and the time since each unit last fired are within the range of
    a float: no [KeyError], no [ZeroDivisionError] (a unit on its
    destination divides by no zero distance) and no [OverflowError] can
    stop it. *)
Theorem step_returns (dt_ms : Z) (e : Engine) :
  well_typed (units (state e)) ->
  fits_float dt_ms ->
  Forall (fun ku : string * Unit => fits_float (ts_ms (state e) - last_fire_time ku.2))
         (units (state e)) ->
  (0 <? decay_m e)%float = true ->
  exists evts, (step dt_ms e).1 = Ok evts.
Proof.
  intros Hwt [ms Hms] Hfit Hpos.
  pose proof (float_positive_nonzero _ Hpos) as Hdecay.
  set (typed := fun u : Unit => exists T, get_type u = Ok T).
  set (fits := fun u : Unit => fits_float (ts_ms (state e) - last_fire_time u)).
  change (Forall (fun ku : string * Unit => typed ku.2) (units (state e))) in Hwt.
  change (Forall (fun ku : string * Unit => fits ku.2) (units (state e))) in Hfit.
  unfold step, bindM. rewrite _apply_orders_now_eq.
  pose proof (apply_orders_loop_touch (ts_ms (state e)) (_pending_orders e)
                (units (state e))) as H1.
  set (ev1 := (apply_orders_loop _ _ _).1).
  set (us1 := (apply_orders_loop _ _ _).2) in *.
  assert (Hwt1 : Forall (fun ku : string * Unit => typed ku.2) us1).
  { eapply units_rel_Forall; [|exact H1|exact Hwt].
    intros a b Hab [T HT]. exists T.
    apply orders_touch_fields in Hab as (_ & _ & Hty & _).
    now rewrite (get_type_ext a b Hty). }
  assert (Hfit1 : Forall (fun ku : string * Unit => fits ku.2) us1).
  { eapply units_rel_Forall; [|exact H1|exact Hfit].
    intros a b Hab. unfold fits.
    apply orders_touch_fields in Hab as (_ & _ & _ & _ & _ & _ & _ & Hl & _).
    now rewrite Hl. }
  (* movement *)
  unfold _move at 1. rewrite Hms.
  cbn [units state with_pending with_units set_units].
  destruct (for_units_ok typed
              (fun u (w : unit) => let! u' := move_unit (ms / 1000.0) u in Ok (u', w))
              us1 tt Hwt1) as (us2 & w2 & Hmove).
  { intros u w Hu. destruct (move_unit_ok (ms / 1000.0) u Hu) as [u' ->].
    cbn [bind]. eauto. }
  pose proof (for_units_rel move_touch _ move_touch_refl
                (fun u w u' w' => move_body_touch (ms / 1000.0) u u' w w') us1 tt) as H2.
  rewrite Hmove in *. cbn [fst snd bind] in *.
  assert (Hwt2 : Forall (fun ku : string * Unit => typed ku.2) us2).
  { eapply units_rel_Forall; [|exact H2|exact Hwt1].
    intros a b Hab [T HT]. exists T.
    apply move_touch_fields in Hab as (_ & _ & Hty & _).
    now rewrite (get_type_ext a b Hty). }
  assert (Hfit2 : Forall (fun ku : string * Unit => fits ku.2) us2).
  { eapply units_rel_Forall; [|exact H2|exact Hfit1].
    intros a b Hab. unfold fits.
    apply move_touch_fields in Hab as (_ & _ & _ & _ & _ & _ & _ & _ & Hl & _).
    now rewrite Hl. }
  (* spotting *)
  unfold _update_spotting at 1.
  cbn [units state with_pending with_units set_units].
  pose proof (clear_spotting_touch us2) as H3a.
  assert (Hwt2' : well_typed (clear_spotting us2)).
  { eapply well_typed_rel; [|exact H3a|exact Hwt2].
    intros a b Hab. now apply spotting_touch_fields in Hab as (_ & _ & ? & _). }
  destruct (spot_loop_ok (length (clear_spotting us2)) 0 (clear_spotting us2) Hwt2')
    as (us3 & Hspot).
  pose proof (spot_loop_touch (length (clear_spotting us2)) 0 (clear_spotting us2)) as H3b.
  rewrite Hspot in *. cbn [fst snd bind] in *.
  assert (H3 : units_rel spotting_touch us2 us3).
  { eapply units_rel_trans; [apply spotting_touch_trans|exact H3a|exact H3b]. }
  assert (Hwt3 : Forall (fun ku : string * Unit => typed ku.2) us3).
  { eapply units_rel_Forall; [|exact H3|exact Hwt2].
    intros a b Hab [T HT]. exists T.
    apply spotting_touch_fields in Hab as (_ & _ & Hty & _).
    now rewrite (get_type_ext a b Hty). }
  assert (Hfit3 : Forall (fun ku : string * Unit => fits ku.2) us3).
  { eapply units_rel_Forall; [|exact H3|exact Hfit2].
    intros a b Hab. unfold fits.
    apply spotting_touch_fields in Hab as (_ & _ & _ & _ & _ & _ & _ & _ & _ & Hl).
    now rewrite Hl. }
  (* targeting *)
  unfold _find_targets at 1.
  cbn [units state with_pending with_units set_units ts_ms].
  destruct (find_targets_loop_ok (ts_ms (state e)) us3 us3 [] Hwt3 Hwt3 Hfit3)
    as (targets & Hft).
  rewrite Hft.
  (* combat *)
  unfold _combat at 1.
  cbn [units state with_pending with_units set_units ts_ms base_acc decay_m _rng].
  destruct (combat_loop_ok (base_acc e) (decay_m e) (ts_ms (state e)) targets us3 (_rng e)
              Hwt3 Hdecay) as (ev5 & Hc).
  pose proof (combat_loop_touch (base_acc e) (decay_m e) (ts_ms (state e)) targets us3
                (_rng e)) as H5.
  destruct (combat_loop _ _ _ _ _ _) as [[r5 us5] rng5]. cbn [fst snd] in *. subst r5.
  assert (Hwt5 : Forall (fun ku : string * Unit => typed ku.2) us5).
  { eapply units_rel_Forall; [|exact H5|exact Hwt3].
    intros a b Hab [T HT]. exists T.
    apply combat_touch_fields in Hab as (_ & _ & Hty & _).
    now rewrite (get_type_ext a b Hty). }
  (* morale *)
  unfold _morale at 1.
  cbn [units state with_pending with_units with_rng set_units ts_ms _rng].
  destruct (for_units_ok typed (morale_unit (ts_ms (state e))) us5 (rng5, []) Hwt5)
    as (us6 & [rng6 ev6] & Hm).
  { intros u w Hu. now apply morale_unit_ok. }
  rewrite Hm. cbn [bind fst snd]. eauto.
Qed.

(** A step that returns, with what each phase did to the units. *)
Lemma step_ok_rels (dt_ms : Z) (e e' : Engine) (evts : list Event.t) :
  step dt_ms e = (Ok evts, e') ->
  exists ev1 ev5 ev6 us1 us2 us3 us5 rng5 rng6 targets,
    evts = ev1 ++ ev5 ++ ev6
    /\ (ev1, us1) = apply_orders_loop (ts_ms (state e)) (_pending_orders e) (units (state e))
    /\ spot_loop (length us2) 0 (clear_spotting us2) = (Ok tt, us3)
    /\ find_targets_loop (ts_ms (state e)) us3 us3 [] = Ok targets
    /\ combat_loop (base_acc e) (decay_m e) (ts_ms (state e)) targets us3 (_rng e)
       = (Ok ev5, us5, rng5)
    /\ for_units (morale_unit (ts_ms (state e))) us5 (rng5, [])
       = (Ok tt, units (state e'), (rng6, ev6))
    /\ units_rel orders_touch (units (state e)) us1
    /\ units_rel move_touch us1 us2
    /\ units_rel spotting_touch us2 us3
    /\ units_rel combat_touch us3 us5
    /\ units_rel morale_touch us5 (units (state e')).
Proof.
  intros H.
  destruct (step_ok_units _ _ _ _ H)
    as (ev1 & ev5 & ev6 & us1 & us2 & us3 & us5 & rng5 & targets & ms
        & -> & Hloop & _ & Hmove & Hspot & Hft & Hc & [rng6 Hm] & _).
  exists ev1, ev5, ev6, us1, us2, us3, us5, rng5, rng6, targets.
  repeat (split; [reflexivity || assumption|]).
  split.
  { pose proof (apply_orders_loop_touch (ts_ms (state e)) (_pending_orders e)
                  (units (state e))) as T. now rewrite <- Hloop in T. }
  split.
  { pose proof (for_units_rel move_touch _ move_touch_refl
                  (fun u w u' w' => move_body_touch (ms / 1000.0) u u' w w') us1 tt) as T.
    now rewrite Hmove in T. }
  split.
  { pose proof (spot_loop_touch (length us2) 0 (clear_spotting us2)) as T.
    rewrite Hspot in T. cbn in T.
    eapply units_rel_trans; [apply spotting_touch_trans|apply clear_spotting_touch|exact T]. }
  split.
  { pose proof (combat_loop_touch (base_acc e) (decay_m e) (ts_ms (state e)) targets us3
                  (_rng e)) as T. now rewrite Hc in T. }
  pose proof (for_units_rel morale_touch _ morale_touch_refl
                (fun u w u' w' => morale_unit_touch (ts_ms (state e)) u u' w w')
                us5 (rng5, [])) as T.
  now rewrite Hm in T.
Qed.

(** X12: A unit that is not routed and names no type of the catalogue makes
    every step raise: the morale phase, if no earlier one, looks its type
    up. *)
Theorem step_raises_on_unknown_type (dt_ms : Z) (e : Engine) (k : string) (u : Unit) :
  dict_get k (units (state e)) = Some u ->
  routed u = false ->
  dict_get (unit_type_id u) UNIT_TYPES = None ->
  exists x, (step dt_ms e).1 = Raise x.
Proof.
  intros Hget Hr Hnone.
  destruct (step dt_ms e) as [[evts|x] e'] eqn:Hstep; [exfalso|cbn; eauto].
  destruct (step_ok_rels _ _ _ _ Hstep)
    as (ev1 & ev5 & ev6 & us1 & us2 & us3 & us5 & rng5 & rng6 & targets
        & _ & _ & _ & _ & _ & Hm & H1 & H2 & H3 & H5 & _).
  destruct (units_rel_get _ _ _ _ _ H1 Hget) as (u1 & Hu1 & T1).
  destruct (units_rel_get _ _ _ _ _ H2 Hu1) as (u2 & Hu2 & T2).
  destruct (units_rel_get _ _ _ _ _ H3 Hu2) as (u3 & Hu3 & T3).
  destruct (units_rel_get _ _ _ _ _ H5 Hu3) as (u5 & Hu5 & T5).
  apply orders_touch_fields in T1 as (_ & _ & Ty1 & _ & _ & _ & R1 & _).
  apply move_touch_fields in T2 as (_ & _ & Ty2 & _ & _ & R2 & _).
  apply spotting_touch_fields in T3 as (_ & _ & Ty3 & _ & _ & _ & R3 & _).
  apply combat_touch_fields in T5 as (_ & _ & Ty5 & _ & R5 & _).
  destruct (for_units_ok_get _ _ _ _ _ _ _ Hm Hu5) as (u6 & w1 & w2 & Hbody & _).
  revert Hbody. unfold morale_unit.
  replace (routed u5) with false by congruence.
  unfold get_type.
  replace (unit_type_id u5) with (unit_type_id u) by congruence.
  rewrite Hnone. discriminate.
Qed.

(* ===================================================================== *)
(** ** Combat: what an exchange can change, and for whom *)
(* ===================================================================== *)

(** One exchange, whatever its outcome, seen from any unit: only the
    shooter's ammunition and fire time and only the target's hit points can
    change, and the hit points of a unit at or below zero are left alone. *)
Lemma combat_pair_unit (acc decay : float) (now : Z) (sid tid : string)
    (us us' : Units) (rng rng' : DRNG) (r : result (list Event.t))
    (k : string) (u : Unit) :
  combat_pair acc decay now sid tid us rng = (r, us', rng') ->
  dict_get k us = Some u ->
  exists u', dict_get k us' = Some u'
    /\ (k <> sid -> last_fire_time u' = last_fire_time u /\ ammo u' = ammo u)
    /\ (k <> tid -> hp u' = hp u)
    /\ ((hp u <=? 0)%float = true -> hp u' = hp u).
Proof.
  intros H Hget. apply combat_pair_inv in H as [(-> & _ & _)|H].
  { exists u. auto. }
  destruct H as (s & t & sT & q & Hs & Ht & _ & Hhp & _ & _ & H). cbv zeta in H.
  set (s' := set_last_fire_time now (set_ammo (ammo s - 1) s)) in *.
  set (t1 := if String.eqb sid tid then s' else t) in *.
  destruct H as (_ & Ht1 & H).
  assert (Hs' : hp s' = hp s) by (subst s'; destruct s; reflexivity).
  assert (Hdead : (hp u <=? 0)%float = true -> k <> tid).
  { intros Hu ->. congruence. }
  assert (H1 : exists u1, dict_get k (dict_put sid s' us) = Some u1
                 /\ (k <> sid -> u1 = u) /\ hp u1 = hp u).
  { rewrite dict_get_put. destruct (String.eqb_spec sid k) as [<-|Hne].
    - rewrite Hs. exists s'. split; [reflexivity|]. split; [congruence|].
      rewrite Hs in Hget. now injection Hget as <-.
    - exists u. auto. }
  destruct H1 as (u1 & Hu1 & Hsame1 & Hhp1).
  assert (Hdone1 : exists u', dict_get k (dict_put sid s' us) = Some u'
             /\ (k <> sid -> last_fire_time u' = last_fire_time u /\ ammo u' = ammo u)
             /\ (k <> tid -> hp u' = hp u)
             /\ ((hp u <=? 0)%float = true -> hp u' = hp u)).
  { exists u1. split; [exact Hu1|]. split; [|auto]. intros Hne. now rewrite (Hsame1 Hne). }
  destruct H as [(_ & _ & ->)|[(_ & x & _ & _ & ->)|(_ & d & _ & H)]];
    [exact Hdone1|exact Hdone1|].
  cbv zeta in H. destruct H as [_ ->].
  rewrite dict_get_put. destruct (String.eqb_spec tid k) as [<-|Hne].
  - rewrite Ht1. rewrite Ht1 in Hu1. injection Hu1 as <-.
    eexists. split; [reflexivity|]. split; [|split].
    + intros Hne. rewrite (Hsame1 Hne). destruct u; auto.
    + congruence.
    + intros Hu. now apply Hdead in Hu.
  - exists u1. split; [exact Hu1|]. split; [|auto].
    intros Hne'. now rewrite (Hsame1 Hne').
Qed.

Lemma combat_loop_unit (acc decay : float) (now : Z) (targets : list (string * string))
    (us : Units) (rng : DRNG) (k : string) (u : Unit) :
  dict_get k us = Some u ->
  exists u', dict_get k (combat_loop acc decay now targets us rng).1.2 = Some u'
    /\ (k ∉ targets.*1 -> last_fire_time u' = last_fire_time u /\ ammo u' = ammo u)
    /\ (k ∉ targets.*2 -> hp u' = hp u)
    /\ ((hp u <=? 0)%float = true -> hp u' = hp u).
Proof.
  revert us rng u.
  induction targets as [|[sid tid] rest IH]; intros us rng u Hget; cbn [combat_loop].
  - exists u. auto.
  - destruct (combat_pair acc decay now sid tid us rng) as [[r1 us1] rng1] eqn:H1.
    destruct (combat_pair_unit _ _ _ _ _ _ _ _ _ _ k u H1 Hget)
      as (u1 & Hu1 & S1 & T1 & D1).
    assert (Hhere : (k ∉ ((sid, tid) :: rest).*1 -> k <> sid)
                    /\ (k ∉ ((sid, tid) :: rest).*2 -> k <> tid)).
    { cbn. split; intros Hn ->; apply Hn; left. }
    destruct Hhere as [Hs Ht].
    destruct r1 as [ev1|x]; cbn [fst snd].
    2:{ exists u1. split; [exact Hu1|]. auto. }
    destruct (IH us1 rng1 u1 Hu1) as (u2 & Hu2 & S2 & T2 & D2).
    destruct (combat_loop acc decay now rest us1 rng1) as [[r2 us2] rng2].
    cbn [fst snd] in *. exists u2. split; [exact Hu2|]. split; [|split].
    + intros Hn. destruct (S1 (Hs Hn)) as [? ?].
      destruct S2 as [? ?]; [intros Hin; apply Hn; now right|]. split; congruence.
    + intros Hn. rewrite T2 by (intros Hin; apply Hn; now right). auto.
    + intros Hu. rewrite D2; [auto|]. now rewrite (D1 Hu).
Qed.

(* ===================================================================== *)
(** ** Reloading *)
(* ===================================================================== *)

Lemma _can_fire_at_reloading (a t : Unit) (now : Z) (T : UnitType) (el : float) :
  get_type a = Ok T ->
  int_to_float (now - last_fire_time a) = Ok el ->
  (el / 1000.0 <? reload_time_s T)%float = true ->
  _can_fire_at a t now = Ok false.
Proof.
  intros HT Hel Hlt. unfold _can_fire_at. rewrite HT, Hel. cbn [bind]. now rewrite Hlt.
Qed.

Lemma find_targets_reloading (now : Z) (us : Units) (targets : list (string * string))
    (k : string) (u : Unit) (T : UnitType) (el : float) :
  keys_unique us -> dict_get k us = Some u ->
  get_type u = Ok T ->
  int_to_float (now - last_fire_time u) = Ok el ->
  (el / 1000.0 <? reload_time_s T)%float = true ->
  find_targets_loop now us us [] = Ok targets -> k ∉ targets.*1.
Proof.
  intros Hunique Hget HT Hel Hlt Hft Hin.
  apply elem_of_keys_inv in Hin as [t Hin].
  destruct (find_targets_loop_spec _ _ _ _ _ Hft NoDup_nil_2) as [_ S].
  destruct (S k t Hin) as [H|(u' & tu & Hu' & _ & _ & _ & _ & Hfire)]; [inversion H|].
  apply (dict_get_unique _ _ _ Hunique) in Hu'.
  rewrite Hget in Hu'. injection Hu' as <-.
  rewrite (_can_fire_at_reloading u tu now T el HT Hel Hlt) in Hfire. discriminate.
Qed.

(** The unit [k] as the targeting phase of a returning step finds it, and
    as the step leaves it. *)
Lemma step_ok_unit (dt_ms : Z) (e e' : Engine) (evts : list Event.t)
    (k : string) (u : Unit) :
  keys_unique (units (state e)) -> keyed_by_id (units (state e)) ->
  dict_get k (units (state e)) = Some u ->
  step dt_ms e = (Ok evts, e') ->
  exists ev1 ev5 ev6 us3 us5 rng5 targets u3 u5 u6,
    evts = ev1 ++ ev5 ++ ev6
    /\ Forall (fun ev => has_kind "OrderAccepted" ev = true) ev1
    /\ Forall (fun ev => has_kind "Routed" ev = true) ev6
    /\ find_targets_loop (ts_ms (state e)) us3 us3 [] = Ok targets
    /\ combat_loop (base_acc e) (decay_m e) (ts_ms (state e)) targets us3 (_rng e)
       = (Ok ev5, us5, rng5)
    /\ keys_unique us3 /\ keyed_by_id us3
    /\ units_rel early_touch (units (state e)) us3
    /\ dict_get k us3 = Some u3 /\ early_touch u u3
    /\ dict_get k us5 = Some u5
    /\ dict_get k (units (state e')) = Some u6 /\ morale_touch u5 u6.
Proof.
  intros Hunique Hkeyed Hget Hstep.
  destruct (step_ok_rels _ _ _ _ Hstep)
    as (ev1 & ev5 & ev6 & us1 & us2 & us3 & us5 & rng5 & rng6 & targets
        & -> & Hloop & _ & Hft & Hc & Hm & H1 & H2 & H3 & H5 & H6).
  pose proof (early_touch_compose _ _ _ _ H1 H2 H3) as H13.
  destruct (units_rel_get _ _ _ _ _ H13 Hget) as (u3 & Hu3 & E3).
  destruct (units_rel_get _ _ _ _ _ H5 Hu3) as (u5 & Hu5 & _).
  destruct (units_rel_get _ _ _ _ _ H6 Hu5) as (u6 & Hu6 & M6).
  exists ev1, ev5, ev6, us3, us5, rng5, targets, u3, u5, u6.
  split; [reflexivity|]. split.
  { pose proof (apply_orders_loop_kinds (ts_ms (state e)) (_pending_orders e)
                  (units (state e))) as K. rewrite <- Hloop in K.
    eapply Forall_impl; [exact K|]. now intros ev [? _]. }
  split.
  { destruct (morale_loop_events (ts_ms (state e)) us5 (rng5, [])) as (new & E & F).
    rewrite Hm in E. cbn in E. subst ev6.
    eapply Forall_impl; [exact F|]. now intros ev [? _]. }
  repeat (split; [assumption|]).
  split; [exact (keys_unique_rel _ _ _ H13 Hunique)|].
  split.
  { eapply keyed_by_id_rel; [|exact H13|exact Hkeyed]. now intros a b (? & _). }
  repeat (split; [assumption|]). assumption.
Qed.

Lemma step_ok_reloading (dt_ms : Z) (e e' : Engine) (evts : list Event.t)
    (k : string) (u : Unit) (T : UnitType) (el : float) :
  keys_unique (units (state e)) -> keyed_by_id (units (state e)) ->
  dict_get k (units (state e)) = Some u ->
  get_type u = Ok T ->
  int_to_float (ts_ms (state e) - last_fire_time u) = Ok el ->
  (el / 1000.0 <? reload_time_s T)%float = true ->
  step dt_ms e = (Ok evts, e') ->
  shots_by k evts = 0
  /\ exists u', dict_get k (units (state e')) = Some u'
                /\ ammo u' = ammo u /\ last_fire_time u' = last_fire_time u.
Proof.
  intros Hunique Hkeyed Hget HT Hel Hlt Hstep.
  destruct (step_ok_unit _ _ _ _ k u Hunique Hkeyed Hget Hstep)
    as (ev1 & ev5 & ev6 & us3 & us5 & rng5 & targets & u3 & u5 & u6
        & -> & K1 & K6 & Hft & Hc & Hunique3 & Hkeyed3 & _ & Hu3 & E3 & Hu5 & Hu6 & M6).
  destruct E3 as (_ & _ & Hty & _ & Ha3 & _ & Hl3).
  assert (Hnot : k ∉ targets.*1).
  { eapply (find_targets_reloading _ _ _ k u3 T el Hunique3 Hu3); [| | |exact Hft].
    - now rewrite (get_type_ext u u3 Hty).
    - now rewrite Hl3.
    - exact Hlt. }
  destruct (combat_loop_unit (base_acc e) (decay_m e) (ts_ms (state e)) targets us3
              (_rng e) k u3 Hu3) as (u5' & Hu5' & Hsame & _).
  rewrite Hc in Hu5'. cbn [fst snd] in Hu5'. rewrite Hu5 in Hu5'. injection Hu5' as <-.
  destruct (Hsame Hnot) as [Hl5 Ha5].
  apply morale_touch_fields in M6 as (_ & _ & _ & _ & _ & Ha6 & _ & _ & Hl6 & _).
  split.
  - rewrite !shots_by_app.
    rewrite (only_combat_kinds_no_order k ev1 K1), (only_routed_kinds_no_shot k ev6 K6).
    destruct (combat_loop_ammo _ _ _ _ _ _ _ _ _ k u3 Hkeyed3 Hc Hu3) as (v5 & Hv5 & A5).
    rewrite Hu5 in Hv5. injection Hv5 as <-. lia.
  - exists u6. split; [exact Hu6|]. split; congruence.
Qed.

(** X13: A unit whose reload time has not elapsed since it last fired, on the
    clock the step starts from, fires no shot in that step and keeps its
    ammunition and its fire time.  (A unit that never fired has fire time
    0, so nobody fires until the battle clock reaches its reload time.) *)
Theorem reload_blocks_fire (dt_ms : Z) (e e' : Engine) (evts : list Event.t)
    (k : string) (u : Unit) (T : UnitType) (el : float) :
  keys_unique (units (state e)) -> keyed_by_id (units (state e)) ->
  dict_get k (units (state e)) = Some u ->
  get_type u = Ok T ->
  int_to_float (ts_ms (state e) - last_fire_time u) = Ok el ->
  (el / 1000.0 <? reload_time_s T)%float = true ->
  step dt_ms e = (Ok evts, e') ->
  Forall (fun ev => is_shot_by k ev = false) evts
  /\ exists u', dict_get k (units (state e')) = Some u'
                /\ ammo u' = ammo u /\ last_fire_time u' = last_fire_time u.
Proof.
  intros Hunique Hkeyed Hget HT Hel Hlt Hstep.
  destruct (step_ok_reloading _ _ _ _ k u T el Hunique Hkeyed Hget HT Hel Hlt Hstep)
    as (Hshots & u' & Hu' & Ha & Hl).
  split.
  - now apply shots_by_zero.
  - exists u'. auto.
Qed.

Lemma combat_pair_fire_time (acc decay : float) (now : Z) (sid tid : string)
    (us us' : Units) (rng rng' : DRNG) (evts : list Event.t)
    (k : string) (u : Unit) :
  keyed_by_id us ->
  combat_pair acc decay now sid tid us rng = (Ok evts, us', rng') ->
  dict_get k us = Some u ->
  exists u', dict_get k us' = Some u'
    /\ ((shots_by k evts = 0 /\ last_fire_time u' = last_fire_time u)
        \/ last_fire_time u' = now).
Proof.
  intros Hkeyed H Hget.
  destruct (combat_pair_unit _ _ _ _ _ _ _ _ _ _ k u H Hget) as (u' & Hu' & Hsame & _).
  destruct (combat_pair_ammo _ _ _ _ _ _ _ _ _ _ k u Hkeyed H Hget) as (v & Hv & Ha).
  rewrite Hu' in Hv. injection Hv as <-.
  exists u'. split; [exact Hu'|].
  destruct (String.eqb_spec k sid) as [->|Hne].
  2:{ left. destruct (Hsame Hne) as [Hl Hammo]. split; [lia|exact Hl]. }
  apply combat_pair_inv in H as [(-> & _ & [[= ->]|[x [=]]])|H].
  { left. rewrite Hget in Hu'. injection Hu' as <-. split; reflexivity. }
  right.
  destruct H as (s & t & sT & q & Hs & Ht & _ & _ & _ & _ & H). cbv zeta in H.
  set (s' := set_last_fire_time now (set_ammo (ammo s - 1) s)) in *.
  set (t1 := if String.eqb sid tid then s' else t) in *.
  destruct H as (_ & Ht1 & H).
  assert (Hs1 : dict_get sid (dict_put sid s' us) = Some s')
    by (eapply dict_get_put_same; eauto).
  assert (Hl : last_fire_time s' = now) by (subst s'; destruct s; reflexivity).
  destruct H as [(_ & _ & ->)|[(_ & x & _ & [=] & _)|(_ & d & _ & H)]].
  { rewrite Hs1 in Hu'. now injection Hu' as <-. }
  cbv zeta in H. destruct H as [_ ->].
  rewrite dict_get_put in Hu'. destruct (String.eqb_spec tid sid) as [->|Hne].
  - rewrite Ht1 in Hu'. injection Hu' as <-.
    subst t1. rewrite String.eqb_refl. cbn. exact Hl.
  - rewrite Hs1 in Hu'. now injection Hu' as <-.
Qed.

Lemma combat_loop_fire_time (acc decay : float) (now : Z) (targets : list (string * string))
    (us us' : Units) (rng rng' : DRNG) (evts : list Event.t)
    (k : string) (u : Unit) :
  keyed_by_id us ->
  combat_loop acc decay now targets us rng = (Ok evts, us', rng') ->
  dict_get k us = Some u ->
  exists u', dict_get k us' = Some u'
    /\ ((shots_by k evts = 0 /\ last_fire_time u' = last_fire_time u)
        \/ last_fire_time u' = now).
Proof.
  revert us rng evts us' rng' u.
  induction targets as [|[sid tid] rest IH]; intros us rng evts us' rng' u Hkeyed;
    cbn [combat_loop].
  - intros [= <- <- _] Hget. exists u. split; [exact Hget|]. left. split; reflexivity.
  - pose proof (combat_pair_keyed acc decay now sid tid us rng Hkeyed) as Hkeyed1.
    destruct (combat_pair acc decay now sid tid us rng) as [[[ev1|x] us1] rng1] eqn:H1;
      [|discriminate].
    destruct (combat_loop acc decay now rest us1 rng1) as [[[ev2|x] us2] rng2] eqn:H2;
      cbn [bind]; [|discriminate].
    intros [= <- <- <-] Hget. cbn in Hkeyed1.
    destruct (combat_pair_fire_time _ _ _ _ _ _ _ _ _ _ k u Hkeyed H1 Hget)
      as (u1 & Hu1 & F1).
    destruct (IH _ _ _ _ _ u1 Hkeyed1 H2 Hu1) as (u2 & Hu2 & F2).
    exists u2. split; [exact Hu2|]. rewrite shots_by_app.
    destruct F2 as [[S2 L2]|L2]; [|now right].
    destruct F1 as [[S1 L1]|L1]; [left; split; [lia|congruence]|right; congruence].
Qed.

(** X14: Rate of fire.  When the step that follows a unit's shot comes sooner
    than its reload time, the unit does not fire in it: two consecutive
    steps carry a shot by the same unit only if the first lasted at least
    the reload time. *)
Theorem rate_of_fire (dt1 dt2 : Z) (e e1 e2 : Engine) (evts1 evts2 : list Event.t)
    (k : string) (u : Unit) (T : UnitType) (ms : float) :
  keys_unique (units (state e)) -> keyed_by_id (units (state e)) ->
  dict_get k (units (state e)) = Some u ->
  get_type u = Ok T ->
  int_to_float dt1 = Ok ms ->
  (ms / 1000.0 <? reload_time_s T)%float = true ->
  step dt1 e = (Ok evts1, e1) ->
  step dt2 e1 = (Ok evts2, e2) ->
  Exists (fun ev => is_shot_by k ev = true) evts1 ->
  Forall (fun ev => is_shot_by k ev = false) evts2.
Proof.
  intros Hunique Hkeyed Hget HT Hms Hlt Hstep1 Hstep2 Hfired.
  assert (Hshots : shots_by k evts1 <> 0).
  { intros Hz. apply shots_by_zero in Hz.
    apply Exists_exists in Hfired as (ev & Hin & Hev).
    rewrite Forall_forall in Hz. specialize (Hz ev Hin). congruence. }
  destruct (step_ok_unit _ _ _ _ k u Hunique Hkeyed Hget Hstep1)
    as (ev1 & ev5 & ev6 & us3 & us5 & rng5 & targets & u3 & u5 & u6
        & -> & K1 & K6 & _ & Hc & _ & Hkeyed3 & _ & Hu3 & E3 & Hu5 & Hu6 & M6).
  rewrite !shots_by_app in Hshots.
  rewrite (only_combat_kinds_no_order k ev1 K1), (only_routed_kinds_no_shot k ev6 K6)
    in Hshots.
  destruct (combat_loop_fire_time _ _ _ _ _ _ _ _ _ k u3 Hkeyed3 Hc Hu3)
    as (v5 & Hv5 & F5).
  rewrite Hu5 in Hv5. injection Hv5 as <-.
  destruct F5 as [[Hz _]|Hl5]; [lia|].
  apply morale_touch_fields in M6 as (_ & _ & _ & _ & _ & _ & _ & _ & Hl6 & _).
  pose proof (step_static dt1 e) as Hstatic.
  pose proof (step_keeps_dictionary dt1 e Hunique Hkeyed) as [Hunique1 Hkeyed1].
  rewrite Hstep1 in Hstatic, Hunique1, Hkeyed1. cbn [snd] in *.
  destruct (units_rel_get _ _ _ _ _ Hstatic Hget) as (v6 & Hv6 & _ & _ & Hty).
  rewrite Hu6 in Hv6. injection Hv6 as <-.
  destruct (step_ok_units _ _ _ _ Hstep1)
    as (_ & _ & _ & _ & _ & _ & _ & _ & _ & _ & _ & _ & _ & _ & _ & _ & _ & _ & Hts).
  assert (Hel : int_to_float (ts_ms (state e1) - last_fire_time u6) = Ok ms).
  { replace (ts_ms (state e1) - last_fire_time u6) with dt1 by lia. exact Hms. }
  assert (HT6 : get_type u6 = Ok T) by now rewrite (get_type_ext u u6 Hty).
  destruct (step_ok_reloading _ _ _ _ k u6 T ms Hunique1 Hkeyed1 Hu6 HT6 Hel Hlt Hstep2)
    as (Hnone & _).
  now apply shots_by_zero.
Qed.

(* ===================================================================== *)
(** ** Destroyed units as targets *)
(* ===================================================================== *)

Lemma spares_shot (now : Z) (a b : string) (d p : float) (w k : string) :
  b <> k -> spares k (ShotFired now a b d p w).
Proof.
  intros Hne. apply String.eqb_neq in Hne.
  unfold spares, is_shot_at, is_damage_to, is_destroyed, has_kind, names_unit. cbn.
  now rewrite Hne.
Qed.

Lemma spares_damage (now : Z) (b : string) (d h : float) (a k : string) :
  b <> k -> spares k (Damage now b d h a).
Proof.
  intros Hne. apply String.eqb_neq in Hne.
  unfold spares, is_shot_at, is_damage_to, is_destroyed, has_kind, names_unit. cbn.
  now rewrite Hne.
Qed.

Lemma spares_destroyed (now : Z) (b a k : string) :
  b <> k -> spares k (Destroyed now b a).
Proof.
  intros Hne. apply String.eqb_neq in Hne.
  unfold spares, is_shot_at, is_damage_to, is_destroyed, has_kind, names_unit. cbn.
  now rewrite Hne.
Qed.

Lemma spares_order_accepted (k : string) (ev : Event.t) :
  has_kind "OrderAccepted" ev = true -> spares k ev.
Proof.
  unfold spares, is_shot_at, is_damage_to, is_destroyed, has_kind.
  intros H. apply String.eqb_eq in H. now rewrite H.
Qed.

Lemma spares_routed (k : string) (ev : Event.t) :
  has_kind "Routed" ev = true -> spares k ev.
Proof.
  unfold spares, is_shot_at, is_damage_to, is_destroyed, has_kind.
  intros H. apply String.eqb_eq in H. now rewrite H.
Qed.

Lemma combat_pair_spares (acc decay : float) (now : Z) (sid tid : string)
    (us us' : Units) (rng rng' : DRNG) (evts : list Event.t)
    (k : string) (u : Unit) :
  keyed_by_id us ->
  combat_pair acc decay now sid tid us rng = (Ok evts, us', rng') ->
  dict_get k us = Some u -> (hp u <=? 0)%float = true ->
  Forall (spares k) evts.
Proof.
  intros Hkeyed H Hget Hdead.
  apply combat_pair_inv in H as [(-> & _ & [[= ->]|[x [=]]])|H]; [constructor|].
  destruct H as (s & t & sT & q & Hs & Ht & _ & Hhp & _ & _ & H). cbv zeta in H.
  pose proof (keyed_by_id_get _ _ _ Hkeyed Hs) as Hids.
  pose proof (keyed_by_id_get _ _ _ Hkeyed Ht) as Hidt.
  assert (Hne : id t <> k) by (rewrite Hidt; intros ->; congruence).
  set (s' := set_last_fire_time now (set_ammo (ammo s - 1) s)) in *.
  set (t1 := if String.eqb sid tid then s' else t) in *.
  destruct H as (_ & Ht1 & H).
  assert (Hidt1 : id t1 = id t).
  { subst t1. destruct (String.eqb_spec sid tid) as [->|_]; [|reflexivity].
    rewrite Hs in Ht. injection Ht as <-. subst s'. destruct s; reflexivity. }
  destruct H as [(_ & [= ->] & _)|[(_ & x & _ & [=] & _)|(_ & d & _ & H)]].
  { repeat constructor. now apply spares_shot. }
  cbv zeta in H. destruct H as [[= ->] _].
  assert (Hne' : id (set_hp (hp t1 - d)%float t1) <> k).
  { replace (id (set_hp (hp t1 - d)%float t1)) with (id t1) by (destruct t1; reflexivity).
    now rewrite Hidt1. }
  cbn [app]. constructor; [now apply spares_shot|].
  constructor; [now apply spares_damage|].
  match goal with |- context [if ?c then _ else _] => destruct c end;
    repeat constructor. now apply spares_destroyed.
Qed.

Lemma combat_loop_spares (acc decay : float) (now : Z) (targets : list (string * string))
    (us us' : Units) (rng rng' : DRNG) (evts : list Event.t)
    (k : string) (u : Unit) :
  keyed_by_id us ->
  combat_loop acc decay now targets us rng = (Ok evts, us', rng') ->
  dict_get k us = Some u -> (hp u <=? 0)%float = true ->
  Forall (spares k) evts.
Proof.
  revert us rng evts us' rng' u.
  induction targets as [|[sid tid] rest IH]; intros us rng evts us' rng' u Hkeyed;
    cbn [combat_loop].
  - intros [= <- <- _] _ _. constructor.
  - pose proof (combat_pair_keyed acc decay now sid tid us rng Hkeyed) as Hkeyed1.
    destruct (combat_pair acc decay now sid tid us rng) as [[[ev1|x] us1] rng1] eqn:H1;
      [|discriminate].
    destruct (combat_loop acc decay now rest us1 rng1) as [[[ev2|x] us2] rng2] eqn:H2;
      cbn [bind]; [|discriminate].
    intros [= <- <- <-] Hget Hdead. cbn in Hkeyed1.
    destruct (combat_pair_unit _ _ _ _ _ _ _ _ _ _ k u H1 Hget) as (u1 & Hu1 & _ & _ & D1).
    apply Forall_app. split.
    + exact (combat_pair_spares _ _ _ _ _ _ _ _ _ _ k u Hkeyed H1 Hget Hdead).
    + eapply (IH _ _ _ _ _ u1 Hkeyed1 H2 Hu1). now rewrite (D1 Hdead).
Qed.

(** One step, seen from a unit at or below zero hit points: its hit points
    stay what they are however the step ends, and a step that returns
    reports no shot at it, no damage to it and no destruction of it. *)
Lemma step_dead (dt_ms : Z) (e : Engine) (k : string) (u : Unit) :
  keys_unique (units (state e)) -> keyed_by_id (units (state e)) ->
  dict_get k (units (state e)) = Some u -> (hp u <=? 0)%float = true ->
  (exists u', dict_get k (units (state (step dt_ms e).2)) = Some u' /\ hp u' = hp u)
  /\ forall evts, (step dt_ms e).1 = Ok evts -> Forall (spares k) evts.
Proof.
  intros Hunique Hkeyed Hget Hdead. split.
  - destruct (step_units_before_combat dt_ms e k u Hget)
      as (us3 & us5 & u3 & u5 & u6 & _ & Hu3 & E3 & Hcase & Hu5 & _ & Hu6 & M6).
    destruct E3 as (_ & _ & _ & Hhp3 & _).
    apply morale_touch_fields in M6 as (_ & _ & _ & _ & Hhp6 & _).
    exists u6. split; [exact Hu6|]. rewrite Hhp6, <- Hhp3.
    destruct Hcase as [->|(targets & _ & ->)]; [congruence|].
    destruct (combat_loop_unit (base_acc e) (decay_m e) (ts_ms (state e)) targets us3
                (_rng e) k u3 Hu3) as (v5 & Hv5 & _ & _ & D5).
    rewrite Hu5 in Hv5. injection Hv5 as <-. apply D5. now rewrite Hhp3.
  - intros evts Hok.
    destruct (step dt_ms e) as [r e'] eqn:Hstep. cbn [fst] in Hok. subst r.
    destruct (step_ok_unit _ _ _ _ k u Hunique Hkeyed Hget Hstep)
      as (ev1 & ev5 & ev6 & us3 & us5 & rng5 & targets & u3 & u5 & u6
          & -> & K1 & K6 & _ & Hc & _ & Hkeyed3 & _ & Hu3 & E3 & _).
    destruct E3 as (_ & _ & _ & Hhp3 & _).
    rewrite !Forall_app. repeat split.
    + eapply Forall_impl; [exact K1|]. intros ev. apply spares_order_accepted.
    + eapply (combat_loop_spares _ _ _ _ _ _ _ _ _ k u3 Hkeyed3 Hc Hu3). now rewrite Hhp3.
    + eapply Forall_impl; [exact K6|]. intros ev. apply spares_routed.
Qed.

(** X15: Destruction is final for the target.  Once a unit's hit points are at
    or below zero, no sequence of [apply_orders] and [step] calls changes
    them, and no later step reports a shot at the unit, a damage to it or
    its destruction: a unit is destroyed at most once. *)
Theorem destroyed_is_final (e : Engine) (calls : list call) (k : string) (u : Unit) :
  keys_unique (units (state e)) -> keyed_by_id (units (state e)) ->
  dict_get k (units (state e)) = Some u -> (hp u <=? 0)%float = true ->
  (exists u', dict_get k (units (state (run e calls).2)) = Some u' /\ hp u' = hp u)
  /\ Forall (fun step_i : result (list Event.t) * Engine =>
               (exists u_i, dict_get k (units (state step_i.2)) = Some u_i
                            /\ hp u_i = hp u)
               /\ forall evts, step_i.1 = Ok evts -> Forall (spares k) evts)
            (run e calls).1.
Proof.
  revert e u. induction calls as [|[os|dt] rest IH]; intros e u Hunique Hkeyed Hget Hdead;
    cbn [run].
  - split; [|constructor]. exists u. split; [exact Hget|reflexivity].
  - apply IH; assumption.
  - destruct (step_keeps_dictionary dt e Hunique Hkeyed) as [Hunique' Hkeyed'].
    destruct (step_dead dt e k u Hunique Hkeyed Hget Hdead) as [(u1 & Hu1 & Hhp1) Hev].
    destruct (step dt e) as [r e'] eqn:Hstep. cbn [fst snd] in *.
    assert (Hdead1 : (hp u1 <=? 0)%float = true) by now rewrite Hhp1.
    destruct (IH e' u1 Hunique' Hkeyed' Hu1 Hdead1) as [(u' & Hu' & Hhp') Hlog].
    destruct (run e' rest) as [log e''] eqn:Hrun. cbn [fst snd] in *.
    split; [exists u'; split; [exact Hu'|congruence]|].
    constructor.
    + cbn [fst snd]. split; [eauto|exact Hev].
    + eapply Forall_impl; [exact Hlog|].
      intros [r_i e_i] [(u_i & Hu_i & Hhp_i) Hrest]. cbn [fst snd] in *.
      split; [|exact Hrest]. exists u_i. split; [exact Hu_i|congruence].
Qed.

(* ===================================================================== *)
(** ** The shape of the combat events *)
(* ===================================================================== *)

Lemma combat_pair_volley (acc decay : float) (now : Z) (sid tid : string)
    (us us' : Units) (rng rng' : DRNG) (evts : list Event.t) :
  combat_pair acc decay now sid tid us rng = (Ok evts, us', rng') ->
  evts = [] \/ volley now evts.
Proof.
  intros H.
  apply combat_pair_inv in H as [(-> & _ & [[= ->]|[x [=]]])|H]; [now left|].
  right.
  destruct H as (s & t & sT & q & Hs & Ht & _ & Hhp & _ & _ & H). cbv zeta in H.
  set (s' := set_last_fire_time now (set_ammo (ammo s - 1) s)) in *.
  set (t1 := if String.eqb sid tid then s' else t) in *.
  destruct H as (_ & Ht1 & H).
  assert (Hids' : id s' = id s) by (subst s'; destruct s; reflexivity).
  assert (Hidt1 : id t1 = id t).
  { subst t1. destruct (String.eqb_spec sid tid) as [->|_]; [|reflexivity].
    rewrite Hs in Ht. injection Ht as <-. exact Hids'. }
  destruct H as [(_ & [= ->] & _)|[(_ & x & _ & [=] & _)|(_ & d & _ & H)]].
  { constructor. }
  cbv zeta in H. destruct H as [[= ->] _].
  change (id (set_hp (hp t1 - d)%float t1)) with (id t1).
  change (hp (set_hp (hp t1 - d)%float t1)) with (hp t1 - d)%float.
  rewrite Hidt1, ?Hids'.
  destruct (hp t1 - d <=? 0)%float eqn:Hkill; cbn [app]; now constructor.
Qed.

Lemma combat_loop_volleys (acc decay : float) (now : Z) (targets : list (string * string))
    (us us' : Units) (rng rng' : DRNG) (evts : list Event.t) :
  combat_loop acc decay now targets us rng = (Ok evts, us', rng') ->
  exists volleys, evts = concat volleys
                  /\ Forall (volley now) volleys
                  /\ (length volleys <= length targets)%nat.
Proof.
  revert us rng evts us' rng'.
  induction targets as [|[sid tid] rest IH]; intros us rng evts us' rng'; cbn [combat_loop].
  - intros [= <- _ _]. exists []. repeat split; [constructor|reflexivity].
  - destruct (combat_pair acc decay now sid tid us rng) as [[[ev1|x] us1] rng1] eqn:H1;
      [|discriminate].
    destruct (combat_loop acc decay now rest us1 rng1) as [[[ev2|x] us2] rng2] eqn:H2;
      cbn [bind]; [|discriminate].
    intros [= <- _ _].
    destruct (IH _ _ _ _ _ H2) as (vs & -> & Hvs & Hlen).
    destruct (combat_pair_volley _ _ _ _ _ _ _ _ _ _ H1) as [->|Hv].
    + exists vs. repeat split; [assumption|cbn; lia].
    + exists (ev1 :: vs). repeat split; [now constructor|cbn; lia].
Qed.

Lemma dict_setitem_length {V} (k : string) (v : V) (d : list (string * V)) :
  (length (dict_setitem k v d) <= S (length d))%nat.
Proof.
  induction d as [|[k' v'] d IH]; cbn; [lia|].
  destruct (String.eqb k k'); cbn; lia.
Qed.

Lemma find_targets_loop_length (now : Z) (all us : Units)
    (targets0 targets : list (string * string)) :
  find_targets_loop now all us targets0 = Ok targets ->
  (length targets <= length targets0 + length us)%nat.
Proof.
  revert targets0. induction us as [|[k u] us IH]; intros targets0; cbn [find_targets_loop].
  - intros [= <-]. lia.
  - destruct (routed u); [intros H; apply IH in H; cbn; lia|].
    destruct (scan_targets now u all None infinity) as [[t|]|x]; cbn [bind];
      [| |discriminate].
    + destruct (String.eqb t ""); intros H; apply IH in H; cbn; [lia|].
      pose proof (dict_setitem_length k t targets0). lia.
    + intros H; apply IH in H; cbn; lia.
Qed.

(** X16: The event list of a step that returns is made of the acknowledgements,
    then one volley per shot, then the Routed events.  In a volley the
    ShotFired event comes first; a Damage event follows it directly and
    names the same shooter and target; a Destroyed event follows the Damage
    event directly, names the same pair, and is there exactly when the
    Damage event reports hit points at or below zero.  There is at most one
    volley per unit. *)
Theorem combat_events_are_volleys (dt_ms : Z) (e e' : Engine) (evts : list Event.t) :
  step dt_ms e = (Ok evts, e') ->
  exists acks volleys routs,
    evts = acks ++ concat volleys ++ routs
    /\ Forall (fun ev => has_kind "OrderAccepted" ev = true) acks
    /\ Forall (volley (ts_ms (state e))) volleys
    /\ Forall (fun ev => has_kind "Routed" ev = true) routs
    /\ (length volleys <= length (units (state e)))%nat.
Proof.
  intros Hstep.
  destruct (step_ok_rels _ _ _ _ Hstep)
    as (ev1 & ev5 & ev6 & us1 & us2 & us3 & us5 & rng5 & rng6 & targets
        & -> & Hloop & _ & Hft & Hc & Hm & H1 & H2 & H3 & _ & _).
  destruct (combat_loop_volleys _ _ _ _ _ _ _ _ _ Hc) as (vs & -> & Hvs & Hlen).
  exists ev1, vs, ev6. split; [reflexivity|]. split.
  { pose proof (apply_orders_loop_kinds (ts_ms (state e)) (_pending_orders e)
                  (units (state e))) as K. rewrite <- Hloop in K.
    eapply Forall_impl; [exact K|]. now intros ev [? _]. }
  split; [exact Hvs|]. split.
  { destruct (morale_loop_events (ts_ms (state e)) us5 (rng5, [])) as (new & E & F).
    rewrite Hm in E. cbn in E. subst ev6.
    eapply Forall_impl; [exact F|]. now intros ev [? _]. }
  apply find_targets_loop_length in Hft. cbn in Hft.
  pose proof (units_rel_length _ _ _ H1). pose proof (units_rel_length _ _ _ H2).
  pose proof (units_rel_length _ _ _ H3). lia.
Qed.

(* ===================================================================== *)
(** ** Who may fire at whom *)
(* ===================================================================== *)

Lemma _can_fire_at_true (a t : Unit) (now : Z) :
  _can_fire_at a t now = Ok true ->
  exists aT el,
    get_type a = Ok aT
    /\ int_to_float (now - last_fire_time a) = Ok el
    /\ (el / 1000.0 <? reload_time_s aT)%float = false
    /\ 0 < ammo a
    /\ (weapon_range_m aT <? distance_2d (pos a) (pos t))%float = false
    /\ match weapon_type aT with
       | INDIRECT_FIRE => (0 < size (spotted_by t))%nat
       | _ => _can_detect a t = Ok true
       end.
Proof.
  unfold _can_fire_at.
  destruct (get_type a) as [aT|x]; cbn [bind]; [|discriminate].
  destruct (int_to_float _) as [el|x]; cbn [bind]; [|discriminate].
  destruct (el / 1000.0 <? reload_time_s aT)%float eqn:Hreload; [discriminate|].
  destruct (ammo a <=? 0) eqn:Hammo; [discriminate|].
  destruct (weapon_range_m aT <? _)%float eqn:Hrange; [discriminate|].
  apply Z.leb_gt in Hammo.
  intros H. exists aT, el. repeat (split; [reflexivity || assumption|]).
  destruct (weapon_type aT); try exact H.
  injection H as H. now apply bool_decide_eq_true in H.
Qed.

(** Every shot of the combat loop is fired by the shooter of a targeting
    pair at its target, over the distance between the two. *)
Lemma combat_loop_shots (acc decay : float) (now : Z) (targets : list (string * string))
    (us0 us us' : Units) (rng rng' : DRNG) (evts : list Event.t) (ev : Event.t) :
  units_rel combat_touch us0 us ->
  combat_loop acc decay now targets us rng = (Ok evts, us', rng') ->
  ev ∈ evts -> has_kind "ShotFired" ev = true ->
  exists sid tid s t q w,
    (sid, tid) ∈ targets
    /\ dict_get sid us0 = Some s /\ dict_get tid us0 = Some t
    /\ ev = ShotFired now (id s) (id t) (distance_2d (pos s) (pos t))
                      (py_max 0.0 (py_min 0.95 (acc * math_exp q)%float)) w.
Proof.
  revert us rng evts us' rng'.
  induction targets as [|[sid tid] rest IH]; intros us rng evts us' rng' Hrel;
    cbn [combat_loop].
  - intros [= <- _ _] Hin. inversion Hin.
  - pose proof (combat_pair_touch acc decay now sid tid us rng) as Hrel1.
    destruct (combat_pair acc decay now sid tid us rng) as [[[ev1|x] us1] rng1] eqn:H1;
      [|discriminate].
    destruct (combat_loop acc decay now rest us1 rng1) as [[[ev2|x] us2] rng2] eqn:H2;
      cbn [bind]; [|discriminate].
    intros [= <- _ _] Hin Hkind. cbn [fst snd] in Hrel1.
    apply elem_of_app in Hin as [Hin|Hin].
    + apply combat_pair_inv in H1 as [(_ & _ & [[= ->]|[x [=]]])|H1]; [inversion Hin|].
      destruct H1 as (s & t & sT & q & Hs & Ht & _ & _ & _ & _ & H1). cbv zeta in H1.
      destruct (units_rel_get_inv _ _ _ _ _ Hrel Hs) as (s0 & Hs0 & Cs).
      destruct (units_rel_get_inv _ _ _ _ _ Hrel Ht) as (t0 & Ht0 & Ct).
      apply combat_touch_fields in Cs as (Ids & _ & _ & Ps & _).
      apply combat_touch_fields in Ct as (Idt & _ & _ & Pt & _).
      assert (Hshot : ev = ShotFired now (id s) (id t) (distance_2d (pos s) (pos t))
                             (py_max 0.0 (py_min 0.95 (acc * math_exp q)%float))
                             (WeaponType_value (weapon_type sT))).
      { destruct H1 as (_ & _ & [(_ & [= ->] & _)|[(_ & x & _ & [=] & _)|(_ & d & _ & H1)]]).
        - now apply list_elem_of_singleton in Hin.
        - cbv zeta in H1. destruct H1 as [[= ->] _].
          cbn [app] in Hin. apply elem_of_cons in Hin as [->|Hin]; [reflexivity|].
          exfalso. apply elem_of_cons in Hin as [->|Hin]; [discriminate Hkind|].
          destruct (_ <=? 0)%float in Hin; [|inversion Hin].
          apply list_elem_of_singleton in Hin. subst ev. discriminate Hkind. }
      exists sid, tid, s0, t0, q. eexists.
      split; [left|]. split; [exact Hs0|]. split; [exact Ht0|].
      rewrite Hshot. now rewrite Ids, Idt, Ps, Pt.
    + assert (Hrel' : units_rel combat_touch us0 us1).
      { eapply units_rel_trans; [apply combat_touch_trans|exact Hrel|exact Hrel1]. }
      destruct (IH _ _ _ _ _ Hrel' H2 Hin Hkind)
        as (sid' & tid' & s & t & p & w & Hpair & Hs & Ht & Hev).
      exists sid', tid', s, t, p, w. split; [now right|]. auto.
Qed.

(** X17: The rules of engagement.  Every ShotFired event of a step is a shot by
    a unit that is not routed, has ammunition and has reloaded, at a unit of
    the other side that was not at or below zero hit points when the step
    began, over a distance (the one the event reports) within the shooter's
    weapon range; a direct shot moreover over a distance within the
    shooter's sensor range scaled by the target's visibility, and an
    indirect one at a target some unit has spotted. *)
Theorem rules_of_engagement (dt_ms : Z) (e e' : Engine) (evts : list Event.t)
    (ev : Event.t) :
  keys_unique (units (state e)) -> keyed_by_id (units (state e)) ->
  step dt_ms e = (Ok evts, e') ->
  ev ∈ evts -> has_kind "ShotFired" ev = true ->
  exists sk tk s t sT el dist,
    dict_get sk (units (state e)) = Some s
    /\ dict_get tk (units (state e)) = Some t
    /\ names_unit "shooter" sk ev = true
    /\ names_unit "target" tk ev = true
    /\ float_field "dist_m" ev = Some dist
    /\ side s <> side t
    /\ routed s = false
    /\ (hp t <=? 0)%float = false
    /\ 0 < ammo s
    /\ get_type s = Ok sT
    /\ int_to_float (ts_ms (state e) - last_fire_time s) = Ok el
    /\ (el / 1000.0 <? reload_time_s sT)%float = false
    /\ (weapon_range_m sT <? dist)%float = false
    /\ match weapon_type sT with
       | INDIRECT_FIRE =>
           exists t', dict_get tk (units (state e')) = Some t'
                      /\ (0 < size (spotted_by t'))%nat
       | _ =>
           exists tT, get_type t = Ok tT
                      /\ (dist <=? sensor_range_m sT * visibility tT)%float = true
       end.
Proof.
  intros Hunique Hkeyed Hstep Hin Hkind.
  destruct (step_ok_rels _ _ _ _ Hstep)
    as (ev1 & ev5 & ev6 & us1 & us2 & us3 & us5 & rng5 & rng6 & targets
        & -> & Hloop & _ & Hft & Hc & Hm & H1 & H2 & H3 & H5 & H6).
  assert (Hcombat : is_combat_kind ev = true).
  { unfold is_combat_kind. now rewrite Hkind. }
  assert (Hin5 : ev ∈ ev5).
  { apply elem_of_app in Hin as [Hin|Hin].
    - exfalso.
      pose proof (apply_orders_loop_kinds (ts_ms (state e)) (_pending_orders e)
                    (units (state e))) as K. rewrite <- Hloop in K. cbn [fst] in K.
      rewrite Forall_forall in K. destruct (K ev Hin) as [K1 _].
      apply order_kind_exclusive in K1 as [K1 _]. congruence.
    - apply elem_of_app in Hin as [Hin|Hin]; [exact Hin|]. exfalso.
      destruct (morale_loop_events (ts_ms (state e)) us5 (rng5, [])) as (new & E & F).
      rewrite Hm in E. cbn in E. subst ev6.
      rewrite Forall_forall in F. destruct (F ev Hin) as [K1 _].
      apply routed_kind_exclusive in K1 as [_ K1]. congruence. }
  pose proof (early_touch_compose _ _ _ _ H1 H2 H3) as H13.
  assert (Hunique3 : keys_unique us3) by exact (keys_unique_rel _ _ _ H13 Hunique).
  assert (Hkeyed3 : keyed_by_id us3).
  { eapply keyed_by_id_rel; [|exact H13|exact Hkeyed]. now intros a b (? & _). }
  destruct (combat_loop_shots _ _ _ _ us3 _ _ _ _ _ ev
              (units_rel_refl _ _ combat_touch_refl) Hc Hin5 Hkind)
    as (sk & tk & s3 & t3 & p & w & Hpair & Hs3 & Ht3 & ->).
  destruct (find_targets_loop_spec _ _ _ _ _ Hft NoDup_nil_2) as [_ S].
  destruct (S sk tk Hpair) as [Habs|(u & tu & Hu & Hr & Htu & Hside & Hhp & Hfire)];
    [inversion Habs|].
  apply (dict_get_unique _ _ _ Hunique3) in Hu, Htu.
  rewrite Hs3 in Hu. injection Hu as <-. rewrite Ht3 in Htu. injection Htu as <-.
  destruct (_can_fire_at_true _ _ _ Hfire)
    as (sT & el & HsT & Hel & Hreload & Hammo & Hrange & Hsee).
  destruct (units_rel_get_inv _ _ _ _ _ H13 Hs3) as (s & Hs & Es).
  destruct (units_rel_get_inv _ _ _ _ _ H13 Ht3) as (t & Ht & Et).
  destruct Es as (Ids & Sds & Tys & Hps & Ams & Rts & Lfs).
  destruct Et as (Idt & Sdt & Tyt & Hpt & Amt & Rtt & Lft).
  exists sk, tk, s, t, sT, el, (distance_2d (pos s3) (pos t3)).
  split; [exact Hs|]. split; [exact Ht|].
  split.
  { unfold names_unit. cbn. rewrite (keyed_by_id_get _ _ _ Hkeyed3 Hs3).
    apply String.eqb_refl. }
  split.
  { unfold names_unit. cbn. rewrite (keyed_by_id_get _ _ _ Hkeyed3 Ht3).
    apply String.eqb_refl. }
  split; [reflexivity|].
  split.
  { rewrite <- Sds, <- Sdt. intros E. rewrite E in Hside.
    destruct (side t3); discriminate. }
  split; [congruence|]. split; [congruence|]. split; [lia|].
  split; [now rewrite <- (get_type_ext s s3 Tys)|].
  split; [now rewrite <- Lfs|].
  split; [exact Hreload|]. split; [exact Hrange|].
  assert (Hdirect : _can_detect s3 t3 = Ok true ->
            exists tT, get_type t = Ok tT
                       /\ (distance_2d (pos s3) (pos t3)
                           <=? sensor_range_m sT * visibility tT)%float = true).
  { unfold _can_detect. rewrite HsT. cbn [bind].
    rewrite (get_type_ext t t3 Tyt).
    destruct (get_type t) as [tT|x]; cbn [bind]; [|discriminate].
    intros [= Hd]. eauto. }
  destruct (weapon_type sT); try (apply Hdirect; exact Hsee).
  destruct (units_rel_get _ _ _ _ _ H5 Ht3) as (t5 & Ht5 & C5).
  destruct (units_rel_get _ _ _ _ _ H6 Ht5) as (t6 & Ht6 & M6).
  apply combat_touch_fields in C5 as (_ & _ & _ & _ & _ & _ & _ & Sp5).
  apply morale_touch_fields in M6 as (_ & _ & _ & _ & _ & _ & _ & _ & _ & Sp6).
  exists t6. split; [exact Ht6|]. now rewrite Sp6, Sp5.
Qed.

(* ===================================================================== *)
(** ** Targeting picks the nearest *)
(* ===================================================================== *)

Lemma SFcompare_lt_trans (a b c : spec_float) :
  SFcompare a b = Some Lt -> SFcompare b c = Some Lt -> SFcompare a c = Some Lt.
Proof.
  destruct a as [sa|sa| |sa ma ea], b as [sb|sb| |sb mb eb], c as [sc|sc| |sc mc ec];
    simpl; try discriminate;
    repeat match goal with s : bool |- _ => destruct s end;
    simpl; try discriminate; try reflexivity.
  all: change (Pos.compare_cont Eq ma mb) with (ma ?= mb)%positive;
       change (Pos.compare_cont Eq mb mc) with (mb ?= mc)%positive;
       change (Pos.compare_cont Eq ma mc) with (ma ?= mc)%positive.
  all: destruct (Z.compare_spec ea eb), (Z.compare_spec eb ec), (Z.compare_spec ea ec);
       try discriminate; try reflexivity; try lia.
  all: destruct (Pos.compare_spec ma mb), (Pos.compare_spec mb mc),
                (Pos.compare_spec ma mc); simpl;
       try discriminate; try reflexivity; try lia.
Qed.

Lemma float_ltb_trans (x y z : float) :
  (x <? y)%float = true -> (y <? z)%float = true -> (x <? z)%float = true.
Proof.
  rewrite !FloatAxioms.ltb_spec. unfold SFltb.
  destruct (SFcompare (Prim2SF x) (Prim2SF y)) as [[]|] eqn:Hxy; try discriminate.
  destruct (SFcompare (Prim2SF y) (Prim2SF z)) as [[]|] eqn:Hyz; try discriminate.
  now rewrite (SFcompare_lt_trans _ _ _ Hxy Hyz).
Qed.

Lemma float_ltb_asym (x y : float) : (x <? y)%float = true -> (y <? x)%float = false.
Proof. intros H. now apply float_leb_not_ltb, float_ltb_leb. Qed.

Lemma float_ltb_irrefl (x : float) : (x <? x)%float = false.
Proof.
  destruct (x <? x)%float eqn:H; [|reflexivity].
  pose proof (float_ltb_asym x x H). congruence.
Qed.

(** The scan returns a candidate no other candidate is strictly nearer
    than; a candidate replaces the best so far only when strictly nearer. *)
Lemma scan_targets_nearest (now : Z) (u : Unit) (cands : Units)
    (best : option string) (best_dist : float) (t : string) :
  scan_targets now u cands best best_dist = Ok (Some t) ->
  exists d,
    ((best = Some t /\ d = best_dist)
     \/ exists tu, (t, tu) ∈ cands /\ may_engage now u tu
                   /\ d = distance_2d (pos u) (pos tu)
                   /\ (d <? best_dist)%float = true)
    /\ forall c cu, (c, cu) ∈ cands -> may_engage now u cu ->
         (distance_2d (pos u) (pos cu) <? d)%float = false.
Proof.
  revert best best_dist. induction cands as [|[c0 cu0] rest IH]; intros best best_dist;
    cbn [scan_targets].
  - intros [= ->]. exists best_dist. split; [now left|]. intros c cu Hin. inversion Hin.
  - (* the head is passed over without being a candidate *)
    assert (Hskip : ~ may_engage now u cu0 ->
              scan_targets now u rest best best_dist = Ok (Some t) ->
              exists d,
                ((best = Some t /\ d = best_dist)
                 \/ exists tu, (t, tu) ∈ (c0, cu0) :: rest /\ may_engage now u tu
                               /\ d = distance_2d (pos u) (pos tu)
                               /\ (d <? best_dist)%float = true)
                /\ forall c cu, (c, cu) ∈ (c0, cu0) :: rest -> may_engage now u cu ->
                     (distance_2d (pos u) (pos cu) <? d)%float = false).
    { intros Hno Hs. destruct (IH _ _ Hs) as (d & Hwho & Hmin). exists d. split.
      - destruct Hwho as [?|(tu & Hin & ?)]; [now left|].
        right. exists tu. split; [now right|assumption].
      - intros c cu [[= -> ->]|Hin]%elem_of_cons Hme; [contradiction|exact (Hmin _ _ Hin Hme)]. }
    destruct (Side_eqb (side u) (side cu0) || (hp cu0 <=? 0)%float) eqn:Hpass.
    { apply Hskip. intros (Hside & Hhp & _). rewrite Hside, Hhp in Hpass. discriminate. }
    apply orb_false_elim in Hpass as [Hside Hhp].
    destruct (_can_fire_at u cu0 now) as [[|]|x] eqn:Hfire; cbn [bind]; [| |discriminate].
    2:{ apply Hskip. intros (_ & _ & Hf). congruence. }
    assert (Hme0 : may_engage now u cu0) by (repeat split; assumption).
    set (d0 := distance_2d (pos u) (pos cu0)).
    destruct (d0 <? best_dist)%float eqn:Hnear; intros Hs;
      destruct (IH _ _ Hs) as (d & Hwho & Hmin); exists d.
    + (* the head becomes the best so far *)
      split.
      * right. destruct Hwho as [[[= ->] ->]|(tu & Hin & Hme & -> & Hlt)].
        -- exists cu0. split; [left|]. auto.
        -- exists tu. split; [now right|]. split; [exact Hme|]. split; [reflexivity|].
           exact (float_ltb_trans _ _ _ Hlt Hnear).
      * intros c cu [[= -> ->]|Hin]%elem_of_cons Hme; [|exact (Hmin _ _ Hin Hme)]. fold d0.
        destruct Hwho as [[_ ->]|(tu & _ & _ & _ & Hlt)];
          [apply float_ltb_irrefl|now apply float_ltb_asym].
    + (* the head is not nearer than the best so far *)
      split.
      * destruct Hwho as [?|(tu & Hin & ?)]; [now left|].
        right. exists tu. split; [now right|assumption].
      * intros c cu [[= -> ->]|Hin]%elem_of_cons Hme; [|exact (Hmin _ _ Hin Hme)]. fold d0.
        destruct Hwho as [[_ ->]|(tu & _ & _ & _ & Hlt)]; [exact Hnear|].
        destruct (d0 <? d)%float eqn:Hcontra; [|reflexivity].
        rewrite (float_ltb_trans _ _ _ Hcontra Hlt) in Hnear. discriminate.
Qed.

Lemma find_targets_loop_nearest (now : Z) (all us : Units)
    (targets0 targets : list (string * string)) :
  find_targets_loop now all us targets0 = Ok targets ->
  forall s t, (s, t) ∈ targets ->
    (s, t) ∈ targets0
    \/ exists u tu,
         (s, u) ∈ us /\ routed u = false /\ (t, tu) ∈ all /\ may_engage now u tu
         /\ (distance_2d (pos u) (pos tu) <? infinity)%float = true
         /\ forall c cu, (c, cu) ∈ all -> may_engage now u cu ->
              (distance_2d (pos u) (pos cu) <? distance_2d (pos u) (pos tu))%float = false.
Proof.
  revert targets0. induction us as [|[u_id u] rest IH]; intros targets0;
    cbn [find_targets_loop].
  - intros [= <-] s t H. now left.
  - assert (Hrest : forall tg0,
              find_targets_loop now all rest tg0 = Ok targets ->
              forall s t, (s, t) ∈ targets ->
                (s, t) ∈ tg0
                \/ exists u0 tu,
                     (s, u0) ∈ (u_id, u) :: rest /\ routed u0 = false
                     /\ (t, tu) ∈ all /\ may_engage now u0 tu
                     /\ (distance_2d (pos u0) (pos tu) <? infinity)%float = true
                     /\ forall c cu, (c, cu) ∈ all -> may_engage now u0 cu ->
                          (distance_2d (pos u0) (pos cu)
                           <? distance_2d (pos u0) (pos tu))%float = false).
    { intros tg0 Hl s t Hin.
      destruct (IH tg0 Hl s t Hin) as [?|(u0 & tu & Hu0 & ?)]; [now left|].
      right. exists u0, tu. split; [now right|assumption]. }
    destruct (routed u) eqn:Hr; [apply Hrest|].
    destruct (scan_targets now u all None infinity) as [[t_id|]|x] eqn:Hscan;
      cbn [bind]; [| apply Hrest | discriminate].
    destruct (String.eqb t_id ""); [apply Hrest|].
    intros Hl s t Hin. destruct (Hrest _ Hl s t Hin) as [Hset|?]; [|now right].
    apply dict_setitem_elem_of in Hset as [[= -> ->]|?]; [|now left].
    right. apply scan_targets_nearest in Hscan as (d & Hwho & Hmin).
    destruct Hwho as [[[=] _]|(tu & Hin' & Hme & -> & Hlt)].
    exists u, tu. split; [left|]. auto.
Qed.

Lemma Side_eqb_false (a b : Side) : Side_eqb a b = false <-> a <> b.
Proof. destruct a, b; cbn; split; congruence. Qed.

(** X18: Targeting picks the nearest.  The target a unit is given is one it may
    engage (other side, hit points above zero, [_can_fire_at]) at a finite
    distance, and no unit it may engage is strictly nearer; no unit is
    given two targets. *)
Theorem nearest_target_is_chosen (e : Engine) (targets : list (string * string))
    (s t : string) :
  keys_unique (units (state e)) ->
  (_find_targets e).1 = Ok targets ->
  (s, t) ∈ targets ->
  NoDup targets.*1
  /\ exists su tu,
       dict_get s (units (state e)) = Some su
       /\ dict_get t (units (state e)) = Some tu
       /\ routed su = false
       /\ side su <> side tu
       /\ (hp tu <=? 0)%float = false
       /\ _can_fire_at su tu (ts_ms (state e)) = Ok true
       /\ (distance_2d (pos su) (pos tu) <? infinity)%float = true
       /\ forall c cu,
            dict_get c (units (state e)) = Some cu ->
            side su <> side cu -> (hp cu <=? 0)%float = false ->
            _can_fire_at su cu (ts_ms (state e)) = Ok true ->
            (distance_2d (pos su) (pos cu) <? distance_2d (pos su) (pos tu))%float = false.
Proof.
  intros Hunique Hft Hin. unfold _find_targets in Hft. cbn [fst] in Hft.
  split; [exact (proj1 (find_targets_loop_spec _ _ _ _ _ Hft NoDup_nil_2))|].
  destruct (find_targets_loop_nearest _ _ _ _ _ Hft s t Hin)
    as [Habs|(su & tu & Hsu & Hr & Htu & (Hside & Hhp & Hfire) & Hfin & Hmin)];
    [inversion Habs|].
  exists su, tu.
  split; [exact (dict_get_unique _ _ _ Hunique Hsu)|].
  split; [exact (dict_get_unique _ _ _ Hunique Htu)|].
  split; [exact Hr|]. split; [now apply Side_eqb_false|].
  split; [exact Hhp|]. split; [exact Hfire|]. split; [exact Hfin|].
  intros c cu Hc Hsidec Hhpc Hfirec.
  apply (Hmin c cu (dict_get_elem_of _ _ _ Hc)).
  repeat split; [now apply Side_eqb_false|exact Hhpc|exact Hfirec].
Qed.

(* ===================================================================== *)
(** ** Spotting records the detectors, all of them and nobody else *)
(* ===================================================================== *)

Lemma spot_body_sound (d t t' : Unit) (w w' : unit) :
  spot_body d t w = Ok (t', w') ->
  spotting_touch t t'
  /\ forall x, x ∈ spotted_by t' ->
       x ∈ spotted_by t
       \/ (x = id d /\ Side_eqb (side d) (side t) = false /\ _can_detect d t = Ok true).
Proof.
  intros H. split; [eapply spot_body_touch, H|]. revert H. unfold spot_body.
  destruct (Side_eqb _ _) eqn:Hside; [intros [= <- _]; auto|].
  destruct (_can_detect d t) as [[|]|x] eqn:Hsee; cbn [bind]; [| |discriminate].
  - intros [= <- _] x. destruct t; cbn.
    intros [Hx|Hx]%elem_of_union; [|now left].
    apply elem_of_singleton in Hx. right. auto.
  - intros [= <- _]. auto.
Qed.

Lemma spot_loop_sound (n i : nat) (us : Units) :
  spotters_sound us -> spotters_sound (spot_loop n i us).2.
Proof.
  revert i us. induction n as [|n IH]; intros i us Hinv; cbn [spot_loop]; [exact Hinv|].
  destruct (us !! i) as [[kd d]|] eqn:Hi; [|exact Hinv].
  destruct (routed d) eqn:Hr; [now apply IH|].
  set (R := fun t t' : Unit =>
              spotting_touch t t'
              /\ forall x, x ∈ spotted_by t' ->
                   x ∈ spotted_by t
                   \/ (x = id d /\ Side_eqb (side d) (side t) = false
                       /\ _can_detect d t = Ok true)).
  assert (Hrefl : forall t : Unit, R t t).
  { intros t. split; [apply spotting_touch_refl|auto]. }
  pose proof (for_units_rel R (spot_body d) Hrefl
                (fun t w t' w' => spot_body_sound d t t' w w') us tt) as Hrel.
  assert (Hinv' : spotters_sound (for_units (spot_body d) us tt).1.2).
  { intros k2 u2' x Hget Hx.
    destruct (units_rel_get_inv _ _ _ _ _ Hrel Hget) as (u2 & Hget2 & T2 & Hsub).
    pose proof (spotting_touch_fields _ _ T2) as (_ & Es2 & _).
    destruct (Hsub x Hx) as [Hold|(-> & Hside & Hsee)].
    - destruct (Hinv k2 u2 x Hget2 Hold) as (j & kj & dj & Hj & Hrj & Hidj & Hsj & Hcj).
      destruct (units_rel_lookup _ _ _ _ _ _ Hrel Hj) as (dj' & Hj' & Tj & _).
      pose proof (spotting_touch_fields _ _ Tj) as (Eid & Es & _ & _ & _ & _ & Er & _).
      exists j, kj, dj'. split; [exact Hj'|]. split; [congruence|]. split; [congruence|].
      split; [now rewrite Es, Es2|].
      now rewrite (_can_detect_spotting dj dj' u2 u2' Tj T2).
    - destruct (units_rel_lookup _ _ _ _ _ _ Hrel Hi) as (d' & Hi' & Td & _).
      pose proof (spotting_touch_fields _ _ Td) as (Eid & Es & _ & _ & _ & _ & Er & _).
      exists i, kd, d'. split; [exact Hi'|]. split; [congruence|]. split; [congruence|].
      split; [now rewrite Es, Es2|].
      now rewrite (_can_detect_spotting d d' u2 u2' Td T2). }
  destruct (for_units (spot_body d) us tt) as [[[[]|x] us'] w']; cbn [fst snd] in *.
  - now apply IH.
  - exact Hinv'.
Qed.

Lemma units_rel_lookup_inv (R : Unit -> Unit -> Prop) (us us' : Units)
    (i : nat) (k : string) (u' : Unit) :
  units_rel R us us' -> us' !! i = Some (k, u') ->
  exists u, us !! i = Some (k, u) /\ R u u'.
Proof.
  intros Hrel Hi. unfold units_rel in Hrel.
  destruct (Forall2_lookup_r _ _ _ _ _ Hrel Hi) as ([k0 u] & Hu & Hk & HR).
  cbn in Hk. subst k0. eauto.
Qed.

(** X19: After the spotting phase, a unit's spotted-by set holds exactly the
    identifiers of the units of the other side that are not routed and
    detect it; whatever the set held before is gone, and the phase returns
    no event. *)
Theorem spotting_is_exact (e e' : Engine) (evs : list Event.t)
    (kt : string) (t' : Unit) (x : string) :
  _update_spotting e = (Ok evs, e') ->
  dict_get kt (units (state e')) = Some t' ->
  evs = []
  /\ (x ∈ spotted_by t'
      <-> exists kd d, (kd, d) ∈ units (state e')
                       /\ routed d = false /\ side d <> side t'
                       /\ _can_detect d t' = Ok true /\ id d = x).
Proof.
  unfold _update_spotting.
  destruct (spot_loop _ 0 _) as [[[]|y] us'] eqn:Hloop; cbn [bind]; [|discriminate].
  intros [= <- <-] Ht'. cbn [units state with_units set_units] in Ht'.
  split; [reflexivity|].
  cbn [units state with_units set_units].
  set (us0 := clear_spotting (units (state e))) in *.
  assert (Hsound : spotters_sound us').
  { pose proof (spot_loop_sound (length us0) 0 us0) as S. rewrite Hloop in S.
    apply S. intros k u y Hget Hy.
    rewrite (clear_spotting_get _ _ _ Hget) in Hy. now apply not_elem_of_empty in Hy. }
  pose proof (spot_loop_touch (length us0) 0 us0) as Hrel.
  rewrite Hloop in Hrel. cbn [snd] in Hrel.
  split.
  - intros Hx. destruct (Hsound kt t' x Ht' Hx) as (i & kd & d & Hi & Hr & Hid & Hs & Hc).
    exists kd, d. split; [exact (list_elem_of_lookup_2 _ _ _ Hi)|].
    split; [exact Hr|]. split; [now apply Side_eqb_false|]. auto.
  - intros (kd & d' & Hin & Hr & Hside & Hsee & <-).
    apply list_elem_of_lookup in Hin as [j Hj].
    destruct (units_rel_lookup_inv _ _ _ _ _ _ Hrel Hj) as (d & Hd & Td).
    destruct (units_rel_get_inv _ _ _ _ _ Hrel Ht') as (t & Ht & Tt).
    pose proof (spotting_touch_fields _ _ Td) as (Eid & Es & _ & _ & _ & _ & Er & _).
    pose proof (spotting_touch_fields _ _ Tt) as (_ & Es' & _).
    assert (Hrange : (0 <= j < 0 + length us0)%nat)
      by (apply lookup_lt_Some in Hd; lia).
    assert (Hr0 : routed d = false) by congruence.
    assert (Hside0 : Side_eqb (side d) (side t) = false).
    { apply Side_eqb_false. congruence. }
    assert (Hsee0 : _can_detect d t = Ok true)
      by now rewrite <- (_can_detect_spotting d d' t t' Td Tt).
    destruct (spot_loop_records _ 0 j _ us' kd kt d t Hloop Hrange Hd Hr0 Ht Hside0 Hsee0)
      as (t'' & Ht'' & Hin).
    rewrite Ht' in Ht''. injection Ht'' as <-. now rewrite Eid.
Qed.

(* ===================================================================== *)
(** ** Morale: who routs, and how it is reported *)
(* ===================================================================== *)

Lemma morale_unit_routed (now : Z) (u u' : Unit) (w w' : DRNG * list Event.t) :
  morale_unit now u w = Ok (u', w') ->
  exists new,
    w'.2 = w.2 ++ new
    /\ ((new = [] /\ routed u' = routed u)
        \/ (new = [Routed now (id u)] /\ routed u = false /\ routed u' = true))
    /\ (routed u = false -> routed u' = true ->
        exists T, get_type u = Ok T
                  /\ (py_max 0.0 (hp u) / max_hp T <? 0.3)%float = true).
Proof.
  unfold morale_unit. destruct (routed u) eqn:Hr.
  { intros [= <- <-]. exists []. rewrite app_nil_r. split; [reflexivity|].
    split; [left; auto|]. discriminate. }
  destruct (get_type u) as [T|x] eqn:HT; cbn [bind]; [|discriminate].
  unfold py_div. destruct (max_hp T =? 0)%float; cbn [bind]; [discriminate|].
  destruct (_ <? 0.3)%float eqn:Hweak.
  - destruct (bernoulli 0.5 w.1) as [[|] rng'].
    + intros [= <- <-]. exists [Routed now (id u)]. split; [reflexivity|].
      split; [right; auto|]. intros _ _. exists T. auto.
    + intros [= <- <-]. exists []. cbn [snd]. rewrite app_nil_r. split; [reflexivity|].
      split; [left; auto|]. intros _ H. congruence.
  - intros [= <- <-]. exists []. rewrite app_nil_r. split; [reflexivity|].
    split; [left; auto|]. intros _ H. congruence.
Qed.

Lemma is_routed_event (now : Z) (a k : string) :
  is_routed k (Routed now a) = String.eqb a k.
Proof. reflexivity. Qed.

Lemma morale_loop_routed (now : Z) (us us' : Units) (w w' : DRNG * list Event.t)
    (k : string) :
  keyed_by_id us -> NoDup us.*1 ->
  for_units (morale_unit now) us w = (Ok tt, us', w') ->
  exists new,
    w'.2 = w.2 ++ new
    /\ match dict_get k us with
       | Some u => exists u', dict_get k us' = Some u'
                              /\ routed u' = routed u || existsb (is_routed k) new
       | None => existsb (is_routed k) new = false
       end.
Proof.
  revert us' w w'. induction us as [|[k0 u0] us IH]; intros us' w w' Hkeyed Hnd;
    cbn [for_units].
  - intros [= <- <-]. exists []. rewrite app_nil_r. split; reflexivity.
  - apply Forall_cons in Hkeyed as [Hid0 Hkeyed]. cbn in Hid0.
    cbn [fmap list_fmap fst] in Hnd. apply NoDup_cons in Hnd as [Hfresh Hnd].
    destruct (morale_unit now u0 w) as [[u0' w1]|x] eqn:Hbody; [|discriminate].
    destruct (for_units (morale_unit now) us w1) as [[r us1] w2] eqn:Hloop.
    intros [= -> <- <-].
    destruct (morale_unit_routed _ _ _ _ _ Hbody) as (new0 & Hw1 & Hcase & _).
    destruct (IH _ _ _ Hkeyed Hnd Hloop) as (new1 & Hw2 & Hrest).
    exists (new0 ++ new1). split; [rewrite Hw2, Hw1; now rewrite app_assoc|].
    rewrite existsb_app. cbn [dict_get].
    destruct (String.eqb_spec k k0) as [->|Hne].
    + (* the unit itself: nobody later in the loop has its key *)
      assert (Hnone : dict_get k0 us = None) by now apply dict_get_none_keys.
      rewrite Hnone in Hrest. rewrite Hrest, orb_false_r.
      exists u0'. split; [reflexivity|].
      destruct Hcase as [[-> ->]|(-> & Hr & Hr')].
      * cbn. now rewrite orb_false_r.
      * cbn [existsb]. rewrite is_routed_event, Hid0, String.eqb_refl, Hr, Hr'.
        reflexivity.
    + assert (Hquiet : existsb (is_routed k) new0 = false).
      { destruct Hcase as [[-> _]|(-> & _)]; [reflexivity|].
        cbn [existsb]. rewrite is_routed_event, Hid0, orb_false_r.
        apply String.eqb_neq. congruence. }
      rewrite Hquiet. cbn [orb].
      destruct (dict_get k us) as [u|] eqn:Hget; [|exact Hrest].
      destruct Hrest as (u' & Hu' & Hr). exists u'. split; [exact Hu'|exact Hr].
Qed.

Lemma existsb_is_routed_other (k : string) (evts : list Event.t) :
  Forall (fun ev => has_kind "Routed" ev = false) evts ->
  existsb (is_routed k) evts = false.
Proof.
  induction 1 as [|ev evts Hev _ IH]; [reflexivity|].
  cbn [existsb]. unfold is_routed at 1. now rewrite Hev, IH.
Qed.

(** X20: Morale.  In a step that returns, a unit is routed afterwards exactly
    when it was routed before or the step reports a Routed event for it;
    and a unit that routs in the step has hit points, as combat left them
    and floored at zero, below three tenths of the maximum of its type. *)
Theorem morale_routs_the_weak (dt_ms : Z) (e e' : Engine) (evts : list Event.t)
    (k : string) (u : Unit) :
  keys_unique (units (state e)) -> keyed_by_id (units (state e)) ->
  dict_get k (units (state e)) = Some u ->
  step dt_ms e = (Ok evts, e') ->
  exists u', dict_get k (units (state e')) = Some u'
    /\ routed u' = routed u || existsb (is_routed k) evts
    /\ (routed u = false -> routed u' = true ->
        exists T, get_type u = Ok T
                  /\ (py_max 0.0 (hp u') / max_hp T <? 0.3)%float = true).
Proof.
  intros Hunique Hkeyed Hget Hstep.
  destruct (step_ok_rels _ _ _ _ Hstep)
    as (ev1 & ev5 & ev6 & us1 & us2 & us3 & us5 & rng5 & rng6 & targets
        & -> & Hloop & _ & _ & Hc & Hm & H1 & H2 & H3 & H5 & H6).
  pose proof (early_touch_compose _ _ _ _ H1 H2 H3) as H13.
  destruct (units_rel_get _ _ _ _ _ H13 Hget) as (u3 & Hu3 & E3).
  destruct (units_rel_get _ _ _ _ _ H5 Hu3) as (u5 & Hu5 & C5).
  destruct E3 as (_ & _ & Ty3 & _ & _ & R3 & _).
  apply combat_touch_fields in C5 as (_ & _ & Ty5 & _ & R5 & _).
  assert (Hunique5 : keys_unique us5).
  { eapply keys_unique_rel; [exact H5|]. eapply keys_unique_rel; [exact H13|exact Hunique]. }
  assert (Hkeyed5 : keyed_by_id us5).
  { eapply keyed_by_id_rel; [|exact H5|].
    - intros a b Hab. now apply combat_touch_fields in Hab as (? & _).
    - eapply keyed_by_id_rel; [|exact H13|exact Hkeyed]. now intros a b (? & _). }
  destruct (morale_loop_routed _ _ _ _ _ k Hkeyed5 Hunique5 Hm) as (new & Hnew & Hk).
  cbn [snd app] in Hnew. subst new. rewrite Hu5 in Hk. destruct Hk as (u6 & Hu6 & Hr6).
  exists u6. split; [exact Hu6|]. split.
  - rewrite !existsb_app.
    rewrite (existsb_is_routed_other k ev1), (existsb_is_routed_other k ev5).
    + cbn [orb]. congruence.
    + eapply Forall_impl; [exact (combat_loop_kinds _ _ _ _ _ _ _ _ _ Hc)|].
      intros ev [K _]. now apply combat_kind_exclusive in K.
    + pose proof (apply_orders_loop_kinds (ts_ms (state e)) (_pending_orders e)
                    (units (state e))) as K. rewrite <- Hloop in K. cbn [fst] in K.
      eapply Forall_impl; [exact K|].
      intros ev [K' _]. now apply order_kind_exclusive in K'.
  - intros Hr Hr'.
    destruct (for_units_ok_get _ _ _ _ _ _ _ Hm Hu5) as (v6 & w1 & w2 & Hbody & Hv6).
    rewrite Hu6 in Hv6. injection Hv6 as <-.
    destruct (morale_unit_routed _ _ _ _ _ Hbody) as (_ & _ & _ & Hweak).
    destruct Hweak as (T & HT & Hlow); [congruence|exact Hr'|].
    exists T. split.
    + rewrite <- HT. symmetry. apply get_type_ext. congruence.
    + pose proof (morale_unit_touch _ _ _ _ _ Hbody) as M.
      apply morale_touch_fields in M as (_ & _ & _ & _ & Hhp & _). now rewrite Hhp.
Qed.

(* ===================================================================== *)
(** ** The runner: from the queue to the log *)
(* ===================================================================== *)

Lemma apply_orders_loop_app (now : Z) (os1 os2 : list Order.t) (us : Units) :
  apply_orders_loop now (os1 ++ os2) us
  = let (ev1, us1) := apply_orders_loop now os1 us in
    let (ev2, us2) := apply_orders_loop now os2 us1 in
    (ev1 ++ ev2, us2).
Proof.
  revert us. induction os1 as [|o os1 IH]; intros us; cbn [app apply_orders_loop].
  - now destruct (apply_orders_loop now os2 us).
  - destruct (apply_order now o us) as [ev0 us0]. rewrite IH.
    destruct (apply_orders_loop now os1 us0) as [ev1 us1].
    destruct (apply_orders_loop now os2 us1) as [ev2 us2].
    now rewrite app_assoc.
Qed.

Lemma step_pending (dt_ms : Z) (e : Engine) : _pending_orders (step dt_ms e).2 = [].
Proof.
  unfold step, bindM. rewrite _apply_orders_now_eq.
  set (us1 := (apply_orders_loop _ _ _).2).
  set (e1 := with_pending [] (with_units us1 e)).
  destruct (_move_touch dt_ms e1) as (us2 & E2 & _).
  destruct (_move dt_ms e1) as [r2 e2]. cbn [snd] in E2. subst e2.
  destruct r2 as [ev2|x]; cbn [fst snd]; [|reflexivity].
  destruct (_update_spotting_touch (with_units us2 e1)) as (us3 & E3 & _).
  destruct (_update_spotting (with_units us2 e1)) as [r3 e3]. cbn [snd] in E3. subst e3.
  destruct r3 as [ev3|x]; cbn [fst snd]; [|reflexivity].
  set (e3 := with_units us3 (with_units us2 e1)).
  unfold _find_targets.
  destruct (find_targets_loop _ _ _ _) as [targets|x]; cbn [fst snd]; [|reflexivity].
  destruct (_combat_touch dt_ms targets e3) as (us5 & rng5 & E5 & _).
  destruct (_combat dt_ms targets e3) as [r5 e5]. cbn [snd] in E5. subst e5.
  destruct r5 as [ev5|x]; cbn [fst snd]; [|reflexivity].
  set (e5 := with_rng rng5 (with_units us5 e3)).
  destruct (_morale_touch e5) as (us6 & rng6 & E6 & _).
  destruct (_morale e5) as [r6 e6]. cbn [snd] in E6. subst e6.
  destruct r6 as [ev6|x]; cbn [fst snd]; reflexivity.
Qed.

(** X21: From the queue to the log.  A move order for a unit that is not
    routed, enqueued on its own after whatever the queue and the engine
    already hold, is applied by the next turn of the loop: if the turn
    returns, the events it appends to the log contain the acknowledgement
    of that order, the unit ends the turn with the order's destination as
    its intent, the queue is empty, and the turn sleeps for [sleep_s]. *)
Theorem enqueued_move_is_acknowledged (r r' : TickRunner) (d : float)
    (k : string) (u : Unit) (p : Position) (c : Z) :
  dict_get k (units (state (engine r))) = Some u ->
  routed u = false ->
  loop_turn (enqueue_orders [Order.mk move k (Some p) None c] r) = (Ok d, r') ->
  exists evts,
    _log (events r') = _log (events r) ++ evts
    /\ OrderAccepted_move (ts_ms (state (engine r))) (id u) p ∈ evts
    /\ (exists u', dict_get k (units (state (engine r'))) = Some u'
                   /\ intent_target_pos u' = Some p)
    /\ _orders r' = []
    /\ _pending_orders (engine r') = []
    /\ d = sleep_s r.
Proof.
  intros Hget Hr. unfold loop_turn, enqueue_orders.
  cbn [engine tick_ms time_compression sleep_s _orders events _task].
  set (o := Order.mk move k (Some p) None c).
  rewrite concat_app. cbn [concat]. rewrite app_nil_r.
  set (queued := concat (_orders r)).
  assert (Heng : match queued ++ [o] with
                 | [] => engine r
                 | _ :: _ => apply_orders (queued ++ [o]) (engine r)
                 end = apply_orders (queued ++ [o]) (engine r)).
  { destruct (queued ++ [o]) eqn:E; [|reflexivity]. now apply app_eq_nil in E as [_ ?]. }
  rewrite Heng. clear Heng.
  set (eng1 := apply_orders (queued ++ [o]) (engine r)).
  destruct (step (tick_ms r) eng1) as [[evts|x] eng2] eqn:Hstep; [|discriminate].
  intros [= <- <-].
  cbn [engine tick_ms time_compression sleep_s _orders events _task].
  exists evts. split; [reflexivity|].
  destruct (step_ok_rels _ _ _ _ Hstep)
    as (ev1 & ev5 & ev6 & us1 & us2 & us3 & us5 & rng5 & rng6 & targets
        & -> & Hloop & _ & _ & _ & _ & _ & H2 & H3 & H5 & H6).
  change (ts_ms (state eng1)) with (ts_ms (state (engine r))) in *.
  change (units (state eng1)) with (units (state (engine r))) in *.
  change (_pending_orders eng1) with (_pending_orders (engine r) ++ queued ++ [o]) in Hloop.
  rewrite app_assoc, apply_orders_loop_app in Hloop.
  pose proof (apply_orders_loop_touch (ts_ms (state (engine r)))
                (_pending_orders (engine r) ++ queued) (units (state (engine r)))) as Hrel.
  destruct (apply_orders_loop _ (_pending_orders (engine r) ++ queued) _)
    as [ev0 us0]. cbn [snd] in Hrel.
  destruct (units_rel_get _ _ _ _ _ Hrel Hget) as (u0 & Hu0 & T0).
  apply orders_touch_fields in T0 as (Hid0 & _ & _ & _ & _ & _ & Hr0 & _).
  cbn [apply_orders_loop] in Hloop. unfold apply_order in Hloop.
  change (Order.unit_id o) with k in Hloop. rewrite Hu0 in Hloop.
  replace (routed u0) with false in Hloop by congruence.
  cbn in Hloop. injection Hloop as -> ->.
  split.
  { rewrite elem_of_app. left. rewrite elem_of_app. right.
    rewrite <- Hid0. apply list_elem_of_singleton. reflexivity. }
  split.
  { assert (H1' : dict_get k (dict_put k (set_intent_target_pos (Some p) u0) us0)
                  = Some (set_intent_target_pos (Some p) u0))
      by (eapply dict_get_put_same; eauto).
    destruct (units_rel_get _ _ _ _ _ H2 H1') as (v2 & Hv2 & T2).
    destruct (units_rel_get _ _ _ _ _ H3 Hv2) as (v3 & Hv3 & T3).
    destruct (units_rel_get _ _ _ _ _ H5 Hv3) as (v5 & Hv5 & T5).
    destruct (units_rel_get _ _ _ _ _ H6 Hv5) as (v6 & Hv6 & T6).
    apply move_touch_fields in T2 as (_ & _ & _ & _ & _ & _ & _ & I2 & _).
    apply spotting_touch_fields in T3 as (_ & _ & _ & _ & _ & _ & _ & _ & I3 & _).
    apply combat_touch_fields in T5 as (_ & _ & _ & _ & _ & _ & I5 & _).
    apply morale_touch_fields in T6 as (_ & _ & _ & _ & _ & _ & _ & I6 & _).
    exists v6. split; [exact Hv6|]. rewrite I6, I5, I3, I2. reflexivity. }
  split; [reflexivity|]. split; [|reflexivity].
  pose proof (step_pending (tick_ms r) eng1) as Q. now rewrite Hstep in Q.
Qed.

(* ===================================================================== *)
(** ** Hit points against the events *)
(* ===================================================================== *)

Lemma damages_to_app (k : string) (a b : list Event.t) :
  damages_to k (a ++ b) = damages_to k a ++ damages_to k b.
Proof.
  induction a as [|ev a IH]; cbn [app damages_to]; [reflexivity|].
  destruct (is_damage_to k ev); [|exact IH].
  destruct (float_field "dmg" ev); [|exact IH]. now rewrite IH.
Qed.

Lemma damages_to_other_kind (k : string) (evts : list Event.t) :
  Forall (fun ev => has_kind "Damage" ev = false) evts -> damages_to k evts = [].
Proof.
  induction 1 as [|ev evts Hev _ IH]; [reflexivity|].
  cbn [damages_to]. unfold is_damage_to at 1. now rewrite Hev.
Qed.

Lemma existsb_is_destroyed_other (k : string) (evts : list Event.t) :
  Forall (fun ev => has_kind "Destroyed" ev = false) evts ->
  existsb (is_destroyed k) evts = false.
Proof.
  induction 1 as [|ev evts Hev _ IH]; [reflexivity|].
  cbn [existsb]. unfold is_destroyed at 1. now rewrite Hev, IH.
Qed.

Lemma after_damages_app (h : float) (a b : list float) :
  after_damages h (a ++ b) = after_damages (after_damages h a) b.
Proof. unfold after_damages. apply fold_left_app. Qed.

(** One exchange that returned, seen from the hit points of any unit. *)
Lemma combat_pair_hp (acc decay : float) (now : Z) (sid tid : string)
    (us us' : Units) (rng rng' : DRNG) (evts : list Event.t)
    (k : string) (u : Unit) :
  keyed_by_id us ->
  combat_pair acc decay now sid tid us rng = (Ok evts, us', rng') ->
  dict_get k us = Some u ->
  exists u', dict_get k us' = Some u'
    /\ hp u' = after_damages (hp u) (damages_to k evts)
    /\ (hp u' <=? 0)%float = (hp u <=? 0)%float || existsb (is_destroyed k) evts.
Proof.
  intros Hkeyed H Hget.
  destruct (combat_pair_unit _ _ _ _ _ _ _ _ _ _ k u H Hget) as (u' & Hu' & _ & Hother & _).
  exists u'. split; [exact Hu'|].
  apply combat_pair_inv in H as [(-> & _ & [[= ->]|[x [=]]])|H].
  { rewrite Hget in Hu'. injection Hu' as <-. cbn. now rewrite orb_false_r. }
  destruct H as (s & t & sT & q & Hs & Ht & _ & Hhp & _ & _ & H). cbv zeta in H.
  pose proof (keyed_by_id_get _ _ _ Hkeyed Ht) as Hidt.
  set (s' := set_last_fire_time now (set_ammo (ammo s - 1) s)) in *.
  set (t1 := if String.eqb sid tid then s' else t) in *.
  destruct H as (_ & Ht1 & H).
  assert (Hidt1 : id t1 = tid).
  { subst t1. destruct (String.eqb_spec sid tid) as [->|_]; [|exact Hidt].
    rewrite Hs in Ht. injection Ht as <-. subst s'. destruct s; exact Hidt. }
  assert (Hhpt1 : hp t1 = hp t).
  { subst t1. destruct (String.eqb_spec sid tid) as [->|_]; [|reflexivity].
    rewrite Hs in Ht. injection Ht as <-. subst s'. destruct s; reflexivity. }
  destruct H as [(_ & [= ->] & ->)|[(_ & x & _ & [=] & _)|(_ & d & _ & H)]].
  { (* a miss: nobody's hit points move *)
    assert (Hsame : hp u' = hp u).
    { rewrite dict_get_put in Hu'. destruct (String.eqb_spec sid k) as [->|_].
      - rewrite Hs in Hu', Hget. injection Hu' as <-. injection Hget as <-.
        subst s'. destruct s; reflexivity.
      - rewrite Hget in Hu'. now injection Hu' as <-. }
    cbn. now rewrite Hsame, orb_false_r. }
  cbv zeta in H. destruct H as [[= ->] ->].
  change (id (set_hp (hp t1 - d)%float t1)) with (id t1) in *.
  change (hp (set_hp (hp t1 - d)%float t1)) with (hp t1 - d)%float in *.
  rewrite Hidt1, Hhpt1 in *.
  destruct (String.eqb_spec tid k) as [->|Hne].
  - (* the target *)
    rewrite Hget in Ht. injection Ht as <-.
    rewrite dict_get_put, String.eqb_refl, Ht1 in Hu'. injection Hu' as <-.
    cbn [hp set_hp]. split.
    + unfold after_damages. cbn [app damages_to].
      unfold is_damage_to, has_kind, names_unit, float_field. cbn.
      rewrite String.eqb_refl.
      destruct (hp u - d <=? 0)%float; reflexivity.
    + rewrite Hhp. cbn [orb app existsb].
      unfold is_destroyed at 1 2, has_kind. cbn.
      destruct (hp u - d <=? 0)%float eqn:Hkill; cbn; [|reflexivity].
      unfold is_destroyed, has_kind, names_unit. cbn.
      now rewrite String.eqb_refl.
  - (* anybody else *)
    rewrite (Hother (not_eq_sym Hne)).
    apply String.eqb_neq in Hne.
    split.
    + unfold after_damages. cbn [app damages_to].
      unfold is_damage_to, has_kind, names_unit. cbn. rewrite Hne.
      destruct (hp t - d <=? 0)%float; reflexivity.
    + cbn [app existsb]. unfold is_destroyed at 1 2, has_kind. cbn.
      destruct (hp t - d <=? 0)%float; cbn; [|now rewrite orb_false_r].
      unfold is_destroyed, has_kind, names_unit. cbn.
      now rewrite Hne, orb_false_r.
Qed.

Lemma combat_loop_hp (acc decay : float) (now : Z) (targets : list (string * string))
    (us us' : Units) (rng rng' : DRNG) (evts : list Event.t)
    (k : string) (u : Unit) :
  keyed_by_id us ->
  combat_loop acc decay now targets us rng = (Ok evts, us', rng') ->
  dict_get k us = Some u ->
  exists u', dict_get k us' = Some u'
    /\ hp u' = after_damages (hp u) (damages_to k evts)
    /\ (hp u' <=? 0)%float = (hp u <=? 0)%float || existsb (is_destroyed k) evts.
Proof.
  revert us rng evts us' rng' u.
  induction targets as [|[sid tid] rest IH]; intros us rng evts us' rng' u Hkeyed;
    cbn [combat_loop].
  - intros [= <- <- _] Hget. exists u. split; [exact Hget|]. cbn. now rewrite orb_false_r.
  - pose proof (combat_pair_keyed acc decay now sid tid us rng Hkeyed) as Hkeyed1.
    destruct (combat_pair acc decay now sid tid us rng) as [[[ev1|x] us1] rng1] eqn:H1;
      [|discriminate].
    destruct (combat_loop acc decay now rest us1 rng1) as [[[ev2|x] us2] rng2] eqn:H2;
      cbn [bind]; [|discriminate].
    intros [= <- <- <-] Hget. cbn in Hkeyed1.
    destruct (combat_pair_hp _ _ _ _ _ _ _ _ _ _ k u Hkeyed H1 Hget) as (u1 & Hu1 & A1 & D1).
    destruct (IH _ _ _ _ _ u1 Hkeyed1 H2 Hu1) as (u2 & Hu2 & A2 & D2).
    exists u2. split; [exact Hu2|]. split.
    + now rewrite damages_to_app, after_damages_app, <- A1.
    + now rewrite existsb_app, orb_assoc, <- D1.
Qed.

(** X22: Hit points against the events.  After a step that returns, a unit's
    hit points are the ones it had with the damages of the Damage events
    that name it subtracted one by one in event order, and they are at or
    below zero exactly when they already were or the step reports the
    unit's destruction. *)
Theorem damage_accounting (dt_ms : Z) (e e' : Engine) (evts : list Event.t)
    (k : string) (u : Unit) :
  keys_unique (units (state e)) -> keyed_by_id (units (state e)) ->
  dict_get k (units (state e)) = Some u ->
  step dt_ms e = (Ok evts, e') ->
  exists u', dict_get k (units (state e')) = Some u'
    /\ hp u' = after_damages (hp u) (damages_to k evts)
    /\ (hp u' <=? 0)%float = (hp u <=? 0)%float || existsb (is_destroyed k) evts.
Proof.
  intros Hunique Hkeyed Hget Hstep.
  destruct (step_ok_unit _ _ _ _ k u Hunique Hkeyed Hget Hstep)
    as (ev1 & ev5 & ev6 & us3 & us5 & rng5 & targets & u3 & u5 & u6
        & -> & K1 & K6 & _ & Hc & _ & Hkeyed3 & _ & Hu3 & E3 & Hu5 & Hu6 & M6).
  destruct E3 as (_ & _ & _ & Hhp3 & _).
  apply morale_touch_fields in M6 as (_ & _ & _ & _ & Hhp6 & _).
  destruct (combat_loop_hp _ _ _ _ _ _ _ _ _ k u3 Hkeyed3 Hc Hu3) as (v5 & Hv5 & A5 & D5).
  rewrite Hu5 in Hv5. injection Hv5 as <-.
  assert (K1d : Forall (fun ev => has_kind "Damage" ev = false
                                  /\ has_kind "Destroyed" ev = false) ev1).
  { eapply Forall_impl; [exact K1|]. intros ev H. unfold has_kind in *.
    apply String.eqb_eq in H. now rewrite H. }
  assert (K6d : Forall (fun ev => has_kind "Damage" ev = false
                                  /\ has_kind "Destroyed" ev = false) ev6).
  { eapply Forall_impl; [exact K6|]. intros ev H. unfold has_kind in *.
    apply String.eqb_eq in H. now rewrite H. }
  exists u6. split; [exact Hu6|]. split.
  - rewrite !damages_to_app.
    rewrite (damages_to_other_kind k ev1), (damages_to_other_kind k ev6).
    + rewrite app_nil_r. cbn [app]. congruence.
    + eapply Forall_impl; [exact K6d|]. now intros ev [? _].
    + eapply Forall_impl; [exact K1d|]. now intros ev [? _].
  - rewrite !existsb_app.
    rewrite (existsb_is_destroyed_other k ev1), (existsb_is_destroyed_other k ev6).
    + rewrite orb_false_r. cbn [orb]. congruence.
    + eapply Forall_impl; [exact K6d|]. now intros ev [_ ?].
    + eapply Forall_impl; [exact K1d|]. now intros ev [_ ?].
Qed.

(* ===================================================================== *)
(** ** The hit probability *)
(* ===================================================================== *)

Lemma hit_probability_bounds (x : float) :
  let p := py_max 0.0 (py_min 0.95 x) in
  (0 <=? p)%float = true /\ (p <=? 0.95)%float = true.
Proof.
  unfold py_max, py_min.
  destruct (x <? 0.95)%float eqn:Hhi.
  - destruct (0.0 <? x)%float eqn:Hlo.
    + split; now apply float_ltb_leb.
    + split; reflexivity.
  - destruct (0.0 <? 0.95)%float eqn:Hc; split; try reflexivity; discriminate.
Qed.

(** X23: No shot is a sure hit: the probability every ShotFired event of a step
    reports lies between 0 and 0.95, whatever the distance and whatever
    [math.exp] returns, a NaN included. *)
Theorem hit_probability_is_capped (dt_ms : Z) (e e' : Engine) (evts : list Event.t)
    (ev : Event.t) :
  step dt_ms e = (Ok evts, e') ->
  ev ∈ evts -> has_kind "ShotFired" ev = true ->
  exists p, float_field "p" ev = Some p
            /\ (0 <=? p)%float = true /\ (p <=? 0.95)%float = true.
Proof.
  intros Hstep Hin Hkind.
  destruct (step_ok_rels _ _ _ _ Hstep)
    as (ev1 & ev5 & ev6 & us1 & us2 & us3 & us5 & rng5 & rng6 & targets
        & -> & Hloop & _ & _ & Hc & Hm & _).
  assert (Hcombat : is_combat_kind ev = true).
  { unfold is_combat_kind. now rewrite Hkind. }
  assert (Hin5 : ev ∈ ev5).
  { apply elem_of_app in Hin as [Hin|Hin].
    - exfalso.
      pose proof (apply_orders_loop_kinds (ts_ms (state e)) (_pending_orders e)
                    (units (state e))) as K. rewrite <- Hloop in K. cbn [fst] in K.
      rewrite Forall_forall in K. destruct (K ev Hin) as [K1 _].
      apply order_kind_exclusive in K1 as [K1 _]. congruence.
    - apply elem_of_app in Hin as [Hin|Hin]; [exact Hin|]. exfalso.
      destruct (morale_loop_events (ts_ms (state e)) us5 (rng5, [])) as (new & E & F).
      rewrite Hm in E. cbn in E. subst ev6.
      rewrite Forall_forall in F. destruct (F ev Hin) as [K1 _].
      apply routed_kind_exclusive in K1 as [_ K1]. congruence. }
  destruct (combat_loop_shots _ _ _ _ us3 _ _ _ _ _ ev
              (units_rel_refl _ _ combat_touch_refl) Hc Hin5 Hkind)
    as (sk & tk & s3 & t3 & q & w & _ & _ & _ & ->).
  eexists. split; [reflexivity|]. apply hit_probability_bounds.
Qed.

(* ===================================================================== *)
(** ** One turn of the loop *)
(* ===================================================================== *)

Lemma with_pending_same (e : Engine) : with_pending (_pending_orders e ++ []) e = e.
Proof. destruct e. unfold with_pending. cbn. now rewrite app_nil_r. Qed.

(** X24: One turn of the loop.  The engine is stepped once, by [tick_ms], with
    the batches of the queue appended in queue order to the orders it
    already held (a turn that finds the queue empty steps the engine as it
    is).  If the step returns, its events are appended to the log and the
    turn sleeps for [sleep_s]; if it raises, the log is as it was.  Either
    way the queue is left empty, the engine holds no pending order, and the
    pace of the runner is unchanged. *)
Theorem loop_turn_accounting (r : TickRunner) :
  let queued := concat (_orders r) in
  let stepped := step (tick_ms r) (apply_orders queued (engine r)) in
  let out := loop_turn r in
  engine out.2 = stepped.2
  /\ _orders out.2 = []
  /\ _pending_orders (engine out.2) = []
  /\ tick_ms out.2 = tick_ms r
  /\ time_compression out.2 = time_compression r
  /\ sleep_s out.2 = sleep_s r
  /\ match stepped.1 with
     | Ok evts => out.1 = Ok (sleep_s r)
                  /\ _log (events out.2) = _log (events r) ++ evts
     | Raise x => out.1 = Raise x /\ events out.2 = events r
     end.
Proof.
  cbn zeta. unfold loop_turn.
  assert (Heng : match concat (_orders r) with
                 | [] => engine r
                 | _ :: _ => apply_orders (concat (_orders r)) (engine r)
                 end = apply_orders (concat (_orders r)) (engine r)).
  { destruct (concat (_orders r)); [|reflexivity].
    unfold apply_orders. now rewrite with_pending_same. }
  rewrite Heng. clear Heng.
  pose proof (step_pending (tick_ms r) (apply_orders (concat (_orders r)) (engine r)))
    as Hq.
  destruct (step (tick_ms r) (apply_orders (concat (_orders r)) (engine r)))
    as [[evts|x] eng2]; cbn [fst snd engine _orders tick_ms time_compression sleep_s events]
    in *; repeat split; assumption.
Qed.

(* ===================================================================== *)
(** ** The vector helper *)
(* ===================================================================== *)

Lemma Prim2SF_thousandth : Prim2SF 0.001 = S754_finite false 4611686018427388 (-62).
Proof. vm_compute. reflexivity. Qed.

Lemma float_zero_below_thousandth (x : float) :
  (x =? 0)%float = true -> (x <? 0.001)%float = true.
Proof.
  rewrite FloatAxioms.eqb_spec, FloatAxioms.ltb_spec. unfold SFeqb, SFltb.
  rewrite Prim2SF_thousandth, Prim2SF_zero.
  destruct (Prim2SF x) as [s|s| |s m e]; cbn [SFcompare];
    try congruence; destruct s; congruence.
Qed.

(** X25: [normalize_2d] never raises: a magnitude that compares equal to zero
    (either zero) is below the guard of 0.001 and yields the zero vector,
    so the divisions that follow the guard have a divisor that is not
    zero; a NaN magnitude passes the guard and divides without raising. *)
Theorem normalize_2d_never_raises (vec : Position) :
  normalize_2d_raising vec = Ok (normalize_2d vec)
  /\ ((sqrt (vec.1 * vec.1 + vec.2 * vec.2) =? 0)%float = true ->
      normalize_2d vec = (0%float, 0%float)).
Proof.
  unfold normalize_2d_raising, normalize_2d.
  set (mag := sqrt (vec.1 * vec.1 + vec.2 * vec.2)%float).
  destruct (mag <? 0.001)%float eqn:Hsmall.
  - split; reflexivity.
  - assert (Hnz : (mag =? 0)%float = false).
    { destruct (mag =? 0)%float eqn:Hz; [|reflexivity].
      apply float_zero_below_thousandth in Hz. congruence. }
    split; [|congruence].
    now rewrite !(py_div_nonzero _ _ Hnz).
Qed.

(* ===================================================================== *)
(** ** Destroyed units in targeting and combat *)
(* ===================================================================== *)

(** The inner loop of [_find_targets] ends with a target as soon as it
    starts with one or some candidate may be engaged at a distance below
    the best one so far. *)
Lemma scan_targets_finds (now : Z) (u : Unit) (cands : Units)
    (best : option string) (best_dist : float) (r : option string) :
  scan_targets now u cands best best_dist = Ok r ->
  best <> None
  \/ (exists kc c, (kc, c) ∈ cands /\ may_engage now u c
                   /\ (distance_2d (pos u) (pos c) <? best_dist)%float = true) ->
  r <> None.
Proof.
  revert best best_dist.
  induction cands as [|[t_id t] rest IH]; intros best bd Hscan Hex.
  - cbn in Hscan. injection Hscan as <-.
    destruct Hex as [H|(kc & c & Hin & _)]; [exact H|]. inversion Hin.
  - cbn [scan_targets] in Hscan.
    destruct (Side_eqb (side u) (side t) || (hp t <=? 0)%float) eqn:Hskip.
    + apply (IH _ _ Hscan).
      destruct Hex as [H|(kc & c & Hin & Hme & Hd)]; [now left|].
      right. exists kc, c. split; [|now split].
      apply elem_of_cons in Hin as [Heq|Hin]; [|exact Hin].
      injection Heq as -> ->. destruct Hme as (Hs & Hh & _).
      rewrite Hs, Hh in Hskip. discriminate.
    + destruct (_can_fire_at u t now) as [ok|x] eqn:Hfire; cbn [bind] in Hscan;
        [|discriminate].
      destruct ok.
      * destruct (distance_2d (pos u) (pos t) <? bd)%float eqn:Hlt.
        -- apply (IH _ _ Hscan). left. discriminate.
        -- apply (IH _ _ Hscan).
           destruct Hex as [H|(kc & c & Hin & Hme & Hd)]; [now left|].
           right. exists kc, c. split; [|now split].
           apply elem_of_cons in Hin as [Heq|Hin]; [|exact Hin].
           injection Heq as -> ->. rewrite Hd in Hlt. discriminate.
      * apply (IH _ _ Hscan).
        destruct Hex as [H|(kc & c & Hin & Hme & Hd)]; [now left|].
        right. exists kc, c. split; [|now split].
        apply elem_of_cons in Hin as [Heq|Hin]; [|exact Hin].
        injection Heq as -> ->. destruct Hme as (_ & _ & Hf).
        rewrite Hf in Hfire. discriminate.
Qed.

(** When [_find_targets] returns, the inner loop has returned for every
    unit that is not routed. *)
Lemma find_targets_loop_scans (now : Z) (all us : Units)
    (targets0 targets : list (string * string)) (kd : string) (d : Unit) :
  find_targets_loop now all us targets0 = Ok targets ->
  (kd, d) ∈ us -> routed d = false ->
  exists r, scan_targets now d all None infinity = Ok r.
Proof.
  revert targets0. induction us as [|[k u] rest IH]; intros targets0 Hl Hin Hr.
  - inversion Hin.
  - cbn [find_targets_loop] in Hl.
    apply elem_of_cons in Hin as [Heq|Hin].
    + injection Heq as -> ->. rewrite Hr in Hl.
      destruct (scan_targets now u all None infinity) as [r|x]; [eauto|discriminate].
    + destruct (routed u); [eapply IH; eauto|].
      destruct (scan_targets now u all None infinity) as [[t_id|]|x];
        cbn [bind] in Hl; [| eapply IH; eauto | discriminate].
      destruct (String.eqb t_id ""); eapply IH; eauto.
Qed.

(** A unit that is not routed and may engage some unit at a finite
    distance is given a target. *)
Lemma find_targets_loop_complete (now : Z) (us : Units)
    (targets : list (string * string)) (kd kc : string) (d c : Unit) :
  find_targets_loop now us us [] = Ok targets ->
  NoDup us.*1 -> ""%string ∉ us.*1 ->
  (kd, d) ∈ us -> routed d = false ->
  (kc, c) ∈ us -> may_engage now d c ->
  (distance_2d (pos d) (pos c) <? infinity)%float = true ->
  exists t, (kd, t) ∈ targets.
Proof.
  intros Hl Hnd Hne Hd Hr Hc Hme Hfin.
  destruct (find_targets_loop_scans _ _ _ _ _ _ _ Hl Hd Hr) as [r Hscan].
  assert (Hsome : r <> None).
  { apply (scan_targets_finds _ _ _ _ _ _ Hscan). right. exists kc, c. auto. }
  destruct r as [t|]; [|congruence]. exists t.
  apply (find_targets_loop_selects _ _ _ _ _ _ _ _ Hl Hnd Hd Hr Hscan).
  intros ->. destruct (scan_targets_spec _ _ _ _ _ _ Hscan) as [Hb|(tu & Hin & _)];
    [discriminate|].
  apply Hne. apply list_elem_of_fmap. exists (""%string, tu). split; [reflexivity|exact Hin].
Qed.

Lemma is_shot_by_ShotFired (now : Z) (s t w : string) (dist p : float) :
  is_shot_by s (ShotFired now s t dist p w) = true
  /\ is_shot_at t (ShotFired now s t dist p w) = true.
Proof.
  unfold is_shot_by, is_shot_at, has_kind, names_unit, ShotFired. cbn.
  now rewrite !String.eqb_refl.
Qed.

(** A pair of the targets fires in the combat loop unless its target is
    at or below zero hit points when its turn comes, which it is from the
    start or by a destruction the loop has reported. *)
Lemma combat_loop_fires (acc decay : float) (now : Z) (targets : list (string * string))
    (us us' : Units) (rng rng' : DRNG) (evts : list Event.t)
    (s t : string) (su tu : Unit) :
  keyed_by_id us ->
  combat_loop acc decay now targets us rng = (Ok evts, us', rng') ->
  (s, t) ∈ targets ->
  dict_get s us = Some su -> routed su = false ->
  dict_get t us = Some tu ->
  Exists (fun ev => is_shot_by s ev = true /\ is_shot_at t ev = true) evts
  \/ (hp tu <=? 0)%float = true
  \/ existsb (is_destroyed t) evts = true.
Proof.
  revert us rng evts su tu.
  induction targets as [|[s0 t0] rest IH];
    intros us rng evts su tu Hkeyed Hloop Hin Hs Hr Ht.
  - inversion Hin.
  - cbn [combat_loop] in Hloop.
    destruct (combat_pair acc decay now s0 t0 us rng) as [[[evts0|x] us1] rng1] eqn:Hpair;
      [|discriminate].
    destruct (combat_loop acc decay now rest us1 rng1) as [[[evts1|x] us2] rng2] eqn:Hrest;
      cbn [bind] in Hloop; [|discriminate].
    injection Hloop as <- <- <-.
    apply elem_of_cons in Hin as [Heq|Hin].
    + injection Heq as <- <-.
      destruct (hp tu <=? 0)%float eqn:Hhp; [right; left; reflexivity|]. left.
      apply Exists_app. left.
      pose proof (keyed_by_id_get _ _ _ Hkeyed Hs) as Hids.
      pose proof (keyed_by_id_get _ _ _ Hkeyed Ht) as Hidt.
      unfold combat_pair in Hpair. rewrite Hs, Ht, Hr, Hhp in Hpair. cbn [orb] in Hpair.
      destruct (get_type su) as [sT|x]; cbn [bind] in Hpair; [|discriminate].
      destruct (py_div _ decay) as [q|x]; cbn [bind] in Hpair; [|discriminate].
      rewrite Hids, Hidt in Hpair.
      destruct (bernoulli _ rng) as [[|] rng0].
      * destruct (_calculate_damage _ _ _) as [dmg|x]; [|discriminate].
        injection Hpair as <- _ _. apply Exists_cons. left. apply is_shot_by_ShotFired.
      * injection Hpair as <- _ _. apply Exists_cons. left. apply is_shot_by_ShotFired.
    + pose proof (combat_pair_touch acc decay now s0 t0 us rng) as Hrel.
      rewrite Hpair in Hrel. cbn [fst snd] in Hrel.
      destruct (units_rel_get _ _ _ _ _ Hrel Hs) as (su1 & Hs1 & Hts).
      destruct (combat_pair_hp _ _ _ _ _ _ _ _ _ _ _ _ Hkeyed Hpair Ht)
        as (tu1 & Ht1 & _ & Hhp1).
      assert (Hk1 : keyed_by_id us1).
      { apply (keyed_by_id_rel combat_touch us us1); [|exact Hrel|exact Hkeyed].
        intros a b Hab. apply (combat_touch_fields _ _ Hab). }
      assert (Hr1 : routed su1 = false).
      { destruct (combat_touch_fields _ _ Hts) as (_ & _ & _ & _ & E & _).
        now rewrite E. }
      destruct (IH us1 rng1 evts1 su1 tu1 Hk1 Hrest Hin Hs1 Hr1 Ht1) as [H|[H|H]].
      * left. apply Exists_app. now right.
      * rewrite Hhp1 in H. apply orb_true_iff in H as [H|H].
        -- right. left. exact H.
        -- right. right. rewrite existsb_app, H. reflexivity.
      * right. right. rewrite existsb_app, H. apply orb_true_r.
Qed.

(** The phases of a step that returns, around the call of
    [_find_targets]. *)
Lemma step_before_targeting (dt_ms : Z) (e e' : Engine) (evts : list Event.t) :
  step dt_ms e = (Ok evts, e') ->
  exists e3 ev1 targets ev5 e5 ev6,
    before_targeting dt_ms e = (Ok tt, e3)
    /\ _find_targets e3 = (Ok targets, e3)
    /\ _combat dt_ms targets e3 = (Ok ev5, e5)
    /\ evts = ev1 ++ ev5 ++ ev6
    /\ ts_ms (state e3) = ts_ms (state e)
    /\ units_rel early_touch (units (state e)) (units (state e3)).
Proof.
  intros Hstep.
  destruct (step_ok_inv _ _ _ _ Hstep)
    as (ev1 & e1 & e2 & e3 & targets & ev5 & e5 & ev6 & e6
        & H1 & H2 & H3 & H4 & H5 & H6 & Hev & He').
  exists e3, ev1, targets, ev5, e5, ev6.
  split. { unfold before_targeting, bindM. rewrite H1, H2, H3. reflexivity. }
  split; [exact H4|]. split; [exact H5|]. split; [exact Hev|].
  rewrite _apply_orders_now_eq in H1. injection H1 as _ <-.
  pose proof (apply_orders_loop_touch (ts_ms (state e)) (_pending_orders e)
                (units (state e))) as R1.
  set (us1 := (apply_orders_loop (ts_ms (state e)) (_pending_orders e)
                 (units (state e))).2) in *.
  destruct (_move_touch dt_ms (with_pending [] (with_units us1 e))) as (us2 & E2 & R2).
  rewrite H2 in E2. cbn [snd] in E2. subst e2.
  destruct (_update_spotting_touch (with_units us2 (with_pending [] (with_units us1 e))))
    as (us3 & E3 & R3).
  rewrite H3 in E3. cbn [snd] in E3. subst e3.
  split; [reflexivity|].
  cbn [units state with_units with_pending set_units] in *.
  exact (early_touch_compose _ _ _ _ R1 R2 R3).
Qed.

(** C10: a unit whose hit points are at or below zero and whose routed
    flag is false is treated by movement, spotting, targeting and combat
    like any unit that is not routed.  It is moved towards its intent
    target.  Its identifier is added to the spotted-by set of every opposing
    unit it detects.  Targeting gives it a target whenever some unit is one
    it may engage at a finite distance (no unit being filed under the empty
    key, which [if best_target:] would drop), and never reads its own hit
    points.
    In a step that returns (of an engine whose distance decay is positive,
    as the constructor sets it), if it may engage some unit when targeting
    begins, then the step reports its shot at its target, unless that
    target was destroyed earlier in the same step; its shot emits ShotFired,
    and Damage on a hit.  Hit points only matter on the other side: every
    target that targeting selects has hit points that are not at or below
    zero. *)
Theorem destroyed_units_still_act (d : Unit) :
  routed d = false -> (hp d <=? 0)%float = true ->
  (forall dt_ms (e e2 : Engine) evs k tgt,
     _move dt_ms e = (Ok evs, e2) ->
     dict_get k (units (state e)) = Some d ->
     intent_target_pos d = Some tgt ->
     exists (ms : float) (T : UnitType),
       int_to_float dt_ms = Ok ms /\ get_type d = Ok T
       /\ let dx := (tgt.1 - (pos d).1)%float in
          let dy := (tgt.2 - (pos d).2)%float in
          let dist := sqrt (dx * dx + dy * dy)%float in
          let step_len := py_min (speed_mps T * (ms / 1000.0))%float dist in
          dict_get k (units (state e2))
          = Some (if (dist <? 0.1)%float then d
                  else set_pos (((pos d).1 + dx / dist * step_len)%float,
                                ((pos d).2 + dy / dist * step_len)%float) d))
  /\ (forall (e e' : Engine) evs kd kt t,
        _update_spotting e = (Ok evs, e') ->
        dict_get kd (units (state e)) = Some d ->
        dict_get kt (units (state e)) = Some t ->
        side d <> side t ->
        _can_detect d t = Ok true ->
        exists t', dict_get kt (units (state e')) = Some t' /\ id d ∈ spotted_by t')
  /\ (forall (e : Engine) targets kd kc c,
        keys_unique (units (state e)) ->
        ""%string ∉ unit_keys (units (state e)) ->
        dict_get kd (units (state e)) = Some d ->
        (_find_targets e).1 = Ok targets ->
        (kc, c) ∈ units (state e) ->
        may_engage (ts_ms (state e)) d c ->
        (distance_2d (pos d) (pos c) <? infinity)%float = true ->
        exists t, (kd, t) ∈ targets)
  /\ (forall now h cands best best_dist,
        scan_targets now (set_hp h d) cands best best_dist
        = scan_targets now d cands best best_dist)
  /\ (forall dt_ms (e e3 e' : Engine) evts kd,
        keys_unique (units (state e)) -> keyed_by_id (units (state e)) ->
        ""%string ∉ unit_keys (units (state e)) ->
        (0 <? decay_m e)%float = true ->
        dict_get kd (units (state e)) = Some d ->
        step dt_ms e = (Ok evts, e') ->
        before_targeting dt_ms e = (Ok tt, e3) ->
        exists d3,
          dict_get kd (units (state e3)) = Some d3
          /\ hp d3 = hp d /\ routed d3 = false
          /\ forall kc c,
               (kc, c) ∈ units (state e3) ->
               may_engage (ts_ms (state e)) d3 c ->
               (distance_2d (pos d3) (pos c) <? infinity)%float = true ->
               exists t tu,
                 (t, tu) ∈ units (state e3)
                 /\ may_engage (ts_ms (state e)) d3 tu
                 /\ (Exists (fun ev => is_shot_by kd ev = true
                                       /\ is_shot_at t ev = true) evts
                     \/ existsb (is_destroyed t) evts = true))
  /\ (forall acc decay now sid tid us (rng : DRNG) t sT,
        dict_get sid us = Some d -> dict_get tid us = Some t ->
        (hp t <=? 0)%float = false ->
        get_type d = Ok sT ->
        (0 <? decay)%float = true ->
        let dist := distance_2d (pos d) (pos t) in
        let p := py_max 0.0 (py_min 0.95 (acc * math_exp (- dist / decay))%float) in
        let out := combat_pair acc decay now sid tid us rng in
        (exists d', dict_get sid out.1.2 = Some d' /\ ammo d' = ammo d - 1)
        /\ forall evts, out.1.1 = Ok evts ->
             evts !! 0%nat
             = Some (ShotFired now (id d) (id t) dist p
                               (WeaponType_value (weapon_type sT)))
             /\ ((bernoulli p rng).1 = true ->
                 exists dmg hp', evts !! 1%nat = Some (Damage now (id t) dmg hp' (id d))))
  /\ (forall (e : Engine) targets s t,
        (_find_targets e).1 = Ok targets -> (s, t) ∈ targets ->
        exists shooter target,
          (s, shooter) ∈ units (state e) /\ (t, target) ∈ units (state e)
          /\ (hp target <=? 0)%float = false).
Proof.
  intros Hr Hdead. split; [|split; [|split; [|split; [|split; [|split]]]]].
  - intros dt_ms e e2 evs k tgt Hmove Hget Hi.
    exact (_move_ok_unit dt_ms e e2 evs k d tgt Hmove Hget Hr Hi).
  - intros e e' evs kd kt t Hspot Hd Ht Hside Hsee.
    exact (_update_spotting_records e e' evs kd kt d t Hspot Hd Hr Ht Hside Hsee).
  - intros e targets kd kc c Hunique Hne Hd Hft Hc Hme Hfin.
    unfold _find_targets in Hft. cbn [fst] in Hft.
    exact (find_targets_loop_complete _ _ _ _ _ _ _ Hft Hunique Hne
             (dict_get_elem_of _ _ _ Hd) Hr Hc Hme Hfin).
  - intros now h cands best best_dist. apply scan_targets_own_hp.
  - intros dt_ms e e3 e' evts kd Hunique Hkeyed Hne _ Hget Hstep Hbt.
    destruct (step_before_targeting _ _ _ _ Hstep)
      as (e3' & ev1 & targets & ev5 & e5 & ev6 & Hbt' & Hft & Hcb & Hev & Hts & Hrel).
    rewrite Hbt in Hbt'. injection Hbt' as Heq. subst e3'.
    destruct (units_rel_get _ _ _ _ _ Hrel Hget) as (d3 & Hget3 & Het).
    destruct Het as (Hid & Hside & Hty & Hhp3 & Hammo & Hrt & Hlf).
    assert (Hr3 : routed d3 = false) by (now rewrite Hrt).
    exists d3. split; [exact Hget3|]. split; [exact Hhp3|]. split; [exact Hr3|].
    intros kc c Hc Hme Hfin.
    pose proof (keys_unique_rel _ _ _ Hrel Hunique) as Hu3.
    assert (Hk3 : keyed_by_id (units (state e3))).
    { apply (keyed_by_id_rel early_touch (units (state e)) _); [|exact Hrel|exact Hkeyed].
      intros a b Hab. apply Hab. }
    assert (Hne3 : ""%string ∉ unit_keys (units (state e3))).
    { now rewrite (units_rel_keys _ _ _ Hrel). }
    unfold _find_targets in Hft. injection Hft as Hft. rewrite Hts in Hft.
    destruct (find_targets_loop_complete _ _ _ _ _ _ _ Hft Hu3 Hne3
                (dict_get_elem_of _ _ _ Hget3) Hr3 Hc Hme Hfin) as [t Ht].
    destruct (find_targets_loop_nearest _ _ _ _ _ Hft kd t Ht)
      as [Hnil|(u & tu & Hu_in & _ & Htu_in & Hme' & _)]; [inversion Hnil|].
    pose proof (dict_get_unique _ _ _ Hu3 Hu_in) as Hgu.
    rewrite Hget3 in Hgu. injection Hgu as <-.
    pose proof (dict_get_unique _ _ _ Hu3 Htu_in) as Hgt.
    exists t, tu. split; [exact Htu_in|]. split; [exact Hme'|].
    unfold _combat in Hcb. rewrite Hts in Hcb.
    destruct (combat_loop _ _ _ targets _ _) as [[r us5] rng5] eqn:Hloop.
    injection Hcb as -> _.
    destruct (combat_loop_fires _ _ _ _ _ _ _ _ _ _ _ _ _ Hk3 Hloop Ht Hget3 Hr3 Hgt)
      as [H|[H|H]].
    + left. subst evts. apply Exists_app. right. apply Exists_app. now left.
    + destruct Hme' as (_ & Hh & _). rewrite Hh in H. discriminate.
    + right. subst evts. rewrite !existsb_app, H. now rewrite orb_true_r.
  - intros acc decay now sid tid us rng t sT Hs Ht Hhp HsT Hpos.
    assert (Hq : py_div (- distance_2d (pos d) (pos t)) decay
                 = Ok (- distance_2d (pos d) (pos t) / decay)%float).
    { unfold py_div. now rewrite (float_positive_nonzero _ Hpos). }
    exact (combat_pair_fires acc decay now sid tid us rng d t sT _ Hs Ht Hr Hhp HsT Hq).
  - intros e targets s t Hft Hin.
    unfold _find_targets in Hft. cbn [fst] in Hft.
    destruct (find_targets_shooter _ _ _ _ _ Hft Hin)
      as (shooter & target & Hs & _ & _ & Ht & _ & Hhp).
    exists shooter, target. auto.
Qed.

(* ===================================================================== *)
(** ** Engines that share nothing *)
(* ===================================================================== *)

(** Dictionaries that compare equal and iterate in the same order are the
    same association list. *)
Lemma dict_equal_ordered {V} (d1 d2 : list (string * V)) :
  NoDup d1.*1 -> dict_equal d1 d2 -> d1.*1 = d2.*1 -> d1 = d2.
Proof.
  revert d2. induction d1 as [|[k v] r1 IH]; intros [|[k' v'] r2] Hnd Heq Hk;
    try discriminate; [reflexivity|].
  cbn in Hk. injection Hk as <- Hk.
  apply NoDup_cons in Hnd as [Hnotin Hnd].
  pose proof (Heq k) as Hkk. cbn in Hkk. rewrite String.eqb_refl in Hkk.
  injection Hkk as <-.
  f_equal. apply IH; [exact Hnd| |exact Hk].
  intros j. pose proof (Heq j) as Hj. cbn in Hj.
  destruct (String.eqb_spec j k) as [Hjk|Hne]; [|exact Hj].
  rewrite Hjk. rewrite (proj2 (dict_get_none_keys k r1) Hnotin).
  symmetry. apply dict_get_none_keys. now rewrite <- Hk.
Qed.

Lemma State_ext (s1 s2 : State) :
  ts_ms s1 = ts_ms s2 -> units s1 = units s2 -> battle_id s1 = battle_id s2 ->
  s1 = s2.
Proof. destruct s1, s2. cbn. now intros -> -> ->. Qed.

Lemma addressed_to_here {A} (i : nat) (x : A) (l : list (nat * A)) :
  addressed_to i ((i, x) :: l) = x :: addressed_to i l.
Proof. unfold addressed_to. cbn. now rewrite Nat.eqb_refl. Qed.

Lemma addressed_to_other {A} (i j : nat) (x : A) (l : list (nat * A)) :
  j <> i -> addressed_to i ((j, x) :: l) = addressed_to i l.
Proof.
  intros Hne. unfold addressed_to. cbn.
  now rewrite (proj2 (Nat.eqb_neq j i) Hne).
Qed.

Lemma holds_state (w : World) (i l r : nat) (e : Engine) :
  holds w i l r e -> states w !! l = Some (state e).
Proof.
  intros (o & _ & <- & _ & Hl). unfold load in Hl.
  destruct (states w !! state_at o) as [s|]; [|discriminate].
  destruct (generators w !! rng_at o) as [g0|]; [|discriminate].
  now injection Hl as <-.
Qed.

(** A method called on one engine writes that engine's state, generator
    and fields, and leaves an engine that shares neither state nor
    generator with it as it was. *)
Lemma on_engine_holds {A} (m : Engine -> A * Engine) (w : World)
    (a b la ra lb rb : nat) (ea eb : Engine) :
  a <> b -> la <> lb -> ra <> rb ->
  holds w a la ra ea -> holds w b lb rb eb ->
  (on_engine a m w).1 = Some (m ea).1
  /\ holds (on_engine a m w).2 a la ra (m ea).2
  /\ holds (on_engine a m w).2 b lb rb eb.
Proof.
  intros Hab Hl Hr (oa & Ha & <- & <- & Hla) (ob & Hb & <- & <- & Hlb).
  unfold on_engine. rewrite Ha, Hla. destruct (m ea) as [x ea'] eqn:Hm.
  cbn [fst snd]. split; [reflexivity|].
  unfold load in Hla, Hlb.
  destruct (states w !! state_at oa) as [sa|] eqn:Hsa; [|discriminate].
  destruct (generators w !! rng_at oa) as [ga|] eqn:Hga; [|discriminate].
  destruct (states w !! state_at ob) as [sb|] eqn:Hsb; [|discriminate].
  destruct (generators w !! rng_at ob) as [gb|] eqn:Hgb; [|discriminate].
  split.
  - eexists. split; [|split; [|split]].
    + cbn [engines store]. apply list_lookup_insert_eq.
      exact (lookup_lt_Some _ _ _ Ha).
    + reflexivity.
    + reflexivity.
    + unfold load. cbn [states generators store state_at rng_at].
      rewrite (list_lookup_insert_eq _ _ _ (lookup_lt_Some _ _ _ Hsa)).
      rewrite (list_lookup_insert_eq _ _ _ (lookup_lt_Some _ _ _ Hga)).
      cbn. now destruct ea'.
  - exists ob. split; [|split; [|split]].
    + cbn [engines store]. now rewrite list_lookup_insert_ne.
    + reflexivity.
    + reflexivity.
    + unfold load. cbn [states generators store].
      rewrite (list_lookup_insert_ne _ _ _ _ Hl), (list_lookup_insert_ne _ _ _ _ Hr).
      now rewrite Hsb, Hgb.
Qed.

(** Two engines that share neither state nor generator, called in any
    interleaving: each sees its own calls only. *)
Lemma world_run_apart (sched : list (nat * call)) (w : World)
    (a b la ra lb rb : nat) (ea eb : Engine) :
  a <> b -> la <> lb -> ra <> rb ->
  holds w a la ra ea -> holds w b lb rb eb ->
  Forall (fun ic => ic.1 = a \/ ic.1 = b) sched ->
  addressed_to a (world_run w sched).1 = (run ea (addressed_to a sched)).1.*1
  /\ addressed_to b (world_run w sched).1 = (run eb (addressed_to b sched)).1.*1
  /\ holds (world_run w sched).2 a la ra (run ea (addressed_to a sched)).2
  /\ holds (world_run w sched).2 b lb rb (run eb (addressed_to b sched)).2.
Proof.
  intros Hab Hl Hr. revert w ea eb.
  induction sched as [|[i c] rest IH]; intros w ea eb Ha Hb Hsched.
  - cbn. auto.
  - apply Forall_cons in Hsched as [Hi Hrest]. cbn [fst] in Hi.
    destruct Hi as [->| ->].
    + rewrite (addressed_to_here a c rest), (addressed_to_other b a c rest Hab).
      destruct c as [os|dt].
      * destruct (on_engine_holds (fun e => (tt, apply_orders os e)) w
                    a b la ra lb rb ea eb Hab Hl Hr Ha Hb) as (_ & Ha' & Hb').
        cbn [world_run run]. exact (IH _ _ _ Ha' Hb' Hrest).
      * destruct (on_engine_holds (step dt) w a b la ra lb rb ea eb Hab Hl Hr Ha Hb)
          as (Hres & Ha' & Hb').
        specialize (IH _ _ _ Ha' Hb' Hrest).
        cbn [world_run run].
        destruct (on_engine a (step dt) w) as [r w'].
        cbn [fst snd] in *. subst r.
        destruct (world_run w' rest) as [log w''].
        destruct (step dt ea) as [r ea']. cbn [fst snd] in *.
        destruct (run ea' (addressed_to a rest)) as [lg ea''].
        cbn [fst snd] in *.
        rewrite (addressed_to_here a r log), (addressed_to_other b a r log Hab).
        destruct IH as (I1 & I2 & I3 & I4).
        cbn [fmap list_fmap fst]. rewrite I1. auto.
    + assert (Hba : b <> a) by congruence.
      assert (Hl' : lb <> la) by congruence.
      assert (Hr' : rb <> ra) by congruence.
      rewrite (addressed_to_here b c rest), (addressed_to_other a b c rest Hba).
      destruct c as [os|dt].
      * destruct (on_engine_holds (fun e => (tt, apply_orders os e)) w
                    b a lb rb la ra eb ea Hba Hl' Hr' Hb Ha) as (_ & Hb' & Ha').
        cbn [world_run run]. exact (IH _ _ _ Ha' Hb' Hrest).
      * destruct (on_engine_holds (step dt) w b a lb rb la ra eb ea Hba Hl' Hr' Hb Ha)
          as (Hres & Hb' & Ha').
        specialize (IH _ _ _ Ha' Hb' Hrest).
        cbn [world_run run].
        destruct (on_engine b (step dt) w) as [r w'].
        cbn [fst snd] in *. subst r.
        destruct (world_run w' rest) as [log w''].
        destruct (step dt eb) as [r eb']. cbn [fst snd] in *.
        destruct (run eb' (addressed_to b rest)) as [lg eb''].
        cbn [fst snd] in *.
        rewrite (addressed_to_here b r log), (addressed_to_other a b r log Hba).
        destruct IH as (I1 & I2 & I3 & I4).
        cbn [fmap list_fmap fst]. rewrite I2. auto.
Qed.

(** Two engines built one after the other hold each the state they were
    given and a generator of their own, seeded as asked. *)
Lemma new_engines_hold (seed : Z) (w : World) (l1 l2 : nat) (s1 s2 : State) :
  states w !! l1 = Some s1 -> states w !! l2 = Some s2 ->
  let a := (new_engine seed l1 w).1 in
  let wa := (new_engine seed l1 w).2 in
  let b := (new_engine seed l2 wa).1 in
  let w0 := (new_engine seed l2 wa).2 in
  a <> b
  /\ length (generators w) <> length (generators wa)
  /\ holds w0 a l1 (length (generators w)) (Engine_init seed s1)
  /\ holds w0 b l2 (length (generators wa)) (Engine_init seed s2).
Proof.
  intros H1 H2. cbv zeta. unfold new_engine. cbn [fst snd states generators engines].
  split; [rewrite length_app; cbn; lia|].
  split; [rewrite length_app; cbn; lia|].
  split.
  - eexists. split; [|split; [|split]].
    + apply lookup_app_l_Some. now apply list_lookup_middle.
    + reflexivity.
    + reflexivity.
    + unfold load. cbn [states generators state_at rng_at].
      rewrite H1.
      rewrite (lookup_app_l_Some _ _ _ _
                 (list_lookup_middle (generators w) [] (DRNG_init seed) _ eq_refl)).
      reflexivity.
  - eexists. split; [|split; [|split]].
    + now apply list_lookup_middle.
    + reflexivity.
    + reflexivity.
    + unfold load. cbn [states generators state_at rng_at].
      rewrite H2.
      rewrite (list_lookup_middle (generators w ++ [DRNG_init seed]) []
                 (DRNG_init seed) _ eq_refl).
      reflexivity.
Qed.


End Engine.

Arguments Engine_init {BitGenerator} PCG64 seed initial_state.
Arguments apply_orders {BitGenerator} orders e.
Arguments step math_exp {BitGenerator} random dt_ms e.
Arguments run math_exp {BitGenerator} random e calls.
Arguments forget {BitGenerator} e.
Arguments sample_engine {BitGenerator} PCG64.
Arguments sample_runner {BitGenerator} PCG64.
Arguments set_time_compression {BitGenerator} tc r.
Arguments loop_turn math_exp {BitGenerator} random r.
Arguments turns math_exp {BitGenerator} random n r.
Arguments tick_ms {BitGenerator} t.
Arguments time_compression {BitGenerator} t.
Arguments sleep_s {BitGenerator} t.
Arguments state {BitGenerator} e.

(* ===================================================================== *)
(** ** Closed instances *)
(* ===================================================================== *)

Lemma since_and_append_many_witness :
  0 <= 2 /\
  (since (-5) 2 sample_log).1 = [sample_event 0; sample_event 500] /\
  (since (-5) 2 sample_log).2 = 2.
Proof.
  pose proof (since_and_append_many sample_log (-5) 2 [] ltac:(lia)) as H.
  cbv zeta in H. destruct H as (H1 & _ & _ & H4 & _).
  split; [lia|]. split.
  - rewrite H1. reflexivity.
  - rewrite H4. reflexivity.
Defined.

(** C8 as stated fails for a negative limit: [since(0, -1)] on a log of
    three events is the slice [log[0:-1]], two events, which is not "at
    most -1 events". *)
Lemma since_negative_limit :
  (since 0 (-1) sample_log).1 = [sample_event 0; sample_event 500]
  /\ ~ (Z.of_nat (length (since 0 (-1) sample_log).1) <= -1).
Proof. split; [reflexivity|]. cbn. lia. Qed.

Lemma set_time_compression_pace_witness :
  int_to_float (tick_ms (sample_runner (fun s : Z => s))) = Ok 500%float /\
  sleep_s (set_time_compression 60 (sample_runner (fun s : Z => s))).2
  = (500 / 1000.0 / 60)%float.
Proof.
  assert (H : int_to_float (tick_ms (sample_runner (fun s : Z => s))) = Ok 500%float)
    by (vm_compute; reflexivity).
  split; [exact H|].
  pose proof (set_time_compression_pace sample_exp Z sample_random
                (sample_runner (fun s : Z => s)) 60 500 H) as P.
  cbv zeta in P. destruct P as (_ & _ & _ & _ & _ & P & _).
  apply P. vm_compute. reflexivity.
Defined.

(** C2 as stated fails below factor 1: with [tick_ms = 500] and factor
    [0.1] the stored compression is [0.1], the claimed suspension is
    [0.5 / 0.1 = 5] seconds, and the runner sleeps [0.5] seconds. *)
Lemma set_time_compression_slow_motion :
  let r' := (set_time_compression 0.1 (sample_runner (fun s : Z => s))).2 in
  time_compression r' = 0.1%float
  /\ (0.5 / time_compression r')%float = 5%float
  /\ sleep_s r' = 0.5%float
  /\ (sleep_s r' =? 0.5 / time_compression r')%float = false.
Proof. vm_compute. repeat split; reflexivity. Qed.

Arguments DRNG_init {BitGenerator} PCG64 seed.
Arguments bernoulli {BitGenerator} random p r.
Arguments _apply_orders_now {BitGenerator} e.
Arguments _move {BitGenerator} dt_ms e.
Arguments _update_spotting {BitGenerator} e.
Arguments _find_targets {BitGenerator} e.
Arguments _combat math_exp {BitGenerator} random dt_ms targets e.
Arguments _morale {BitGenerator} random e.
Arguments combat_pair math_exp {BitGenerator} random acc decay now shooter_id target_id us rng.
Arguments agree {BitGenerator} e1 e2.
Arguments sample_routed_engine {BitGenerator} PCG64.
Arguments sample_destroyed_engine {BitGenerator} PCG64.
Arguments sample_targeting_engine {BitGenerator} PCG64.

Lemma sample_units_keys_unique : keys_unique sample_units.
Proof.
  unfold keys_unique, sample_units. cbn. apply NoDup_cons. split.
  - rewrite list_elem_of_singleton. discriminate.
  - apply NoDup_singleton.
Qed.

Lemma sample_units_keyed_by_id : keyed_by_id sample_units.
Proof. repeat constructor. Qed.

Lemma damage_follows_table_witness :
  exists d : float,
    table_4_2a DIRECT_FIRE 3 50 = Some d /\ d = 40%float.
Proof.
  set (s := sample_unit "B1" BLUE "MBT" (1000, 5000)%float 150%float 40).
  set (t := sample_unit "R1" RED "MBT" (1500, 5000)%float 150%float 40).
  destruct (damage_follows_table sample_exp Z sample_random
              0.7%float 800%float 10000 "B1" "R1" sample_units {| g := 0 |}
              s t
              {| name := "Main Battle Tank"; unit_class := MBT;
                 max_hp := 150; speed_mps := 2.0; sensor_range_m := 1000;
                 weapon_type := DIRECT_FIRE; weapon_range_m := 3000; damage := 50;
                 reload_time_s := 6.0; armor := 3; visibility := 1.5; max_ammo := 40 |}
              {| name := "Main Battle Tank"; unit_class := MBT;
                 max_hp := 150; speed_mps := 2.0; sensor_range_m := 1000;
                 weapon_type := DIRECT_FIRE; weapon_range_m := 3000; damage := 50;
                 reload_time_s := 6.0; armor := 3; visibility := 1.5; max_ammo := 40 |}
              (-0.625)%float)
    as (d & evts & us' & rng' & Htable & _).
  - reflexivity.
  - reflexivity.
  - discriminate.
  - reflexivity.
  - reflexivity.
  - reflexivity.
  - reflexivity.
  - vm_compute. reflexivity.
  - vm_compute. reflexivity.
  - exists d. split; [exact Htable|].
    cbn in Htable. vm_compute in Htable. now injection Htable as <-.
Defined.

Lemma routing_is_terminal_witness :
  exists u',
    dict_get "B1" (units (state (run sample_exp sample_random
                                     (sample_routed_engine (fun s : Z => s))
                                     sample_calls).2)) = Some u'
    /\ frozen sample_routed_unit u'.
Proof.
  refine (proj1 (routing_is_terminal sample_exp Z sample_random
                   (sample_routed_engine (fun s : Z => s)) sample_calls
                   "B1" sample_routed_unit _ _ _ _)).
  - unfold keys_unique. cbn. apply NoDup_cons. split.
    + rewrite list_elem_of_singleton. discriminate.
    + apply NoDup_singleton.
  - repeat constructor.
  - reflexivity.
  - reflexivity.
Defined.

Lemma step_ammo_witness :
  exists u',
    dict_get "B1" (units (state (step sample_exp sample_random 500
                                      (sample_engine (fun s : Z => s))).2)) = Some u'
    /\ ammo u' <= 40 /\ 39 <= ammo u' /\ 0 <= ammo u'.
Proof.
  destruct (step_ammo sample_exp Z sample_random 500 (sample_engine (fun s : Z => s))
              "B1" (sample_unit "B1" BLUE "MBT" (1000, 5000)%float 150%float 40)
              sample_units_keys_unique sample_units_keyed_by_id eq_refl)
    as (u' & Hget & Hle & Hge & Hnn & _).
  exists u'. split; [exact Hget|]. cbn in Hle, Hge, Hnn. lia.
Defined.

Lemma step_event_order_witness :
  exists evts e',
    step sample_exp sample_random 500
         (apply_orders sample_calls_orders (sample_engine (fun s : Z => s)))
    = (Ok evts, e')
    /\ precedes_all (has_kind "OrderAccepted") is_combat_kind evts
    /\ precedes_all is_combat_kind (has_kind "Routed") evts.
Proof.
  destruct (step sample_exp sample_random 500
              (apply_orders sample_calls_orders (sample_engine (fun s : Z => s))))
    as [[evts|x] e'] eqn:Hstep.
  - exists evts, e'. split; [reflexivity|].
    destruct (step_event_order sample_exp Z sample_random 500 _ _ _ Hstep)
      as (? & ? & ? & ? & ? & ? & ? & ? & ? & ? & ? & H).
    destruct H as (_ & _ & _ & _ & _ & _ & _ & _ & _ & _ & _ & _ & P1 & _ & P3).
    split; assumption.
  - exfalso. vm_compute in Hstep. discriminate.
Defined.

Lemma step_movement_witness :
  exists u',
    dict_get "B1"
      (units (state (step sample_exp sample_random 500
                          (apply_orders sample_calls_orders
                                        (sample_engine (fun s : Z => s)))).2))
    = Some u'
    /\ pos u' = (1001, 5000)%float.
Proof.
  set (e := apply_orders sample_calls_orders (sample_engine (fun s : Z => s))).
  destruct (step sample_exp sample_random 500 e) as [[evts|x] e'] eqn:Hstep.
  2:{ exfalso. vm_compute in Hstep. discriminate. }
  destruct (step_movement sample_exp Z sample_random 500 e e' evts "B1"
              (set_target_id (Some "R1"%string)
                 (set_intent_target_pos (Some (5000, 5000)%float)
                    (sample_unit "B1" BLUE "MBT" (1000, 5000)%float 150%float 40)))
              (5000, 5000)%float Hstep)
    as (ms & T & u' & Hms & HT & Hget & Hfar & _).
  - vm_compute. reflexivity.
  - reflexivity.
  - reflexivity.
  - exists u'. split; [exact Hget|].
    vm_compute in Hms. injection Hms as <-.
    vm_compute in HT. injection HT as <-.
    rewrite Hfar by (vm_compute; reflexivity).
    vm_compute. reflexivity.
Defined.



(* ===================================================================== *)
(** ** Closed instances: the event log, the step, the runner *)
(* ===================================================================== *)

Lemma append_many_then_since_witness :
  Z.of_nat (length [sample_event 1500]) <= 5
  /\ since 3 5 (append_many [sample_event 1500] sample_log).2
     = ([sample_event 1500], 4).
Proof.
  assert (H : Z.of_nat (length [sample_event 1500]) <= 5) by (cbn; lia).
  split; [exact H|].
  exact (append_many_then_since sample_log [sample_event 1500] 5 H).
Defined.

Lemma since_paging_witness :
  0 <= 2 /\ 0 <= 5
  /\ (since 0 2 sample_log).1 ++ (since (since 0 2 sample_log).2 5 sample_log).1
     = [sample_event 0; sample_event 500; sample_event 1000].
Proof.
  assert (H2 : 0 <= 2) by lia. assert (H5 : 0 <= 5) by lia.
  split; [exact H2|]. split; [exact H5|].
  rewrite (proj1 (since_paging sample_log 0 2 5 H2 H5)). reflexivity.
Defined.

Lemma since_past_end_witness :
  Z.of_nat (length (_log sample_log)) <= 7
  /\ since 7 (-3) sample_log = ([], 7).
Proof.
  assert (H : Z.of_nat (length (_log sample_log)) <= 7) by (cbn; lia).
  split; [exact H|]. exact (since_past_end sample_log 7 (-3) H).
Defined.

Lemma since_after_append_witness :
  0 <= 2
  /\ since 1 2 (append_many [sample_event 1500] sample_log).2 = since 1 2 sample_log.
Proof.
  assert (H : 0 <= 2) by lia. split; [exact H|].
  apply (proj2 (since_after_append sample_log [sample_event 1500] 1 2 H)).
  cbn. lia.
Defined.

Arguments default_engine {BitGenerator} PCG64.
Arguments _pending_orders {BitGenerator} e.
Arguments enqueue_orders {BitGenerator} orders r.
Arguments engine {BitGenerator} t.
Arguments events {BitGenerator} t.
Arguments _orders {BitGenerator} t.
Arguments sample_untyped_engine {BitGenerator} PCG64.

Lemma default_units_keys_unique : keys_unique (units _make_initial_state).
Proof.
  unfold keys_unique, unit_keys. cbn.
  repeat (apply NoDup_cons; split;
          [rewrite ?elem_of_cons, elem_of_nil; intros H;
           repeat (destruct H as [H|H]; [discriminate H|]); exact H|]).
  apply NoDup_nil_2.
Qed.

Lemma default_units_keyed_by_id : keyed_by_id (units _make_initial_state).
Proof. repeat constructor. Qed.

Lemma step_event_timestamps_witness :
  exists evts e',
    step sample_exp sample_random 500 (sample_engine (fun s : Z => s)) = (Ok evts, e')
    /\ Forall (fun ev => Event.ts_ms ev = 10000) evts
    /\ ts_ms (state e') = 10500.
Proof.
  destruct (step sample_exp sample_random 500 (sample_engine (fun s : Z => s)))
    as [[evts|x] e'] eqn:Hstep.
  - exists evts, e'. split; [reflexivity|].
    exact (step_event_timestamps sample_exp Z sample_random 500 _ _ _ Hstep).
  - exfalso. vm_compute in Hstep. discriminate.
Defined.

Lemma step_without_orders_witness :
  _pending_orders (sample_engine (fun s : Z => s)) = []
  /\ units_rel (fun a b => intent_target_pos b = intent_target_pos a
                           /\ target_id b = target_id a)
               sample_units
               (units (state (step sample_exp sample_random 500
                                   (sample_engine (fun s : Z => s))).2)).
Proof.
  split; [reflexivity|].
  exact (proj1 (step_without_orders sample_exp Z sample_random 500
                  (sample_engine (fun s : Z => s)) eq_refl)).
Defined.

Lemma step_returns_witness :
  well_typed (units _make_initial_state)
  /\ fits_float 500
  /\ exists evts,
       (step sample_exp sample_random 500 (default_engine (fun s : Z => s))).1 = Ok evts.
Proof.
  assert (Hwt : well_typed (units _make_initial_state)).
  { unfold well_typed. cbn. repeat constructor; eexists; reflexivity. }
  assert (Hdt : fits_float 500) by (eexists; vm_compute; reflexivity).
  split; [exact Hwt|]. split; [exact Hdt|].
  apply (step_returns sample_exp Z sample_random 500 (default_engine (fun s : Z => s))
           Hwt Hdt).
  - cbn. repeat constructor; eexists; vm_compute; reflexivity.
  - reflexivity.
Defined.

Lemma step_raises_on_unknown_type_witness :
  dict_get (unit_type_id sample_untyped_unit) UNIT_TYPES = None
  /\ exists x,
       (step sample_exp sample_random 500 (sample_untyped_engine (fun s : Z => s))).1
       = Raise x.
Proof.
  split; [reflexivity|].
  exact (step_raises_on_unknown_type sample_exp Z sample_random 500
           (sample_untyped_engine (fun s : Z => s)) "B1" sample_untyped_unit
           eq_refl eq_refl eq_refl).
Defined.

Lemma reload_blocks_fire_witness :
  int_to_float (ts_ms _make_initial_state - 0) = Ok 0%float
  /\ (0 / 1000.0 <? 6.0)%float = true
  /\ exists evts e',
       step sample_exp sample_random 500 (default_engine (fun s : Z => s)) = (Ok evts, e')
       /\ Forall (fun ev => is_shot_by "B-MBT-1" ev = false) evts.
Proof.
  assert (Hel : int_to_float (ts_ms _make_initial_state - 0) = Ok 0%float)
    by (vm_compute; reflexivity).
  assert (Hlt : (0 / 1000.0 <? 6.0)%float = true) by (vm_compute; reflexivity).
  split; [exact Hel|]. split; [exact Hlt|].
  destruct (step sample_exp sample_random 500 (default_engine (fun s : Z => s)))
    as [[evts|x] e'] eqn:Hstep.
  2:{ exfalso. vm_compute in Hstep. discriminate. }
  exists evts, e'. split; [reflexivity|].
  refine (proj1 (reload_blocks_fire sample_exp Z sample_random 500
                   (default_engine (fun s : Z => s)) e' evts "B-MBT-1"
                   (Unit_init "B-MBT-1" BLUE "MBT" (2000, 4000)%float 150 40)
                   {| name := "Main Battle Tank"; unit_class := MBT;
                      max_hp := 150; speed_mps := 2.0; sensor_range_m := 1000;
                      weapon_type := DIRECT_FIRE; weapon_range_m := 3000; damage := 50;
                      reload_time_s := 6.0; armor := 3; visibility := 1.5;
                      max_ammo := 40 |}
                   0%float default_units_keys_unique default_units_keyed_by_id
                   eq_refl eq_refl Hel Hlt Hstep)).
Defined.

Lemma rate_of_fire_witness :
  int_to_float 500 = Ok 500%float
  /\ (500 / 1000.0 <? 6.0)%float = true
  /\ exists evts1 e1 evts2 e2,
       step sample_exp sample_random 500 (sample_engine (fun s : Z => s)) = (Ok evts1, e1)
       /\ step sample_exp sample_random 500 e1 = (Ok evts2, e2)
       /\ Exists (fun ev => is_shot_by "B1" ev = true) evts1
       /\ Forall (fun ev => is_shot_by "B1" ev = false) evts2.
Proof.
  assert (Hms : int_to_float 500 = Ok 500%float) by (vm_compute; reflexivity).
  assert (Hlt : (500 / 1000.0 <? 6.0)%float = true) by (vm_compute; reflexivity).
  split; [exact Hms|]. split; [exact Hlt|].
  destruct (step sample_exp sample_random 500 (sample_engine (fun s : Z => s)))
    as [[evts1|x] e1] eqn:Hstep1.
  2:{ exfalso. vm_compute in Hstep1. discriminate. }
  destruct (step sample_exp sample_random 500 e1) as [[evts2|x] e2] eqn:Hstep2.
  2:{ exfalso. revert Hstep2. vm_compute in Hstep1. injection Hstep1 as <- <-.
      vm_compute. discriminate. }
  assert (Hfired : Exists (fun ev => is_shot_by "B1" ev = true) evts1).
  { pose proof Hstep1 as Hc. vm_compute in Hc. injection Hc as Hc _. rewrite <- Hc.
    apply Exists_cons_hd. reflexivity. }
  exists evts1, e1, evts2, e2. split; [reflexivity|]. split; [exact Hstep2|].
  split; [exact Hfired|].
  exact (rate_of_fire sample_exp Z sample_random 500 500
           (sample_engine (fun s : Z => s)) e1 e2 evts1 evts2 "B1"
           (sample_unit "B1" BLUE "MBT" (1000, 5000)%float 150%float 40)
           {| name := "Main Battle Tank"; unit_class := MBT;
              max_hp := 150; speed_mps := 2.0; sensor_range_m := 1000;
              weapon_type := DIRECT_FIRE; weapon_range_m := 3000; damage := 50;
              reload_time_s := 6.0; armor := 3; visibility := 1.5; max_ammo := 40 |}
           500%float sample_units_keys_unique sample_units_keyed_by_id
           eq_refl eq_refl Hms Hlt Hstep1 Hstep2 Hfired).
Defined.

Lemma destroyed_is_final_witness :
  (hp sample_destroyed_unit <=? 0)%float = true
  /\ exists u',
       dict_get "B1" (units (state (run sample_exp sample_random
                                        (sample_destroyed_engine (fun s : Z => s))
                                        sample_calls).2)) = Some u'
       /\ hp u' = (-5)%float.
Proof.
  assert (Hdead : (hp sample_destroyed_unit <=? 0)%float = true) by reflexivity.
  split; [exact Hdead|].
  refine (proj1 (destroyed_is_final sample_exp Z sample_random
                   (sample_destroyed_engine (fun s : Z => s)) sample_calls
                   "B1" sample_destroyed_unit _ _ eq_refl Hdead)).
  - unfold keys_unique. cbn. apply NoDup_cons. split.
    + rewrite list_elem_of_singleton. discriminate.
    + apply NoDup_singleton.
  - repeat constructor.
Defined.

Lemma combat_events_are_volleys_witness :
  exists evts e' acks volleys routs,
    step sample_exp sample_random 500 (sample_engine (fun s : Z => s)) = (Ok evts, e')
    /\ evts = acks ++ concat volleys ++ routs
    /\ Forall (volley 10000) volleys
    /\ (length volleys <= 2)%nat.
Proof.
  destruct (step sample_exp sample_random 500 (sample_engine (fun s : Z => s)))
    as [[evts|x] e'] eqn:Hstep.
  2:{ exfalso. vm_compute in Hstep. discriminate. }
  destruct (combat_events_are_volleys sample_exp Z sample_random 500
              (sample_engine (fun s : Z => s)) e' evts Hstep)
    as (acks & volleys & routs & Hcat & _ & Hv & _ & Hlen).
  exists evts, e', acks, volleys, routs. auto.
Defined.

Lemma rules_of_engagement_witness :
  exists evts e' ev,
    step sample_exp sample_random 500 (sample_engine (fun s : Z => s)) = (Ok evts, e')
    /\ ev ∈ evts /\ has_kind "ShotFired" ev = true
    /\ exists sk tk s t,
         dict_get sk sample_units = Some s /\ dict_get tk sample_units = Some t
         /\ names_unit "shooter" sk ev = true /\ names_unit "target" tk ev = true
         /\ side s <> side t /\ routed s = false /\ (hp t <=? 0)%float = false.
Proof.
  destruct (step sample_exp sample_random 500 (sample_engine (fun s : Z => s)))
    as [[evts|x] e'] eqn:Hstep.
  2:{ exfalso. vm_compute in Hstep. discriminate. }
  assert (Hshot : exists ev, ev ∈ evts /\ has_kind "ShotFired" ev = true).
  { pose proof Hstep as Hc. vm_compute in Hc. injection Hc as Hc _. rewrite <- Hc.
    eexists. split; [apply list_elem_of_here|reflexivity]. }
  destruct Hshot as (ev & Hin & Hkind).
  exists evts, e', ev. split; [reflexivity|]. split; [exact Hin|]. split; [exact Hkind|].
  destruct (rules_of_engagement sample_exp Z sample_random 500
              (sample_engine (fun s : Z => s)) e' evts ev
              sample_units_keys_unique sample_units_keyed_by_id Hstep Hin Hkind)
    as (sk & tk & s & t & sT & el & dist & Hs & Ht & Hns & Hnt & _ & Hside & Hr & Hhp & _).
  exists sk, tk, s, t. auto 10.
Defined.

Lemma hit_probability_is_capped_witness :
  exists evts e' ev p,
    step sample_exp sample_random 500 (sample_engine (fun s : Z => s)) = (Ok evts, e')
    /\ ev ∈ evts /\ has_kind "ShotFired" ev = true
    /\ float_field "p" ev = Some p
    /\ (0 <=? p)%float = true /\ (p <=? 0.95)%float = true.
Proof.
  destruct (step sample_exp sample_random 500 (sample_engine (fun s : Z => s)))
    as [[evts|x] e'] eqn:Hstep.
  2:{ exfalso. vm_compute in Hstep. discriminate. }
  assert (Hshot : exists ev, ev ∈ evts /\ has_kind "ShotFired" ev = true).
  { pose proof Hstep as Hc. vm_compute in Hc. injection Hc as Hc _. rewrite <- Hc.
    eexists. split; [apply list_elem_of_here|reflexivity]. }
  destruct Hshot as (ev & Hin & Hkind).
  destruct (hit_probability_is_capped sample_exp Z sample_random 500
              (sample_engine (fun s : Z => s)) e' evts ev
              Hstep Hin Hkind) as (p & Hp & Hlo & Hhi).
  exists evts, e', ev, p. auto 10.
Defined.

Lemma nearest_target_is_chosen_witness :
  exists targets,
    (_find_targets (sample_engine (fun s : Z => s))).1 = Ok targets
    /\ ("B1"%string, "R1"%string) ∈ targets
    /\ NoDup targets.*1.
Proof.
  destruct (_find_targets (sample_engine (fun s : Z => s))).1 as [targets|x] eqn:Hft.
  2:{ exfalso. vm_compute in Hft. discriminate. }
  assert (Hin : ("B1"%string, "R1"%string) ∈ targets).
  { pose proof Hft as Hc. vm_compute in Hc. injection Hc as <-. apply list_elem_of_here. }
  exists targets. split; [reflexivity|]. split; [exact Hin|].
  exact (proj1 (nearest_target_is_chosen Z (sample_engine (fun s : Z => s)) targets
                  "B1" "R1" sample_units_keys_unique Hft Hin)).
Defined.

Lemma morale_routs_the_weak_witness :
  exists evts e' u',
    step sample_exp sample_random 500 (sample_engine (fun s : Z => s)) = (Ok evts, e')
    /\ dict_get "B1" (units (state e')) = Some u'
    /\ routed u' = false || existsb (is_routed "B1") evts.
Proof.
  destruct (step sample_exp sample_random 500 (sample_engine (fun s : Z => s)))
    as [[evts|x] e'] eqn:Hstep.
  2:{ exfalso. vm_compute in Hstep. discriminate. }
  destruct (morale_routs_the_weak sample_exp Z sample_random 500
              (sample_engine (fun s : Z => s)) e' evts "B1"
              (sample_unit "B1" BLUE "MBT" (1000, 5000)%float 150%float 40)
              sample_units_keys_unique sample_units_keyed_by_id eq_refl Hstep)
    as (u' & Hu' & Hr & _).
  exists evts, e', u'. auto.
Defined.

Lemma damage_accounting_witness :
  exists evts e' u',
    step sample_exp sample_random 500 (sample_engine (fun s : Z => s)) = (Ok evts, e')
    /\ dict_get "R1" (units (state e')) = Some u'
    /\ hp u' = after_damages 150 (damages_to "R1" evts).
Proof.
  destruct (step sample_exp sample_random 500 (sample_engine (fun s : Z => s)))
    as [[evts|x] e'] eqn:Hstep.
  2:{ exfalso. vm_compute in Hstep. discriminate. }
  destruct (damage_accounting sample_exp Z sample_random 500
              (sample_engine (fun s : Z => s)) e' evts "R1"
              (sample_unit "R1" RED "MBT" (1500, 5000)%float 150%float 40)
              sample_units_keys_unique sample_units_keyed_by_id eq_refl Hstep)
    as (u' & Hu' & Hhp & _).
  exists evts, e', u'. auto.
Defined.

Lemma enqueued_move_is_acknowledged_witness :
  exists d r' evts,
    loop_turn sample_exp sample_random
      (enqueue_orders [sample_move_order] (sample_runner (fun s : Z => s))) = (Ok d, r')
    /\ _log (events r') = evts
    /\ OrderAccepted_move 10000 "B1" (5000, 5000)%float ∈ evts.
Proof.
  destruct (loop_turn sample_exp sample_random
              (enqueue_orders [sample_move_order] (sample_runner (fun s : Z => s))))
    as [[d|x] r'] eqn:Hturn.
  2:{ exfalso. vm_compute in Hturn. discriminate. }
  destruct (enqueued_move_is_acknowledged sample_exp Z sample_random
              (sample_runner (fun s : Z => s)) r' d "B1"
              (sample_unit "B1" BLUE "MBT" (1000, 5000)%float 150%float 40)
              (5000, 5000)%float 0 eq_refl eq_refl Hturn)
    as (evts & Hlog & Hack & _).
  exists d, r', evts. split; [reflexivity|]. split; [exact Hlog|exact Hack].
Defined.

Lemma spotting_is_exact_witness :
  exists evs e' t',
    _update_spotting (sample_engine (fun s : Z => s)) = (Ok evs, e')
    /\ dict_get "R1" (units (state e')) = Some t'
    /\ evs = []
    /\ exists kd d, (kd, d) ∈ units (state e')
                    /\ routed d = false /\ side d <> side t' /\ id d = "B1"%string.
Proof.
  destruct (_update_spotting (sample_engine (fun s : Z => s))) as [[evs|x] e'] eqn:Hspot.
  2:{ exfalso. vm_compute in Hspot. discriminate. }
  assert (Hseen : exists t', dict_get "R1" (units (state e')) = Some t'
                             /\ "B1"%string ∈ spotted_by t').
  { pose proof Hspot as Hc. vm_compute in Hc. injection Hc as _ Hc. rewrite <- Hc.
    eexists. split; [reflexivity|].
    apply (bool_decide_unpack _). vm_compute. exact I. }
  destruct Hseen as (t' & Ht' & Hin).
  destruct (spotting_is_exact Z (sample_engine (fun s : Z => s)) e' evs "R1" t' "B1"
              Hspot Ht') as [Hevs Hiff].
  destruct (proj1 Hiff Hin) as (kd & d & Hd & Hr & Hside & _ & Hid).
  exists evs, e', t'. split; [reflexivity|]. split; [exact Ht'|]. split; [exact Hevs|].
  exists kd, d. auto.
Defined.

(* ===================================================================== *)
(** ** Closed instances: destroyed units, and engines as objects *)
(* ===================================================================== *)

Arguments before_targeting {BitGenerator} dt_ms e.

Lemma sample_destroyed_units_keys_unique : keys_unique sample_destroyed_units.
Proof.
  unfold keys_unique, sample_destroyed_units. cbn. apply NoDup_cons. split.
  - rewrite list_elem_of_singleton. discriminate.
  - apply NoDup_singleton.
Qed.

Lemma sample_destroyed_units_keyed_by_id : keyed_by_id sample_destroyed_units.
Proof. repeat constructor. Qed.

Lemma sample_destroyed_units_named : ""%string ∉ unit_keys sample_destroyed_units.
Proof.
  unfold unit_keys, sample_destroyed_units. cbn.
  rewrite ?elem_of_cons, elem_of_nil. intros [H|[H|[]]]; discriminate.
Qed.

Lemma destroyed_units_still_act_witness :
  routed sample_destroyed_unit = false
  /\ (hp sample_destroyed_unit <=? 0)%float = true
  /\ exists evts e',
       step sample_exp sample_random 500 (sample_destroyed_engine (fun s : Z => s))
       = (Ok evts, e')
       /\ Exists (fun ev => is_shot_by "B1" ev = true /\ is_shot_at "R1" ev = true) evts
       /\ evts !! 0%nat
          = Some (ShotFired 10000 "B1" "R1" 499 0.37508035581024607 "direct_fire")
       /\ evts !! 1%nat = Some (Damage 10000 "R1" 40 110 "B1").
Proof.
  split; [reflexivity|]. split; [reflexivity|].
  set (e := sample_destroyed_engine (fun s : Z => s)).
  destruct (step sample_exp sample_random 500 e) as [[evts|x] e'] eqn:Hstep.
  2:{ exfalso. vm_compute in Hstep. discriminate. }
  destruct (before_targeting 500 e) as [[[]|x] e3] eqn:Hbt.
  2:{ exfalso. vm_compute in Hbt. discriminate. }
  destruct (destroyed_units_still_act sample_exp Z sample_random sample_destroyed_unit
              eq_refl eq_refl) as (_ & _ & _ & _ & Hfire & _).
  destruct (Hfire 500 e e3 e' evts "B1"%string
              sample_destroyed_units_keys_unique sample_destroyed_units_keyed_by_id
              sample_destroyed_units_named eq_refl eq_refl Hstep Hbt)
    as (d3 & Hd3 & _ & _ & Hall).
  exists evts, e'. split; [reflexivity|].
  destruct (dict_get "R1" (units (state e3))) as [c|] eqn:Hc.
  2:{ exfalso. vm_compute in Hbt. injection Hbt as <-. vm_compute in Hc. discriminate. }
  specialize (Hall "R1"%string c (dict_get_elem_of _ _ _ Hc)).
  pose proof Hbt as Hbt2. vm_compute in Hbt2. injection Hbt2 as <-.
  vm_compute in Hd3. injection Hd3 as <-.
  vm_compute in Hc. injection Hc as <-.
  pose proof Hstep as Hs2. vm_compute in Hs2. injection Hs2 as <- _.
  destruct Hall as (t & tu & Hin & Hme & Hfired).
  { split; [vm_compute; reflexivity|]. split; vm_compute; reflexivity. }
  { vm_compute. reflexivity. }
  split; [|split; vm_compute; reflexivity].
  destruct Hfired as [Hshot|Hdes]; [|vm_compute in Hdes; discriminate].
  apply elem_of_cons in Hin as [Heq|Hin].
  - injection Heq as -> ->. destruct Hme as (Hside & _).
    vm_compute in Hside. discriminate.
  - apply elem_of_cons in Hin as [Heq|Hin]; [|inversion Hin].
    injection Heq as -> _. exact Hshot.
Defined.

Arguments new_engine {BitGenerator} PCG64 seed initial_state w.
Arguments world_run math_exp {BitGenerator} random w sched.
Arguments states {BitGenerator} w.
Arguments sample_world {BitGenerator}.
Arguments sample_reordered_world {BitGenerator}.
Arguments sample_shared_world {BitGenerator}.

Lemma sample_units_dict_equal :
  dict_equal (units sample_state) (units sample_reordered_state).
Proof.
  intros k. cbn.
  destruct (String.eqb_spec k "B1") as [->|HB]; [reflexivity|].
  destruct (String.eqb_spec k "R1"); reflexivity.
Qed.


